(* ===== verification/_CoqProject ===== *)
-Q . S2P
Prelude.v
Shuffle.v
React.v
JsString.v
JsSet.v
JsonApi.v
Json.v
JsonFuel.v
JsonGrammar.v
JsonComplete.v
FieldService.v
FormState.v
Controller.v
Validate.v
Handlers.v
Dom.v
View.v
Effects.v
Machine.v
Lifecycle.v
Interleave.v
Network.v
Async.v
Browser.v
Refinement.v
Session.v
System.v
