(* ===== verification/Prelude.v ===== *)
(** * Verification of the Field Builder form (craft-demo-react-app)

    ** The program

    The repository holds one React function component and the mock service
    it talks to:

    - [src/components/FieldBuilderForm.js]: the component
      [FieldBuilderForm].  It keeps seven [useState] hooks (label, choices,
      defaultValue, displayAlpha, validationErrors, isLoading, initialData),
      four [useEffect] effects (load the draft from localStorage, persist the
      draft, fetch the default field, fetch it again into initialData), the
      handlers [validateForm], [handleSubmit], [clearForm], [cancelAndReset],
      the inline [onChange] handlers of the four inputs, and the JSX it
      returns (with the helper component [SubmitButton]).
    - [src/components/MockService.js]: the object [FieldService] with
      [getField] (a constant field definition) and the async [saveField]
      (two console lines, one HTTP POST, the answer logged, every failure
      caught).

    The component calls the service at mount ([getField]) and on Save
    ([saveField]); it reads localStorage once at mount and writes it after
    every render that changed one of the four editable hooks.

    ** How the development models it

    Files, in dependency order (each is one component or one shared layer):

    - [Prelude] (this file): the libraries every file loads, the [result]
      type of computations that can throw, the [writer] monad in which the
      handlers are written, tactics, the hint databases [form] and
      [form_rw], and the lemmas on strings and lists the components
      share.
    - [Shuffle]: lists merged from several sequences, each kept in its
      order ([shuffle]), the shape of a console written by calls that
      take turns.
    - [React]: the rules by which React runs a function component that
      uses [useState] and [useEffect], for any component: which effects
      are due after a render ([due], by the dependency arrays), one pass
      over the effects ([run_effects]), the queue of setter calls
      ([flush]), and the loop of renders until the state is stable
      ([renders], [mount_component], [update_component]).  It is library
      code the sources only call, kept to what this component relies on.
      The pass is written by two rules, which differ in what happens to
      the effects declared after one that throws: they do not run
      ([run_effects], the rule of the development), or they run all the
      same ([run_effects_each], the rule of React 17).
    - [JsString]: the ECMAScript string operations the component calls:
      [split] on a one-character separator, [join], [includes], the template
      literal of [handleSubmit], with their algebra (round trips, length,
      membership).
    - [JsSet]: the insertion-ordered [Set] built by [new Set(array)] and
      its [size], with the refinement to stdpp's [gset].
    - [JsonApi]: JSON values with their decidable equality, property
      reads, and the class [JsonCodec]: what the component and the service
      need from [JSON.parse] and [JSON.stringify].  [Effects],
      [FieldService] and [Machine] are proved against this class.
    - [Json]: a printer and a recursive-descent parser, the proof that the
      parser reads back what the printer wrote, and the instance of
      [JsonCodec] they form.
    - [JsonFuel]: what each part of the parser consumes, and the proof
      that the result of the parser does not depend on its fuel.
    - [JsonGrammar]: the grammar of ECMA-404 as inductive relations
      between a text and the value it denotes, one per production, and
      the soundness of the parser for it.
    - [JsonComplete]: the converse, by induction on the derivation: the
      parser accepts every text of the grammar.
    - [FieldService]: [getField], the request built by [saveField], and
      [saveField] as a task suspended at its two [await]s and resumed by
      the outcome of the awaited promise.
    - [FormState]: the hooks as the record [Hooks], the setters as the
      inductive [update], React's batching as [commit], and what a
      handler can do besides computing ([call]: a setter call, or a call
      of the service with its [finally] callback).
    - [Controller]: the contract of the form, stated without hooks,
      effects or promises: a record of the form, the rules shown, the
      loading flag, the snapshot, the draft, the number of saves in flight
      and the definitions submitted, with one atomic command per user
      action and per end of a save.  It is written from the behaviour the
      code has, and is what [Refinement] proves of the page.
    - [Validate]: [validateForm] and the characterisation of each message.
    - [Handlers]: [handleSubmit], [clearForm], [cancelAndReset] and the
      four [onChange] handlers, each as a script run against the state its
      closure captured.
    - [Dom]: the tree of elements a component renders ([node]: an
      element with its tag, its props and its children, a text, or the
      [false] a condition leaves), props as a map from names to strings,
      booleans and functions, the queries of the DOM on such a tree
      ([getElementById], [getElementsByTagName], [textContent], ...),
      the rule by which a click or the Enter key submits a form, and the
      rule by which React keeps the DOM node of an element from one
      render to the next ([keeps]).
    - [View]: the JSX of lines 140-201 as the function [FieldBuilderForm]
      from the state to a tree, element by element, with [SubmitButton];
      [view] reads off the tree what the page shows (input values,
      messages, the text of the Save button, the functions bound to the
      events), and [fire] runs the function bound to an event of an
      element.
    - [Effects]: localStorage as a [gmap string string], the four effects,
      the mount sequence [mount] and the rule of the dependency array
      [rerender].
    - [Machine]: the whole page as a transition system.  The state [Page]
      holds the component, the storage, the pending calls of [saveField],
      the console and the requests sent; the events are the user's inputs
      and clicks and the settlements of the network; [step] is one React
      batch; [reachable] the pages a mount and any events produce.
    - [Lifecycle]: the component as React sees it
      ([FieldBuilderForm_hooks]): the initial values of its hooks, its
      setters, and its four [useEffect] calls in the order of the source,
      each with its callback and its dependency array, on hooks that hold
      any JavaScript value; the comparison of [mount] and [step] with the
      rules of [React]; and what a mount that throws leaves behind by
      each of the two rules for effects.
    - [Interleave]: the order of events while calls of [saveField] are
      pending: the relation [independent] on events, the runs that
      differ by exchanges of independent neighbours ([swaps]), pages up
      to the order of the console ([same_log]), and the runs that serve
      every pending call ([served]).
    - [Network]: the page and a server as one system.  A [Server] maps
      a request to a status and a body, or to a failed request; [fetch]
      settles the promise from its answer, with [response.ok] for a status
      from 200 to 299; [echo] is the mock endpoint, which answers a POST
      with the body posted; an [input] is an event of the user or a
      delivery of the network to a pending call, and [net_step] runs it
      as a step of [Machine].  The server is written from what spec.md
      says of the endpoint and of the call, not from lines of the
      sources.
    - [Async]: [saveField] written the way the source writes it, as an
      interaction tree: the two console lines, then a [try] block with
      the two [await]s and the branch on [response.ok], then the [catch]
      ([saveField_async], lines 20-50 statement by statement).  What the
      function asks of its environment are the events [saveE]; an
      [await] throws when the promise it waits for was rejected.
    - [Browser]: the tab that shows the page.  A [Tab] is a live page
      with the checked state of the checkbox of line 156, or a blank
      page; an [action] is what the user does to an element of the
      rendered tree, a settlement, or a load of the page; [tab_step]
      finds the function bound to the action in the tree and runs it as
      one step of [Machine] (a click on the checkbox is looked up like
      the others: [View.check] reads off the tree whether the box is
      controlled and which functions are bound to it), and [load] mounts
      the component on the storage the last page left.  These four definitions are written
      from the behaviour spec.md describes, not from lines of the
      sources.
    - [Refinement]: the abstraction [abs] from pages to controllers
      (the draft and the definitions submitted are decoded from the JSON
      texts in the storage and in the requests) and the simulation: a
      step of the page is a command of the controller.
    - [Session]: the event of [Machine] each action on the page causes
      ([event_of]), the session of a controller across loads ([serve]),
      and the simulation of the tab by the session.
    - [System]: the user, the tab and the server together.  An input is
      an action of the user on the rendered tree, a load, or a delivery
      of the network to a pending call, which carries what the server
      answers to the request of that call ([sys_step], [sys_run]); the
      user cannot forge a settlement.  Like [Network] and [Browser] it is
      written from the behaviour spec.md describes; its lemmas compose
      those of the two and add no fact about the code.

    ** Modelling conventions

    - A JavaScript string is a [string]: a sequence of code units.  Every
      operation the component uses (equality, emptiness, concatenation,
      splitting on the line feed, substring search) is independent of the
      width of a unit.  Strings inside parsed JSON are lists of wide units
      ([list N]), because a [\u] escape can denote any unit.
    - State is explicit.  A handler is a function of the state captured by
      the closure of the render in which it was created; the calls it makes
      to the setters are written to a log ([writer]), and [commit] applies
      the log in call order after the handler returns.  This is React's
      batching: a read after a set in the same handler still sees the old
      value, which several theorems depend on.
    - An exception is a value: computations that can throw return
      [result].  The only throwing code is the draft loader; an effect that
      throws ends the mount ([Crashed], with the storage as the effects
      before it left it).  That the effects declared after it do not run
      is an assumption about React: it holds of the releases that run
      the effects of a component inside one [try] block (16, 18 and 19,
      as far as their sources are known to the authors) and not of
      release 17, and the sources do not say which release they are
      built with.  Every theorem about a mount that throws rests on it;
      [Lifecycle.mount_each_recovers] states what changes by the other
      rule.
    - Built-ins are models, not translations.  [JSON.parse] and
      [JSON.stringify] ([Json]), React elements ([Dom.node]) and the
      runtime of React ([React]) are code the sources call and do not
      hold; they are written from ECMA-262, ECMA-404 and the documented
      behaviour of React, and the theorems about them ([JsonGrammar],
      [JsonComplete], [JsonFuel]) are theorems about these models.
    - The hooks are typed ([State] holds strings and a boolean) except
      during the mount, where the draft loader stores whatever the parsed
      draft holds; [mount] commits that batch on untyped hooks and reads
      the result back, and [mount_typed] shows the read never fails.
    - The network and the user are the environment: they appear as the
      events of [Machine].  Nothing is assumed about their order; a
      settlement for a call that is not pending changes nothing.  [Network]
      restricts the environment to what a server can do: the response a
      call gets is the answer of the server to the request the call sent,
      and the body arrives after the response.  The user and the moment
      of each delivery stay free.
    - Dependency arrays are compared element by element with the
      equality of JSON values.  The component puts strings and a boolean
      in its array, which [Object.is] compares by value; arrays and
      objects, which it compares by reference, can reach the hooks only
      from a stored draft, and the fetch effects overwrite them in the
      same batch.

    ** Fuel

    The parser of [Json] recurses on the nesting of the text, not on its
    structure, so its three functions take fuel.  [JSON_parse_text] gives
    them [2 * length text + 1].  Every call that returns consumes at least
    one character, so fuel twice the number of characters consumed is
    enough ([adequate_all] in [JsonFuel]); hence the parser run with any
    larger fuel returns what [JSON_parse_text] returns
    ([JSON_parse_fuel_adequate]), and no theorem is conditional on the
    parser returning.  [JsonComplete] proves by induction on the
    derivation that fuel twice the length of a text of the grammar is
    enough to parse it, so no JSON text is rejected for lack of fuel
    ([JSON_parse_text_grammar]).  Everything else is structurally
    recursive.
    [saveField] ends within two settlements ([resume_awaits_left],
    [save_completes]).
    The loop of renders of [React] takes fuel, since a component whose
    effects keep changing its state renders for ever.  For a component
    whose effects either run once or call no setter two passes are
    enough at a mount and one at an update ([renders_two],
    [renders_later]); [FieldBuilderForm_hooks] is such a component, so the
    theorems of [Lifecycle] hold for any fuel from two on and none is
    conditional on the loop ending.
    The interaction tree of [Async] is not run with fuel: it is compared
    with the tree that returns the record of the task up to silent steps
    ([≈]), by the equations of [bind], [try_catch] and [interp_state], so
    that the theorem says the function returns, and with what.

    ** What is proved

    - [JsString], [JsSet]: the built-ins against their declarative
      reading; the round trips of [join] and [split]; the size test of
      [validateForm] is the duplicate test.
    - [Json], [JsonFuel]: [JSON.parse] reads back every printable value,
      with or without white space around it, and never rejects a text for
      lack of fuel.
    - [JsonGrammar], [JsonComplete]: [JSON.parse] returns a value on
      exactly the texts of the grammar of ECMA-404, and the value the
      grammar gives; the grammar is unambiguous and decidable; what
      [JSON.stringify] prints is a text of the grammar.
    - [FieldService]: what is posted parses back to the data; every call
      ends, having logged one line for its outcome.
    - [Validate]: each of the three messages is stored exactly when its
      rule is broken; the result is [true] exactly when no rule is.
    - [Handlers]: the state and the service calls after each handler on
      every branch, including the branch where the loading flag is left
      set and the one where the data sent is older than the state; the
      limit of 50 is checked on the captured choices, so a Save that
      appends is sent and can leave a form that breaks the limit.
    - [Dom], [View]: the rendered tree is well formed in every state
      (ids are unique, every label names a control, every controlled
      input has its [onChange]); reading it with the queries of the DOM
      is reading the hooks; it has three buttons, none of which submits
      the form, and the Enter key does not either; its shape does not
      depend on the state, so React keeps every DOM node; the messages
      shown after Save are those of the broken rules.
    - [Effects]: what a mount computes, exactly when it throws, and that
      the draft loader inverts the draft persister.
    - [Machine]: the invariants of every reachable page (the storage holds
      the draft of the current render, [initialData] is the default field,
      pending calls are well formed, every request posts validated data),
      what Cancel, Clear and a reload do on a reachable page, that an
      invalid Save leaves the loading flag set for good, and that every
      call started by Save completes and clears the flag.
    - [React], [Lifecycle]: mounting the component by the rules of React
      is [mount], with the same state and storage or the same exception;
      committing the setter calls of an event by the rules is the step of
      the machine; the component never renders for ever, and needs its
      second pass exactly when the draft loader does not throw.  So the
      hand-written mount sequence and dependency rule are what React does
      with the four [useEffect] calls as they stand in the source.  A
      mount that throws leaves the bad draft in the storage by the rule
      of the development, so every later mount throws again; by the rule
      of React 17 the persist effect overwrites it and the next mount
      succeeds.
    - [Interleave]: runs that differ in the order of independent events
      (settlements of different calls, a settlement and an edit) end on
      the same page up to the order of the console lines; every run that
      serves the pending calls ends with none pending, however the
      settlements are interleaved; a call that ends clears the loading
      flag while others are pending, and a click on Save does not commute
      with the end of an earlier call.
    - [Network]: a run against a server is a run of [Machine]; the
      console is a merge of the lines of the calls: it holds the two
      opening lines of each call and, after them, exactly one line for
      each call that is over, the one the answer of the server determines
      ([outcome]), and nothing else; against the echo endpoint no
      call logs an error and each logs the data it posted, whatever the
      form sent, because the parser reads back what the printer wrote;
      the network can deliver to every pending call, and two deliveries
      to each end them all and clear the loading flag.
    - [Async]: the task of [FieldService] is the async function of the
      source cut at its awaits: run against an environment that settles
      [fetch] in either way, the function written in direct style returns,
      and has logged, requested and awaited what [resume] logs, requests
      and awaits, in the same order, the exception of a rejected promise
      being caught by the [catch] block on every path; run against a
      server it logs the line [outcome] gives for the answer.
    - [Browser]: the steps of a live tab between two loads are the steps
      of [Machine], action by action; a page that loaded once loads every
      time, whatever happened in between; a blank page stays blank, and
      the page comes up blank exactly when the draft in the storage is
      not a JSON text or is the text of [null]; a load forgets everything
      but the storage; a click on the checkbox, as the JSX declares it,
      inverts the box and runs nothing.
    - [Controller], [Refinement]: the controller keeps its draft equal
      to its form and submits only definitions that break no rule; every
      run of the page from a mount abstracts to the run of the controller
      on the commands its events stand for, so these facts hold of
      reachable pages; what the rendered tree shows is the view of the
      controller; [validateForm] agrees with the reference definition
      of the rules.
    - [Session]: [tab_step], which finds the function to run in the
      rendered tree, is the step of the machine for the event the action
      causes and does nothing on any other element; the tab, from its
      first load and across later loads, is the session of the controller
      on the inputs the actions stand for.
    - [System]: a run of the user, the tab and a server is a run of the
      tab, so it is a session of the controller; a page that loaded stays
      up across loads, is a page of the closed machine of [Network] and
      satisfies the invariants of [Machine]; against the echo endpoint the
      console never shows an error, whatever the user does; the network
      can end every pending call of the page that is shown.

    ** Not modelled

    - What the CSS classes and the two style-sheet imports look like:
      the class names are attributes of the tree, their rules are not in
      the sources' logic.
    - The bytes of the HTTP exchange, the headers of the response,
      redirects, CORS and timeouts.  In [Machine] the outcome of [fetch]
      and of [response.json()] are events about which nothing is assumed;
      the server of [Network] is a function of the request, so a server
      that remembers earlier requests, or a body that fails to arrive
      after an ok response, is covered by [Machine] only.  A server with
      a state of its own is left out on purpose: the sources hold no
      server, spec.md describes the endpoint as an echo and nothing the
      page does reads back what was posted, so any state given to it
      would be invented.
    - React's fibers, scheduling and synthetic events, and the cleanup
      function an effect can return (no effect of the sources returns
      one); the model keeps what the component relies on (captured state,
      batching, effects in declaration order run by their dependency
      arrays, identity of DOM nodes across renders).  The algorithm by
      which React patches the DOM is reduced to its effect on identity
      ([keeps]): the rendered tree has the same shape in every state, so
      every element keeps its node from one render to the next and only
      the conditional messages come and go.
    - Focus, the activation of a control by a click on its label (the
      label of line 157 names the checkbox) and keys other than Enter:
      the tab of [Browser] acts on the element it is pointed at and on
      no other.
    - The double invocation of effects under [React.StrictMode] in
      development builds: the entry point that would enable it is not
      among the sources.
    - A failure of [localStorage.setItem] when the quota is exceeded: the
      code has no handler for it and the sizes at which a browser refuses
      are not part of the program.
    - Numbers in JSON beyond their literal: the component never computes
      with one.

    Every line of the two source files that holds code is modelled; what
    is left out above is outside the sources.                           *)

From Stdlib Require Export Ascii String.
From stdpp Require Export base tactics option list strings gmap.

#[local] Set Warnings "-clear-no-such-hyp".

(** ** Exceptions as values *)

(** The two exceptions the modelled code can raise: [JSON.parse] on a text
    that is not JSON, and a property read on [null]. *)
Inductive exn : Type :=
| SyntaxError
| TypeError.

#[export] Instance exn_eq_dec : EqDecision exn.
Proof. solve_decision. Defined.

(** A computation that returns normally or throws. *)
Inductive result (A : Type) : Type :=
| Ok (a : A)
| Throw (e : exn).

Arguments Ok {A} a.
Arguments Throw {A} e.

#[export] Instance result_eq_dec `{EqDecision A} : EqDecision (result A).
Proof. solve_decision. Defined.

#[export] Instance result_ret : MRet result := @Ok.

#[export] Instance result_bind : MBind result := λ A B f m,
  match m with
  | Ok a => f a
  | Throw e => Throw e
  end.

#[export] Instance result_fmap : FMap result := λ A B f m,
  match m with
  | Ok a => Ok (f a)
  | Throw e => Throw e
  end.

Definition is_Ok {A} (m : result A) : Prop := ∃ a, m = Ok a.

Definition throws {A} (m : result A) : Prop := ∃ e, m = Throw e.

#[export] Instance is_Ok_dec {A} (m : result A) : Decision (is_Ok m).
Proof.
  destruct m as [a|e]; [left; by exists a | right; by intros [a ?]].
Defined.

(** ** The writer monad of handlers *)

(** A script is a value together with the log of what was emitted while
    computing it, in the order of emission. *)
Record writer (W A : Type) : Type := Writer {
  value : A;
  emitted : list W
}.

Arguments Writer {W A} value emitted.
Arguments value {W A} _.
Arguments emitted {W A} _.

Definition tell {W} (w : W) : writer W unit := Writer tt [w].

#[export] Instance writer_ret {W} : MRet (writer W) := λ A a, Writer a [].

#[export] Instance writer_bind {W} : MBind (writer W) := λ A B f m,
  let r := f (value m) in Writer (value r) (emitted m ++ emitted r).

(** Skip: the empty branch of a conditional statement. *)
Definition skip {W} : writer W unit := mret tt.

(** ** Tactics *)

(** Invert a hypothesis and tidy up. *)
Ltac invert H := inversion H; subst; clear H.

(** Case on every [if], [decide] and [match] scrutinee in sight. *)
Ltac case_all :=
  repeat first
    [ case_decide | case_bool_decide | case_match ]; simplify_eq/=.

(** ** Hint databases *)

(** [form] collects the resolution hints of the development; [form_rw]
    its rewriting rules, used through [autorewrite]. *)
Create HintDb form discriminated.
Create Rewrite HintDb form_rw.

(** ** Shared lemmas: the writer monad *)

Section writer_laws.
Context {W : Type}.

Lemma value_bind {A B} (m : writer W A) (f : A → writer W B) :
  value (m ≫= f) = value (f (value m)).
Proof. done. Qed.

Lemma emitted_bind {A B} (m : writer W A) (f : A → writer W B) :
  emitted (m ≫= f) = emitted m ++ emitted (f (value m)).
Proof. done. Qed.

Lemma emitted_ret {A} (a : A) : emitted (mret a : writer W A) = [].
Proof. done. Qed.

Lemma emitted_tell (w : W) : emitted (tell w) = [w].
Proof. done. Qed.

Lemma writer_eta {A} (m : writer W A) : Writer (value m) (emitted m) = m.
Proof. by destruct m. Qed.

Lemma writer_bind_ret_l {A B} (a : A) (f : A → writer W B) :
  (mret a ≫= f) = f a.
Proof. unfold mbind, writer_bind; simpl. apply writer_eta. Qed.

Lemma writer_bind_ret_r {A} (m : writer W A) : (m ≫= mret) = m.
Proof.
  unfold mbind, writer_bind, mret, writer_ret; simpl.
  rewrite app_nil_r. apply writer_eta.
Qed.

Lemma writer_bind_assoc {A B C} (m : writer W A)
    (f : A → writer W B) (g : B → writer W C) :
  ((m ≫= f) ≫= g) = (m ≫= λ a, f a ≫= g).
Proof. unfold mbind, writer_bind; simpl. by rewrite app_assoc. Qed.

End writer_laws.

#[export] Hint Rewrite @emitted_bind @value_bind @emitted_ret @emitted_tell
  : form_rw.

(** ** Shared lemmas: strings *)

(** stdpp keeps [simpl] from unfolding string concatenation; these two
    equations are its computation rules. *)
Lemma string_app_nil_l (s : string) : "" +:+ s = s.
Proof. done. Qed.

Lemma string_app_cons (c : ascii) (s1 s2 : string) :
  String c s1 +:+ s2 = String c (s1 +:+ s2).
Proof. done. Qed.

Lemma string_app_nil_r (s : string) : s +:+ "" = s.
Proof.
  induction s as [|c s IH]; [done|]. by rewrite string_app_cons, IH.
Qed.

Lemma string_app_assoc (s1 s2 s3 : string) :
  (s1 +:+ s2) +:+ s3 = s1 +:+ (s2 +:+ s3).
Proof.
  induction s1 as [|c s1 IH]; [done|]. by rewrite !string_app_cons, IH.
Qed.

Lemma string_app_length (s1 s2 : string) :
  String.length (s1 +:+ s2) = String.length s1 + String.length s2.
Proof.
  induction s1 as [|c s1 IH]; [done|].
  rewrite string_app_cons; simpl. by rewrite IH.
Qed.

Lemma string_app_eq_nil (s1 s2 : string) :
  s1 +:+ s2 = "" ↔ s1 = "" ∧ s2 = "".
Proof.
  destruct s1; [rewrite string_app_nil_l | rewrite string_app_cons];
    naive_solver.
Qed.

#[export] Hint Rewrite string_app_nil_l string_app_cons string_app_nil_r
  string_app_length : form_rw.

(** ** Shared lemmas: lists *)

(** A check made on every element of a list with a boolean function. *)
Lemma forallb_elem_of {A} (f : A → bool) (l : list A) :
  forallb f l = true ↔ ∀ x, x ∈ l → f x = true.
Proof.
  rewrite forallb_forall. by setoid_rewrite list_elem_of_In.
Qed.

(** The first element of a filtered list satisfies the filter. *)
Lemma head_filter_Some {A} (P : A → Prop) `{!∀ x, Decision (P x)}
    (l : list A) (x : A) :
  head (filter P l) = Some x → P x ∧ x ∈ l.
Proof. intros Hx%head_Some_elem_of. by apply list_elem_of_filter in Hx. Qed.

(** A filter that keeps something has a first element. *)
Lemma head_filter_is_Some {A} (P : A → Prop) `{!∀ x, Decision (P x)}
    (l : list A) :
  is_Some (head (filter P l)) ↔ ∃ x, x ∈ l ∧ P x.
Proof.
  rewrite head_is_Some. split.
  - destruct (filter P l) as [|x l'] eqn:Hf; [done|]. intros _.
    assert (x ∈ filter P l) as Hx by (rewrite Hf; left).
    apply list_elem_of_filter in Hx. naive_solver.
  - intros (x & Hx & HP) Hnil.
    assert (x ∈ filter P l) as Hf by (by apply list_elem_of_filter).
    rewrite Hnil in Hf. by apply elem_of_nil in Hf.
Qed.

(** [omap] with two functions that agree on the elements of the list. *)
Lemma omap_ext_elem {A B} (f g : A → option B) (l : list A) :
  (∀ x, x ∈ l → f x = g x) → omap f l = omap g l.
Proof.
  induction l as [|x l IH]; intros Hfg; [done|]. csimpl.
  rewrite (Hfg x), IH; [done| |left]. intros z Hz. apply Hfg. by right.
Qed.

Lemma omap_snoc_None {A B} (f : A → option B) (l : list A) x :
  f x = None → omap f (l ++ [x]) = omap f l.
Proof. intros Hx. rewrite omap_app. csimpl. by rewrite Hx, app_nil_r. Qed.

(** [omap] with two functions that differ at one element of a list
    without duplicates, where the first gives nothing. *)
Lemma omap_flip_one {A B} (f g : A → option B) (l : list A) x y :
  NoDup l → x ∈ l → f x = None → g x = Some y →
  (∀ z, z ∈ l → z ≠ x → f z = g z) →
  omap g l ≡ₚ y :: omap f l.
Proof.
  intros Hl Hx Hf Hg. induction Hl as [|z l Hz Hl IH]; intros Hfg;
    [by apply elem_of_nil in Hx|].
  csimpl. apply elem_of_cons in Hx as [<-|Hx].
  - rewrite Hf, Hg. simpl. f_equiv. rewrite (omap_ext_elem g f l); [done|].
    intros w Hw. symmetry. apply Hfg; [by right|]. by intros ->.
  - assert (g z = f z) as ->.
    { symmetry. apply Hfg; [by left|]. by intros ->. }
    specialize (IH Hx (λ w Hw, Hfg w (list_elem_of_further _ _ _ Hw))).
    destruct (f z); rewrite IH; [apply Permutation_swap|done].
Qed.

(** A filter, one element at a time. *)
Lemma filter_cons_if {A} (P : A → Prop) `{!∀ x, Decision (P x)}
    (x : A) (l : list A) :
  filter P (x :: l) = (if bool_decide (P x) then [x] else []) ++ filter P l.
Proof.
  case_bool_decide; [by rewrite filter_cons_True|by rewrite filter_cons_False].
Qed.
