(* ===== verification/Shuffle.v ===== *)
(** * Shuffle: several sequences merged into one list

    A log written by several activities that take turns holds the lines
    of each activity in the order the activity wrote them, with the
    lines of the others in between.  [shuffle ls c] says that the list
    [c] is such a merge of the sequences [ls]: it is built from the end,
    the way a log grows, by appending an element to [c] and to one of
    the sequences at the same time.

    A shuffle has the elements of its sequences and no others
    ([shuffle_Permutation]), and holds each sequence in its order
    ([shuffle_sublist]). *)

From S2P Require Import Prelude.

Section shuffle.
Context {A : Type}.
Implicit Types (ls : list (list A)) (c l k : list A) (x : A).

Inductive shuffle : list (list A) → list A → Prop :=
| shuffle_nil ls : Forall (λ l, l = []) ls → shuffle ls []
| shuffle_snoc ls i l x c :
    ls !! i = Some l → shuffle ls c →
    shuffle (<[i := l ++ [x]]> ls) (c ++ [x]).

(** ** Building a shuffle *)

(** One more sequence, still empty. *)
Lemma shuffle_app_nil ls c : shuffle ls c → shuffle (ls ++ [[]]) c.
Proof.
  induction 1 as [ls Hls|ls i l x c Hi _ IH].
  - constructor. apply Forall_app. by repeat constructor.
  - rewrite <-insert_app_l by by eapply lookup_lt_Some.
    constructor; [|done]. by apply lookup_app_l_Some.
Qed.

(** A sequence that goes on, by several elements. *)
Lemma shuffle_extend ls c i l k :
  ls !! i = Some l → shuffle ls c → shuffle (<[i := l ++ k]> ls) (c ++ k).
Proof.
  intros Hi Hc. induction k as [|x k IH] using rev_ind.
  - by rewrite !app_nil_r, list_insert_id.
  - rewrite !app_assoc, <-(list_insert_insert_eq ls i _ (l ++ k)).
    constructor; [|done].
    apply list_lookup_insert_eq. by eapply lookup_lt_Some.
Qed.

(** A new sequence, written at once. *)
Lemma shuffle_new ls c l : shuffle ls c → shuffle (ls ++ [l]) (c ++ l).
Proof.
  intros Hc%shuffle_app_nil.
  replace (ls ++ [l]) with (<[length ls := [] ++ l]> (ls ++ [[]])).
  - apply shuffle_extend; [|done]. by apply list_lookup_middle.
  - by rewrite insert_app_r_alt, Nat.sub_diag by lia.
Qed.

(** ** What a shuffle holds *)

Lemma concat_insert_app ls i l k :
  ls !! i = Some l → concat (<[i := l ++ k]> ls) ≡ₚ concat ls ++ k.
Proof.
  intros Hi. rewrite insert_take_drop by by eapply lookup_lt_Some.
  rewrite <-(take_drop_middle ls i l) at 3 by done.
  rewrite !concat_app, !concat_cons, <-!app_assoc. do 2 f_equiv.
  apply Permutation_app_comm.
Qed.

(** The elements of the sequences, each as often as the sequences hold
    it. *)
Lemma shuffle_Permutation ls c : shuffle ls c → c ≡ₚ concat ls.
Proof.
  induction 1 as [ls Hls|ls i l x c Hi _ IH].
  - induction Hls as [|l ls -> _ IH]; [done|]. by rewrite concat_cons.
  - by rewrite concat_insert_app, IH.
Qed.

(** Each sequence, in its order. *)
Lemma shuffle_sublist ls c i l :
  shuffle ls c → ls !! i = Some l → l `sublist_of` c.
Proof.
  intros Hc. revert l. induction Hc as [ls Hls|ls j k x c Hj _ IH]; intros l.
  - intros Hi. rewrite Forall_lookup in Hls. rewrite (Hls i l Hi).
    apply sublist_nil_l.
  - destruct (decide (j = i)) as [->|Hne].
    + rewrite list_lookup_insert_eq by by eapply lookup_lt_Some.
      intros [= <-]. apply sublist_app; [by apply IH|done].
    + rewrite list_lookup_insert_ne by done. intros Hi.
      by apply sublist_inserts_r, IH.
Qed.

End shuffle.

(** ** Sequences with an optional last element *)

(** The elements of sequences that each hold the elements [g d] of an
    item [d] and then, for some, one more element that depends on the
    position. *)
Lemma concat_imap_omap {A B} (g : A → list B) (h : nat → option B)
    (l : list A) (k : nat) :
  concat (imap (λ i d, g d ++ option_list (h (k + i))) l)
  ≡ₚ (l ≫= g) ++ omap h (seq k (length l)).
Proof.
  revert k. induction l as [|d l IH]; intros k; [done|].
  rewrite imap_cons. csimpl. rewrite Nat.add_0_r.
  rewrite (imap_ext _ (λ i d, g d ++ option_list (h (S k + i))))
    by (intros; simpl; by rewrite Nat.add_succ_r).
  rewrite IH, <-!app_assoc. f_equiv.
  destruct (h k); simpl; [by rewrite Permutation_middle|done].
Qed.
