(* ===== verification/React.v ===== *)
(** * React: the rules by which a function component runs

    The other files write [mount], [rerender] and [render] by hand for the
    one component of the repository.  This file states the rules they
    follow once, for any function component that uses [useState] and
    [useEffect], so that the hand-written definitions can be checked
    against them (file [Lifecycle]).

    A component is the initial values of its state hooks, what a setter
    call does to the state, and its effects in the order of the
    [useEffect] calls.  An effect is a callback and a dependency array.
    The callback runs after a render, with the state of that render (its
    closure) and the world outside the component; it can call setters,
    change the world, or throw.

    The rules:
    - after the first render every effect runs, in order; after a later
      render an effect runs when it has no dependency array or when an
      element of the array differs from the previous render;
    - an effect that throws ends the pass: the effects after it do not
      run, the exception leaves the component, and the world keeps what
      the effects before it did ([run_effects]);
    - setter calls are queued; when the pass is over they are applied in
      call order, and the component renders again if the state changed;
    - this repeats until a pass leaves the state as it is.

    The loop takes fuel, since a component can render for ever.
    [renders_two] gives a criterion under which two passes are enough.

    The second rule is the one of the releases of React that run the
    effects of a component inside one [try] block (16, 18 and 19, as far
    as their sources are known to the authors).  Release 17 gives each
    effect a [try] block of its own: an effect that throws still ends
    the component, but the effects after it run first and change the
    world ([run_effects_each]).  The loop of renders is written once for
    both ([renders_by]); the development follows the first rule, and
    [renders_each_Stable] shows that the two agree unless an effect
    throws.

    Effects here return nothing: the cleanup function an effect can
    return is not part of the rules, and no effect of the repository
    returns one. *)

From S2P Require Import Prelude.

#[local] Set Warnings "-clear-no-such-hyp".

Section react.
Context {T U D X : Type} `{EqDecision T, EqDecision D}.

(** The callback passed to [useEffect] and its dependency array, [None]
    when the call has no second argument.  The callback returns the
    setter calls it made, or throws, and the world as it leaves it. *)
Record effect : Type := Effect {
  eff_run : T → X → result (list U) * X;
  eff_deps : option (T → list D)
}.

Record component : Type := Component {
  useState_init : T;
  setState : T → U → T;
  useEffects : list effect
}.

(** How a loop of renders ends: in a state that the last pass left as it
    was; with an exception; or not within the fuel. *)
Inductive render_outcome : Type :=
| Stable (s : T) (x : X)
| Thrown (e : exn) (x : X)
| Unfinished.

Context (C : component).

(** The queue of setter calls applied, in call order. *)
Definition flush (s : T) (us : list U) : T := foldl (setState C) s us.

(** Whether an effect runs after the render of [next] that follows the
    render of [prev]. *)
Definition due (first : bool) (prev next : T) (eff : effect) : bool :=
  first || match eff_deps eff with
           | None => true
           | Some deps => bool_decide (deps prev ≠ deps next)
           end.

(** One pass over the effects, in order: the setter calls made and the
    world they leave. *)
Fixpoint run_effects (effs : list effect) (first : bool) (prev next : T)
    (x : X) : result (list U) * X :=
  match effs with
  | [] => (Ok [], x)
  | eff :: effs' =>
      if due first prev next eff then
        match eff_run eff next x with
        | (Ok us, x1) =>
            let '(r, x2) := run_effects effs' first prev next x1 in
            (app us <$> r, x2)
        | (Throw e, x1) => (Throw e, x1)
        end
      else run_effects effs' first prev next x
  end.

(** The same pass when each effect runs in a [try] block of its own: the
    effects after one that throws run all the same, on the world it
    left; the pass throws what the first of them threw. *)
Fixpoint run_effects_each (effs : list effect) (first : bool) (prev next : T)
    (x : X) : result (list U) * X :=
  match effs with
  | [] => (Ok [], x)
  | eff :: effs' =>
      if due first prev next eff then
        let '(r1, x1) := eff_run eff next x in
        let '(r2, x2) := run_effects_each effs' first prev next x1 in
        (us1 ← r1; app us1 <$> r2, x2)
      else run_effects_each effs' first prev next x
  end.

(** A pass over a list of effects, by one rule or the other. *)
Definition pass : Type :=
  list effect → bool → T → T → X → result (list U) * X.

(** Passes until the state is stable. *)
Fixpoint renders_by (run : pass) (fuel : nat) (first : bool) (prev cur : T)
    (x : X) : render_outcome :=
  match fuel with
  | 0 => Unfinished
  | S fuel' =>
      match run (useEffects C) first prev cur x with
      | (Ok us, x') =>
          let next := flush cur us in
          if decide (next = cur) then Stable cur x'
          else renders_by run fuel' false cur next x'
      | (Throw e, x') => Thrown e x'
      end
  end.

Abbreviation renders := (renders_by run_effects).

(** Mounting: the first render and what follows from its effects. *)
Definition mount_component (fuel : nat) (x : X) : render_outcome :=
  renders fuel true (useState_init C) (useState_init C) x.

(** Mounting when each effect has a [try] block of its own. *)
Definition mount_component_each (fuel : nat) (x : X) : render_outcome :=
  renders_by run_effects_each fuel true (useState_init C) (useState_init C) x.

(** Setter calls made outside a render, by an event handler or a promise
    callback, on a component in state [s]. *)
Definition update_component (fuel : nat) (s : T) (us : list U) (x : X)
    : render_outcome :=
  let next := flush s us in
  if decide (next = s) then Stable s x else renders fuel false s next x.

(** ** Effects that are due *)

(** An effect with the empty dependency array runs after the first render
    only. *)
Definition once (eff : effect) : Prop := eff_deps eff = Some (λ _, []).

(** An effect that calls no setter. *)
Definition quiet (eff : effect) : Prop :=
  ∀ s x us, (eff_run eff s x).1 = Ok us → us = [].

Lemma due_once prev next eff : once eff → due false prev next eff = false.
Proof. unfold due, once. by intros ->. Qed.

(** After a render of the same state only the effects without a
    dependency array are due. *)
Lemma due_same s eff : is_Some (eff_deps eff) → due false s s eff = false.
Proof.
  intros [deps Hd]. unfold due. rewrite Hd. simpl.
  by rewrite bool_decide_eq_false_2 by auto.
Qed.

Lemma run_effects_not_due effs first prev next x :
  Forall (λ eff, due first prev next eff = false) effs →
  run_effects effs first prev next x = (Ok [], x).
Proof.
  induction 1 as [|eff effs Heff _ IH]; [done|].
  cbn [run_effects]. by rewrite Heff.
Qed.

(** A render that changes nothing runs nothing, when every effect has a
    dependency array: rendering once more than needed is harmless. *)
Lemma run_effects_same effs s x :
  Forall (λ eff, is_Some (eff_deps eff)) effs →
  run_effects effs false s s x = (Ok [], x).
Proof.
  intros Hd. apply run_effects_not_due.
  eapply Forall_impl; [done|]. intros eff. apply due_same.
Qed.

(** ** The two rules *)

(** A pass in which no effect throws is the same by both rules. *)
Lemma run_effects_each_Ok effs first prev next x us x' :
  run_effects effs first prev next x = (Ok us, x') →
  run_effects_each effs first prev next x = (Ok us, x').
Proof.
  revert x us. induction effs as [|eff effs IH]; intros x us; [done|].
  cbn [run_effects run_effects_each]. destruct (due _ _ _ eff); [|apply IH].
  destruct (eff_run eff next x) as [[us1|e] x1]; [|done].
  destruct (run_effects effs first prev next x1) as [[us2|e] x2] eqn:Hrest;
    [|done].
  intros [= <- <-]. by rewrite (IH _ _ Hrest).
Qed.

(** So a loop of renders that ends in a stable state ends in it by both
    rules. *)
Lemma renders_each_Stable fuel first prev cur x s x' :
  renders fuel first prev cur x = Stable s x' →
  renders_by run_effects_each fuel first prev cur x = Stable s x'.
Proof.
  revert first prev cur x. induction fuel as [|fuel IH];
    intros first prev cur x; [done|]. cbn [renders_by].
  destruct (run_effects _ _ _ _ _) as [[us|e] x1] eqn:Hrun; [|done].
  rewrite (run_effects_each_Ok _ _ _ _ _ _ _ Hrun). cbn zeta.
  case_decide; [done|apply IH].
Qed.

(** ** Fuel *)

(** More fuel does not change how a loop that ended has ended. *)
Lemma renders_more fuel fuel' first prev cur x :
  renders fuel first prev cur x ≠ Unfinished → fuel ≤ fuel' →
  renders fuel' first prev cur x = renders fuel first prev cur x.
Proof.
  revert fuel' first prev cur x.
  induction fuel as [|fuel IH]; intros [|fuel'] first prev cur x; try done;
    [lia|]. cbn [renders_by].
  destruct (run_effects _ _ _ _ _) as [[us|e] x']; [|done].
  cbn zeta. case_decide; [done|]. intros Hr Hle. apply IH; [done|lia].
Qed.

(** ** Components that do not loop *)

Section two_passes.
Hypothesis Hquiet : Forall (λ eff, once eff ∨ quiet eff) (useEffects C).

(** In a pass other than the first the effects that run call no setter. *)
Lemma run_effects_quiet effs prev next x us :
  Forall (λ eff, once eff ∨ quiet eff) effs →
  (run_effects effs false prev next x).1 = Ok us → us = [].
Proof.
  intros Heffs. revert x us. induction Heffs as [|eff effs Heff _ IH];
    intros x us; cbn [run_effects]; [by intros [= <-]|].
  destruct (due false prev next eff) eqn:Hdue; [|by apply IH].
  destruct Heff as [Ho|Hq]; [by rewrite due_once in Hdue|].
  destruct (eff_run eff next x) as [[us1|e] x1] eqn:Hrun; [|done].
  destruct (run_effects effs false prev next x1) as [[us2|e] x2] eqn:Hrest;
    [|done].
  intros [= <-]. rewrite (Hq next x us1) by by rewrite Hrun.
  by rewrite (IH x1 us2) by by rewrite Hrest.
Qed.

(** So a pass other than the first is the last. *)
Lemma renders_later fuel prev cur x :
  renders (S fuel) false prev cur x
  = match run_effects (useEffects C) false prev cur x with
    | (Ok _, x') => Stable cur x'
    | (Throw e, x') => Thrown e x'
    end.
Proof.
  cbn [renders_by].
  destruct (run_effects _ _ _ _ _) as [[us|e] x'] eqn:Hrun; [|done].
  rewrite (run_effects_quiet (useEffects C) prev cur x us)
    by (done || by rewrite Hrun).
  cbn zeta. by rewrite decide_True.
Qed.

(** Mounting takes two passes at most, and an update one. *)
Lemma renders_two fuel prev cur x :
  renders (S (S fuel)) true prev cur x
  = match run_effects (useEffects C) true prev cur x with
    | (Ok us, x1) =>
        let next := flush cur us in
        if decide (next = cur) then Stable cur x1
        else match run_effects (useEffects C) false cur next x1 with
             | (Ok _, x2) => Stable next x2
             | (Throw e, x2) => Thrown e x2
             end
    | (Throw e, x1) => Thrown e x1
    end.
Proof.
  cbn [renders_by].
  destruct (run_effects _ true _ _ _) as [[us|e] x1]; [|done]. cbn zeta.
  case_decide; [done|]. by rewrite <-(renders_later fuel).
Qed.

Lemma mount_component_returns fuel x :
  2 ≤ fuel → mount_component fuel x ≠ Unfinished.
Proof.
  destruct fuel as [|[|fuel]]; [lia..|]. intros _. unfold mount_component.
  rewrite renders_two.
  destruct (run_effects _ true _ _ _) as [[us|e] x1]; [|done]. cbn zeta.
  case_decide; [done|].
  by destruct (run_effects _ false _ _ _) as [[us2|e] x2].
Qed.

Lemma update_component_returns fuel s us x :
  1 ≤ fuel → update_component fuel s us x ≠ Unfinished.
Proof.
  destruct fuel as [|fuel]; [lia|]. intros _. unfold update_component.
  cbn zeta. case_decide; [done|]. rewrite renders_later.
  by destruct (run_effects _ false _ _ _) as [[us2|e] x2].
Qed.

End two_passes.

End react.

Arguments effect : clear implicits.
Arguments component : clear implicits.
Arguments render_outcome : clear implicits.
