(* ===== verification/JsString.v ===== *)
(** * JsString: the ECMAScript string operations the form calls

    [FieldBuilderForm.js] uses four operations of the language's strings:
    [choices.split('\n')] (validateForm and handleSubmit),
    [defaultData.choices.join('\n')] (the two fetch effects),
    [choices.includes(defaultValue)] (handleSubmit) and the template literal
    that joins two strings with a line feed (handleSubmit).  This file
    defines them on [string] as ECMA-262 describes them for the arguments
    the component passes (a separator of one code unit, a search from
    position 0), and proves the algebra the handlers rely on. *)

From S2P Require Import Prelude.

#[local] Set Warnings "-clear-no-such-hyp".

(** ** Definitions *)

(** The line feed, written ['\n'] in the source. *)
Definition LF : ascii := "010"%char.

(** [s.split(sep)] for a separator of one code unit: the substrings between
    successive occurrences of [sep], empty ones included.  The result is
    never empty: a string without [sep] is returned whole. *)
Fixpoint split (sep : ascii) (s : string) : list string :=
  match s with
  | EmptyString => [""]
  | String c s' =>
      if decide (c = sep) then "" :: split sep s'
      else match split sep s' with
           | [] => [String c ""]
           | h :: t => String c h :: t
           end
  end.

(** [a.join(sep)]: the elements of [a] with [sep] between neighbours. *)
Fixpoint join (sep : string) (a : list string) : string :=
  match a with
  | [] => ""
  | [x] => x
  | x :: a' => x +:+ sep +:+ join sep a'
  end.

(** [s.startsWith(t)], the test [includes] repeats at every position. *)
Fixpoint startsWith (s t : string) {struct t} : bool :=
  match t, s with
  | EmptyString, _ => true
  | String _ _, EmptyString => false
  | String b t', String a s' => bool_decide (a = b) && startsWith s' t'
  end.

(** [s.includes(t)]: [t] occurs in [s] as a contiguous substring. *)
Fixpoint includes (s t : string) : bool :=
  startsWith s t ||
  match s with
  | EmptyString => false
  | String _ s' => includes s' t
  end.

(** The template literal of handleSubmit: two strings, a line feed between
    them. *)
Definition template_lines (s t : string) : string :=
  s +:+ String LF t.

(** Number of occurrences of a code unit in a string. *)
Fixpoint count_char (c : ascii) (s : string) : nat :=
  match s with
  | EmptyString => 0
  | String a s' => (if decide (a = c) then 1 else 0) + count_char c s'
  end.

(** ** [split]: shape of the result *)

Lemma split_nonempty sep s : split sep s ≠ [].
Proof.
  destruct s as [|c s]; simpl; [done|].
  case_decide; [done|]. by destruct (split sep s).
Qed.

Lemma split_cons_inv sep s : ∃ h t, split sep s = h :: t.
Proof.
  pose proof (split_nonempty sep s). destruct (split sep s); naive_solver.
Qed.

(** Unfolding equations of [split], with the impossible empty case gone. *)
Lemma split_nil sep : split sep "" = [""].
Proof. done. Qed.

Lemma split_sep sep s : split sep (String sep s) = "" :: split sep s.
Proof. simpl. by rewrite decide_True. Qed.

Lemma split_other sep c s h t :
  c ≠ sep → split sep s = h :: t →
  split sep (String c s) = String c h :: t.
Proof. intros Hc Hs. simpl. by rewrite decide_False, Hs. Qed.

Lemma length_split sep s :
  length (split sep s) = S (count_char sep s).
Proof.
  induction s as [|c s IH]; simpl; [done|].
  case_decide; simpl; [by rewrite IH|].
  destruct (split_cons_inv sep s) as (h & t & Hs).
  rewrite Hs in *. simpl in *. lia.
Qed.

(** The first piece is a prefix of the string. *)
Lemma split_head_prefix sep s h t :
  split sep s = h :: t → ∃ q, s = h +:+ q.
Proof.
  revert h t. induction s as [|c s IH]; intros h t; simpl.
  - intros [= <- <-]. by exists "".
  - case_decide.
    + intros [= <- <-]. by exists (String c s).
    + destruct (split_cons_inv sep s) as (h' & t' & Hs). rewrite Hs.
      intros [= <- <-]. destruct (IH _ _ Hs) as [q ->].
      by exists q.
Qed.

(** ** [split] and concatenation *)

(** Splitting distributes over a separator in the middle. *)
Lemma split_app_sep sep s1 s2 :
  split sep (s1 +:+ String sep s2) = split sep s1 ++ split sep s2.
Proof.
  induction s1 as [|c s1 IH].
  - by rewrite string_app_nil_l, split_sep.
  - rewrite string_app_cons. simpl. rewrite IH.
    case_decide; [done|].
    by destruct (split_cons_inv sep s1) as (h & t & ->).
Qed.

(** A string is a single piece exactly when the separator does not occur. *)
Lemma split_single sep s : split sep s = [s] ↔ count_char sep s = 0.
Proof.
  split.
  - intros Hs. pose proof (length_split sep s) as Hl.
    rewrite Hs in Hl. simpl in Hl. lia.
  - induction s as [|c s IH]; simpl; [done|].
    case_decide; [done|]. intros Hc. by rewrite IH.
Qed.

(** ** [join] *)

Lemma join_cons_cons sep x y a :
  join sep (x :: y :: a) = x +:+ sep +:+ join sep (y :: a).
Proof. done. Qed.

Lemma join_cons_ne sep x a :
  a ≠ [] → join sep (x :: a) = x +:+ sep +:+ join sep a.
Proof. by destruct a. Qed.

Lemma join_head_cons sep c h t :
  join sep (String c h :: t) = String c (join sep (h :: t)).
Proof. destruct t; [done|]. by rewrite !join_cons_cons. Qed.

(** ** Round trips *)

(** Joining the pieces with the separator gives the string back. *)
Lemma join_split sep s : join (String sep "") (split sep s) = s.
Proof.
  induction s as [|c s IH]; [done|]. simpl.
  destruct (split_cons_inv sep s) as (h & t & Hs). rewrite Hs in *.
  case_decide; [subst c|].
  - by rewrite join_cons_cons, IH.
  - by rewrite join_head_cons, IH.
Qed.

(** Splitting a joined array gives the array back, when the array is not
    empty and no element contains the separator. *)
Lemma split_join sep a :
  a ≠ [] → Forall (λ x, count_char sep x = 0) a →
  split sep (join (String sep "") a) = a.
Proof.
  intros Hne Ha. destruct a as [|x a]; [done|clear Hne].
  revert x Ha. induction a as [|y a IH]; intros x [Hx Ha]%Forall_cons.
  - simpl. by apply split_single.
  - rewrite join_cons_cons, string_app_cons, string_app_nil_l.
    rewrite split_app_sep, IH by done.
    by rewrite (proj2 (split_single sep x) Hx).
Qed.

(** ** [startsWith] and [includes] *)

Lemma startsWith_spec s t : startsWith s t = true ↔ ∃ q, s = t +:+ q.
Proof.
  revert s. induction t as [|b t IH]; intros s; simpl.
  - split; [intros _; by exists s | done].
  - destruct s as [|a s].
    + split; [done|]. intros [q Hq]. by rewrite string_app_cons in Hq.
    + rewrite andb_true_iff, bool_decide_eq_true, IH.
      setoid_rewrite string_app_cons. naive_solver.
Qed.

(** [includes] is the substring relation. *)
Lemma includes_spec s t :
  includes s t = true ↔ ∃ p q, s = p +:+ t +:+ q.
Proof.
  induction s as [|a s IH]; simpl;
    rewrite orb_true_iff, startsWith_spec.
  - split.
    + intros [[q Hq]|?]; [|done]. by exists "", q.
    + intros (p & q & Hpq). left. exists q.
      symmetry in Hpq. by apply string_app_eq_nil in Hpq as [_ Hpq].
  - rewrite IH. split.
    + intros [[q Hq]|(p & q & ->)]; [by exists "", q|].
      by exists (String a p), q.
    + intros ([|b p] & q & Hpq).
      * left. by exists q.
      * right. rewrite string_app_cons in Hpq. simplify_eq. by exists p, q.
Qed.

(** Every string includes the empty string. *)
Lemma includes_empty s : includes s "" = true.
Proof. by destruct s. Qed.

Lemma includes_refl s : includes s s = true.
Proof.
  apply includes_spec. exists "", "".
  by rewrite string_app_nil_l, string_app_nil_r.
Qed.

(** Appending on either side keeps an occurrence. *)
Lemma includes_app_l s1 s2 t :
  includes s1 t = true → includes (s1 +:+ s2) t = true.
Proof.
  rewrite !includes_spec. intros (p & q & ->). exists p, (q +:+ s2).
  by rewrite !string_app_assoc.
Qed.

Lemma includes_app_r s1 s2 t :
  includes s2 t = true → includes (s1 +:+ s2) t = true.
Proof.
  rewrite !includes_spec. intros (p & q & ->). exists (s1 +:+ p), q.
  by rewrite !string_app_assoc.
Qed.

(** Every piece of a split is a substring of the string. *)
Lemma elem_of_split_includes sep s x :
  x ∈ split sep s → includes s x = true.
Proof.
  revert x. induction s as [|c s IH]; intros x; simpl split.
  - intros ->%list_elem_of_singleton. done.
  - destruct (split_cons_inv sep s) as (h & t & Hs).
    assert (∀ y, y ∈ h :: t → includes (String c s) y = true) as Hin.
    { intros y Hy. rewrite <-Hs in Hy.
      apply (includes_app_r (String c "") s), IH, Hy. }
    rewrite Hs. case_decide.
    + intros [->|Hx]%elem_of_cons; [apply includes_empty | by apply Hin].
    + intros [->|Hx]%elem_of_cons.
      * destruct (split_head_prefix _ _ _ _ Hs) as [q ->].
        apply includes_spec. by exists "", q.
      * apply Hin. by right.
Qed.

(** ** The template of handleSubmit *)

(** The lines of the template are the lines of its two parts. *)
Lemma split_template_lines s t :
  split LF (template_lines s t) = split LF s ++ split LF t.
Proof. apply split_app_sep. Qed.

Lemma template_lines_includes_r s t :
  includes (template_lines s t) t = true.
Proof.
  apply (includes_app_r s (String LF t)),
    (includes_app_r (String LF "") t), includes_refl.
Qed.

#[export] Hint Rewrite split_nil split_sep split_app_sep
  split_template_lines length_split includes_empty
  includes_refl : form_rw.
#[export] Hint Resolve split_nonempty includes_refl includes_empty
  elem_of_split_includes : form.

(** ** The round trip, run *)

Lemma split_join_witness :
  split LF (join (String LF "") ["Asia"; ""; "Western Europe"])
  = ["Asia"; ""; "Western Europe"].
Proof. apply split_join; [done|]. repeat constructor. Defined.
