(* ===== verification/JsSet.v ===== *)
(** * JsSet: the [Set] built by [new Set(array)]

    validateForm detects duplicate choices by comparing
    [new Set(choiceList).size] with [choiceList.length].  An ECMAScript
    [Set] keeps its elements in insertion order, each once; its constructor
    adds the elements of the iterable one by one.  This file models that
    construction on lists, proves that the size comparison is the
    duplicate-freeness test, and relates the ordered model to stdpp's
    extensional [gset]. *)

From S2P Require Import Prelude.

#[local] Set Warnings "-clear-no-such-hyp".

Section jsset.
Context `{EqDecision A}.

(** ** Definitions *)

(** [set.add(x)]: append [x] unless the set already has it. *)
Definition Set_add (x : A) (st : list A) : list A :=
  if decide (x ∈ st) then st else st ++ [x].

(** [new Set(a)]: add the elements of [a] from left to right to the empty
    set. *)
Definition newSet (a : list A) : list A :=
  foldl (λ st x, Set_add x st) [] a.

(** [set.size]. *)
Definition Set_size (st : list A) : nat := length st.

(** The comparison of validateForm: [true] when the array has a repeated
    element. *)
Definition has_duplicates (a : list A) : bool :=
  negb (Set_size (newSet a) =? length a).

(** ** [Set_add] *)

Lemma elem_of_Set_add x y st : y ∈ Set_add x st ↔ y = x ∨ y ∈ st.
Proof.
  unfold Set_add. case_decide; [naive_solver|].
  rewrite elem_of_app, list_elem_of_singleton. naive_solver.
Qed.

Lemma NoDup_Set_add x st : NoDup st → NoDup (Set_add x st).
Proof.
  unfold Set_add. case_decide; [done|]. intros Hst.
  apply NoDup_app. split_and!; [done| |apply NoDup_singleton].
  intros y Hy ->%list_elem_of_singleton. done.
Qed.

Lemma Set_add_old x st : x ∈ st → Set_add x st = st.
Proof. intros. unfold Set_add. by rewrite decide_True. Qed.

Lemma Set_add_new x st : x ∉ st → Set_add x st = st ++ [x].
Proof. intros. unfold Set_add. by rewrite decide_False. Qed.

(** ** The constructor, from any starting set *)

(** The fold of [newSet] started from [st]: the lemmas about [newSet] are
    instances at the empty set. *)
Definition Set_add_all (st a : list A) : list A :=
  foldl (λ st x, Set_add x st) st a.

Lemma Set_add_all_cons st x a :
  Set_add_all st (x :: a) = Set_add_all (Set_add x st) a.
Proof. done. Qed.

Lemma elem_of_Set_add_all st a y :
  y ∈ Set_add_all st a ↔ y ∈ st ∨ y ∈ a.
Proof.
  revert st. induction a as [|x a IH]; intros st.
  - simpl. rewrite elem_of_nil. naive_solver.
  - rewrite Set_add_all_cons, IH, elem_of_Set_add, elem_of_cons.
    naive_solver.
Qed.

Lemma NoDup_Set_add_all st a : NoDup st → NoDup (Set_add_all st a).
Proof.
  revert st. induction a as [|x a IH]; intros st Hst; [done|].
  rewrite Set_add_all_cons. by apply IH, NoDup_Set_add.
Qed.

Lemma length_Set_add_all_le st a :
  length (Set_add_all st a) ≤ length st + length a.
Proof.
  revert st. induction a as [|x a IH]; intros st; simpl; [lia|].
  fold (Set_add_all (Set_add x st) a). specialize (IH (Set_add x st)).
  unfold Set_add in *. case_decide; rewrite ?length_app in *; simpl in *; lia.
Qed.

(** Nothing is dropped exactly when the added elements are new and
    pairwise distinct. *)
Lemma length_Set_add_all_NoDup st a :
  NoDup st →
  length (Set_add_all st a) = length st + length a ↔ NoDup (st ++ a).
Proof.
  revert st. induction a as [|x a IH]; intros st Hst.
  - simpl. rewrite app_nil_r. split; [done|lia].
  - rewrite Set_add_all_cons. destruct (decide (x ∈ st)) as [Hx|Hx].
    + rewrite Set_add_old by done.
      pose proof (length_Set_add_all_le st a). simpl. split; [lia|].
      intros (_ & Hd & _)%NoDup_app. destruct (Hd x Hx). by left.
    + rewrite Set_add_new by done.
      replace (st ++ x :: a) with ((st ++ [x]) ++ a) by by rewrite <-app_assoc.
      rewrite <-IH by (rewrite <-Set_add_new by done; by apply NoDup_Set_add).
      rewrite length_app. simpl. split; lia.
Qed.

(** A duplicate-free array is added whole, in its order. *)
Lemma Set_add_all_NoDup st a : NoDup (st ++ a) → Set_add_all st a = st ++ a.
Proof.
  revert st. induction a as [|x a IH]; intros st Hnd.
  - by rewrite app_nil_r.
  - assert (x ∉ st) as Hx.
    { apply NoDup_app in Hnd as (_ & Hd & _). intros Hin.
      destruct (Hd x Hin). by left. }
    rewrite Set_add_all_cons, Set_add_new by done.
    rewrite IH; rewrite <-app_assoc; done.
Qed.

(** ** [newSet] *)

Lemma elem_of_newSet a y : y ∈ newSet a ↔ y ∈ a.
Proof.
  unfold newSet. fold (Set_add_all [] a).
  rewrite elem_of_Set_add_all, elem_of_nil. naive_solver.
Qed.

Lemma NoDup_newSet a : NoDup (newSet a).
Proof. apply (NoDup_Set_add_all [] a), NoDup_nil_2. Qed.

Lemma Set_size_le a : Set_size (newSet a) ≤ length a.
Proof. apply (length_Set_add_all_le [] a). Qed.

(** The size of the set is the length of the array exactly when the array
    has no repeated element. *)
Lemma Set_size_NoDup a : Set_size (newSet a) = length a ↔ NoDup a.
Proof. apply (length_Set_add_all_NoDup [] a), NoDup_nil_2. Qed.

Lemma newSet_NoDup a : NoDup a → newSet a = a.
Proof. apply (Set_add_all_NoDup [] a). Qed.

Lemma has_duplicates_false a : has_duplicates a = false ↔ NoDup a.
Proof.
  unfold has_duplicates.
  by rewrite negb_false_iff, Nat.eqb_eq, Set_size_NoDup.
Qed.

Lemma has_duplicates_true a : has_duplicates a = true ↔ ¬ NoDup a.
Proof.
  rewrite <-has_duplicates_false. destruct (has_duplicates a); naive_solver.
Qed.

(** A repeated element, spelled out: two positions hold the same value. *)
Lemma has_duplicates_positions a :
  has_duplicates a = true ↔
  ∃ i j x, i ≠ j ∧ a !! i = Some x ∧ a !! j = Some x.
Proof.
  rewrite has_duplicates_true. split.
  - induction a as [|y a IH]; intros Hn; [destruct Hn; constructor|].
    destruct (decide (y ∈ a)) as [[j Hj]%list_elem_of_lookup|Hy].
    + by exists 0, (S j), y.
    + destruct IH as (i & j & x & ? & ? & ?).
      { intros Hnd. apply Hn. by constructor. }
      exists (S i), (S j), x. split_and!; [lia|done..].
  - intros (i & j & x & Hij & Hi & Hj) Hnd.
    by apply Hij, (proj1 (NoDup_alt a) Hnd i j x).
Qed.

End jsset.

(** ** Refinement to finite sets *)

(** The ordered model and the extensional set have the same elements and
    the same size. *)
Lemma newSet_gset `{Countable A} (a : list A) :
  (list_to_set (newSet a) : gset A) = list_to_set a.
Proof.
  apply set_eq. intros x. by rewrite !elem_of_list_to_set, elem_of_newSet.
Qed.

(** [size] of the ordered model is the cardinal of the set of the array's
    elements. *)
Lemma Set_size_gset `{Countable A} (a : list A) :
  Set_size (newSet a) = size (list_to_set a : gset A).
Proof.
  rewrite <-newSet_gset. symmetry. apply size_list_to_set, NoDup_newSet.
Qed.

#[export] Hint Resolve NoDup_newSet Set_size_le : form.
#[export] Hint Rewrite @elem_of_newSet @elem_of_Set_add : form_rw.
