(* ===== verification/JsonApi.v ===== *)
(** * JsonApi: JSON values and the interface of [JSON.parse]/[JSON.stringify]

    The form calls [JSON.stringify] on the draft object before writing it to
    localStorage and [JSON.parse] on what it reads back; the service calls
    [JSON.stringify] on the data it posts.  This file fixes the values
    both functions speak about and states, as a class, what the form and
    the service need from them.  File [Json] implements the class.

    Strings inside parsed values are sequences of 16-bit code units
    ([list N]): a JSON text made of 8-bit units can still denote any unit
    through a [\u] escape.  The strings of the component are [string]s;
    [wide] embeds them and [narrow] recovers them. *)

From S2P Require Import Prelude.

#[local] Set Warnings "-clear-no-such-hyp,-register-all".

(** ** Wide strings *)

Definition wide (s : string) : list N :=
  N_of_ascii <$> list_ascii_of_string s.

Definition narrow_unit (u : N) : option ascii :=
  if decide (u < 256)%N then Some (ascii_of_N u) else None.

Definition narrow (us : list N) : option string :=
  string_of_list_ascii <$> mapM narrow_unit us.

(** ** JSON values *)

(** What [JSON.parse] returns.  A number is kept as the text that denotes
    it: the component never computes with one.  An object is the list of
    its members in the order of the text, repeated keys included. *)
Inductive json : Type :=
| JNull
| JBool (b : bool)
| JNumber (lit : string)
| JString (units : list N)
| JArray (items : list json)
| JObject (members : list (list N * json)).

(** The result of reading a property or a variable: [undefined] or a
    value. *)
Definition jsval : Type := option json.

Definition undefined : jsval := None.

(** Induction over values with the nested lists unfolded. *)
Section json_ind.
Variable P : json → Prop.
Hypothesis Hnull : P JNull.
Hypothesis Hbool : ∀ b, P (JBool b).
Hypothesis Hnumber : ∀ lit, P (JNumber lit).
Hypothesis Hstring : ∀ us, P (JString us).
Hypothesis Harray : ∀ items, Forall P items → P (JArray items).
Hypothesis Hobject : ∀ ms, Forall (λ m, P m.2) ms → P (JObject ms).

Fixpoint json_nested_ind (v : json) : P v :=
  match v with
  | JNull => Hnull
  | JBool b => Hbool b
  | JNumber lit => Hnumber lit
  | JString us => Hstring us
  | JArray items =>
      Harray items
        ((fix go (l : list json) : Forall P l :=
            match l with
            | [] => Forall_nil_2 P
            | x :: l' => Forall_cons_2 P x l' (json_nested_ind x) (go l')
            end) items)
  | JObject ms =>
      Hobject ms
        ((fix go (l : list (list N * json)) : Forall (λ m, P m.2) l :=
            match l with
            | [] => Forall_nil_2 _
            | m :: l' =>
                Forall_cons_2 (λ m, P m.2) m l' (json_nested_ind m.2) (go l')
            end) ms)
  end.

End json_ind.

(** ** Equality of values *)

(** Two values have the same shape and the same leaves.  On strings,
    booleans and [null] this is the comparison [Object.is] makes; on
    arrays and objects JavaScript compares references, and on numbers the
    number denoted rather than its text. *)
Fixpoint json_eqb (v1 v2 : json) : bool :=
  match v1, v2 with
  | JNull, JNull => true
  | JBool b1, JBool b2 => bool_decide (b1 = b2)
  | JNumber lit1, JNumber lit2 => bool_decide (lit1 = lit2)
  | JString us1, JString us2 => bool_decide (us1 = us2)
  | JArray items1, JArray items2 =>
      (fix go (l1 l2 : list json) : bool :=
         match l1, l2 with
         | [], [] => true
         | x :: l1', y :: l2' => json_eqb x y && go l1' l2'
         | _, _ => false
         end) items1 items2
  | JObject ms1, JObject ms2 =>
      (fix go (l1 l2 : list (list N * json)) : bool :=
         match l1, l2 with
         | [], [] => true
         | m1 :: l1', m2 :: l2' =>
             bool_decide (m1.1 = m2.1) && json_eqb m1.2 m2.2 && go l1' l2'
         | _, _ => false
         end) ms1 ms2
  | _, _ => false
  end.

Lemma json_eqb_eq v1 v2 : json_eqb v1 v2 = true ↔ v1 = v2.
Proof.
  revert v2. induction v1 as [|b|lit|us|items IH|ms IH] using json_nested_ind;
    intros [|b2|lit2|us2|items2|ms2]; simpl; try (split; (done || congruence));
    try (rewrite bool_decide_eq_true; split; congruence).
  - revert items2. induction IH as [|x l Hx _ IHl]; intros [|y l2];
      try (split; (done || congruence)).
    rewrite andb_true_iff, Hx. specialize (IHl l2). split.
    + intros [-> [= ->]%IHl]. done.
    + intros [= -> ->]. split; [done|]. by apply IHl.
  - revert ms2. induction IH as [|[k x] l Hx _ IHl]; intros [|[k2 y] l2];
      try (split; (done || congruence)).
    rewrite !andb_true_iff, bool_decide_eq_true, Hx. specialize (IHl l2).
    simpl. split.
    + intros [[-> ->] [= ->]%IHl]. done.
    + intros [= -> -> ->]. split_and!; [done..|]. by apply IHl.
Qed.

#[export] Instance json_eq_dec : EqDecision json.
Proof.
  refine (λ v1 v2, cast_if (decide (json_eqb v1 v2 = true)));
    abstract (by rewrite <-json_eqb_eq).
Defined.

(** ** Reading a property *)

(** The member a key denotes: the last one with that key, as [JSON.parse]
    lets a later member replace an earlier one. *)
Fixpoint lookup_member (k : list N) (ms : list (list N * json)) : jsval :=
  match ms with
  | [] => None
  | (k', v) :: ms' =>
      match lookup_member k ms' with
      | Some v' => Some v'
      | None => if decide (k = k') then Some v else None
      end
  end.

(** [v.k] for a value [v] returned by [JSON.parse] and a key [k] that no
    prototype defines: a [TypeError] on [null], the member on an object,
    [undefined] on anything else. *)
Definition get_prop (v : json) (k : string) : result jsval :=
  match v with
  | JNull => Throw TypeError
  | JObject ms => Ok (lookup_member (wide k) ms)
  | _ => Ok undefined
  end.

(** ** Typed views of a value *)

Definition as_string (v : jsval) : option string :=
  match v with
  | Some (JString us) => narrow us
  | _ => None
  end.

Definition as_bool (v : jsval) : option bool :=
  match v with
  | Some (JBool b) => Some b
  | _ => None
  end.

Definition of_string (s : string) : jsval := Some (JString (wide s)).

Definition of_bool (b : bool) : jsval := Some (JBool b).

(** ** Values that [JSON.stringify] prints in 8-bit text *)

(** Strings and keys made of units below 256, no number, no repeated key.
    Everything the component stringifies is of this kind. *)
Fixpoint printable (v : json) : bool :=
  match v with
  | JNull | JBool _ => true
  | JNumber _ => false
  | JString us => forallb (λ u, bool_decide (u < 256)%N) us
  | JArray items => forallb printable items
  | JObject ms =>
      forallb (λ m, forallb (λ u, bool_decide (u < 256)%N) m.1 && printable m.2)
        ms
      && bool_decide (NoDup ms.*1)
  end.

(** ** The interface *)

(** [JSON_parse] throws [SyntaxError] on a text that is not JSON, the
    empty text included; [JSON_stringify] is total on values.  The main
    law: what the component writes, it reads back. *)
Class JsonCodec : Type := {
  JSON_parse : string → result json;
  JSON_stringify : json → string;
  JSON_parse_throws text e : JSON_parse text = Throw e → e = SyntaxError;
  JSON_parse_empty : JSON_parse "" = Throw SyntaxError;
  JSON_parse_stringify v :
    printable v = true → JSON_parse (JSON_stringify v) = Ok v
}.

(** ** Lemmas *)

Lemma narrow_unit_N_of_ascii a : narrow_unit (N_of_ascii a) = Some a.
Proof.
  unfold narrow_unit. rewrite decide_True by apply N_ascii_bounded.
  by rewrite ascii_N_embedding.
Qed.

Lemma mapM_narrow_wide l : mapM narrow_unit (N_of_ascii <$> l) = Some l.
Proof.
  induction l as [|a l IH]; [done|].
  rewrite fmap_cons. simpl. rewrite narrow_unit_N_of_ascii. simpl.
  by rewrite IH.
Qed.

(** An 8-bit string survives the embedding. *)
Lemma narrow_wide s : narrow (wide s) = Some s.
Proof.
  unfold narrow, wide. rewrite mapM_narrow_wide. simpl.
  by rewrite string_of_list_ascii_of_string.
Qed.

Lemma wide_inj : Inj (=) (=) wide.
Proof.
  intros s1 s2 Hs. apply (f_equal narrow) in Hs.
  rewrite !narrow_wide in Hs. by simplify_eq.
Qed.

Lemma wide_units_small s :
  forallb (λ u, bool_decide (u < 256)%N) (wide s) = true.
Proof.
  unfold wide. induction (list_ascii_of_string s) as [|a l IH]; [done|].
  rewrite fmap_cons. simpl. rewrite IH, andb_true_r.
  apply bool_decide_eq_true, N_ascii_bounded.
Qed.

Lemma as_string_of_string s : as_string (of_string s) = Some s.
Proof. apply narrow_wide. Qed.

Lemma as_bool_of_bool b : as_bool (of_bool b) = Some b.
Proof. done. Qed.

Lemma as_string_undefined : as_string undefined = None.
Proof. done. Qed.

Lemma as_bool_undefined : as_bool undefined = None.
Proof. done. Qed.

(** A key that occurs once is found with its value. *)
Lemma lookup_member_NoDup k v ms :
  NoDup ms.*1 → (k, v) ∈ ms → lookup_member k ms = Some v.
Proof.
  induction ms as [|[k' v'] ms IH]; simpl.
  - by intros _ ?%elem_of_nil.
  - intros [Hk Hnd]%NoDup_cons [?|Hin]%elem_of_cons; simplify_eq.
    + destruct (lookup_member k' ms) as [w|] eqn:Hw.
      * exfalso. apply Hk. clear -Hw.
        induction ms as [|[k2 v2] ms IH]; simpl in *; [done|].
        destruct (lookup_member k' ms); [right; by apply IH|].
        case_decide; simplify_eq. by left.
      * by rewrite decide_True.
    + by rewrite (IH Hnd Hin).
Qed.

(** No printable value is printed as the empty text. *)
Lemma JSON_stringify_nonempty `{!JsonCodec} v :
  printable v = true → JSON_stringify v ≠ "".
Proof.
  intros Hv Hs. pose proof (JSON_parse_stringify v Hv) as Hp.
  rewrite Hs, JSON_parse_empty in Hp. done.
Qed.

(** Reading a property throws only on [null]. *)
Lemma get_prop_throws v k :
  throws (get_prop v k) ↔ v = JNull.
Proof.
  unfold throws. destruct v; simpl; naive_solver.
Qed.

#[export] Hint Rewrite narrow_wide as_string_of_string as_bool_of_bool
  : form_rw.

#[global] Arguments get_prop : simpl never.
#[global] Arguments of_string : simpl never.
#[global] Arguments of_bool : simpl never.
