(* ===== verification/Json.v ===== *)
(** * Json: [JSON.stringify] and [JSON.parse]

    The printer and the parser behind the interface of [JsonApi], after
    ECMA-262 (JSON.stringify without indentation, JSON.parse without a
    reviver) and the JSON grammar of ECMA-404, on texts of 8-bit units.
    Both are built-ins of the language: the sources call them (lines 28
    and 44 of FieldBuilderForm.js, line 30 of MockService.js) and hold no
    code of theirs, so what follows is the development's own model of
    them, written from the two standards.

    The parser is a recursive descent over the text.  Its three mutually
    recursive functions (a value, the elements of an array, the members of
    an object) take fuel; [JSON_parse_text] gives them twice the length of
    the text plus one.  [stringify_reads_back] shows that this fuel is
    enough to read back everything the printer writes; file [JsonFuel]
    shows it is enough for every text.

    The main theorem is the round trip: a printable value is parsed back
    from its printed text, with or without white space around it.  The
    texts have 8-bit units; a unit of a string that such a text cannot
    hold (256 and above) is printed as a [\u] escape, where the built-in
    prints the unit itself.  Both texts denote the same string, and only
    a value parsed from a text with such an escape holds such a unit:
    the hooks hold 8-bit strings, so nothing the component prints
    does. *)

From S2P Require Import Prelude JsString JsonApi.

#[local] Set Warnings "-clear-no-such-hyp".

(** ** Characters *)

Definition dquote : ascii := "034"%char.
Definition backslash : ascii := "092"%char.

(** The four white space characters of the grammar. *)
Definition is_ws (c : ascii) : bool :=
  match c with
  | "009" | "010" | "013" | " " => true
  | _ => false
  end%char.

Fixpoint skip_ws (s : string) : string :=
  match s with
  | String c s' => if is_ws c then skip_ws s' else s
  | EmptyString => s
  end.

(** A text made of white space only. *)
Fixpoint blank (s : string) : bool :=
  match s with
  | String c s' => is_ws c && blank s'
  | EmptyString => true
  end.

Definition is_digit (c : ascii) : bool :=
  bool_decide (48 ≤ N_of_ascii c ≤ 57)%N.

(** ** Hexadecimal *)

(** The digit of a value below 16, in lower case as [JSON.stringify]
    prints it, and the value of a digit of either case. *)
Definition hex_digit (n : N) : ascii :=
  if decide (n < 10)%N then ascii_of_N (48 + n) else ascii_of_N (87 + n).

Definition hex_value (c : ascii) : option N :=
  let n := N_of_ascii c in
  if decide (48 ≤ n ≤ 57)%N then Some (n - 48)%N
  else if decide (97 ≤ n ≤ 102)%N then Some (n - 87)%N
  else if decide (65 ≤ n ≤ 70)%N then Some (n - 55)%N
  else None.

(** The four digits of a [\u] escape. *)
Definition hex4 (u : N) : string :=
  String (hex_digit (u / 4096 mod 16))
    (String (hex_digit (u / 256 mod 16))
       (String (hex_digit (u / 16 mod 16))
          (String (hex_digit (u mod 16)) "")))%N.

Definition unhex4 (h1 h2 h3 h4 : ascii) : option N :=
  d1 ← hex_value h1; d2 ← hex_value h2;
  d3 ← hex_value h3; d4 ← hex_value h4;
  Some (d1 * 4096 + d2 * 256 + d3 * 16 + d4)%N.

(** ** Printing *)

(** One unit of a string, as QuoteJSONString prints it: the two-character
    escapes, a [\u] escape for the other control characters, the unit
    itself otherwise.  A unit that 8-bit text cannot hold is escaped,
    which the built-in does not do. *)
Definition escape_unit (u : N) : string :=
  if decide (u = 8)%N then String backslash "b"
  else if decide (u = 9)%N then String backslash "t"
  else if decide (u = 10)%N then String backslash "n"
  else if decide (u = 12)%N then String backslash "f"
  else if decide (u = 13)%N then String backslash "r"
  else if decide (u = 34)%N then String backslash (String dquote "")
  else if decide (u = 92)%N then String backslash (String backslash "")
  else if decide (u < 32 ∨ 256 ≤ u)%N
       then String backslash (String "u" (hex4 u))
  else String (ascii_of_N u) "".

Fixpoint escape (us : list N) : string :=
  match us with
  | [] => ""
  | u :: us' => escape_unit u +:+ escape us'
  end.

Definition quote (us : list N) : string :=
  String dquote (escape us +:+ String dquote "").

(** [JSON.stringify(v)]: no white space, members in order. *)
Fixpoint stringify (v : json) : string :=
  match v with
  | JNull => "null"
  | JBool true => "true"
  | JBool false => "false"
  | JNumber lit => lit
  | JString us => quote us
  | JArray items => "[" +:+ join "," (map stringify items) +:+ "]"
  | JObject ms =>
      "{" +:+
      join "," (map (λ m, quote m.1 +:+ ":" +:+ stringify m.2) ms)
      +:+ "}"
  end.

(** ** Parsing *)

(** The unit a two-character escape denotes. *)
Definition unescape (c : ascii) : option N :=
  match c with
  | "034" => Some 34 | "092" => Some 92 | "/" => Some 47
  | "b" => Some 8 | "f" => Some 12 | "n" => Some 10 | "r" => Some 13
  | "t" => Some 9
  | _ => None
  end%N%char.

(** The characters of a string up to its closing quote; the opening
    quote has been read. *)
Fixpoint parse_chars (s : string) : option (list N * string) :=
  match s with
  | EmptyString => None
  | String c s1 =>
      if decide (c = dquote) then Some ([], s1)
      else if decide (c = backslash) then
        match s1 with
        | String e s2 =>
            match unescape e with
            | Some u =>
                '(us, r) ← parse_chars s2; Some (u :: us, r)
            | None =>
                if decide (e = "u"%char) then
                  match s2 with
                  | String h1 (String h2 (String h3 (String h4 s3))) =>
                      u ← unhex4 h1 h2 h3 h4;
                      '(us, r) ← parse_chars s3; Some (u :: us, r)
                  | _ => None
                  end
                else None
            end
        | EmptyString => None
        end
      else if decide (N_of_ascii c < 32)%N then None
      else '(us, r) ← parse_chars s1; Some (N_of_ascii c :: us, r)
  end.

(** The longest run of digits at the head of a text, and what follows. *)
Fixpoint take_digits (s : string) : string * string :=
  match s with
  | String c s' =>
      if is_digit c
      then let '(ds, r) := take_digits s' in (String c ds, r)
      else ("", s)
  | EmptyString => ("", s)
  end.

(** At least one digit. *)
Definition some_digits (s : string) : option (string * string) :=
  match take_digits s with
  | (EmptyString, _) => None
  | (ds, r) => Some (ds, r)
  end.

(** A number: an optional minus, an integer part without a leading zero,
    an optional fraction, an optional exponent. *)
Definition parse_sign (signs : list ascii) (s : string) : string * string :=
  match s with
  | String c r => if decide (c ∈ signs) then (String c "", r) else ("", s)
  | EmptyString => ("", s)
  end.

Definition parse_int (s : string) : option (string * string) :=
  match s with
  | String c r =>
      if decide (c = "0"%char) then Some ("0", r) else some_digits s
  | EmptyString => None
  end.

Definition parse_frac (s : string) : option (string * string) :=
  match s with
  | String c r =>
      if decide (c = "."%char)
      then '(ds, r') ← some_digits r; Some (String c ds, r')
      else Some ("", s)
  | EmptyString => Some ("", s)
  end.

Definition parse_exp (s : string) : option (string * string) :=
  match s with
  | String e r =>
      if decide (e ∈ ["e"; "E"]%char) then
        let '(sign, r1) := parse_sign ["+"; "-"]%char r in
        '(ds, r2) ← some_digits r1; Some (String e (sign +:+ ds), r2)
      else Some ("", s)
  | EmptyString => Some ("", s)
  end.

Definition parse_number (s : string) : option (string * string) :=
  let '(sign, s1) := parse_sign ["-"]%char s in
  '(i, s2) ← parse_int s1;
  '(f, s3) ← parse_frac s2;
  '(e, s4) ← parse_exp s3;
  Some (sign +:+ i +:+ f +:+ e, s4).

(** The text after the literal [lit], when the text starts with it. *)
Fixpoint eat (lit s : string) : option string :=
  match lit, s with
  | EmptyString, _ => Some s
  | String a lit', String b s' => if decide (a = b) then eat lit' s' else None
  | String _ _, EmptyString => None
  end.

(** A value that holds no other value: a string, one of the three
    literals, a number. *)
Definition parse_atom (s : string) : option (json * string) :=
  match s with
  | String c r =>
      if decide (c = dquote)
      then '(us, r') ← parse_chars r; Some (JString us, r')
      else
        match eat "null" s, eat "true" s, eat "false" s with
        | Some r', _, _ => Some (JNull, r')
        | _, Some r', _ => Some (JBool true, r')
        | _, _, Some r' => Some (JBool false, r')
        | _, _, _ => '(lit, r') ← parse_number s; Some (JNumber lit, r')
        end
  | EmptyString => None
  end.

(** The text after the character [c], when [c] is the first character
    after white space. *)
Definition closes (c : ascii) (s : string) : option string :=
  match skip_ws s with
  | String c' r => if decide (c' = c) then Some r else None
  | EmptyString => None
  end.

(** A value, the elements of an array after its opening bracket, the
    members of an object after its opening brace. *)
Fixpoint parse_value (fuel : nat) (s : string) : option (json * string) :=
  match fuel with
  | 0 => None
  | S fuel =>
      match skip_ws s with
      | String c r =>
          if decide (c = "["%char) then
            match closes "]" r with
            | Some r' => Some (JArray [], r')
            | None =>
                '(items, r') ← parse_elements fuel r; Some (JArray items, r')
            end
          else if decide (c = "{"%char) then
            match closes "}" r with
            | Some r' => Some (JObject [], r')
            | None => '(ms, r') ← parse_members fuel r; Some (JObject ms, r')
            end
          else parse_atom (String c r)
      | EmptyString => None
      end
  end
with parse_elements (fuel : nat) (s : string)
    : option (list json * string) :=
  match fuel with
  | 0 => None
  | S fuel =>
      '(v, r) ← parse_value fuel s;
      match closes "," r, closes "]" r with
      | Some r', _ => '(vs, r'') ← parse_elements fuel r'; Some (v :: vs, r'')
      | None, Some r' => Some ([v], r')
      | None, None => None
      end
  end
with parse_members (fuel : nat) (s : string)
    : option (list (list N * json) * string) :=
  match fuel with
  | 0 => None
  | S fuel =>
      r ← closes dquote s;
      '(k, r1) ← parse_chars r;
      r2 ← closes ":" r1;
      '(v, r3) ← parse_value fuel r2;
      match closes "," r3, closes "}" r3 with
      | Some r4, _ => '(ms, r5) ← parse_members fuel r4; Some ((k, v) :: ms, r5)
      | None, Some r4 => Some ([(k, v)], r4)
      | None, None => None
      end
  end.

(** The fuel given to the parser for a text. *)
Definition fuel_for (text : string) : nat := 2 * String.length text + 1.

(** [JSON.parse(text)]: one value, white space around it, nothing else.
    [JSON_parse_fuel] is the parser run with a given fuel. *)
Definition JSON_parse_fuel (fuel : nat) (text : string) : result json :=
  match parse_value fuel text with
  | Some (v, r) =>
      match skip_ws r with
      | EmptyString => Ok v
      | _ => Throw SyntaxError
      end
  | None => Throw SyntaxError
  end.

Definition JSON_parse_text (text : string) : result json :=
  JSON_parse_fuel (fuel_for text) text.

(** ** Strings: what is printed is read back *)

(** Texts are normalised to a sequence of characters consed on the rest. *)
Ltac str_norm :=
  repeat (rewrite ?string_app_assoc, ?string_app_cons, ?string_app_nil_l).

(** One printed unit in front of a string body is read as that unit. *)
Lemma parse_chars_escape_ascii (a : ascii) (s : string) :
  parse_chars (escape_unit (N_of_ascii a) +:+ s)
  = '(us, r) ← parse_chars s; Some (N_of_ascii a :: us, r).
Proof. by destruct a as [[] [] [] [] [] [] [] []]. Qed.

Lemma parse_chars_escape_unit (u : N) (s : string) :
  (u < 256)%N →
  parse_chars (escape_unit u +:+ s)
  = '(us, r) ← parse_chars s; Some (u :: us, r).
Proof.
  intros Hu. rewrite <-(N_ascii_embedding u) by done.
  apply parse_chars_escape_ascii.
Qed.

Definition small (us : list N) : bool :=
  forallb (λ u, bool_decide (u < 256)%N) us.

(** A printed string body up to its closing quote is read back. *)
Lemma parse_chars_escape us r :
  small us = true →
  parse_chars (escape us +:+ String dquote r) = Some (us, r).
Proof.
  induction us as [|u us IH]; [done|]. simpl.
  intros [Hu Hus]%andb_true_iff. apply bool_decide_eq_true in Hu.
  rewrite string_app_assoc, parse_chars_escape_unit by done.
  by rewrite IH.
Qed.

Lemma parse_chars_quote us r :
  small us = true →
  parse_chars (escape us +:+ String dquote "" +:+ r) = Some (us, r).
Proof. intros Hus. str_norm. by apply parse_chars_escape. Qed.

(** ** Values: what is printed is read back *)

(** A text that starts like a printed value: no white space in front, and
    not a closing bracket or brace. *)
Definition solid (s : string) : Prop :=
  match s with
  | String c _ => c ∈ ["n"; "t"; "f"; dquote; "["; "{"]%char
  | EmptyString => False
  end.

Ltac solid_cases H :=
  repeat (apply elem_of_cons in H as [->|H]); [..|by apply elem_of_nil in H].

Lemma skip_ws_solid s : solid s → skip_ws s = s.
Proof. destruct s as [|c s]; [done|]. intros H. by solid_cases H. Qed.

Lemma stringify_solid v rest :
  printable v = true → solid (stringify v +:+ rest).
Proof.
  destruct v as [|[]| | | |]; try done; intros _; simpl;
    unfold quote; str_norm; simpl; set_solver.
Qed.

(** A text that starts like a value does not start with a closing
    bracket or brace. *)
Lemma closes_solid c s : c ∈ ["]"; "}"]%char → solid s → closes c s = None.
Proof.
  intros Hc H. unfold closes. rewrite skip_ws_solid by done.
  destruct s as [|c' s]; [done|]. solid_cases H; by solid_cases Hc.
Qed.

(** The parser on the first character of an array and of an object. *)
Lemma parse_value_array fuel r :
  solid r →
  parse_value (S fuel) (String "[" r)
  = '(items, r') ← parse_elements fuel r; Some (JArray items, r').
Proof.
  intros H. cbn. by rewrite closes_solid by (done || set_solver).
Qed.

Lemma parse_value_object fuel r :
  parse_value (S fuel) (String "{" (String dquote r))
  = '(ms, r') ← parse_members fuel (String dquote r); Some (JObject ms, r').
Proof. done. Qed.

Lemma parse_elements_S fuel s :
  parse_elements (S fuel) s
  = '(v, r) ← parse_value fuel s;
    match closes "," r, closes "]" r with
    | Some r', _ => '(vs, r'') ← parse_elements fuel r'; Some (v :: vs, r'')
    | None, Some r' => Some ([v], r')
    | None, None => None
    end.
Proof. done. Qed.

Lemma parse_members_S fuel r :
  parse_members (S fuel) (String dquote r)
  = '(k, r1) ← parse_chars r;
    r2 ← closes ":" r1;
    '(v, r3) ← parse_value fuel r2;
    match closes "," r3, closes "}" r3 with
    | Some r4, _ => '(ms, r5) ← parse_members fuel r4; Some ((k, v) :: ms, r5)
    | None, Some r4 => Some ([(k, v)], r4)
    | None, None => None
    end.
Proof. done. Qed.

(** The statement of the round trip for one value: with fuel above twice
    the length of its text, the value is read back and the rest of the
    input is left. *)
Definition reads_back (v : json) : Prop :=
  ∀ rest fuel,
    2 * String.length (stringify v) < fuel →
    parse_value fuel (stringify v +:+ rest) = Some (v, rest).

Lemma length_join_cons sep x l :
  l ≠ [] →
  String.length (join sep (x :: l))
  = String.length x + String.length sep + String.length (join sep l).
Proof. intros. rewrite join_cons_ne, !string_app_length by done. lia. Qed.

Lemma map_ne_nil {A B} (f : A → B) (l : list A) : l ≠ [] → map f l ≠ [].
Proof. by destruct l. Qed.

(** The elements of a printed array are read back. *)
Lemma parse_elements_stringify items rest fuel :
  items ≠ [] → Forall reads_back items →
  2 * String.length (join "," (map stringify items)) + 1 < fuel →
  parse_elements fuel (join "," (map stringify items) +:+ String "]" rest)
  = Some (items, rest).
Proof.
  intros Hne Hitems. revert fuel.
  induction Hitems as [|x items Hx Hitems IH]; [done|]. clear Hne.
  intros [|fuel] Hfuel; [lia|]. rewrite parse_elements_S.
  cbn [map] in *. destruct (decide (items = [])) as [->|Hne].
  - simpl in *. rewrite Hx by lia. done.
  - pose proof (map_ne_nil stringify _ Hne).
    rewrite length_join_cons in Hfuel by done.
    change (String.length ",") with 1 in Hfuel.
    rewrite join_cons_ne by done. str_norm. rewrite Hx by lia. simpl.
    rewrite IH by (done || lia). done.
Qed.

(** The members of a printed object are read back. *)
Definition member_text (m : list N * json) : string :=
  quote m.1 +:+ ":" +:+ stringify m.2.

Lemma parse_members_stringify ms rest fuel :
  ms ≠ [] → Forall (λ m, small m.1 = true ∧ reads_back m.2) ms →
  2 * String.length (join "," (map member_text ms)) + 1 < fuel →
  parse_members fuel (join "," (map member_text ms) +:+ String "}" rest)
  = Some (ms, rest).
Proof.
  intros Hne Hms. revert fuel.
  induction Hms as [|[k v] ms [Hk Hv] Hms IH]; [done|]. clear Hne.
  intros [|fuel] Hfuel; [lia|]. simpl in Hk, Hv.
  assert (String.length (member_text (k, v))
          = S (String.length (escape k)) + 2 + String.length (stringify v))
    as Hlen.
  { unfold member_text, quote. simpl. str_norm. simpl.
    rewrite !string_app_length. simpl. lia. }
  cbn [map] in *. destruct (decide (ms = [])) as [->|Hne].
  - cbn [map join] in *. rewrite Hlen in Hfuel.
    unfold member_text, quote. cbn [fst snd]. str_norm.
    rewrite parse_members_S, parse_chars_escape by done. simpl.
    rewrite Hv by lia. done.
  - pose proof (map_ne_nil member_text _ Hne).
    rewrite length_join_cons, Hlen in Hfuel by done.
    change (String.length ",") with 1 in Hfuel.
    rewrite join_cons_ne by done. unfold member_text at 1, quote.
    cbn [fst snd]. str_norm.
    rewrite parse_members_S, parse_chars_escape by done. simpl.
    rewrite Hv by lia. simpl.
    rewrite IH by (done || lia). done.
Qed.

Lemma parse_value_string fuel r :
  parse_value (S fuel) (String dquote r)
  = '(us, r') ← parse_chars r; Some (JString us, r').
Proof. done. Qed.

(** The text of a non-empty array body starts like a value, that of a
    non-empty object body with a quote. *)
Lemma join_stringify_solid x items rest :
  printable x = true →
  solid (join "," (map stringify (x :: items)) +:+ rest).
Proof.
  intros Hx. destruct items as [|y items]; cbn [map].
  - by apply stringify_solid.
  - rewrite join_cons_cons, string_app_assoc. by apply stringify_solid.
Qed.

Lemma join_member_text_quote m ms rest :
  ∃ r, join "," (map member_text (m :: ms)) +:+ rest = String dquote r.
Proof.
  destruct ms as [|m' ms]; cbn [map]; rewrite ?join_cons_cons;
    unfold member_text at 1, quote; str_norm; eauto.
Qed.

Lemma forallb_Forall {A} (f : A → bool) (P : A → Prop) (l : list A) :
  (∀ x, x ∈ l → f x = true → P x) → forallb f l = true → Forall P l.
Proof.
  rewrite forallb_elem_of, Forall_forall. auto.
Qed.

(** A printable value is read back from its text, whatever follows it. *)
Lemma stringify_reads_back v : printable v = true → reads_back v.
Proof.
  induction v as [|b|lit|us|items IH|ms IH] using json_nested_ind;
    intros Hp rest [|fuel] Hfuel; try lia; try done.
  - by destruct b.
  - unfold stringify, quote. str_norm.
    by rewrite parse_value_string, parse_chars_escape.
  - cbn [stringify printable] in *.
    assert (Forall reads_back items) as Hitems.
    { revert Hp. apply forallb_Forall. intros x Hx.
      apply (proj1 (Forall_forall _ _) IH x Hx). }
    destruct items as [|x items]; [done|].
    rewrite !string_app_length in Hfuel.
    change (String.length "[") with 1 in Hfuel.
    change (String.length "]") with 1 in Hfuel.
    apply andb_true_iff in Hp as [Hx _].
    str_norm. rewrite parse_value_array by by apply join_stringify_solid.
    rewrite parse_elements_stringify by (done || lia). done.
  - cbn [stringify printable] in *. fold member_text in *.
    apply andb_true_iff in Hp as [Hp _].
    assert (Forall (λ m, small m.1 = true ∧ reads_back m.2) ms) as Hms.
    { revert Hp. apply forallb_Forall. intros m Hm [? ?]%andb_true_iff.
      split; [done|]. by apply (proj1 (Forall_forall _ _) IH m Hm). }
    destruct ms as [|m ms]; [done|].
    rewrite !string_app_length in Hfuel.
    change (String.length "{") with 1 in Hfuel.
    change (String.length "}") with 1 in Hfuel.
    str_norm.
    destruct (join_member_text_quote m ms (String "}" rest)) as [r Hr].
    rewrite Hr, parse_value_object, <-Hr.
    rewrite parse_members_stringify by (done || lia). done.
Qed.

(** ** The interface of [JsonApi], implemented *)

(** [JSON_parse_text] throws nothing but [SyntaxError]. *)
Lemma JSON_parse_text_throws text e :
  JSON_parse_text text = Throw e → e = SyntaxError.
Proof. unfold JSON_parse_text, JSON_parse_fuel. intros. by case_all. Qed.

(** A text that parses holds a value and white space after it, and the
    fuel of [JSON_parse_text] was enough to read it. *)
Lemma JSON_parse_text_Ok text v :
  JSON_parse_text text = Ok v ↔
  ∃ r, parse_value (fuel_for text) text = Some (v, r) ∧ skip_ws r = "".
Proof.
  unfold JSON_parse_text, JSON_parse_fuel. split.
  - intros. case_all. eauto.
  - intros (r & -> & ->). done.
Qed.

(** ** White space *)

Lemma skip_ws_blank ws s : blank ws = true → skip_ws (ws +:+ s) = skip_ws s.
Proof.
  induction ws as [|c ws IH]; [done|]. cbn [blank].
  intros [Hc Hws]%andb_true_iff. rewrite string_app_cons. cbn [skip_ws].
  rewrite Hc. auto.
Qed.

Lemma skip_ws_blank_nil ws : blank ws = true → skip_ws ws = "".
Proof.
  intros Hws. rewrite <-(string_app_nil_r ws). by rewrite skip_ws_blank.
Qed.

(** White space in front of a value is skipped. *)
Lemma parse_value_blank fuel ws s :
  blank ws = true → parse_value fuel (ws +:+ s) = parse_value fuel s.
Proof.
  intros Hws. destruct fuel as [|fuel]; [done|].
  cbn [parse_value]. by rewrite skip_ws_blank.
Qed.

(** ** The round trip *)

(** [JSON.parse(JSON.stringify(v))] is [v]. *)
Lemma JSON_parse_text_stringify v :
  printable v = true → JSON_parse_text (stringify v) = Ok v.
Proof.
  intros Hv. apply JSON_parse_text_Ok. exists "". split; [|done].
  rewrite <-(string_app_nil_r (stringify v)) at 2.
  apply (stringify_reads_back v Hv). unfold fuel_for. lia.
Qed.

(** The same with white space around the printed text, as an editor of
    the storage might leave it. *)
Theorem JSON_parse_text_padded ws1 ws2 v :
  blank ws1 = true → blank ws2 = true → printable v = true →
  JSON_parse_text (ws1 +:+ stringify v +:+ ws2) = Ok v.
Proof.
  intros H1 H2 Hv. apply JSON_parse_text_Ok. exists ws2.
  split; [|by apply skip_ws_blank_nil].
  rewrite parse_value_blank by done.
  apply (stringify_reads_back v Hv). unfold fuel_for.
  rewrite !string_app_length. lia.
Qed.

(** The printer is injective on printable values. *)
Lemma stringify_inj v1 v2 :
  printable v1 = true → printable v2 = true →
  stringify v1 = stringify v2 → v1 = v2.
Proof.
  intros H1%JSON_parse_text_stringify H2%JSON_parse_text_stringify Heq.
  rewrite Heq in H1. congruence.
Qed.

#[export] Instance json_codec : JsonCodec := {|
  JSON_parse := JSON_parse_text;
  JSON_stringify := stringify;
  JSON_parse_throws := JSON_parse_text_throws;
  JSON_parse_empty := eq_refl;
  JSON_parse_stringify := JSON_parse_text_stringify
|}.

(** ** The parser, run *)

(** A draft as the form writes it. *)
Definition ex_draft : json :=
  JObject [
    (wide "label", JString (wide "Sales region"));
    (wide "choices", JArray [JString (wide "Asia"); JString (wide "Europe")]);
    (wide "displayAlpha", JBool true)
  ].

Lemma JSON_parse_text_padded_witness :
  JSON_parse_text (" " +:+ stringify ex_draft +:+ String "010" "")
  = Ok ex_draft.
Proof. apply JSON_parse_text_padded; by vm_compute. Defined.
