(* ===== verification/JsonFuel.v ===== *)
(** * JsonFuel: the fuel of the parser is enough for every text

    The parser of [Json] takes fuel, and [JSON_parse_text] gives it twice
    the length of the text plus one.  This file shows that the choice
    does not matter: every call of the parser that returns consumes at
    least one character, so a text is read with fuel twice the number of
    characters it consumes, and more fuel never changes the result.  A
    [SyntaxError] of [JSON_parse_text] is therefore never due to the
    fuel. *)

From S2P Require Import Prelude JsString JsonApi Json.

#[local] Set Warnings "-clear-no-such-hyp".

#[local] Abbreviation len := String.length.

(** ** What each part of the parser consumes *)

Lemma skip_ws_length s : len (skip_ws s) ≤ len s.
Proof.
  induction s as [|c s IH]; [done|]. cbn [skip_ws].
  destruct (is_ws c); simpl in *; lia.
Qed.

Lemma closes_length c s r : closes c s = Some r → len r < len s.
Proof.
  unfold closes. pose proof (skip_ws_length s) as Hs.
  destruct (skip_ws s) as [|c' r']; [done|]. case_decide; [|done].
  intros [= <-]. simpl in Hs. lia.
Qed.

Lemma eat_length lit s r : eat lit s = Some r → len s = len lit + len r.
Proof.
  revert s. induction lit as [|a lit IH]; intros s; simpl.
  - by intros [= <-].
  - destruct s as [|b s]; [done|]. case_decide; [|done].
    intros ?%IH. simpl. lia.
Qed.

Lemma take_digits_length s :
  len s = len (take_digits s).1 + len (take_digits s).2.
Proof.
  induction s as [|c s IH]; [done|]. cbn [take_digits].
  destruct (is_digit c); [|done]. destruct (take_digits s). simpl in *. lia.
Qed.

Lemma some_digits_length s ds r :
  some_digits s = Some (ds, r) → len r < len s.
Proof.
  unfold some_digits. pose proof (take_digits_length s) as Hs.
  destruct (take_digits s) as [[|c ds'] r']; [done|].
  intros [= <- <-]. simpl in Hs. lia.
Qed.

Lemma parse_sign_length signs s : len (parse_sign signs s).2 ≤ len s.
Proof. destruct s as [|c s]; [done|]. simpl. case_decide; simpl; lia. Qed.

Lemma parse_int_length s i r : parse_int s = Some (i, r) → len r < len s.
Proof.
  destruct s as [|c s']; [done|]. unfold parse_int. case_decide.
  - intros [= <- <-]. simpl. lia.
  - apply some_digits_length.
Qed.

Lemma parse_frac_length s f r : parse_frac s = Some (f, r) → len r ≤ len s.
Proof.
  destruct s as [|c s']; [by intros [= <- <-]|]. unfold parse_frac.
  case_decide; [|by intros [= <- <-]].
  destruct (some_digits s') as [[ds r']|] eqn:Hd; simpl; [|done].
  intros [= <- <-]. apply some_digits_length in Hd. simpl. lia.
Qed.

Lemma parse_exp_length s e r : parse_exp s = Some (e, r) → len r ≤ len s.
Proof.
  destruct s as [|c s']; [by intros [= <- <-]|]. unfold parse_exp.
  case_decide; [|by intros [= <- <-]].
  pose proof (parse_sign_length ["+"; "-"]%char s') as Hs.
  destruct (parse_sign _ s') as [sign r1]. cbn beta iota.
  destruct (some_digits r1) as [[ds r2]|] eqn:Hd; simpl; [|done].
  intros [= <- <-]. apply some_digits_length in Hd. simpl in *. lia.
Qed.

Lemma parse_number_length s lit r :
  parse_number s = Some (lit, r) → len r < len s.
Proof.
  unfold parse_number. pose proof (parse_sign_length ["-"]%char s) as Hs.
  destruct (parse_sign _ s) as [sign s1]. cbn beta iota.
  destruct (parse_int s1) as [[i s2]|] eqn:Hi; simpl; [|done].
  destruct (parse_frac s2) as [[f s3]|] eqn:Hf; simpl; [|done].
  destruct (parse_exp s3) as [[e s4]|] eqn:He; simpl; [|done].
  intros [= <- <-]. apply parse_int_length in Hi.
  apply parse_frac_length in Hf. apply parse_exp_length in He.
  simpl in *. lia.
Qed.

Lemma parse_chars_length s us r : parse_chars s = Some (us, r) → len r < len s.
Proof.
  remember (len s) as n eqn:Hn. revert s us r Hn.
  induction n as [n IH] using lt_wf_ind. intros s us r -> Hp.
  assert (∀ s' u, len s' < len s →
    ('(us', r') ← parse_chars s'; Some (u :: us', r')) = Some (us, r) →
    len r < len s') as Hstep.
  { intros s' u Hs' Hp'.
    destruct (parse_chars s') as [[us' r']|] eqn:Hc; [|done].
    simpl in Hp'. simplify_eq. by apply (IH _ Hs' s' us'). }
  destruct s as [|c s1]; [done|]. cbn [parse_chars] in Hp.
  case_decide; [simplify_eq; simpl; lia|].
  case_decide; [|case_decide; [done|apply Hstep in Hp; simpl in *; lia]].
  destruct s1 as [|e s2]; [done|].
  destruct (unescape e); [apply Hstep in Hp; simpl in *; lia|].
  case_decide; [|done].
  destruct s2 as [|h1 [|h2 [|h3 [|h4 s3]]]]; try done.
  destruct (unhex4 h1 h2 h3 h4); [|done].
  apply Hstep in Hp; simpl in *; lia.
Qed.

Lemma parse_atom_length s v r : parse_atom s = Some (v, r) → len r < len s.
Proof.
  destruct s as [|c s']; [done|]. unfold parse_atom.
  case_decide.
  - destruct (parse_chars s') as [[us r']|] eqn:Hc; simpl; [|done].
    intros [= <- <-]. apply parse_chars_length in Hc. simpl. lia.
  - destruct (eat "null" _) as [r1|] eqn:H1;
      [intros [= <- <-]; apply eat_length in H1; simpl in *; lia|].
    destruct (eat "true" _) as [r2|] eqn:H2;
      [intros [= <- <-]; apply eat_length in H2; simpl in *; lia|].
    destruct (eat "false" _) as [r3|] eqn:H3;
      [intros [= <- <-]; apply eat_length in H3; simpl in *; lia|].
    destruct (parse_number _) as [[lit r']|] eqn:Hn; simpl; [|done].
    intros [= <- <-]. by apply parse_number_length in Hn.
Qed.

(** ** Fuel *)

(** A parser is adequate at some fuel when every result it returns there
    consumed at least one character, and is returned again with any fuel
    that is at least twice the number of characters consumed. *)
Definition adequate {A} (parse : nat → string → option (A * string))
    (fuel : nat) : Prop :=
  ∀ s x r, parse fuel s = Some (x, r) →
    len r < len s ∧
    ∀ fuel', 2 * (len s - len r) ≤ fuel' → parse fuel' s = Some (x, r).

(** The first step of a proof of [parse fuel' s = _]: the fuel is not
    zero. *)
Ltac refuel :=
  let fuel' := fresh "fuel'" in
  let Hfuel := fresh "Hfuel" in
  intros [|fuel'] Hfuel; [lia|].

(** One more unit of fuel: the three parsers are adequate at [S fuel] if
    they are at [fuel]. *)
Section step.
Variable fuel : nat.
Hypothesis IHv : adequate parse_value fuel.
Hypothesis IHe : adequate parse_elements fuel.
Hypothesis IHm : adequate parse_members fuel.

Lemma adequate_value_S : adequate parse_value (S fuel).
Proof.
  intros s v r. cbn [parse_value]. pose proof (skip_ws_length s) as Hs.
  destruct (skip_ws s) as [|c r0] eqn:Hskip; [done|]. simpl in Hs.
  case_decide as Hc; [|case_decide as Hc'].
  - destruct (closes "]" r0) as [r'|] eqn:Hclose.
    + intros [= <- <-]. apply closes_length in Hclose as Hlen. split; [lia|].
      refuel. cbn [parse_value]. by rewrite Hskip, decide_True, Hclose.
    + destruct (parse_elements fuel r0) as [[items r']|] eqn:He;
        simpl; [|done].
      intros [= <- <-]. destruct (IHe _ _ _ He) as [Hl Hmore].
      split; [lia|]. refuel. cbn [parse_value].
      rewrite Hskip, decide_True, Hclose by done.
      by rewrite Hmore by lia.
  - destruct (closes "}" r0) as [r'|] eqn:Hclose.
    + intros [= <- <-]. apply closes_length in Hclose as Hlen. split; [lia|].
      refuel. cbn [parse_value].
      by rewrite Hskip, decide_False, decide_True, Hclose.
    + destruct (parse_members fuel r0) as [[ms r']|] eqn:Hm; simpl; [|done].
      intros [= <- <-]. destruct (IHm _ _ _ Hm) as [Hl Hmore].
      split; [lia|]. refuel. cbn [parse_value].
      rewrite Hskip, decide_False, decide_True, Hclose by done.
      by rewrite Hmore by lia.
  - intros Ha. pose proof (parse_atom_length _ _ _ Ha) as Hl. simpl in Hl.
    split; [lia|]. refuel. cbn [parse_value].
    by rewrite Hskip, !decide_False.
Qed.

Lemma adequate_elements_S : adequate parse_elements (S fuel).
Proof.
  intros s vs r. rewrite parse_elements_S.
  destruct (parse_value fuel s) as [[v r1]|] eqn:Hv; simpl; [|done].
  destruct (IHv _ _ _ Hv) as [Hl1 Hmore1].
  destruct (closes "," r1) as [r2|] eqn:Hcomma.
  - destruct (parse_elements fuel r2) as [[vs' r3]|] eqn:He; simpl; [|done].
    intros [= <- <-]. apply closes_length in Hcomma as Hlen.
    destruct (IHe _ _ _ He) as [Hl2 Hmore2]. split; [lia|]. refuel.
    rewrite parse_elements_S, Hmore1 by lia. simpl.
    by rewrite Hcomma, Hmore2 by lia.
  - destruct (closes "]" r1) as [r2|] eqn:Hclose; [|done].
    intros [= <- <-]. apply closes_length in Hclose as Hlen. split; [lia|]. refuel.
    rewrite parse_elements_S, Hmore1 by lia. simpl.
    by rewrite Hcomma, Hclose.
Qed.

Lemma adequate_members_S : adequate parse_members (S fuel).
Proof.
  intros s ms r. cbn [parse_members].
  destruct (closes dquote s) as [s1|] eqn:Hq; simpl; [|done].
  destruct (parse_chars s1) as [[k s2]|] eqn:Hk; simpl; [|done].
  destruct (closes ":" s2) as [s3|] eqn:Hcolon; simpl; [|done].
  destruct (parse_value fuel s3) as [[v s4]|] eqn:Hv; simpl; [|done].
  apply closes_length in Hq as Hl1. apply parse_chars_length in Hk as Hl2.
  apply closes_length in Hcolon as Hl3.
  destruct (IHv _ _ _ Hv) as [Hl4 Hmore4].
  destruct (closes "," s4) as [s5|] eqn:Hcomma.
  - destruct (parse_members fuel s5) as [[ms' s6]|] eqn:Hm; simpl; [|done].
    intros [= <- <-]. apply closes_length in Hcomma as Hlen.
    destruct (IHm _ _ _ Hm) as [Hl5 Hmore5]. split; [lia|]. refuel.
    cbn [parse_members]. rewrite Hq. simpl. rewrite Hk. simpl.
    rewrite Hcolon. simpl. rewrite Hmore4 by lia. simpl.
    by rewrite Hcomma, Hmore5 by lia.
  - destruct (closes "}" s4) as [s5|] eqn:Hclose; [|done].
    intros [= <- <-]. apply closes_length in Hclose as Hlen. split; [lia|]. refuel.
    cbn [parse_members]. rewrite Hq. simpl. rewrite Hk. simpl.
    rewrite Hcolon. simpl. rewrite Hmore4 by lia. simpl.
    by rewrite Hcomma, Hclose.
Qed.

End step.

(** The three parsers are adequate at every fuel. *)
Lemma adequate_all fuel :
  adequate parse_value fuel ∧ adequate parse_elements fuel ∧
  adequate parse_members fuel.
Proof.
  induction fuel as [|fuel (IHv & IHe & IHm)]; [by split_and!|].
  split_and!;
    auto using adequate_value_S, adequate_elements_S, adequate_members_S.
Qed.

(** ** Consequences *)

(** Every value that is read consumed at least one character. *)
Lemma parse_value_length fuel s v r :
  parse_value fuel s = Some (v, r) → len r < len s.
Proof. intros Hp. by apply (proj1 (adequate_all fuel)) in Hp as [? _]. Qed.

(** What the parser returns with some fuel, it returns with the fuel
    [JSON_parse_text] gives it. *)
Lemma parse_value_fuel_for fuel s v r :
  parse_value fuel s = Some (v, r) →
  parse_value (fuel_for s) s = Some (v, r).
Proof.
  intros Hp. apply (proj1 (adequate_all fuel)) in Hp as [_ Hmore].
  apply Hmore. unfold fuel_for. lia.
Qed.

(** Above the fuel of [JSON_parse_text], the result of the parser does
    not depend on the fuel. *)
Lemma parse_value_fuel fuel s :
  fuel_for s ≤ fuel → parse_value fuel s = parse_value (fuel_for s) s.
Proof.
  intros Hfuel.
  destruct (parse_value (fuel_for s) s) as [[v r]|] eqn:Hp.
  - apply (proj1 (adequate_all _)) in Hp as [_ Hmore].
    apply Hmore. unfold fuel_for in Hfuel. lia.
  - destruct (parse_value fuel s) as [[v r]|] eqn:Hp'; [|done].
    apply parse_value_fuel_for in Hp'. congruence.
Qed.

(** [JSON.parse] does not depend on the fuel: run with any fuel above the
    one [JSON_parse_text] chooses, the parser accepts the same texts,
    with the same values.  A text is never rejected for lack of fuel. *)
Theorem JSON_parse_fuel_adequate fuel text :
  fuel_for text ≤ fuel → JSON_parse_fuel fuel text = JSON_parse_text text.
Proof.
  intros Hfuel. unfold JSON_parse_text, JSON_parse_fuel.
  by rewrite (parse_value_fuel fuel).
Qed.

(** The parser run with less fuel never accepts a text [JSON_parse_text]
    rejects, and never reads another value. *)
Theorem JSON_parse_fuel_sound fuel text v :
  JSON_parse_fuel fuel text = Ok v → JSON_parse_text text = Ok v.
Proof.
  unfold JSON_parse_text, JSON_parse_fuel.
  destruct (parse_value fuel text) as [[v' r]|] eqn:Hp; [|done].
  by rewrite (parse_value_fuel_for _ _ _ _ Hp).
Qed.

(** ** The fuel, run *)

Lemma JSON_parse_fuel_adequate_witness :
  JSON_parse_fuel 100 "[[1, [true]], {}]" = JSON_parse_text "[[1, [true]], {}]".
Proof. apply JSON_parse_fuel_adequate. vm_compute. lia. Defined.

Lemma JSON_parse_fuel_sound_witness :
  JSON_parse_text "[[1, [true]], {}]"
  = Ok (JArray [JArray [JNumber "1"; JArray [JBool true]]; JObject []]).
Proof. by apply (JSON_parse_fuel_sound 10). Defined.
