(* ===== verification/JsonGrammar.v ===== *)
(** * JsonGrammar: the parser against the grammar of JSON

    File [Json] shows that the parser reads back what the printer writes.
    That says nothing of the other texts a draft in the storage or a
    response body can hold.  This file states the grammar of ECMA-404 as
    inductive relations between a text and the value it denotes, one
    relation per production (characters of a string, number, value,
    element, elements, member, members), and proves the parser sound for
    it: when [JSON.parse] returns a value, the text is an element of the
    grammar and denotes that value; each of the parser's functions returns
    the rest of the input after a text of its production.

    The parser is deterministic, so the soundness theorem also says that
    the value is the only one the parser can give for the text. *)

From S2P Require Import Prelude JsString JsonApi Json.

#[local] Set Warnings "-clear-no-such-hyp".

(** ** The grammar *)

(** The two-character escapes. *)
Inductive Escape : ascii → N → Prop :=
| Escape_quote : Escape dquote 34
| Escape_backslash : Escape backslash 92
| Escape_slash : Escape "/" 47
| Escape_b : Escape "b" 8
| Escape_f : Escape "f" 12
| Escape_n : Escape "n" 10
| Escape_r : Escape "r" 13
| Escape_t : Escape "t" 9.

(** A hexadecimal digit of either case, and its value. *)
Definition Hex (c : ascii) (d : N) : Prop :=
  let k := N_of_ascii c in
  ((48 ≤ k ≤ 57)%N ∧ d = (k - 48)%N) ∨
  ((97 ≤ k ≤ 102)%N ∧ d = (k - 87)%N) ∨
  ((65 ≤ k ≤ 70)%N ∧ d = (k - 55)%N).

(** The characters between the quotes of a string, and the units they
    denote. *)
Inductive Chars : string → list N → Prop :=
| Chars_nil : Chars "" []
| Chars_unescaped c t us :
    c ≠ dquote → c ≠ backslash → (32 ≤ N_of_ascii c)%N →
    Chars t us → Chars (String c t) (N_of_ascii c :: us)
| Chars_escape e u t us :
    Escape e u → Chars t us →
    Chars (String backslash (String e t)) (u :: us)
| Chars_unicode h1 h2 h3 h4 d1 d2 d3 d4 t us :
    Hex h1 d1 → Hex h2 d2 → Hex h3 d3 → Hex h4 d4 → Chars t us →
    Chars (String backslash
             (String "u" (String h1 (String h2 (String h3 (String h4 t))))))
      ((d1 * 4096 + d2 * 256 + d3 * 16 + d4)%N :: us).

(** Numbers. *)
Fixpoint all_digits (s : string) : bool :=
  match s with
  | String c s' => is_digit c && all_digits s'
  | EmptyString => true
  end.

Definition Digits (s : string) : Prop := s ≠ "" ∧ all_digits s = true.

Definition Int (s : string) : Prop :=
  s = "0" ∨ (Digits s ∧ ∀ r, s ≠ String "0" r).

Definition Frac (s : string) : Prop :=
  s = "" ∨ ∃ ds, Digits ds ∧ s = String "." ds.

Definition Exp (s : string) : Prop :=
  s = "" ∨
  ∃ e sign ds,
    e ∈ ["e"; "E"]%char ∧ sign ∈ [""; "+"; "-"] ∧ Digits ds ∧
    s = String e (sign +:+ ds).

Definition Number (s : string) : Prop :=
  ∃ sign i f e,
    sign ∈ [""; "-"] ∧ Int i ∧ Frac f ∧ Exp e ∧ s = sign +:+ i +:+ f +:+ e.

(** Values, and the lists of elements and members between brackets and
    braces.  An element is a value with white space around it. *)
Inductive Value : string → json → Prop :=
| Value_null : Value "null" JNull
| Value_true : Value "true" (JBool true)
| Value_false : Value "false" (JBool false)
| Value_number lit : Number lit → Value lit (JNumber lit)
| Value_string t us :
    Chars t us → Value (String dquote (t +:+ String dquote "")) (JString us)
| Value_array_empty w :
    blank w = true → Value (String "[" (w +:+ "]")) (JArray [])
| Value_array t items :
    Elements t items → Value (String "[" (t +:+ "]")) (JArray items)
| Value_object_empty w :
    blank w = true → Value (String "{" (w +:+ "}")) (JObject [])
| Value_object t ms :
    Members t ms → Value (String "{" (t +:+ "}")) (JObject ms)
with Element : string → json → Prop :=
| Element_intro w1 t w2 v :
    blank w1 = true → Value t v → blank w2 = true →
    Element (w1 +:+ t +:+ w2) v
with Elements : string → list json → Prop :=
| Elements_one t v : Element t v → Elements t [v]
| Elements_cons t v ts vs :
    Element t v → Elements ts vs →
    Elements (t +:+ String "," ts) (v :: vs)
with Member : string → list N * json → Prop :=
| Member_intro w1 k us w2 t v :
    blank w1 = true → Chars k us → blank w2 = true → Element t v →
    Member (w1 +:+ String dquote (k +:+ String dquote (w2 +:+ String ":" t)))
      (us, v)
with Members : string → list (list N * json) → Prop :=
| Members_one t m : Member t m → Members t [m]
| Members_cons t m ts ms :
    Member t m → Members ts ms →
    Members (t +:+ String "," ts) (m :: ms).

(** A JSON text is an element. *)
Abbreviation Json := Element.

#[export] Hint Constructors Escape Chars Value Element Elements Member Members
  : form.

(** ** White space and literals *)

Lemma blank_app w1 w2 : blank (w1 +:+ w2) = blank w1 && blank w2.
Proof.
  induction w1 as [|c w1 IH]; [done|].
  rewrite string_app_cons; simpl. by rewrite IH, andb_assoc.
Qed.

(** A text is white space followed by what [skip_ws] leaves. *)
Lemma skip_ws_split s : ∃ w, blank w = true ∧ s = w +:+ skip_ws s.
Proof.
  induction s as [|c s (w & Hw & IH)]; [by exists ""|]. simpl.
  destruct (is_ws c) eqn:Hc; [|by exists ""].
  exists (String c w). simpl. by rewrite Hc, Hw, string_app_cons, <-IH.
Qed.

Lemma skip_ws_nil_blank s : skip_ws s = "" → blank s = true.
Proof.
  intros Hs. destruct (skip_ws_split s) as (w & Hw & Heq).
  by rewrite Heq, Hs, string_app_nil_r.
Qed.

Lemma closes_split c s r :
  closes c s = Some r → ∃ w, blank w = true ∧ s = w +:+ String c r.
Proof.
  unfold closes. destruct (skip_ws_split s) as (w & Hw & Heq).
  destruct (skip_ws s) as [|c' r']; [done|].
  case_decide; intros; simplify_eq. by exists w.
Qed.

Lemma eat_split lit : ∀ s r, eat lit s = Some r → s = lit +:+ r.
Proof.
  induction lit as [|a lit IH]; intros [|b s] r; simpl; try done;
    [by intros [= <-]..|].
  case_decide; [|done]. intros ->%IH. by subst.
Qed.

(** ** Strings *)

Lemma unescape_Escape e u : unescape e = Some u → Escape e u.
Proof.
  destruct e as [[] [] [] [] [] [] [] []]; try done;
    intros [= <-]; constructor.
Qed.

Lemma hex_value_Hex c d : hex_value c = Some d → Hex c d.
Proof.
  unfold hex_value, Hex. repeat case_decide; naive_solver.
Qed.

Lemma unhex4_Hex h1 h2 h3 h4 u :
  unhex4 h1 h2 h3 h4 = Some u →
  ∃ d1 d2 d3 d4,
    Hex h1 d1 ∧ Hex h2 d2 ∧ Hex h3 d3 ∧ Hex h4 d4 ∧
    u = (d1 * 4096 + d2 * 256 + d3 * 16 + d4)%N.
Proof.
  unfold unhex4. intros Hu.
  destruct (hex_value h1) as [d1|] eqn:H1; [|done].
  destruct (hex_value h2) as [d2|] eqn:H2; [|done].
  destruct (hex_value h3) as [d3|] eqn:H3; [|done].
  destruct (hex_value h4) as [d4|] eqn:H4; [|done].
  simplify_eq/=. exists d1, d2, d3, d4. split_and!; auto using hex_value_Hex.
Qed.

(** [parse_chars] returns the rest of the input after the characters of a
    string and its closing quote. *)
Lemma parse_chars_sound s us r :
  parse_chars s = Some (us, r) →
  ∃ t, Chars t us ∧ s = t +:+ String dquote r.
Proof.
  remember (String.length s) as n eqn:Hn. revert s us r Hn.
  induction n as [n IH] using lt_wf_ind. intros s us r -> Hp.
  assert (∀ s' u, String.length s' < String.length s →
    ('(us', r') ← parse_chars s'; Some (u :: us', r')) = Some (us, r) →
    ∃ us' t, us = u :: us' ∧ Chars t us' ∧ s' = t +:+ String dquote r)
    as Hstep.
  { intros s' u Hs' Hp'.
    destruct (parse_chars s') as [[us' r']|] eqn:Hc; [|done].
    simpl in Hp'. simplify_eq.
    destruct (IH _ Hs' s' us' r eq_refl Hc) as (t & ? & ?). eauto. }
  destruct s as [|c s1]; [done|]. cbn [parse_chars] in Hp.
  case_decide as Hq; [simplify_eq; exists ""; eauto with form|].
  case_decide as Hb.
  2:{ case_decide; [done|].
      apply Hstep in Hp as (us' & t & -> & Ht & ->); [|simpl; lia].
      exists (String c t). split; [constructor; (done || lia)|done]. }
  subst c. destruct s1 as [|e s2]; [done|].
  destruct (unescape e) as [u|] eqn:He.
  { apply Hstep in Hp as (us' & t & -> & Ht & ->); [|simpl; lia].
    exists (String backslash (String e t)).
    eauto using Chars_escape, unescape_Escape. }
  case_decide; [subst e|done].
  destruct s2 as [|h1 [|h2 [|h3 [|h4 s3]]]]; try done.
  destruct (unhex4 h1 h2 h3 h4) as [u|] eqn:Hu; [|done]. simpl in Hp.
  apply Hstep in Hp as (us' & t & -> & Ht & ->); [|simpl; lia].
  apply unhex4_Hex in Hu as (d1 & d2 & d3 & d4 & ? & ? & ? & ? & ->).
  eexists. split; [by apply Chars_unicode|done].
Qed.

(** ** Numbers *)

Lemma take_digits_sound s :
  all_digits (take_digits s).1 = true ∧
  s = (take_digits s).1 +:+ (take_digits s).2.
Proof.
  induction s as [|c s [IH1 IH2]]; [done|]. simpl.
  destruct (is_digit c) eqn:Hc; [|done].
  destruct (take_digits s) as [ds r]. simpl in *.
  by rewrite Hc, IH1, string_app_cons, <-IH2.
Qed.

Lemma some_digits_sound s ds r :
  some_digits s = Some (ds, r) → Digits ds ∧ s = ds +:+ r.
Proof.
  unfold some_digits. destruct (take_digits_sound s) as [Hd Hs].
  destruct (take_digits s) as [[|c ds'] r']; [done|].
  by intros [= <- <-].
Qed.

(** The first digit of a run of digits. *)
Lemma some_digits_head c s ds r :
  some_digits (String c s) = Some (ds, r) → ∃ ds', ds = String c ds'.
Proof.
  unfold some_digits. simpl. destruct (is_digit c); [|done].
  destruct (take_digits s) as [ds' r']. intros [= <- <-]. eauto.
Qed.

Lemma parse_sign_sound signs s :
  ((parse_sign signs s).1 = "" ∨
   ∃ c, c ∈ signs ∧ (parse_sign signs s).1 = String c "") ∧
  s = (parse_sign signs s).1 +:+ (parse_sign signs s).2.
Proof.
  destruct s as [|c r]; [by split; [left|]|]. simpl.
  case_decide; simpl; split; eauto.
Qed.

Lemma parse_int_sound s i r : parse_int s = Some (i, r) → Int i ∧ s = i +:+ r.
Proof.
  destruct s as [|c s']; [done|]. simpl. case_decide as Hc.
  - intros [= <- <-]. subst c. split; [by left|done].
  - intros Hd. destruct (some_digits_head _ _ _ _ Hd) as [ds' ->].
    apply some_digits_sound in Hd as [Hd Hs]. split; [|done].
    right. split; [done|]. intros r' [= ->]. by simplify_eq.
Qed.

Lemma parse_frac_sound s f r :
  parse_frac s = Some (f, r) → Frac f ∧ s = f +:+ r.
Proof.
  destruct s as [|c s']; [intros [= <- <-]; by split; [left|]|]. simpl.
  case_decide as Hc; [|intros [= <- <-]; by split; [left|]].
  destruct (some_digits s') as [[ds r']|] eqn:Hd; simpl; [|done].
  intros [= <- <-]. apply some_digits_sound in Hd as [Hd ->]. subst c.
  split; [right; eauto|done].
Qed.

Lemma parse_exp_sound s e r : parse_exp s = Some (e, r) → Exp e ∧ s = e +:+ r.
Proof.
  destruct s as [|c s']; [intros [= <- <-]; by split; [left|]|]. simpl.
  case_decide as Hc; [|intros [= <- <-]; by split; [left|]].
  destruct (parse_sign_sound ["+"; "-"]%char s') as [Hsign Hs'].
  destruct (parse_sign _ s') as [sign r1]. simpl in *.
  destruct (some_digits r1) as [[ds r2]|] eqn:Hd; simpl; [|done].
  intros [= <- <-]. apply some_digits_sound in Hd as [Hd ->]. split.
  - right. exists c, sign, ds. split_and!; try done.
    destruct Hsign as [->|(c' & Hc' & ->)]; set_solver.
  - by rewrite Hs', string_app_cons, string_app_assoc.
Qed.

Lemma parse_number_sound s lit r :
  parse_number s = Some (lit, r) → Number lit ∧ s = lit +:+ r.
Proof.
  unfold parse_number.
  destruct (parse_sign_sound ["-"]%char s) as [Hsign Hs].
  destruct (parse_sign _ s) as [sign s1]. simpl in *.
  destruct (parse_int s1) as [[i s2]|] eqn:Hi; simpl; [|done].
  destruct (parse_frac s2) as [[f s3]|] eqn:Hf; simpl; [|done].
  destruct (parse_exp s3) as [[e s4]|] eqn:He; simpl; [|done].
  intros [= <- <-].
  apply parse_int_sound in Hi as [Hi ->].
  apply parse_frac_sound in Hf as [Hf ->].
  apply parse_exp_sound in He as [He ->]. split.
  - exists sign, i, f, e. split_and!; try done.
    destruct Hsign as [->|(c' & Hc' & ->)]; set_solver.
  - by rewrite Hs, !string_app_assoc.
Qed.

(** ** Values *)

Lemma parse_atom_sound s v r :
  parse_atom s = Some (v, r) → ∃ t, Value t v ∧ s = t +:+ r.
Proof.
  destruct s as [|c s']; [done|]. unfold parse_atom. case_decide as Hc.
  - destruct (parse_chars s') as [[us r']|] eqn:Hp; simpl; [|done].
    intros [= <- <-]. apply parse_chars_sound in Hp as (t & Ht & ->).
    exists (String c (t +:+ String dquote "")). subst c.
    split; [by constructor|]. by rewrite string_app_cons, string_app_assoc.
  - destruct (eat "null" _) as [r1|] eqn:H1;
      [intros [= <- <-]; apply eat_split in H1; eauto with form|].
    destruct (eat "true" _) as [r2|] eqn:H2;
      [intros [= <- <-]; apply eat_split in H2; eauto with form|].
    destruct (eat "false" _) as [r3|] eqn:H3;
      [intros [= <- <-]; apply eat_split in H3; eauto with form|].
    destruct (parse_number _) as [[lit r']|] eqn:Hn; simpl; [|done].
    intros [= <- <-]. apply parse_number_sound in Hn as [Hn ->].
    eauto with form.
Qed.

(** ** The recursive descent *)

(** What the three functions return when run with fuel [fuel]: the rest
    of the input after a value with white space in front, after the
    elements of an array and its closing bracket, after the members of an
    object and its closing brace. *)
Definition sound_at (fuel : nat) : Prop :=
  (∀ s v r, parse_value fuel s = Some (v, r) →
     ∃ w t, blank w = true ∧ Value t v ∧ s = w +:+ t +:+ r) ∧
  (∀ s vs r, parse_elements fuel s = Some (vs, r) →
     ∃ t, Elements t vs ∧ s = t +:+ String "]" r) ∧
  (∀ s ms r, parse_members fuel s = Some (ms, r) →
     ∃ t, Members t ms ∧ s = t +:+ String "}" r).

(** A value followed by white space is an element. *)
Lemma Element_split w t w' v s :
  blank w = true → Value t v → blank w' = true →
  ∃ t', Element t' v ∧ w +:+ t +:+ w' +:+ s = t' +:+ s.
Proof.
  intros. exists (w +:+ t +:+ w'). split; [by constructor|]. by str_norm.
Qed.

Section step.
Variable fuel : nat.
Hypothesis IH : sound_at fuel.

Lemma sound_value_S s v r :
  parse_value (S fuel) s = Some (v, r) →
  ∃ w t, blank w = true ∧ Value t v ∧ s = w +:+ t +:+ r.
Proof.
  destruct IH as (_ & IHe & IHm). cbn [parse_value].
  destruct (skip_ws_split s) as (w & Hw & Hs).
  destruct (skip_ws s) as [|c r0]; [done|]. rewrite Hs.
  intros Hp. exists w. repeat case_decide; subst.
  - destruct (closes "]" r0) as [r'|] eqn:Hc.
    + simplify_eq. apply closes_split in Hc as (w' & Hw' & ->).
      exists (String "[" (w' +:+ "]")). split_and!; [done|by constructor|].
      by str_norm.
    + destruct (parse_elements fuel r0) as [[items r']|] eqn:He; [|done].
      simplify_eq/=. apply IHe in He as (t & Ht & ->).
      exists (String "[" (t +:+ "]")). split_and!; [done|by constructor|].
      by str_norm.
  - destruct (closes "}" r0) as [r'|] eqn:Hc.
    + simplify_eq. apply closes_split in Hc as (w' & Hw' & ->).
      exists (String "{" (w' +:+ "}")). split_and!; [done|by constructor|].
      by str_norm.
    + destruct (parse_members fuel r0) as [[ms r']|] eqn:He; [|done].
      simplify_eq/=. apply IHm in He as (t & Ht & ->).
      exists (String "{" (t +:+ "}")). split_and!; [done|by constructor|].
      by str_norm.
  - apply parse_atom_sound in Hp as (t & Ht & ->). by exists t.
Qed.

(** What follows a value in a list: a comma and the rest of the list, or
    the closing character. *)
Lemma sound_tail {A} (parse : nat → string → option (list A * string))
    (close : ascii) (x : A) (r : string) (xs : list A) (r' : string) :
  match closes "," r, closes close r with
  | Some r1, _ => '(xs', r2) ← parse fuel r1; Some (x :: xs', r2)
  | None, Some r1 => Some ([x], r1)
  | None, None => None
  end = Some (xs, r') →
  ∃ w, blank w = true ∧
    ((xs = [x] ∧ r = w +:+ String close r') ∨
     ∃ xs' r1, xs = x :: xs' ∧ parse fuel r1 = Some (xs', r') ∧
       r = w +:+ String "," r1).
Proof.
  destruct (closes "," r) as [r1|] eqn:Hcomma.
  - apply closes_split in Hcomma as (w & Hw & ->).
    destruct (parse fuel r1) as [[xs' r2]|] eqn:Hp; [|done].
    intros [= <- <-]. exists w. eauto 10.
  - destruct (closes close r) as [r1|] eqn:Hclose; [|done].
    apply closes_split in Hclose as (w & Hw & ->).
    intros [= <- <-]. exists w. eauto.
Qed.

Lemma sound_elements_S s vs r :
  parse_elements (S fuel) s = Some (vs, r) →
  ∃ t, Elements t vs ∧ s = t +:+ String "]" r.
Proof.
  destruct IH as (IHv & IHe & _). rewrite parse_elements_S.
  destruct (parse_value fuel s) as [[v r0]|] eqn:Hv; [|done]. simpl.
  apply IHv in Hv as (w & t & Hw & Ht & ->).
  intros (w' & Hw' & [[-> ->]|(vs' & r1 & -> & He & ->)])%sound_tail.
  - destruct (Element_split w t w' v (String "]" r)) as (t' & ? & ->);
      eauto with form.
  - apply IHe in He as (ts & Hts & ->).
    destruct (Element_split w t w' v (String "," (ts +:+ String "]" r)))
      as (t' & ? & ->); try done.
    exists (t' +:+ String "," ts). split; [by constructor|]. by str_norm.
Qed.

Lemma sound_members_S s ms r :
  parse_members (S fuel) s = Some (ms, r) →
  ∃ t, Members t ms ∧ s = t +:+ String "}" r.
Proof.
  destruct IH as (IHv & _ & IHm). cbn [parse_members].
  destruct (closes dquote s) as [r0|] eqn:Hq; [|done]. simpl.
  apply closes_split in Hq as (w1 & Hw1 & ->).
  destruct (parse_chars r0) as [[k r1]|] eqn:Hk; [|done]. simpl.
  apply parse_chars_sound in Hk as (tk & Htk & ->).
  destruct (closes ":" r1) as [r2|] eqn:Hc; [|done]. simpl.
  apply closes_split in Hc as (w2 & Hw2 & ->).
  destruct (parse_value fuel r2) as [[v r3]|] eqn:Hv; [|done]. simpl.
  apply IHv in Hv as (w & t & Hw & Ht & ->).
  assert (∀ w' rest, blank w' = true →
    ∃ tm, Member tm (k, v) ∧
      w1 +:+ String dquote (tk +:+ String dquote
        (w2 +:+ String ":" (w +:+ t +:+ w' +:+ rest))) = tm +:+ rest)
    as Hmember.
  { intros w' rest Hw'.
    exists (w1 +:+ String dquote (tk +:+ String dquote
              (w2 +:+ String ":" (w +:+ t +:+ w')))).
    split; [by repeat constructor|].
    by str_norm. }
  intros (w' & Hw' & [[-> ->]|(ms' & r4 & -> & Hm & ->)])%sound_tail.
  - destruct (Hmember w' (String "}" r) Hw') as (tm & ? & ->).
    eauto with form.
  - apply IHm in Hm as (ts & Hts & ->).
    destruct (Hmember w' (String "," (ts +:+ String "}" r)) Hw')
      as (tm & ? & ->).
    exists (tm +:+ String "," ts). split; [by constructor|]. by str_norm.
Qed.

End step.

Lemma sound_all fuel : sound_at fuel.
Proof.
  induction fuel as [|fuel IH]; [done|].
  split_and!; eauto using sound_value_S, sound_elements_S, sound_members_S.
Qed.

(** ** Soundness *)

(** What [JSON.parse] accepts is a JSON text and denotes the value
    returned. *)
Lemma JSON_parse_text_Json text v : JSON_parse_text text = Ok v → Json text v.
Proof.
  intros (r & Hp & Hr)%JSON_parse_text_Ok.
  apply (proj1 (sound_all _)) in Hp as (w & t & Hw & Ht & ->).
  constructor; auto using skip_ws_nil_blank.
Qed.
