(* ===== verification/JsonComplete.v ===== *)
(** * JsonComplete: the parser accepts the grammar of JSON

    The converse of file [JsonGrammar]: the parser accepts every text of
    the grammar and returns the value the text denotes.  A text of a
    production is followed by the rest of the input, and the parser must
    stop where the production ends; it does when the rest does not
    continue the last token, which in a JSON text it never does, because
    what follows a value is white space, a comma, a closing bracket or
    brace, or nothing.

    The lemmas follow the parser: strings, numbers, the dispatch of
    [parse_value] on the first character, then the recursive descent by
    induction on the derivation, with the fuel bounded by twice the length
    of the text, which is what [fuel_for] gives.  Together with soundness
    the parser and the grammar define the same relation between texts and
    values. *)

From S2P Require Import Prelude JsString JsonApi Json JsonGrammar.

#[local] Set Warnings "-clear-no-such-hyp".


(** The first character of a text, if any, satisfies [P]. *)
Definition starts (P : ascii → Prop) (s : string) : Prop :=
  match s with
  | String c _ => P c
  | EmptyString => True
  end.

(** What can follow a value: white space, a comma, a closing bracket or
    brace. *)
Definition follows (c : ascii) : Prop :=
  is_ws c = true ∨ c ∈ [","; "]"; "}"]%char.

(** What cannot continue a number. *)
Definition ends_number (c : ascii) : Prop :=
  is_digit c = false ∧ c ∉ ["."; "e"; "E"]%char.

Lemma starts_impl (P Q : ascii → Prop) s :
  (∀ c, P c → Q c) → starts P s → starts Q s.
Proof. destruct s; simpl; auto. Qed.

Lemma starts_app (P : ascii → Prop) s1 s2 :
  starts P s1 → (s1 = "" → starts P s2) → starts P (s1 +:+ s2).
Proof. destruct s1; [rewrite string_app_nil_l; auto|done]. Qed.

Lemma follows_ends_number c : follows c → ends_number c.
Proof.
  intros Hc.
  assert (c ∈ ["009"; "010"; "013"; " "; ","; "]"; "}"]%char) as Hin.
  { destruct Hc as [Hc|Hc]; [|set_solver].
    destruct c as [[] [] [] [] [] [] [] []]; try done; set_solver. }
  repeat (apply elem_of_cons in Hin as [->|Hin]);
    [..|by apply elem_of_nil in Hin];
    (split; [done|by apply (bool_decide_unpack _)]).
Qed.

(** ** Strings *)

Lemma Escape_unescape e u : Escape e u → unescape e = Some u.
Proof. by destruct 1. Qed.

Lemma Hex_hex_value c d : Hex c d → hex_value c = Some d.
Proof.
  unfold Hex, hex_value. intros [[? ->]|[[? ->]|[? ->]]];
    repeat case_decide; try done; lia.
Qed.

Lemma parse_chars_complete t us r :
  Chars t us → parse_chars (t +:+ String dquote r) = Some (us, r).
Proof.
  induction 1 as [|c t us Hq Hb Hc _ IH|e u t us He _ IH
                 |h1 h2 h3 h4 d1 d2 d3 d4 t us H1 H2 H3 H4 _ IH].
  - by rewrite string_app_nil_l.
  - rewrite string_app_cons. cbn [parse_chars].
    rewrite !decide_False by (done || lia). by rewrite IH.
  - rewrite !string_app_cons. cbn [parse_chars].
    rewrite decide_False, decide_True, (Escape_unescape _ _ He), IH by done.
    done.
  - rewrite !string_app_cons. cbn [parse_chars].
    rewrite decide_False, decide_True by done. cbn.
    unfold unhex4.
    rewrite (Hex_hex_value _ _ H1), (Hex_hex_value _ _ H2),
      (Hex_hex_value _ _ H3), (Hex_hex_value _ _ H4). simpl.
    by rewrite IH.
Qed.

(** ** Numbers *)

Definition no_digit (c : ascii) : Prop := is_digit c = false.

Lemma Digits_head ds :
  Digits ds → ∃ c ds', ds = String c ds' ∧ is_digit c = true.
Proof.
  intros [Hne Hds]. destruct ds as [|c ds']; [done|].
  apply andb_true_iff in Hds as [? _]. eauto.
Qed.

(** A digit is none of the other characters a number is made of. *)
Lemma digit_not_in c cs :
  is_digit c = true → Forall (λ c', is_digit c' = false) cs → c ∉ cs.
Proof.
  intros Hc Hcs Hin. rewrite Forall_forall in Hcs.
  apply Hcs in Hin. congruence.
Qed.

Lemma take_digits_app ds r :
  all_digits ds = true → starts no_digit r → take_digits (ds +:+ r) = (ds, r).
Proof.
  induction ds as [|c ds IH]; simpl.
  - intros _ Hr. rewrite string_app_nil_l. destruct r as [|c r]; [done|].
    simpl in *. by rewrite Hr.
  - intros [Hc Hds]%andb_true_iff Hr. by rewrite Hc, IH.
Qed.

Lemma some_digits_app ds r :
  Digits ds → starts no_digit r → some_digits (ds +:+ r) = Some (ds, r).
Proof.
  intros [Hne Hds] Hr. unfold some_digits.
  rewrite take_digits_app by done. by destruct ds.
Qed.

Lemma parse_sign_none signs s :
  starts (.∉ signs) s → parse_sign signs s = ("", s).
Proof. destruct s as [|c s]; [done|]. simpl. intros. by rewrite decide_False. Qed.

Lemma parse_sign_some signs c s :
  c ∈ signs → parse_sign signs (String c s) = (String c "", s).
Proof. intros. simpl. by rewrite decide_True. Qed.

Lemma parse_int_complete i r :
  Int i → starts no_digit r → parse_int (i +:+ r) = Some (i, r).
Proof.
  intros [->|[Hd Hz]] Hr; [done|].
  destruct (Digits_head _ Hd) as (c & ds' & -> & Hc).
  rewrite string_app_cons. simpl.
  rewrite decide_False by (intros ->; by eapply Hz).
  rewrite <-string_app_cons. by apply some_digits_app.
Qed.

Lemma parse_frac_complete f r :
  Frac f → starts (λ c, no_digit c ∧ c ≠ "."%char) r →
  parse_frac (f +:+ r) = Some (f, r).
Proof.
  intros [->|(ds & Hd & ->)] Hr.
  - rewrite string_app_nil_l. destruct r as [|c r]; [done|]. simpl in *.
    by rewrite decide_False by naive_solver.
  - rewrite string_app_cons. simpl. rewrite some_digits_app; [done..|].
    eapply starts_impl; [|done]. naive_solver.
Qed.

Lemma parse_exp_complete e r :
  Exp e → starts (λ c, no_digit c ∧ c ∉ ["e"; "E"]%char) r →
  parse_exp (e +:+ r) = Some (e, r).
Proof.
  intros [->|(c & sign & ds & Hc & Hsign & Hd & ->)] Hr.
  - rewrite string_app_nil_l. destruct r as [|c r]; [done|]. simpl in *.
    by rewrite decide_False by naive_solver.
  - assert (starts no_digit r) by (eapply starts_impl; [|done]; naive_solver).
    rewrite string_app_cons, string_app_assoc. simpl.
    rewrite decide_True by done.
    destruct (Digits_head _ Hd) as (d & ds' & Hds & Hdig).
    repeat (apply elem_of_cons in Hsign as [->|Hsign]);
      [| | |by apply elem_of_nil in Hsign].
    + rewrite string_app_nil_l, parse_sign_none, some_digits_app; [done..|].
      rewrite Hds, string_app_cons. simpl.
      apply digit_not_in; [done|]. by repeat constructor.
    + rewrite string_app_cons, string_app_nil_l, parse_sign_some by set_solver.
      by rewrite some_digits_app.
    + rewrite string_app_cons, string_app_nil_l, parse_sign_some by set_solver.
      by rewrite some_digits_app.
Qed.

(** The first character of each part of a number. *)
Lemma Int_starts i : Int i → ∃ c i', i = String c i' ∧ is_digit c = true.
Proof. intros [->|[Hd _]]; [by eexists _, _|by apply Digits_head]. Qed.

Lemma Frac_starts f : Frac f → starts (λ c, c = "."%char) f.
Proof. by intros [->|(ds & _ & ->)]. Qed.

Lemma Exp_starts e : Exp e → starts (.∈ ["e"; "E"]%char) e.
Proof. by intros [->|(c & sign & ds & ? & _ & _ & ->)]. Qed.

Lemma ends_number_spec c :
  ends_number c →
  no_digit c ∧ c ≠ "."%char ∧ c ∉ ["e"; "E"]%char.
Proof.
  intros [? Hc]. split_and!; [done|..].
  - intros ->. apply Hc. by left.
  - intros Hin. apply Hc. by right.
Qed.

Lemma parse_number_complete lit r :
  Number lit → starts ends_number r →
  parse_number (lit +:+ r) = Some (lit, r).
Proof.
  intros (sign & i & f & e & Hsign & Hi & Hf & He & ->) Hr.
  pose proof (Frac_starts _ Hf) as Hf1. pose proof (Exp_starts _ He) as He1.
  apply (starts_impl _ _ _ ends_number_spec) in Hr.
  assert (starts (λ c, no_digit c ∧ c ∉ ["e"; "E"]%char) r) as Hr1
    by (revert Hr; apply starts_impl; naive_solver).
  assert (starts (λ c, no_digit c ∧ c ≠ "."%char) (e +:+ r)) as Hr2.
  { apply starts_app; [|intros _; revert Hr; apply starts_impl; naive_solver].
    revert He1. apply starts_impl. intros c Hc.
    by repeat (apply elem_of_cons in Hc as [->|Hc]);
      [..|apply elem_of_nil in Hc]. }
  assert (starts no_digit (f +:+ e +:+ r)) as Hr3.
  { apply starts_app; [|intros _; revert Hr2; apply starts_impl; naive_solver].
    revert Hf1. apply starts_impl. by intros c ->. }
  unfold parse_number. rewrite !string_app_assoc.
  assert (parse_sign ["-"]%char (sign +:+ i +:+ f +:+ e +:+ r)
          = (sign, i +:+ f +:+ e +:+ r)) as ->.
  { destruct (Int_starts _ Hi) as (c & i' & -> & Hc).
    repeat (apply elem_of_cons in Hsign as [->|Hsign]);
      [| |by apply elem_of_nil in Hsign].
    - rewrite string_app_nil_l, parse_sign_none; [done|].
      rewrite string_app_cons. simpl.
      apply digit_not_in; [done|]. by repeat constructor.
    - by rewrite string_app_cons, string_app_nil_l, parse_sign_some
        by set_solver. }
  rewrite parse_int_complete by done. simpl.
  rewrite parse_frac_complete by done. simpl.
  by rewrite parse_exp_complete by done.
Qed.

(** ** Values *)

(** What a value, and so a list of elements, starts with: a character
    that is neither white space nor one of the separators. *)
Definition opens (c : ascii) : Prop :=
  is_ws c = false ∧ c ∉ [","; "]"; "}"; ":"]%char.

Definition closer (c : ascii) : Prop := c ∈ [","; "]"; "}"]%char.

(** A text that starts, after white space, with a character that
    satisfies [P]. *)
Definition starts_with (P : ascii → Prop) (s : string) : Prop :=
  ∃ w c s', blank w = true ∧ P c ∧ s = w +:+ String c s'.

Lemma starts_with_app P s r : starts_with P s → starts_with P (s +:+ r).
Proof.
  intros (w & c & s' & Hw & Hc & ->). exists w, c, (s' +:+ r).
  split_and!; [done..|]. by str_norm.
Qed.

Lemma starts_with_blank P w s :
  blank w = true → starts_with P s → starts_with P (w +:+ s).
Proof.
  intros Hw (w' & c & s' & Hw' & Hc & ->). exists (w +:+ w'), c, s'.
  split_and!; [by rewrite blank_app, Hw, Hw'|done|by str_norm].
Qed.

Lemma Number_starts lit :
  Number lit →
  ∃ c lit', lit = String c lit' ∧ (c = "-"%char ∨ is_digit c = true).
Proof.
  intros (sign & i & f & e & Hsign & (c & i' & -> & Hc)%Int_starts & _ & _ & ->).
  repeat (apply elem_of_cons in Hsign as [->|Hsign]);
    [| |by apply elem_of_nil in Hsign].
  - rewrite string_app_nil_l, string_app_cons. eauto.
  - rewrite string_app_cons. eauto.
Qed.

Lemma digit_opens c : c = "-"%char ∨ is_digit c = true → opens c.
Proof.
  intros [->|Hc]; [split; [done|by apply (bool_decide_unpack _)]|].
  destruct c as [[] [] [] [] [] [] [] []]; try done;
    (split; [done|by apply (bool_decide_unpack _)]).
Qed.

Lemma Value_opens t v : Value t v → ∃ c t', t = String c t' ∧ opens c.
Proof.
  assert (∀ c, c ∈ ["n"; "t"; "f"; dquote; "["; "{"]%char → opens c) as Hop.
  { intros c Hc.
    repeat (apply elem_of_cons in Hc as [->|Hc]); [..|by apply elem_of_nil in Hc];
      (split; [done|by apply (bool_decide_unpack _)]). }
  destruct 1 as [| | |lit Hn| | | | |];
    try (eexists _, _; split; [done|]; apply Hop; set_solver).
  destruct (Number_starts _ Hn) as (c & lit' & -> & Hc).
  eauto using digit_opens.
Qed.

Lemma Element_opens t v : Element t v → starts_with opens t.
Proof.
  destruct 1 as [w1 t w2 v Hw1 (c & t' & -> & Hc)%Value_opens Hw2].
  exists w1, c, (t' +:+ w2). by str_norm.
Qed.

Lemma Elements_opens ts vs : Elements ts vs → starts_with opens ts.
Proof.
  destruct 1; eauto using Element_opens, starts_with_app.
Qed.

Lemma Member_opens t m : Member t m → starts_with (.= dquote) t.
Proof. destruct 1 as [w1 k us w2 t v]. by eexists w1, _, _. Qed.

Lemma Members_opens ts ms : Members ts ms → starts_with (.= dquote) ts.
Proof. destruct 1; eauto using Member_opens, starts_with_app. Qed.

(** ** The parser on the first character *)

Lemma skip_ws_opens c s : is_ws c = false → skip_ws (String c s) = String c s.
Proof. intros Hc. simpl. by rewrite Hc. Qed.

(** After white space, [closes] compares the next character. *)
Lemma closes_blank c w c' r :
  blank w = true → is_ws c' = false →
  closes c (w +:+ String c' r) = if decide (c' = c) then Some r else None.
Proof.
  intros Hw Hc'. unfold closes. by rewrite skip_ws_blank, skip_ws_opens.
Qed.

Lemma closes_starts_with c P s :
  starts_with P s → (∀ c', P c' → is_ws c' = false ∧ c' ≠ c) →
  closes c s = None.
Proof.
  intros (w & c' & s' & Hw & Hc' & ->) HP.
  destruct (HP c' Hc') as [? ?]. by rewrite closes_blank, decide_False.
Qed.

(** White space and a closer, met after a value. *)
Lemma closes_closer c w c' r :
  blank w = true → closer c' →
  closes c (w +:+ String c' r) = if decide (c' = c) then Some r else None.
Proof.
  intros Hw Hc'. apply closes_blank; [done|].
  by repeat (apply elem_of_cons in Hc' as [->|Hc']);
    [..|apply elem_of_nil in Hc'].
Qed.

Lemma parse_value_number fuel c s :
  c = "-"%char ∨ is_digit c = true →
  parse_value (S fuel) (String c s)
  = '(lit, r) ← parse_number (String c s); Some (JNumber lit, r).
Proof.
  intros [->|Hc]; [done|].
  by destruct c as [[] [] [] [] [] [] [] []].
Qed.

(** One member, as [parse_members] reads it. *)
Definition parse_member (fuel : nat) (s : string)
    : option ((list N * json) * string) :=
  r ← closes dquote s;
  '(k, r1) ← parse_chars r;
  r2 ← closes ":" r1;
  '(v, r3) ← parse_value fuel r2;
  Some ((k, v), r3).

Lemma parse_members_member fuel s :
  parse_members (S fuel) s
  = '(m, r3) ← parse_member fuel s;
    match closes "," r3, closes "}" r3 with
    | Some r4, _ => '(ms, r5) ← parse_members fuel r4; Some (m :: ms, r5)
    | None, Some r4 => Some ([m], r4)
    | None, None => None
    end.
Proof.
  unfold parse_member. cbn [parse_members].
  destruct (closes dquote s) as [r|]; [|done]. simpl.
  destruct (parse_chars r) as [[k r1]|]; [|done]. simpl.
  destruct (closes ":" r1) as [r2|]; [|done]. simpl.
  by destruct (parse_value fuel r2) as [[v r3]|].
Qed.

(** ** The recursive descent, again *)

Scheme Value_min := Minimality for Value Sort Prop
  with Element_min := Minimality for Element Sort Prop
  with Elements_min := Minimality for Elements Sort Prop
  with Member_min := Minimality for Member Sort Prop
  with Members_min := Minimality for Members Sort Prop.

Combined Scheme grammar_ind
  from Value_min, Element_min, Elements_min, Member_min, Members_min.

#[local] Abbreviation len := String.length.

(** What the parser does on a text of each production followed by [r],
    with fuel above twice the length of the text: it returns the value and
    [r], after the white space that ends an element. *)
Definition complete_value (t : string) (v : json) : Prop :=
  ∀ fuel r, starts follows r → 2 * len t < fuel →
    parse_value fuel (t +:+ r) = Some (v, r).

Definition complete_element (t : string) (v : json) : Prop :=
  ∀ fuel r, starts closer r → 2 * len t < fuel →
    ∃ w, blank w = true ∧ parse_value fuel (t +:+ r) = Some (v, w +:+ r).

Definition complete_elements (ts : string) (vs : list json) : Prop :=
  ∀ fuel r, 2 * len ts + 1 < fuel →
    parse_elements fuel (ts +:+ String "]" r) = Some (vs, r).

Definition complete_member (t : string) (m : list N * json) : Prop :=
  ∀ fuel r, starts closer r → 2 * len t < fuel →
    ∃ w, blank w = true ∧ parse_member fuel (t +:+ r) = Some (m, w +:+ r).

Definition complete_members (ts : string) (ms : list (list N * json)) : Prop :=
  ∀ fuel r, 2 * len ts + 1 < fuel →
    parse_members fuel (ts +:+ String "}" r) = Some (ms, r).

(** White space, then what may follow a value. *)
Lemma starts_follows w r :
  blank w = true → starts closer r → starts follows (w +:+ r).
Proof.
  intros Hw Hr. apply starts_app.
  - destruct w as [|c w]; [done|]. left.
    by apply andb_true_iff in Hw as [? _].
  - intros _. revert Hr. apply starts_impl. by right.
Qed.

Lemma complete_Element w1 t w2 v :
  blank w1 = true → complete_value t v → blank w2 = true →
  complete_element (w1 +:+ t +:+ w2) v.
Proof.
  intros Hw1 Ht Hw2 fuel r Hr Hfuel. exists w2. split; [done|].
  rewrite !string_app_assoc, parse_value_blank by done.
  apply Ht; [by apply starts_follows|].
  rewrite !string_app_length in Hfuel. lia.
Qed.

Lemma complete_Value_array t items :
  Elements t items → complete_elements t items →
  complete_value (String "[" (t +:+ "]")) (JArray items).
Proof.
  intros Hel Ht [|fuel] r _ Hfuel; [simpl in Hfuel; lia|].
  str_norm. cbn [parse_value].
  rewrite skip_ws_opens, decide_True by done.
  rewrite (closes_starts_with _ opens), Ht.
  - done.
  - simpl in Hfuel. rewrite string_app_length in Hfuel. simpl in Hfuel. lia.
  - by eapply starts_with_app, Elements_opens.
  - intros c [? Hc]. split; [done|]. intros ->. apply Hc. set_solver.
Qed.

Lemma complete_Value_object t ms :
  Members t ms → complete_members t ms →
  complete_value (String "{" (t +:+ "}")) (JObject ms).
Proof.
  intros Hel Ht [|fuel] r _ Hfuel; [simpl in Hfuel; lia|].
  str_norm. cbn [parse_value].
  rewrite skip_ws_opens, decide_False, decide_True by done.
  rewrite (closes_starts_with _ (.= dquote)), Ht.
  - done.
  - simpl in Hfuel. rewrite string_app_length in Hfuel. simpl in Hfuel. lia.
  - by eapply starts_with_app, Members_opens.
  - by intros c ->.
Qed.

(** An empty array or object. *)
Lemma complete_Value_empty (c c' : ascii) w v :
  (c = "["%char ∧ c' = "]"%char ∧ v = JArray []) ∨
  (c = "{"%char ∧ c' = "}"%char ∧ v = JObject []) →
  blank w = true → complete_value (String c (w +:+ String c' "")) v.
Proof.
  intros Hc Hw [|fuel] r _ Hfuel; [simpl in Hfuel; lia|].
  str_norm.
  destruct Hc as [(-> & -> & ->)|(-> & -> & ->)]; cbn [parse_value];
    rewrite skip_ws_opens by done;
    rewrite ?(decide_False (P := "{"%char = "["%char)) by done;
    by rewrite decide_True, closes_blank, decide_True by done.
Qed.

(** After an element of a list: the end of the list, or the comma and
    the next element. *)
Lemma complete_list_end {A}
    (parse : nat → string → option (list A * string))
    (close : ascii) fuel (x : A) w r :
  blank w = true → close ∈ ["]"; "}"]%char →
  match closes "," (w +:+ String close r), closes close (w +:+ String close r)
  with
  | Some r1, _ => '(xs', r2) ← parse fuel r1; Some (x :: xs', r2)
  | None, Some r1 => Some ([x], r1)
  | None, None => None
  end = Some ([x], r).
Proof.
  intros Hw Hc. rewrite !closes_closer; try done; unfold closer; set_solver.
Qed.

Lemma complete_list_next {A}
    (parse : nat → string → option (list A * string))
    (close : ascii) fuel (x : A) w s :
  blank w = true →
  match closes "," (w +:+ String "," s), closes close (w +:+ String "," s)
  with
  | Some r1, _ => '(xs', r2) ← parse fuel r1; Some (x :: xs', r2)
  | None, Some r1 => Some ([x], r1)
  | None, None => None
  end = '(xs', r2) ← parse fuel s; Some (x :: xs', r2).
Proof.
  intros Hw. rewrite !closes_closer; try done; unfold closer; set_solver.
Qed.

Lemma complete_Elements_one t v :
  complete_element t v → complete_elements t [v].
Proof.
  intros Ht [|fuel] r Hfuel; [lia|]. rewrite parse_elements_S.
  destruct (Ht fuel (String "]" r)) as (w & Hw & ->);
    [unfold closer; set_solver|lia|]. simpl.
  apply (complete_list_end parse_elements); [done|set_solver].
Qed.

Lemma complete_Elements_cons t v ts vs :
  complete_element t v → complete_elements ts vs →
  complete_elements (t +:+ String "," ts) (v :: vs).
Proof.
  intros Ht Hts [|fuel] r Hfuel; [lia|].
  rewrite string_app_length in Hfuel. simpl in Hfuel.
  rewrite parse_elements_S, string_app_assoc, string_app_cons.
  destruct (Ht fuel (String "," (ts +:+ String "]" r))) as (w & Hw & ->);
    [unfold closer; set_solver|lia|]. simpl.
  rewrite (complete_list_next parse_elements) by done.
  by rewrite Hts by lia.
Qed.

Lemma complete_Members_one t m :
  complete_member t m → complete_members t [m].
Proof.
  intros Ht [|fuel] r Hfuel; [lia|]. rewrite parse_members_member.
  destruct (Ht fuel (String "}" r)) as (w & Hw & ->);
    [unfold closer; set_solver|lia|]. simpl.
  apply (complete_list_end parse_members); [done|set_solver].
Qed.

Lemma complete_Members_cons t m ts ms :
  complete_member t m → complete_members ts ms →
  complete_members (t +:+ String "," ts) (m :: ms).
Proof.
  intros Ht Hts [|fuel] r Hfuel; [lia|].
  rewrite string_app_length in Hfuel. simpl in Hfuel.
  rewrite parse_members_member, string_app_assoc, string_app_cons.
  destruct (Ht fuel (String "," (ts +:+ String "}" r))) as (w & Hw & ->);
    [unfold closer; set_solver|lia|]. simpl.
  rewrite (complete_list_next parse_members) by done.
  by rewrite Hts by lia.
Qed.

Lemma complete_Member w1 k us w2 t v :
  blank w1 = true → Chars k us → blank w2 = true → complete_element t v →
  complete_member
    (w1 +:+ String dquote (k +:+ String dquote (w2 +:+ String ":" t))) (us, v).
Proof.
  intros Hw1 Hk Hw2 Ht fuel r Hr Hfuel.
  rewrite !string_app_length in Hfuel. simpl in Hfuel.
  rewrite !string_app_length in Hfuel. simpl in Hfuel.
  rewrite !string_app_length in Hfuel. simpl in Hfuel.
  destruct (Ht fuel r Hr) as (w & Hw & Hv); [lia|].
  exists w. split; [done|]. unfold parse_member. str_norm.
  rewrite closes_blank, decide_True by done. simpl.
  rewrite (parse_chars_complete k us) by done. simpl.
  rewrite closes_blank, decide_True by done. simpl.
  by rewrite Hv.
Qed.

Lemma complete_Value_atoms :
  complete_value "null" JNull ∧ complete_value "true" (JBool true) ∧
  complete_value "false" (JBool false).
Proof.
  split_and!; intros [|fuel] r _ Hfuel; (simpl in Hfuel; lia) || done.
Qed.

Lemma complete_Value_number lit :
  Number lit → complete_value lit (JNumber lit).
Proof.
  intros Hn [|fuel] r Hr Hfuel; [lia|].
  destruct (Number_starts _ Hn) as (c & lit' & Hlit & Hc).
  rewrite Hlit, string_app_cons, parse_value_number by done.
  rewrite <-string_app_cons, <-Hlit, parse_number_complete; [done..|].
  revert Hr. apply starts_impl, follows_ends_number.
Qed.

Lemma complete_Value_string t us :
  Chars t us →
  complete_value (String dquote (t +:+ String dquote "")) (JString us).
Proof.
  intros Ht [|fuel] r _ Hfuel; [simpl in Hfuel; lia|].
  str_norm. cbn. by rewrite (parse_chars_complete t us).
Qed.

(** The parser accepts the texts of the grammar. *)
Lemma complete_all :
  (∀ t v, Value t v → complete_value t v) ∧
  (∀ t v, Element t v → complete_element t v) ∧
  (∀ ts vs, Elements ts vs → complete_elements ts vs) ∧
  (∀ t m, Member t m → complete_member t m) ∧
  (∀ ts ms, Members ts ms → complete_members ts ms).
Proof.
  apply grammar_ind;
    eauto using complete_Element, complete_Value_array, complete_Value_object,
      complete_Elements_one, complete_Elements_cons, complete_Members_one,
      complete_Members_cons, complete_Member, complete_Value_number,
      complete_Value_string;
    try apply complete_Value_atoms.
  - intros w Hw. apply (complete_Value_empty "[" "]"); auto.
  - intros w Hw. apply (complete_Value_empty "{" "}"); auto.
Qed.

(** ** The parser and the grammar agree *)

(** The parser accepts every JSON text and returns the value the text
    denotes: the fuel of [JSON_parse_text] is enough for the derivation. *)
Lemma Json_JSON_parse_text text v : Json text v → JSON_parse_text text = Ok v.
Proof.
  intros Hj. apply JSON_parse_text_Ok.
  destruct (proj1 (proj2 complete_all) _ _ Hj (fuel_for text) "")
    as (w & Hw & Hp); [done|unfold fuel_for; lia|].
  rewrite !string_app_nil_r in Hp. eauto using skip_ws_blank_nil.
Qed.

(** A text the parser rejects is no JSON text, and conversely. *)
Lemma JSON_parse_text_Throw text e :
  JSON_parse_text text = Throw e ↔ e = SyntaxError ∧ ∀ v, ¬ Json text v.
Proof.
  split.
  - intros Ht. split; [by eapply JSON_parse_text_throws|].
    intros v Hv%Json_JSON_parse_text. congruence.
  - intros [-> Hno]. destruct (JSON_parse_text text) as [v|e] eqn:Hp.
    + by apply JSON_parse_text_Json, Hno in Hp.
    + by rewrite (JSON_parse_text_throws _ _ Hp).
Qed.

(** C35: [JSON.parse] returns a value on the texts of the grammar of
    ECMA-404 and on no other, and the value is the one the text denotes:
    the recursive descent with its fuel and the grammar are the same
    relation between texts and values. *)
Theorem JSON_parse_text_grammar text v :
  JSON_parse_text text = Ok v ↔ Json text v.
Proof. split; [apply JSON_parse_text_Json|apply Json_JSON_parse_text]. Qed.

(** The grammar is unambiguous: a text denotes one value at most. *)
Lemma Json_unambiguous text v1 v2 : Json text v1 → Json text v2 → v1 = v2.
Proof. intros H1%Json_JSON_parse_text H2%Json_JSON_parse_text. congruence. Qed.

(** It is decidable whether a text is a JSON text: run the parser. *)
#[export] Instance Json_dec text : Decision (∃ v, Json text v).
Proof.
  destruct (JSON_parse_text text) as [v|e] eqn:Hp.
  - left. exists v. by apply JSON_parse_text_Json.
  - right. intros [v Hv%Json_JSON_parse_text]. congruence.
Defined.

(** What [JSON.stringify] prints is a JSON text that denotes the value
    printed. *)
Lemma stringify_Json v : printable v = true → Json (stringify v) v.
Proof. intros Hv. by apply JSON_parse_text_Json, JSON_parse_text_stringify. Qed.
