(* ===== verification/FieldService.v ===== *)
(** * FieldService: the mock service of [MockService.js]

    [FieldService.getField] returns a constant field definition.
    [FieldService.saveField] is an async function: it logs two lines, posts
    the data as JSON, then logs the answer; whatever fails inside is caught
    and logged, so the promise it returns is always fulfilled.

    The async function is modelled as a task that is resumed by the
    environment: [saveField] runs it up to the first [await] (the fetch),
    [resume] runs it from one [await] to the next.  The network decides the
    outcome of each [await]. *)

From S2P Require Import Prelude JsonApi Json.

#[local] Set Warnings "-clear-no-such-hyp".

(** ** Data *)

(** The object literal returned by [getField]. *)
Record Field : Type := mkField {
  f_label : string;
  f_required : bool;
  f_choices : list string;
  f_displayAlpha : bool;
  f_default : string
}.

(** The object [handleSubmit] passes to [saveField]. *)
Record SaveData : Type := mkSaveData {
  sd_label : string;
  sd_choices : list string;
  sd_defaultValue : string;
  sd_displayAlpha : bool
}.

#[export] Instance Field_eq_dec : EqDecision Field.
Proof. solve_decision. Defined.

#[export] Instance SaveData_eq_dec : EqDecision SaveData.
Proof. solve_decision. Defined.

(** The argument of [fetch]: the URL and the init object. *)
Record Request : Type := mkRequest {
  rq_url : string;
  rq_method : string;
  rq_headers : list (string * string);
  rq_body : string
}.

(** What the component can observe of a response: [response.ok],
    [response.status] and the text of the body, [None] when reading the
    body fails. *)
Record Response : Type := mkResponse {
  rs_ok : bool;
  rs_status : nat;
  rs_body : option string
}.

#[export] Instance Request_eq_dec : EqDecision Request.
Proof. solve_decision. Defined.

#[export] Instance Response_eq_dec : EqDecision Response.
Proof. solve_decision. Defined.

(** An argument of a console call. *)
Inductive console_arg : Type :=
| CText (s : string)
| CData (d : SaveData)
| CJson (v : json)
| CStatus (n : nat)
| CError (e : exn).

(** One line of the console. *)
Inductive console_line : Type :=
| console_log (args : list console_arg)
| console_error (args : list console_arg).

(** Where a call of [saveField] is suspended. *)
Inductive SaveTask : Type :=
| AwaitFetch
| AwaitBody (r : Response)
| Fulfilled.

#[export] Instance SaveTask_inhabited : Inhabited SaveTask :=
  populate Fulfilled.

(** How the environment settles the promise the task awaits. *)
Inductive Settlement : Type :=
| FetchResolves (r : Response)
| FetchRejects
| BodyArrives.

#[export] Instance SaveTask_eq_dec : EqDecision SaveTask.
Proof. solve_decision. Defined.

#[export] Instance Settlement_eq_dec : EqDecision Settlement.
Proof. solve_decision. Defined.

(** ** [getField] *)

(** The parameter [id] is accepted and ignored. *)
Definition getField (id : jsval) : Field := {|
  f_label := "Sales region";
  f_required := false;
  f_choices := [
    "Asia";
    "Australia";
    "Western Europe";
    "North America";
    "Eastern Europe";
    "Latin America";
    "Middle East and Africa"
  ];
  f_displayAlpha := true;
  f_default := "North America"
|}.

(** ** [saveField] *)

(** The data as the value [JSON.stringify] receives: an object with the
    four members in the order of the literal. *)
Definition SaveData_json (d : SaveData) : json :=
  JObject [
    (wide "label", JString (wide (sd_label d)));
    (wide "choices", JArray ((λ c, JString (wide c)) <$> sd_choices d));
    (wide "defaultValue", JString (wide (sd_defaultValue d)));
    (wide "displayAlpha", JBool (sd_displayAlpha d))
  ].

Definition endpoint : string :=
  "http://www.mocky.io/v2/566061f21200008e3aabd919".

Section service.
Context `{!JsonCodec}.

(** The request built for [fetch]. *)
Definition saveField_request (data : SaveData) : Request := {|
  rq_url := endpoint;
  rq_method := "POST";
  rq_headers := [("Content-Type", "application/json")];
  rq_body := JSON_stringify (SaveData_json data)
|}.

(** The call itself: the code before the first [await].  It returns the
    lines logged, the request issued and the suspended task. *)
Definition saveField (data : SaveData)
    : list console_line * Request * SaveTask :=
  ([console_log [CText "Function Called: saveField"];
    console_log [CText "Posted Data:"; CData data]],
   saveField_request data,
   AwaitFetch).

(** [await response.json()]: the body is read and parsed.  A body that
    cannot be read rejects the promise with a [TypeError], a body that is
    no JSON text with what [JSON.parse] throws. *)
Definition response_json (r : Response) : result json :=
  match rs_body r with
  | None => Throw TypeError
  | Some text => JSON_parse text
  end.

(** The [catch] clause. *)
Definition saveField_catch (error : exn) : list console_line * SaveTask :=
  ([console_error [CText "Error posting data:"; CError error]], Fulfilled).

(** The task resumed with the settlement of the promise it awaits.  A
    settlement the task does not wait for leaves it as it is.  The
    promise of [fetch] is rejected with a [TypeError]: by the Fetch
    standard that is the error of every failed request, and the call
    passes no signal by which it could be aborted. *)
Definition resume (t : SaveTask) (o : Settlement)
    : list console_line * SaveTask :=
  match t, o with
  | AwaitFetch, FetchResolves response =>
      if rs_ok response then ([], AwaitBody response)
      else ([console_error [CText "Server responded with status:";
                            CStatus (rs_status response)]], Fulfilled)
  | AwaitFetch, FetchRejects => saveField_catch TypeError
  | AwaitBody response, BodyArrives =>
      match response_json response with
      | Ok responseData =>
          ([console_log [CText "Server Response:"; CJson responseData]],
           Fulfilled)
      | Throw error => saveField_catch error
      end
  | _, _ => ([], t)
  end.

(** The settlement a task waits for. *)
Definition expects (t : SaveTask) (o : Settlement) : bool :=
  match t, o with
  | AwaitFetch, (FetchResolves _ | FetchRejects) => true
  | AwaitBody _, BodyArrives => true
  | _, _ => false
  end.

(** A whole run: the task resumed with a list of settlements, the lines
    logged on the way collected. *)
Fixpoint resume_all (t : SaveTask) (os : list Settlement)
    : list console_line * SaveTask :=
  match os with
  | [] => ([], t)
  | o :: os' =>
      let '(l1, t1) := resume t o in
      let '(l2, t2) := resume_all t1 os' in
      (l1 ++ l2, t2)
  end.

(** Number of [await]s left before the promise is fulfilled, at most. *)
Definition awaits_left (t : SaveTask) : nat :=
  match t with
  | AwaitFetch => 2
  | AwaitBody _ => 1
  | Fulfilled => 0
  end.

(** ** [getField]: the data it returns *)

Lemma getField_const id1 id2 : getField id1 = getField id2.
Proof. done. Qed.

(** The default definition satisfies the data model: the choices are
    distinct, none contains a line feed or is empty, there are at most 50,
    and the default value is one of them. *)
Lemma getField_choices_NoDup id : NoDup (f_choices (getField id)).
Proof. apply (bool_decide_unpack _). by vm_compute. Qed.

Lemma getField_default_elem id :
  f_default (getField id) ∈ f_choices (getField id).
Proof. apply (bool_decide_unpack _). by vm_compute. Qed.

Lemma getField_choices_length id : length (f_choices (getField id)) = 7.
Proof. done. Qed.

(** ** [saveField]: what is sent *)

Lemma saveField_posts data :
  let '(_, rq, _) := saveField data in
  rq_url rq = endpoint ∧ rq_method rq = "POST" ∧
  rq_headers rq = [("Content-Type", "application/json")] ∧
  rq_body rq = JSON_stringify (SaveData_json data).
Proof. done. Qed.

Lemma SaveData_json_printable d : printable (SaveData_json d) = true.
Proof.
  unfold SaveData_json. cbn [printable forallb fst snd].
  rewrite !wide_units_small. cbn [andb].
  rewrite bool_decide_eq_true_2.
  - rewrite !andb_true_r. induction (sd_choices d) as [|c l IH]; [done|].
    rewrite fmap_cons. cbn [forallb printable].
    by rewrite wide_units_small, IH.
  - apply (bool_decide_unpack _). by vm_compute.
Qed.

(** The server can read back what was posted. *)
Lemma saveField_body_parses data :
  JSON_parse (rq_body (saveField_request data)) = Ok (SaveData_json data).
Proof. apply JSON_parse_stringify, SaveData_json_printable. Qed.

(** The encoding of the data loses nothing. *)
Lemma SaveData_json_inj : Inj (=) (=) SaveData_json.
Proof.
  intros [l1 c1 d1 a1] [l2 c2 d2 a2] [= Hl Hc Hd ->].
  apply wide_inj in Hl, Hd. subst. f_equal.
  eapply (list_fmap_eq_inj (λ c, JString (wide c))); [|done].
  by intros x y [= ?%wide_inj].
Qed.

(** ** [saveField]: every run ends, and nothing is thrown *)

(** Each settlement the task waits for brings it closer to the end. *)
Lemma resume_awaits_left t o :
  expects t o = true → awaits_left (resume t o).2 < awaits_left t.
Proof.
  destruct t, o; simpl; try done; intros _.
  - case_match; simpl; lia.
  - lia.
  - case_match; simpl; lia.
Qed.

(** A settlement the task does not wait for changes nothing. *)
Lemma resume_unexpected t o : expects t o = false → resume t o = ([], t).
Proof. by destruct t, o. Qed.

Lemma resume_Fulfilled o : resume Fulfilled o = ([], Fulfilled).
Proof. done. Qed.

(** The three ways a call can go, with what is logged in each. *)
Lemma resume_all_rejected :
  resume_all AwaitFetch [FetchRejects] =
  ([console_error [CText "Error posting data:"; CError TypeError]],
   Fulfilled).
Proof. done. Qed.

Lemma resume_all_not_ok r :
  rs_ok r = false →
  resume_all AwaitFetch [FetchResolves r] =
  ([console_error [CText "Server responded with status:";
                   CStatus (rs_status r)]], Fulfilled).
Proof. intros Hr. simpl. by rewrite Hr. Qed.

Lemma resume_all_ok r :
  rs_ok r = true →
  resume_all AwaitFetch [FetchResolves r; BodyArrives] =
  (match response_json r with
   | Ok v => [console_log [CText "Server Response:"; CJson v]]
   | Throw e => [console_error [CText "Error posting data:"; CError e]]
   end, Fulfilled).
Proof. intros Hr. simpl. rewrite Hr. simpl. by destruct (response_json r). Qed.

(** Whatever the network does, once the awaited promises have settled the
    promise of [saveField] is fulfilled, having logged exactly one more
    line.  [o] is the outcome of the fetch, [None] for a rejection; at
    most one more settlement is awaited. *)
Lemma resume_all_fulfils (o : option Response) :
  ∃ rest line,
    length rest ≤ 1 ∧
    resume_all AwaitFetch (from_option FetchResolves FetchRejects o :: rest)
    = ([line], Fulfilled).
Proof.
  destruct o as [r|]; cbn [from_option]; [destruct (rs_ok r) eqn:Hr|].
  - exists [BodyArrives],
      (match response_json r with
       | Ok v => console_log [CText "Server Response:"; CJson v]
       | Throw e => console_error [CText "Error posting data:"; CError e]
       end).
    split; [done|]. rewrite (resume_all_ok r Hr). by destruct (response_json r).
  - eexists [], _. split; [simpl; lia|]. by rewrite (resume_all_not_ok r Hr).
  - eexists [], _. split; [simpl; lia|]. done.
Qed.

(** Settlements that arrive after the end are ignored. *)
Lemma resume_all_Fulfilled os : resume_all Fulfilled os = ([], Fulfilled).
Proof. induction os as [|o os IH]; [done|]. simpl. by rewrite IH. Qed.

End service.

#[export] Hint Resolve getField_choices_NoDup getField_default_elem : form.

(** ** The task, run *)

Lemma resume_awaits_left_witness :
  awaits_left (resume AwaitFetch (FetchResolves (mkResponse true 200 None))).2
  < awaits_left AwaitFetch.
Proof. by apply resume_awaits_left. Defined.
