(* ===== verification/FormState.v ===== *)
(** * FormState: the hooks of [FieldBuilderForm] and React's batching

    The component declares seven state hooks ([useState], lines 16-22 and
    104-109 of [FieldBuilderForm.js]).  A render reads all of them; a
    handler or an effect created by that render sees those values for as
    long as it runs, and each call of a setter is queued.  React applies the
    queue, in call order, before the next render.

    The record [Hooks] is the state, [update] the queued setter calls,
    [commit] the application of a queue.  The text hooks and the flag hook
    are polymorphic in the type of their values: the component stores
    strings and a boolean there ([State]), but the draft loader stores
    whatever the parsed draft holds, so file [Effects] instantiates the same
    definitions at JSON values.

    Handlers are scripts in the [writer] monad of the calls defined
    here: a setter call, or a call of [FieldService.saveField] with the
    setter calls of its [finally] callback. *)

From S2P Require Import Prelude FieldService.

#[local] Set Warnings "-clear-no-such-hyp".

(** ** State *)

(** The shape shared by the draft object (lines 38-43) and by the value of
    the [initialData] hook (lines 104-109 and 116-121). *)
Record FormData : Type := mkFormData {
  fd_label : string;
  fd_choices : string;
  fd_defaultValue : string;
  fd_displayAlpha : bool
}.

#[export] Instance FormData_eq_dec : EqDecision FormData.
Proof. solve_decision. Defined.

(** The seven hooks.  [T] is the type of the values of the three text
    hooks, [B] of the order flag. *)
Record Hooks (T B : Type) : Type := mkHooks {
  label : T;
  choices : T;
  defaultValue : T;
  displayAlpha : B;
  validationErrors : list string;
  isLoading : bool;
  initialData : FormData
}.

Arguments mkHooks {T B} _ _ _ _ _ _ _.
Arguments label {T B} _.
Arguments choices {T B} _.
Arguments defaultValue {T B} _.
Arguments displayAlpha {T B} _.
Arguments validationErrors {T B} _.
Arguments isLoading {T B} _.
Arguments initialData {T B} _.

(** The state of the component between events. *)
Definition State : Type := Hooks string bool.

#[export] Instance Hooks_eq_dec `{EqDecision T, EqDecision B} :
  EqDecision (Hooks T B).
Proof. solve_decision. Defined.

(** The arguments of the seven [useState] calls. *)
Definition initialState : State := {|
  label := "";
  choices := "";
  defaultValue := "";
  displayAlpha := true;
  validationErrors := [];
  isLoading := false;
  initialData := {|
    fd_label := "";
    fd_choices := "";
    fd_defaultValue := "";
    fd_displayAlpha := true
  |}
|}.

(** ** Setter calls *)

(** One constructor per setter returned by [useState]. *)
Inductive update (T B : Type) : Type :=
| SetLabel (v : T)
| SetChoices (v : T)
| SetDefaultValue (v : T)
| SetDisplayAlpha (v : B)
| SetValidationErrors (v : list string)
| SetIsLoading (v : bool)
| SetInitialData (v : FormData).

Arguments SetLabel {T B} v.
Arguments SetChoices {T B} v.
Arguments SetDefaultValue {T B} v.
Arguments SetDisplayAlpha {T B} v.
Arguments SetValidationErrors {T B} v.
Arguments SetIsLoading {T B} v.
Arguments SetInitialData {T B} v.

#[export] Instance update_eq_dec `{EqDecision T, EqDecision B} :
  EqDecision (update T B).
Proof. solve_decision. Defined.

(** A setter called with a value replaces the value of its hook. *)
Definition apply_update {T B} (s : Hooks T B) (u : update T B) : Hooks T B :=
  match u with
  | SetLabel v =>
      mkHooks v (choices s) (defaultValue s) (displayAlpha s)
        (validationErrors s) (isLoading s) (initialData s)
  | SetChoices v =>
      mkHooks (label s) v (defaultValue s) (displayAlpha s)
        (validationErrors s) (isLoading s) (initialData s)
  | SetDefaultValue v =>
      mkHooks (label s) (choices s) v (displayAlpha s)
        (validationErrors s) (isLoading s) (initialData s)
  | SetDisplayAlpha v =>
      mkHooks (label s) (choices s) (defaultValue s) v
        (validationErrors s) (isLoading s) (initialData s)
  | SetValidationErrors v =>
      mkHooks (label s) (choices s) (defaultValue s) (displayAlpha s)
        v (isLoading s) (initialData s)
  | SetIsLoading v =>
      mkHooks (label s) (choices s) (defaultValue s) (displayAlpha s)
        (validationErrors s) v (initialData s)
  | SetInitialData v =>
      mkHooks (label s) (choices s) (defaultValue s) (displayAlpha s)
        (validationErrors s) (isLoading s) v
  end.

(** The queue of one batch applied in call order: the state of the next
    render. *)
Definition commit {T B} (s : Hooks T B) (us : list (update T B)) : Hooks T B :=
  foldl apply_update s us.

(** The values of a state mapped through [f] and [g]. *)
Definition hooks_map {T B T' B'} (f : T → T') (g : B → B')
    (s : Hooks T B) : Hooks T' B' :=
  mkHooks (f (label s)) (f (choices s)) (f (defaultValue s))
    (g (displayAlpha s)) (validationErrors s) (isLoading s) (initialData s).

Definition update_map {T B T' B'} (f : T → T') (g : B → B')
    (u : update T B) : update T' B' :=
  match u with
  | SetLabel v => SetLabel (f v)
  | SetChoices v => SetChoices (f v)
  | SetDefaultValue v => SetDefaultValue (f v)
  | SetDisplayAlpha v => SetDisplayAlpha (g v)
  | SetValidationErrors v => SetValidationErrors v
  | SetIsLoading v => SetIsLoading v
  | SetInitialData v => SetInitialData v
  end.

(** The four editable hooks as one object: the draft of line 38. *)
Definition fields (s : State) : FormData := {|
  fd_label := label s;
  fd_choices := choices s;
  fd_defaultValue := defaultValue s;
  fd_displayAlpha := displayAlpha s
|}.

(** Two states with the same four editable hooks.  The persist effect,
    validation and the data submitted do not tell them apart. *)
Definition same_fields (s1 s2 : State) : Prop := fields s1 = fields s2.

#[export] Instance same_fields_equiv : Equivalence same_fields.
Proof.
  unfold same_fields. split; [by intros ?|by intros ? ?|].
  intros ? ? ? ? ?. congruence.
Qed.

#[export] Instance fields_proper : Proper (same_fields ==> (=)) fields.
Proof. by intros ? ? ?. Qed.

(** ** Calls and scripts *)

(** What a handler can do besides computing: call a setter, or call
    [FieldService.saveField(data)] and attach a [finally] callback, given
    by the setter calls it makes. *)
Inductive call : Type :=
| SetState (u : update string bool)
| CallSaveField (data : SaveData) (finally : list (update string bool)).

#[export] Instance call_eq_dec : EqDecision call.
Proof. solve_decision. Defined.

(** A handler body. *)
Abbreviation script := (writer call).

(** The setters, as commands of a script. *)
Definition setLabel (v : string) : script unit :=
  tell (SetState (SetLabel v)).
Definition setChoices (v : string) : script unit :=
  tell (SetState (SetChoices v)).
Definition setDefaultValue (v : string) : script unit :=
  tell (SetState (SetDefaultValue v)).
Definition setDisplayAlpha (v : bool) : script unit :=
  tell (SetState (SetDisplayAlpha v)).
Definition setValidationErrors (v : list string) : script unit :=
  tell (SetState (SetValidationErrors v)).
Definition setIsLoading (v : bool) : script unit :=
  tell (SetState (SetIsLoading v)).
Definition setInitialData (v : FormData) : script unit :=
  tell (SetState (SetInitialData v)).

(** The setter calls of a log, in order. *)
Definition updates_of (log : list call) : list (update string bool) :=
  omap (λ a, match a with SetState u => Some u | _ => None end) log.

(** The service calls of a log, in order. *)
Definition calls_of (log : list call)
    : list (SaveData * list (update string bool)) :=
  omap (λ a, match a with CallSaveField d k => Some (d, k) | _ => None end)
    log.

(** The state after a handler has run against [s]. *)
Definition after {A} (s : State) (h : script A) : State :=
  commit s (updates_of (emitted h)).

(** ** [commit] *)

Section commit.
Context {T B : Type}.
Implicit Types (s : Hooks T B) (u : update T B) (us : list (update T B)).

Lemma commit_nil s : commit s [] = s.
Proof. done. Qed.

Lemma commit_cons s u us : commit s (u :: us) = commit (apply_update s u) us.
Proof. done. Qed.

Lemma commit_app s us1 us2 :
  commit s (us1 ++ us2) = commit (commit s us1) us2.
Proof. apply foldl_app. Qed.

Lemma commit_snoc s us u : commit s (us ++ [u]) = apply_update (commit s us) u.
Proof. by rewrite commit_app. Qed.

(** The same setter called twice: the second call wins. *)
Lemma apply_update_shadow s u1 u2 :
  match u1, u2 with
  | SetLabel _, SetLabel _ | SetChoices _, SetChoices _
  | SetDefaultValue _, SetDefaultValue _
  | SetDisplayAlpha _, SetDisplayAlpha _
  | SetValidationErrors _, SetValidationErrors _
  | SetIsLoading _, SetIsLoading _ | SetInitialData _, SetInitialData _ =>
      apply_update (apply_update s u1) u2 = apply_update s u2
  | _, _ => True
  end.
Proof. by destruct u1, u2. Qed.

(** Setting a hook to the value it has changes nothing. *)
Lemma hooks_eta s :
  mkHooks (label s) (choices s) (defaultValue s) (displayAlpha s)
    (validationErrors s) (isLoading s) (initialData s) = s.
Proof. by destruct s. Qed.

End commit.

(** [commit] commutes with a change of the type of values. *)
Lemma commit_hooks_map {T B T' B'} (f : T → T') (g : B → B')
    (s : Hooks T B) (us : list (update T B)) :
  commit (hooks_map f g s) (update_map f g <$> us)
  = hooks_map f g (commit s us).
Proof.
  revert s. induction us as [|u us IH]; intros s; [done|].
  rewrite fmap_cons, !commit_cons, <-IH. by destruct u.
Qed.

(** ** Logs *)

Lemma updates_of_app l1 l2 :
  updates_of (l1 ++ l2) = updates_of l1 ++ updates_of l2.
Proof. apply omap_app. Qed.

Lemma calls_of_app l1 l2 : calls_of (l1 ++ l2) = calls_of l1 ++ calls_of l2.
Proof. apply omap_app. Qed.

Lemma after_bind {A B} (s : State) (h : script A) (k : A → script B) :
  after s (h ≫= k) = commit (after s h) (updates_of (emitted (k (value h)))).
Proof. unfold after. by rewrite emitted_bind, updates_of_app, commit_app. Qed.

(** ** States with the same fields *)

Lemma same_fields_iff s1 s2 :
  same_fields s1 s2 ↔
  label s1 = label s2 ∧ choices s1 = choices s2 ∧
  defaultValue s1 = defaultValue s2 ∧ displayAlpha s1 = displayAlpha s2.
Proof.
  unfold same_fields, fields. split; [by intros [= ? ? ? ?]|].
  by intros (-> & -> & -> & ->).
Qed.

(** The three hooks that are not fields can be set freely. *)
Lemma same_fields_apply_update s u :
  match u with
  | SetValidationErrors _ | SetIsLoading _ | SetInitialData _ =>
      same_fields (apply_update s u) s
  | _ => True
  end.
Proof. by destruct u. Qed.

#[export] Hint Rewrite @commit_nil @commit_cons @commit_app updates_of_app
  calls_of_app : form_rw.
