(* ===== verification/Controller.v ===== *)
(** * Controller: what the form promises

    The form seen from outside, without hooks, batches, effects or
    promises: a controller that holds the four fields being edited, the
    rules the last validation found broken, a loading flag, the snapshot
    taken at mount, the persisted draft, the number of saves that have not
    settled yet and the definitions submitted so far.  Each user action
    and each end of a save is one atomic command.

    This is the contract file [Refinement] proves the page of [Machine]
    implements.  Where the behaviour of the code is not what one would
    expect from the operation's name, the contract follows the code and
    says so: the definition submitted is the one before the default value
    was appended, and the loading flag is raised by every Submit but lowered
    at once when nothing had to be appended. *)

From S2P Require Import Prelude JsString FieldService FormState.

#[local] Set Warnings "-clear-no-such-hyp".

(** ** State *)

(** The three rules of validation. *)
Inductive rule : Type :=
| LabelRequired
| NoDuplicates
| AtMost50.

#[export] Instance rule_eq_dec : EqDecision rule.
Proof. solve_decision. Defined.

Record Controller : Type := mkController {
  c_fields : FormData;
  c_broken : list rule;
  c_loading : bool;
  c_initial : FormData;
  c_draft : option FormData;
  c_inflight : nat;
  c_sent : list SaveData
}.

#[export] Instance Controller_eq_dec : EqDecision Controller.
Proof. solve_decision. Defined.

(** ** Validation *)

(** The choices of a form, one per line of its text. *)
Definition choice_lines (f : FormData) : list string :=
  split LF (fd_choices f).

(** The rules a form breaks, in the order they are reported. *)
Definition broken (f : FormData) : list rule :=
  (if decide (fd_label f = "") then [LabelRequired] else []) ++
  (if decide (NoDup (choice_lines f)) then [] else [NoDuplicates]) ++
  (if decide (length (choice_lines f) ≤ 50) then [] else [AtMost50]).

(** The definition a form submits. *)
Definition definition_of (f : FormData) : SaveData := {|
  sd_label := fd_label f;
  sd_choices := choice_lines f;
  sd_defaultValue := fd_defaultValue f;
  sd_displayAlpha := fd_displayAlpha f
|}.

(** The form with its default value as one more choice. *)
Definition with_default (f : FormData) : FormData :=
  mkFormData (fd_label f)
    (template_lines (fd_choices f) (fd_defaultValue f))
    (fd_defaultValue f) (fd_displayAlpha f).

Definition empty_form : FormData := mkFormData "" "" "" true.

(** ** Commands *)

Inductive command : Type :=
| EditLabel (v : string)
| EditDefaultValue (v : string)
| EditChoices (v : string)
| EditOrder (alphabetical : bool)
| Submit
| Clear
| Cancel
| SaveProgress
| SaveSettled.

#[export] Instance command_eq_dec : EqDecision command.
Proof. solve_decision. Defined.

(** The fields replaced; the draft follows them. *)
Definition edit (f : FormData) (c : Controller) : Controller :=
  mkController f (c_broken c) (c_loading c) (c_initial c) (Some f)
    (c_inflight c) (c_sent c).

Definition submit (c : Controller) : Controller :=
  let f := c_fields c in
  match broken f with
  | [] =>
      let appended := negb (includes (fd_choices f) (fd_defaultValue f)) in
      let f' := if appended then with_default f else f in
      mkController f' [] appended (c_initial c) (Some f')
        (S (c_inflight c)) (c_sent c ++ [definition_of f])
  | rules =>
      mkController f rules true (c_initial c) (c_draft c)
        (c_inflight c) (c_sent c)
  end.

Definition reset_to (f : FormData) (c : Controller) : Controller :=
  mkController f [] (c_loading c) (c_initial c) (Some f)
    (c_inflight c) (c_sent c).

(** A save ends: the loading flag is lowered.  Without a save in flight
    there is nothing to end. *)
Definition save_settled (c : Controller) : Controller :=
  match c_inflight c with
  | 0 => c
  | S n =>
      mkController (c_fields c) (c_broken c) false (c_initial c) (c_draft c)
        n (c_sent c)
  end.

Definition perform (c : Controller) (cmd : command) : Controller :=
  let f := c_fields c in
  match cmd with
  | EditLabel v =>
      edit (mkFormData v (fd_choices f) (fd_defaultValue f)
              (fd_displayAlpha f)) c
  | EditDefaultValue v =>
      edit (mkFormData (fd_label f) (fd_choices f) v (fd_displayAlpha f)) c
  | EditChoices v =>
      edit (mkFormData (fd_label f) v (fd_defaultValue f)
              (fd_displayAlpha f)) c
  | EditOrder a =>
      edit (mkFormData (fd_label f) (fd_choices f) (fd_defaultValue f) a) c
  | Submit => submit c
  | Clear => reset_to empty_form c
  | Cancel => reset_to (c_initial c) c
  | SaveProgress => c
  | SaveSettled => save_settled c
  end.

Definition perform_all (c : Controller) (cmds : list command) : Controller :=
  foldl perform c cmds.

(** The controller right after a mount that found the field [f]. *)
Definition mounted (f : FormData) : Controller :=
  mkController f [] false f (Some f) 0 [].

(** ** What holds of every controller *)

(** The draft is the form, the snapshot is the field found at mount, and
    everything submitted broke no rule. *)
Definition consistent (f0 : FormData) (c : Controller) : Prop :=
  c_draft c = Some (c_fields c) ∧ c_initial c = f0 ∧
  Forall (λ d, sd_label d ≠ "" ∧ NoDup (sd_choices d) ∧
               length (sd_choices d) ≤ 50) (c_sent c).

(** ** Validation *)

Lemma broken_nil f :
  broken f = [] ↔
  fd_label f ≠ "" ∧ NoDup (choice_lines f) ∧ length (choice_lines f) ≤ 50.
Proof.
  unfold broken. repeat case_decide; simpl; naive_solver.
Qed.

(** A form that breaks no rule still breaks none after its default value
    was appended, unless that takes it over the limit or the default value
    has several lines. *)
Lemma broken_with_default f :
  broken f = [] → includes (fd_choices f) (fd_defaultValue f) = false →
  count_char LF (fd_defaultValue f) = 0 → length (choice_lines f) < 50 →
  broken (with_default f) = [].
Proof.
  intros (Hl & Hnd & _)%broken_nil Hi Hd Hlen. apply broken_nil.
  unfold choice_lines, with_default in *; simpl.
  rewrite split_template_lines, (proj2 (split_single LF _) Hd).
  rewrite length_app. simpl. split_and!; [done| |lia].
  apply NoDup_app. split_and!; [done| |apply NoDup_singleton].
  intros x Hx ->%list_elem_of_singleton.
  apply (elem_of_split_includes LF) in Hx. congruence.
Qed.

(** ** Commands *)

Lemma perform_all_app c cmds1 cmds2 :
  perform_all c (cmds1 ++ cmds2) = perform_all (perform_all c cmds1) cmds2.
Proof. apply foldl_app. Qed.

(** Submit on a form that breaks a rule changes nothing but the rules
    shown and the loading flag. *)
Lemma submit_broken c :
  broken (c_fields c) ≠ [] →
  submit c
  = mkController (c_fields c) (broken (c_fields c)) true (c_initial c)
      (c_draft c) (c_inflight c) (c_sent c).
Proof. unfold submit. by destruct (broken _). Qed.

Lemma consistent_mounted f : consistent f (mounted f).
Proof. by split_and!. Qed.

Lemma consistent_perform f0 c cmd :
  consistent f0 c → consistent f0 (perform c cmd).
Proof.
  intros (Hd & Hi & Hs). destruct cmd; try by split_and!.
  - unfold perform, submit. destruct (broken (c_fields c)) eqn:Hb; [|done].
    split_and!; [done..|]. apply Forall_app. split; [done|].
    constructor; [|done]. by apply broken_nil.
  - unfold perform, save_settled. by destruct (c_inflight c).
Qed.

Lemma consistent_perform_all f0 c cmds :
  consistent f0 c → consistent f0 (perform_all c cmds).
Proof.
  revert c. induction cmds as [|cmd cmds IH]; intros c Hc; [done|].
  by apply IH, consistent_perform.
Qed.

(** ** The loading flag *)

(** While no save is in flight, only Submit changes the loading flag. *)
Lemma perform_quiet c cmd :
  c_inflight c = 0 → cmd ≠ Submit →
  c_inflight (perform c cmd) = 0 ∧ c_loading (perform c cmd) = c_loading c.
Proof.
  intros Hc Hcmd. destruct cmd; try done.
  unfold perform, save_settled. by rewrite Hc.
Qed.

Lemma perform_all_quiet c cmds :
  c_inflight c = 0 → Submit ∉ cmds →
  c_inflight (perform_all c cmds) = 0 ∧
  c_loading (perform_all c cmds) = c_loading c.
Proof.
  revert c. induction cmds as [|cmd cmds IH]; intros c Hc Hcmds; [done|].
  apply not_elem_of_cons in Hcmds as [Hcmd Hcmds].
  destruct (perform_quiet c cmd Hc) as [Hc' Hl]; [done|].
  destruct (IH _ Hc' Hcmds) as [? ?]. simpl. split; congruence.
Qed.

(** A Submit that breaks a rule, with no save in flight, raises the
    loading flag until the next Submit. *)
Lemma submit_broken_stuck c cmds :
  c_inflight c = 0 → broken (c_fields c) ≠ [] → Submit ∉ cmds →
  c_loading (perform_all (perform c Submit) cmds) = true.
Proof.
  intros Hc Hb Hcmds. cbn [perform]. rewrite submit_broken by done.
  by destruct (perform_all_quiet
    (mkController (c_fields c) (broken (c_fields c)) true (c_initial c)
       (c_draft c) (c_inflight c) (c_sent c)) cmds Hc Hcmds) as [_ ->].
Qed.
