(* ===== verification/Validate.v ===== *)
(** * Validate: [validateForm]

    [validateForm] (lines 56-69 of [FieldBuilderForm.js]) checks three
    rules on the label and on the lines of the choices text, collects one
    message per broken rule, stores the messages in the [validationErrors]
    hook and returns whether there was none.  The rules are checked
    independently, in a fixed order. *)

From S2P Require Import Prelude JsString JsSet FieldService FormState.

#[local] Set Warnings "-clear-no-such-hyp".

(** ** Definitions *)

(** The three messages. *)
Definition msg_label_required : string := "Label is required.".
Definition msg_duplicates : string := "Duplicate choices are not allowed.".
Definition msg_too_many : string := "There cannot be more than 50 choices.".

(** [!label] on a string: true on the empty string only. *)
Definition not_ (s : string) : bool := bool_decide (s = "").

(** [errors.push(x)]. *)
Definition push {A} (errors : list A) (x : A) : list A := errors ++ [x].

(** The function, statement by statement.  It reads [label] and [choices]
    from the state its closure captured. *)
Definition validateForm (s : State) : script bool :=
  let errors := [] in
  let errors :=
    if not_ (label s) then push errors msg_label_required else errors in
  let choiceList := split LF (choices s) in
  let errors :=
    if negb (Set_size (newSet choiceList) =? length choiceList)
    then push errors msg_duplicates else errors in
  let errors :=
    if 50 <? length choiceList then push errors msg_too_many else errors in
  setValidationErrors errors ;;
  mret (length errors =? 0).

(** The messages [validateForm] stores when run against [s]. *)
Definition reported (s : State) : list string :=
  validationErrors (after s (validateForm s)).

(** ** The three rules, as propositions *)

Definition label_missing (s : State) : Prop := label s = "".

Definition choices_repeat (s : State) : Prop :=
  ¬ NoDup (split LF (choices s)).

Definition choices_exceed (s : State) : Prop :=
  50 < length (split LF (choices s)).

#[export] Instance label_missing_dec s : Decision (label_missing s).
Proof. unfold label_missing. apply _. Defined.

#[export] Instance choices_repeat_dec s : Decision (choices_repeat s).
Proof. unfold choices_repeat. apply _. Defined.

#[export] Instance choices_exceed_dec s : Decision (choices_exceed s).
Proof. unfold choices_exceed. apply _. Defined.

(** ** What is stored and returned *)

(** One message per broken rule, in the order of the checks. *)
Lemma reported_eq s :
  reported s =
  (if decide (label_missing s) then [msg_label_required] else []) ++
  (if decide (choices_repeat s) then [msg_duplicates] else []) ++
  (if decide (choices_exceed s) then [msg_too_many] else []).
Proof.
  unfold reported, after, validateForm, not_, push, label_missing,
    choices_repeat, choices_exceed.
  fold (has_duplicates (split LF (choices s))).
  destruct (has_duplicates _) eqn:Hd;
    [apply has_duplicates_true in Hd | apply has_duplicates_false in Hd].
  all: destruct (Nat.ltb_spec 50 (length (split LF (choices s)))).
  all: repeat case_bool_decide; repeat case_decide; try done; lia.
Qed.

(** The only hook [validateForm] sets is [validationErrors]. *)
Lemma validateForm_emitted s :
  emitted (validateForm s) = [SetState (SetValidationErrors (reported s))].
Proof.
  unfold reported, after, validateForm.
  by repeat case_match.
Qed.

Lemma validateForm_after s :
  after s (validateForm s)
  = apply_update s (SetValidationErrors (reported s)).
Proof. unfold after. by rewrite validateForm_emitted. Qed.

(** The returned flag says whether a message was stored. *)
Lemma validateForm_value s :
  value (validateForm s) = bool_decide (reported s = []).
Proof.
  unfold reported, after, validateForm.
  repeat case_match; simpl; by repeat case_bool_decide.
Qed.

(** ** The rules, one by one *)

(** The three messages are different texts. *)
Lemma msgs_NoDup : NoDup [msg_label_required; msg_duplicates; msg_too_many].
Proof. apply (bool_decide_unpack _). by vm_compute. Qed.

(** The message about the label is stored exactly when the label is the
    empty string. *)
Lemma reported_label s : msg_label_required ∈ reported s ↔ label s = "".
Proof.
  rewrite reported_eq. fold (label_missing s).
  repeat case_decide; set_solver.
Qed.

(** The message about duplicates is stored exactly when two lines of the
    choices text are equal. *)
Lemma reported_duplicates s :
  msg_duplicates ∈ reported s ↔ ¬ NoDup (split LF (choices s)).
Proof.
  rewrite reported_eq. fold (choices_repeat s).
  repeat case_decide; set_solver.
Qed.

(** The message about the limit is stored exactly when the choices text
    has more than 50 lines. *)
Lemma reported_too_many s :
  msg_too_many ∈ reported s ↔ 50 < length (split LF (choices s)).
Proof.
  rewrite reported_eq. fold (choices_exceed s).
  repeat case_decide; set_solver.
Qed.

(** The messages come in the order of the checks, each at most once. *)
Lemma reported_sublist s :
  reported s `sublist_of` [msg_label_required; msg_duplicates; msg_too_many].
Proof.
  rewrite reported_eq.
  repeat case_decide; simpl; repeat (done || constructor).
Qed.

Lemma reported_nil s :
  reported s = [] ↔
  label s ≠ "" ∧ NoDup (split LF (choices s)) ∧
  length (split LF (choices s)) ≤ 50.
Proof.
  rewrite reported_eq.
  unfold label_missing, choices_repeat, choices_exceed.
  split.
  - intros Heq. repeat case_decide; simplify_eq/=.
    split_and!; [done..|lia].
  - intros (Hl & Hn & Hle).
    by rewrite !decide_False by (done || lia || naive_solver).
Qed.

(** C3: [validateForm] returns [true] exactly when the label is not empty,
    the lines of the choices text are pairwise different and there are at
    most 50 of them. *)
Theorem validateForm_true_iff s :
  value (validateForm s) = true ↔
  label s ≠ "" ∧ NoDup (split LF (choices s)) ∧
  length (split LF (choices s)) ≤ 50.
Proof. by rewrite validateForm_value, bool_decide_eq_true, reported_nil. Qed.

(** The rules are checked independently: a state can break all three, and
    then the three messages are stored in the order of the checks.  The
    state here has no label and 51 empty lines. *)
Theorem reported_all_three :
  reported (mkHooks "" (join (String LF "") (replicate 51 "")) "" true
              [] false (initialData initialState))
  = [msg_label_required; msg_duplicates; msg_too_many].
Proof. by vm_compute. Qed.

(** [validateForm] depends on the label and the choices only. *)
Lemma reported_ext s1 s2 :
  label s1 = label s2 → choices s1 = choices s2 → reported s1 = reported s2.
Proof.
  intros Hl Hc. destruct s1, s2; simplify_eq/=.
  unfold reported, after, validateForm; simpl. by repeat case_match.
Qed.

#[export] Instance reported_proper : Proper (same_fields ==> (=)) reported.
Proof.
  intros s1 s2 (? & ? & _)%same_fields_iff. by apply reported_ext.
Qed.

#[export] Hint Rewrite validateForm_emitted validateForm_value : form_rw.
