(* ===== verification/Handlers.v ===== *)
(** * Handlers: the event handlers of [FieldBuilderForm]

    [handleSubmit] (lines 71-92), [clearForm] (95-101), [cancelAndReset]
    (132-138) and the four inline [onChange] handlers of the inputs (lines
    147, 165, 172 and 181 of [FieldBuilderForm.js]).

    Each handler is a script run against the state [s] captured by its
    closure.  Reads go to [s], also after a setter was called: the setter
    calls only take effect when the script is committed. *)

From S2P Require Import Prelude JsString JsSet FieldService FormState Validate.

#[local] Set Warnings "-clear-no-such-hyp".

(** ** Definitions *)

(** The object literal of lines 82-87: built from the captured state. *)
Definition submit_data (s : State) : SaveData := {|
  sd_label := label s;
  sd_choices := split LF (choices s);
  sd_defaultValue := defaultValue s;
  sd_displayAlpha := displayAlpha s
|}.

(** [FieldService.saveField(data).finally(() => { setIsLoading(false) })]. *)
Definition saveField_finally (data : SaveData) : script unit :=
  tell (CallSaveField data [SetIsLoading false]).

Definition handleSubmit (s : State) : script unit :=
  setIsLoading true ;;
  validateForm s ≫= λ valid : bool,
  if valid then
    let newChoices := template_lines (choices s) (defaultValue s) in
    (if negb (includes (choices s) (defaultValue s))
     then setChoices newChoices
     else setIsLoading false) ;;
    let data := submit_data s in
    saveField_finally data
  else skip.

Definition clearForm (s : State) : script unit :=
  setLabel "" ;;
  setChoices "" ;;
  setDefaultValue "" ;;
  setDisplayAlpha true ;;
  setValidationErrors [].

Definition cancelAndReset (s : State) : script unit :=
  setLabel (fd_label (initialData s)) ;;
  setChoices (fd_choices (initialData s)) ;;
  setDefaultValue (fd_defaultValue (initialData s)) ;;
  setDisplayAlpha (fd_displayAlpha (initialData s)) ;;
  setValidationErrors [].

(** The [onChange] handlers; [value] is [e.target.value]. *)
Definition onChange_label (value : string) : script unit :=
  setLabel value.

Definition onChange_defaultValue (value : string) : script unit :=
  setDefaultValue value.

Definition onChange_choices (value : string) : script unit :=
  setChoices value.

Definition onChange_order (value : string) : script unit :=
  setDisplayAlpha (bool_decide (value = "alphabetical")).

(** The state is valid: [validateForm] would return [true]. *)
Definition valid (s : State) : Prop := reported s = [].

#[export] Instance valid_dec s : Decision (valid s).
Proof. unfold valid. apply _. Defined.

(** ** States with the same fields *)

#[export] Instance valid_proper : Proper (same_fields ==> iff) valid.
Proof. intros s1 s2 Hs. unfold valid. by rewrite Hs. Qed.

#[export] Instance submit_data_proper :
  Proper (same_fields ==> (=)) submit_data.
Proof.
  intros s1 s2 (Hl & Hc & Hd & Ha)%same_fields_iff.
  unfold submit_data. by rewrite Hl, Hc, Hd, Ha.
Qed.

(** ** [handleSubmit], branch by branch *)

Lemma validateForm_value_valid s :
  value (validateForm s) = true ↔ valid s.
Proof. by rewrite validateForm_value, bool_decide_eq_true. Qed.

(** The log of [handleSubmit] in each of its three branches. *)
Lemma handleSubmit_emitted s :
  emitted (handleSubmit s) =
  SetState (SetIsLoading true) ::
  SetState (SetValidationErrors (reported s)) ::
  if decide (valid s) then
    [ if includes (choices s) (defaultValue s)
      then SetState (SetIsLoading false)
      else SetState (SetChoices
                       (template_lines (choices s) (defaultValue s)));
      CallSaveField (submit_data s) [SetIsLoading false] ]
  else [].
Proof.
  unfold handleSubmit. rewrite !emitted_bind, validateForm_emitted.
  rewrite validateForm_value. unfold valid.
  case_bool_decide; case_decide; try done; simpl.
  by destruct (includes _ _).
Qed.

(** The state after [handleSubmit], in each of its three branches. *)
Lemma handleSubmit_after s :
  after s (handleSubmit s) =
  if decide (valid s) then
    if includes (choices s) (defaultValue s)
    then mkHooks (label s) (choices s) (defaultValue s) (displayAlpha s)
           [] false (initialData s)
    else mkHooks (label s) (template_lines (choices s) (defaultValue s))
           (defaultValue s) (displayAlpha s) [] true (initialData s)
  else mkHooks (label s) (choices s) (defaultValue s) (displayAlpha s)
         (reported s) true (initialData s).
Proof.
  unfold after. rewrite handleSubmit_emitted.
  case_decide as Hv; [|done]. rewrite Hv. by destruct (includes _ _).
Qed.

(** C1: Invalid state: the messages are stored, the loading flag is set and
    stays set, the service is not called. *)
Theorem handleSubmit_invalid s :
  ¬ valid s →
  after s (handleSubmit s)
  = mkHooks (label s) (choices s) (defaultValue s) (displayAlpha s)
      (reported s) true (initialData s)
  ∧ calls_of (emitted (handleSubmit s)) = [].
Proof.
  intros Hv. rewrite handleSubmit_after, handleSubmit_emitted.
  by rewrite !decide_False.
Qed.

(** C26: Valid state whose choices text does not contain the default value: the
    default value becomes a new last line, the loading flag is set, and
    the service is called once with the callback that clears the flag. *)
Theorem handleSubmit_append s :
  valid s → includes (choices s) (defaultValue s) = false →
  after s (handleSubmit s)
  = mkHooks (label s) (template_lines (choices s) (defaultValue s))
      (defaultValue s) (displayAlpha s) [] true (initialData s)
  ∧ calls_of (emitted (handleSubmit s))
    = [(submit_data s, [SetIsLoading false])].
Proof.
  intros Hv Hi. rewrite handleSubmit_after, handleSubmit_emitted.
  by rewrite !decide_True, Hi.
Qed.

(** Valid state whose choices text contains the default value: nothing is
    appended, the loading flag is cleared in the same batch that set it,
    and the service is called. *)
Theorem handleSubmit_included s :
  valid s → includes (choices s) (defaultValue s) = true →
  after s (handleSubmit s)
  = mkHooks (label s) (choices s) (defaultValue s) (displayAlpha s)
      [] false (initialData s)
  ∧ calls_of (emitted (handleSubmit s))
    = [(submit_data s, [SetIsLoading false])].
Proof.
  intros Hv Hi. rewrite handleSubmit_after, handleSubmit_emitted.
  by rewrite !decide_True, Hi.
Qed.

(** The service is called exactly when the state is valid, once, with the
    data of the captured state and the same callback. *)
Lemma handleSubmit_calls s :
  calls_of (emitted (handleSubmit s))
  = if decide (valid s) then [(submit_data s, [SetIsLoading false])] else [].
Proof.
  rewrite handleSubmit_emitted. case_decide; [|done].
  by destruct (includes _ _).
Qed.

(** ** What [handleSubmit] leaves in the state *)

(** [handleSubmit] never touches the label, the default value, the order
    flag or the initial data. *)
Lemma handleSubmit_frame s :
  let s' := after s (handleSubmit s) in
  label s' = label s ∧ defaultValue s' = defaultValue s ∧
  displayAlpha s' = displayAlpha s ∧ initialData s' = initialData s.
Proof.
  rewrite handleSubmit_after. case_decide; [destruct (includes _ _)|]; done.
Qed.

(** After [handleSubmit] the messages shown are those of the captured
    state. *)
Lemma handleSubmit_errors s :
  validationErrors (after s (handleSubmit s)) = reported s.
Proof.
  rewrite handleSubmit_after. case_decide as Hv; [|done].
  rewrite Hv. by destruct (includes _ _).
Qed.

(** The loading flag after [handleSubmit]: set unless the state was valid
    and already contained the default value. *)
Lemma handleSubmit_isLoading s :
  isLoading (after s (handleSubmit s))
  = negb (bool_decide (valid s) && includes (choices s) (defaultValue s)).
Proof.
  rewrite handleSubmit_after.
  case_decide;
    [rewrite bool_decide_eq_true_2 by done; destruct (includes _ _)
    |rewrite bool_decide_eq_false_2 by done]; done.
Qed.

(** The choices after [handleSubmit] always contain the default value when
    the state was valid. *)
Lemma handleSubmit_default_included s :
  valid s →
  includes (choices (after s (handleSubmit s))) (defaultValue s) = true.
Proof.
  intros Hv. rewrite handleSubmit_after, decide_True by done.
  destruct (includes (choices s) (defaultValue s)) eqn:Hi; [done|].
  apply template_lines_includes_r.
Qed.

(** The lines of the choices after an append: the old lines, then the
    lines of the default value. *)
Lemma handleSubmit_append_lines s :
  valid s → includes (choices s) (defaultValue s) = false →
  split LF (choices (after s (handleSubmit s)))
  = split LF (choices s) ++ split LF (defaultValue s).
Proof.
  intros Hv Hi. rewrite handleSubmit_after, decide_True, Hi by done.
  apply split_template_lines.
Qed.

(** C2: The data sent is older than the state: after an append the state has
    the lines of the default value, the data sent does not. *)
Lemma handleSubmit_append_stale s :
  valid s → includes (choices s) (defaultValue s) = false →
  ∀ data k, (data, k) ∈ calls_of (emitted (handleSubmit s)) →
  split LF (choices (after s (handleSubmit s)))
  = sd_choices data ++ split LF (defaultValue s)
  ∧ defaultValue s ∉ sd_choices data.
Proof.
  intros Hv Hi data k. rewrite handleSubmit_calls, decide_True by done.
  intros [= -> ->]%list_elem_of_singleton. split.
  - by apply handleSubmit_append_lines.
  - simpl. intros Hin%(elem_of_split_includes LF). congruence.
Qed.

(** An appended single-line default value keeps the lines distinct. *)
Lemma handleSubmit_append_NoDup s :
  valid s → includes (choices s) (defaultValue s) = false →
  count_char LF (defaultValue s) = 0 →
  NoDup (split LF (choices (after s (handleSubmit s)))).
Proof.
  intros Hv Hi Hd. rewrite handleSubmit_append_lines by done.
  rewrite (proj2 (split_single LF _) Hd).
  apply reported_nil in Hv as (_ & Hnd & _).
  apply NoDup_app. split_and!; [done| |apply NoDup_singleton].
  intros x Hx ->%list_elem_of_singleton.
  apply (elem_of_split_includes LF) in Hx. congruence.
Qed.

(** C40: The limit of 50 choices is checked before the default value is
    appended, on the choices the handler captured.  So a Save that passes
    validation and appends calls the service and can still leave more
    than 50 choices in the form.  The choices then have the old lines and
    those of the default value, which is at most 50 lines and those of
    the default value; and the form that is left breaks the limit exactly
    when the old lines and those of the default value are more than 50
    together. *)
Theorem handleSubmit_append_length s :
  valid s → includes (choices s) (defaultValue s) = false →
  let s' := after s (handleSubmit s) in
  let added := length (split LF (defaultValue s)) in
  calls_of (emitted (handleSubmit s))
  = [(submit_data s, [SetIsLoading false])] ∧
  length (split LF (choices s')) = length (split LF (choices s)) + added ∧
  length (split LF (choices s')) ≤ 50 + added ∧
  (msg_too_many ∈ reported s' ↔ 50 < length (split LF (choices s)) + added).
Proof.
  intros Hv Hi s' added.
  assert (length (split LF (choices s'))
          = length (split LF (choices s)) + added) as Hlen
    by (unfold s'; rewrite handleSubmit_append_lines by done;
        apply length_app).
  split_and!; [by rewrite handleSubmit_calls, decide_True|done| |].
  - apply reported_nil in Hv as (_ & _ & Hle). lia.
  - by rewrite reported_too_many, Hlen.
Qed.

(** ** [clearForm] and [cancelAndReset] *)

Lemma clearForm_after s :
  after s (clearForm s)
  = mkHooks "" "" "" true [] (isLoading s) (initialData s).
Proof. done. Qed.

Lemma clearForm_calls s : calls_of (emitted (clearForm s)) = [].
Proof. done. Qed.

Lemma cancelAndReset_after s :
  after s (cancelAndReset s)
  = mkHooks (fd_label (initialData s)) (fd_choices (initialData s))
      (fd_defaultValue (initialData s)) (fd_displayAlpha (initialData s))
      [] (isLoading s) (initialData s).
Proof. done. Qed.

Lemma cancelAndReset_fields s :
  fields (after s (cancelAndReset s)) = initialData s.
Proof. by destruct s as [? ? ? ? ? ? []]. Qed.

Lemma cancelAndReset_calls s : calls_of (emitted (cancelAndReset s)) = [].
Proof. done. Qed.

(** Both are idempotent. *)
Lemma clearForm_idemp s :
  let s' := after s (clearForm s) in after s' (clearForm s') = s'.
Proof. done. Qed.

Lemma cancelAndReset_idemp s :
  let s' := after s (cancelAndReset s) in after s' (cancelAndReset s') = s'.
Proof. done. Qed.

(** A cleared form is invalid: the label is missing. *)
Lemma clearForm_invalid s : ¬ valid (after s (clearForm s)).
Proof.
  unfold valid. intros (Hl & _)%reported_nil. by apply Hl.
Qed.

(** ** The [onChange] handlers *)

Lemma onChange_order_after s value :
  displayAlpha (after s (onChange_order value)) = true
  ↔ value = "alphabetical".
Proof. simpl. apply bool_decide_eq_true. Qed.

#[export] Hint Rewrite handleSubmit_calls handleSubmit_errors
  handleSubmit_isLoading clearForm_after cancelAndReset_after : form_rw.

(** ** The branches, run *)

(** Three states of the form: with a repeated choice; with a default
    value that is not among the choices; with one that is. *)
Definition ex_duplicate : State :=
  mkHooks "Region" (join (String LF "") ["Asia"; "Asia"]) "Asia" true
    [] false (initialData initialState).

Definition ex_append : State :=
  mkHooks "Region" (join (String LF "") ["Asia"; "Europe"]) "Africa" true
    [] false (initialData initialState).

Definition ex_included : State :=
  mkHooks "Region" (join (String LF "") ["Asia"; "Europe"]) "Europe" true
    [] false (initialData initialState).

Lemma handleSubmit_invalid_witness :
  after ex_duplicate (handleSubmit ex_duplicate)
  = mkHooks "Region" (join (String LF "") ["Asia"; "Asia"]) "Asia" true
      [msg_duplicates] true (initialData initialState)
  ∧ calls_of (emitted (handleSubmit ex_duplicate)) = [].
Proof. apply (handleSubmit_invalid ex_duplicate). by vm_compute. Defined.

Lemma handleSubmit_append_witness :
  after ex_append (handleSubmit ex_append)
  = mkHooks "Region" (join (String LF "") ["Asia"; "Europe"; "Africa"])
      "Africa" true [] true (initialData initialState)
  ∧ calls_of (emitted (handleSubmit ex_append))
    = [(mkSaveData "Region" ["Asia"; "Europe"] "Africa" true,
        [SetIsLoading false])].
Proof. apply (handleSubmit_append ex_append); by vm_compute. Defined.

Lemma handleSubmit_included_witness :
  after ex_included (handleSubmit ex_included)
  = mkHooks "Region" (join (String LF "") ["Asia"; "Europe"]) "Europe" true
      [] false (initialData initialState)
  ∧ calls_of (emitted (handleSubmit ex_included))
    = [(mkSaveData "Region" ["Asia"; "Europe"] "Europe" true,
        [SetIsLoading false])].
Proof. apply (handleSubmit_included ex_included); by vm_compute. Defined.

Lemma handleSubmit_append_stale_witness :
  split LF (choices (after ex_append (handleSubmit ex_append)))
  = ["Asia"; "Europe"] ++ ["Africa"]
  ∧ "Africa" ∉ ["Asia"; "Europe"].
Proof.
  apply (handleSubmit_append_stale ex_append eq_refl eq_refl
           (mkSaveData "Region" ["Asia"; "Europe"] "Africa" true)
           [SetIsLoading false]).
  vm_compute. left.
Defined.

(** A valid state with 50 one-letter lines and a default value that is not
    among them: the service is called with the 50, and the form is left
    with 51 lines, which the next Save rejects. *)
Definition ex_full : State :=
  mkHooks "Region"
    (join (String LF "")
       ((λ i, String (ascii_of_nat (65 + i)) "") <$> seq 0 50))
    "0" true [] false (initialData initialState).

Lemma handleSubmit_append_length_witness :
  let s' := after ex_full (handleSubmit ex_full) in
  let added := length (split LF (defaultValue ex_full)) in
  calls_of (emitted (handleSubmit ex_full))
  = [(submit_data ex_full, [SetIsLoading false])] ∧
  length (split LF (choices s')) = length (split LF (choices ex_full)) + added ∧
  length (split LF (choices s')) ≤ 50 + added ∧
  (msg_too_many ∈ reported s'
   ↔ 50 < length (split LF (choices ex_full)) + added).
Proof. apply (handleSubmit_append_length ex_full); by vm_compute. Defined.

Lemma handleSubmit_append_over :
  let s' := after ex_full (handleSubmit ex_full) in
  valid ex_full ∧ length (sd_choices (submit_data ex_full)) = 50 ∧
  length (split LF (choices s')) = 51 ∧ reported s' = [msg_too_many].
Proof. by vm_compute. Qed.

Lemma handleSubmit_append_NoDup_witness :
  NoDup (split LF (choices (after ex_append (handleSubmit ex_append)))).
Proof. apply (handleSubmit_append_NoDup ex_append); by vm_compute. Defined.
