(* ===== verification/Dom.v ===== *)
(** * Dom: element trees and the queries made on them

    A React component returns a tree of elements.  An element has a tag,
    a props object and children; a child is an element, a text, or the
    value [false] that [cond && <element>] leaves when the condition
    fails, which React renders as nothing.  A prop holds a string, a
    boolean or a function.

    This file is the tree, independent of the form: the type [node], its
    induction principle, the queries a page or a test makes
    ([getElementById], [getElementsByTagName], [textContent], ...) and
    [keeps], the rule by which React keeps the DOM node of an element from
    one render to the next.  The type [H] of the functions bound to events
    is a parameter. *)

From S2P Require Import Prelude JsString.

#[local] Set Warnings "-clear-no-such-hyp".

(** ** Trees *)

(** The value of a prop. *)
Inductive prop_value (H : Type) : Type :=
| Str (s : string)
| Flag (b : bool)
| Fn (h : H).

Arguments Str {H} s.
Arguments Flag {H} b.
Arguments Fn {H} h.

(** The props object of an element. *)
Abbreviation props H := (gmap string (prop_value H)).

Section nested_ind.
#[local] Unset Elimination Schemes.

Inductive node (H : Type) : Type :=
| Element (tag : string) (attrs : props H) (children : list (node H))
| Text (s : string)
| Nothing.

#[global] Arguments Element {H} tag attrs children.
#[global] Arguments Text {H} s.
#[global] Arguments Nothing {H}.

Context {H : Type} (P : node H → Prop).
Hypothesis case_Element : ∀ tag attrs children,
  Forall P children → P (Element tag attrs children).
Hypothesis case_Text : ∀ s, P (Text s).
Hypothesis case_Nothing : P Nothing.

(** Induction on a tree: the children of an element satisfy the
    property. *)
Fixpoint node_ind (n : node H) : P n :=
  match n with
  | Element tag attrs children =>
      case_Element tag attrs children
        ((fix all (ns : list (node H)) : Forall P ns :=
            match ns with
            | [] => Forall_nil_2 P
            | n :: ns => Forall_cons_2 P n ns (node_ind n) (all ns)
            end) children)
  | Text s => case_Text s
  | Nothing => case_Nothing
  end.

End nested_ind.

Section dom.
Context {H : Type}.
Implicit Types (n root : node H) (ns : list (node H)) (v : prop_value H).

(** ** Reading an element *)

(** [props.name] as a string; [None] when the prop is missing or holds
    something else. *)
Definition as_Str v : option string :=
  match v with Str s => Some s | _ => None end.

Definition as_Fn v : option H :=
  match v with Fn h => Some h | _ => None end.

(** [x ? a : b] and [x && a] convert [x] to a boolean: a missing prop
    ([undefined]) and the empty string are false, a function is true. *)
Definition prop_truthy (x : option (prop_value H)) : bool :=
  match x with
  | Some (Flag b) => b
  | Some (Str s) => negb (bool_decide (s = ""))
  | Some (Fn _) => true
  | None => false
  end.

Definition tagName n : option string :=
  match n with Element tag _ _ => Some tag | _ => None end.

Definition attr (name : string) n : option (prop_value H) :=
  match n with Element _ attrs _ => attrs !! name | _ => None end.

(** [getAttribute(name)] for a prop holding a string. *)
Definition getAttribute (name : string) n : option string :=
  attr name n ≫= as_Str.

(** The function bound to an event. *)
Definition listener (name : string) n : option H := attr name n ≫= as_Fn.

Definition childNodes n : list (node H) :=
  match n with Element _ _ children => children | _ => [] end.

(** The tokens of the [className] prop. *)
Definition classList n : list string :=
  match getAttribute "className" n with
  | Some c => split " " c
  | None => []
  end.

(** ** Walking a tree *)

(** The elements of a tree in document order, the root first. *)
Fixpoint elements n : list (node H) :=
  match n with
  | Element _ _ children => n :: (children ≫= elements)
  | _ => []
  end.

(** The texts of a tree concatenated, in document order. *)
Fixpoint textContent n : string :=
  match n with
  | Element _ _ children => foldr String.append "" (map textContent children)
  | Text s => s
  | Nothing => ""
  end.

(** The number of nodes of a tree. *)
Fixpoint count_nodes n : nat :=
  match n with
  | Element _ _ children => S (list_sum (map count_nodes children))
  | _ => 1
  end.

(** ** Queries *)

Definition getElementsByTagName (tag : string) root : list (node H) :=
  filter (λ n, tagName n = Some tag) (elements root).

Definition getElementsByClassName (c : string) root : list (node H) :=
  filter (λ n, c ∈ classList n) (elements root).

Definition getElementById (id : string) root : option (node H) :=
  head (filter (λ n, getAttribute "id" n = Some id) (elements root)).

(** The first element with the given tag and text. *)
Definition getByText (tag text : string) root : option (node H) :=
  head (filter (λ n, textContent n = text) (getElementsByTagName tag root)).

(** The [id]s given in a tree, in document order. *)
Definition ids root : list string := omap (getAttribute "id") (elements root).

(** The element whose child has the given [id]. *)
Definition parentOf (id : string) root : option (node H) :=
  head (filter (λ n, Exists (λ c, getAttribute "id" c = Some id) (childNodes n))
          (elements root)).

(** The functions bound to events in a tree, with the prop that binds
    them, in document order. *)
Definition listeners_of n : list (string * H) :=
  match n with
  | Element _ attrs _ =>
      omap (λ kv, pair kv.1 <$> as_Fn kv.2) (map_to_list attrs)
  | _ => []
  end.

Definition listeners root : list (string * H) :=
  elements root ≫= listeners_of.

(** ** Forms *)

(** An element that holds a value the user edits. *)
Definition is_control n : bool :=
  bool_decide (tagName n ∈ [Some "input"; Some "textarea"; Some "select"]).

(** The [htmlFor] targets of a tree, in document order. *)
Definition labels root : list string :=
  omap (getAttribute "htmlFor") (elements root).

(** Every [htmlFor] names a control of the tree. *)
Definition well_labelled root : bool :=
  forallb (λ id, from_option is_control false (getElementById id root))
    (labels root).

(** Every control with a [value] prop has a function bound to
    [onChange]: without one React renders a field the user cannot edit. *)
Definition well_controlled root : bool :=
  forallb (λ n, implb (bool_decide (is_Some (attr "value" n)) && is_control n)
                  (bool_decide (is_Some (listener "onChange" n))))
    (elements root).

(** A button submits the form it is in unless its [type] says otherwise,
    and so does an input of type [submit] or [image]. *)
Definition submits n : bool :=
  match tagName n, getAttribute "type" n with
  | Some "button", Some ("button" | "reset") => false
  | Some "button", _ => true
  | Some "input", Some ("submit" | "image") => true
  | _, _ => false
  end.

(** A field in which the Enter key asks for the form to be submitted. *)
Definition blocks_implicit_submission n : bool :=
  match tagName n, getAttribute "type" n with
  | Some "input", None => true
  | Some "input", Some t =>
      bool_decide (t ∈ ["text"; "search"; "url"; "tel"; "email"; "password";
                        "date"; "month"; "week"; "time"; "datetime-local";
                        "number"])
  | _, _ => false
  end.

(** Whether the Enter key in a text field submits the form: it does when
    the form has a submit button, and when it has none and at most one
    field of the kind above. *)
Definition Enter_submits root : bool :=
  match filter (λ n, submits n = true) (elements root) with
  | _ :: _ => true
  | [] =>
      bool_decide
        (length (filter (λ n, blocks_implicit_submission n = true)
                   (elements root)) ≤ 1)
  end.

(** ** Reconciliation *)

(** React updates the DOM node of an element in place when the next
    render has an element of the same tag at the same position, and does
    so for its children position by position; a text stays a text.  Where
    an element comes or goes ([Nothing] on one side) only that child is
    created or removed. *)
Fixpoint keeps (old new : node H) : bool :=
  match old, new with
  | Element tag _ children, Element tag' _ children' =>
      bool_decide (tag = tag') &&
      (fix all (ns ns' : list (node H)) : bool :=
         match ns, ns' with
         | [], [] => true
         | n :: ns, n' :: ns' => keeps n n' && all ns ns'
         | _, _ => false
         end) children children'
  | Text _, Text _ => true
  | Nothing, _ | _, Nothing => true
  | _, _ => false
  end.

(** ** Lemmas *)

Lemma elements_Element tag attrs children :
  elements (Element tag attrs children)
  = Element tag attrs children :: (children ≫= elements).
Proof. done. Qed.

(** Only elements are listed. *)
Lemma elements_tagName root n : n ∈ elements root → is_Some (tagName n).
Proof.
  revert n. induction root as [tag attrs children IH| |] using node_ind;
    intros n; simpl; [|by intros ?%elem_of_nil..].
  intros [->|Hn]%elem_of_cons; [by eexists|].
  apply list_elem_of_bind in Hn as (c & Hn & Hc).
  rewrite Forall_forall in IH. by apply (IH c).
Qed.

(** A tree lists at most as many elements as it has nodes. *)
Lemma length_elements root : length (elements root) ≤ count_nodes root.
Proof.
  induction root as [tag attrs children IH| |] using node_ind; simpl; [|lia..].
  apply le_n_S. induction IH as [|c cs Hc _ IHcs]; [done|].
  rewrite bind_cons, length_app. simpl. lia.
Qed.

Lemma getElementsByTagName_spec tag root n :
  n ∈ getElementsByTagName tag root ↔ n ∈ elements root ∧ tagName n = Some tag.
Proof. unfold getElementsByTagName. rewrite list_elem_of_filter. tauto. Qed.

Lemma getElementsByClassName_spec c root n :
  n ∈ getElementsByClassName c root ↔ n ∈ elements root ∧ c ∈ classList n.
Proof. unfold getElementsByClassName. rewrite list_elem_of_filter. tauto. Qed.

(** What [getElementById] returns is an element of the tree with that
    [id]. *)
Lemma getElementById_Some id root n :
  getElementById id root = Some n →
  n ∈ elements root ∧ getAttribute "id" n = Some id.
Proof. intros Hn%head_filter_Some. tauto. Qed.

(** An [id] that is given in the tree is found. *)
Lemma getElementById_is_Some id root :
  is_Some (getElementById id root) ↔ id ∈ ids root.
Proof.
  unfold getElementById, ids.
  by rewrite head_filter_is_Some, list_elem_of_omap.
Qed.

(** An [id] that is given nowhere is not found. *)
Lemma getElementById_None id root :
  getElementById id root = None ↔ id ∉ ids root.
Proof.
  rewrite <-getElementById_is_Some, eq_None_not_Some. tauto.
Qed.

(** A function bound to an event of an element of the tree is one of
    [listeners]. *)
Lemma elem_of_listeners root n name h :
  n ∈ elements root → listener name n = Some h → (name, h) ∈ listeners root.
Proof.
  intros Hn Hh. apply list_elem_of_bind. exists n. split; [|done].
  destruct n as [tag attrs children| |]; [|done..].
  unfold listener in Hh; simpl in Hh.
  destruct (attrs !! name) as [v|] eqn:Hv; [|done].
  apply list_elem_of_omap. exists (name, v).
  split; [by apply elem_of_map_to_list|]. by destruct v; simplify_eq/=.
Qed.

(** What [getByText] returns is an element of the tree. *)
Lemma getByText_Some tag text root n :
  getByText tag text root = Some n →
  n ∈ elements root ∧ tagName n = Some tag ∧ textContent n = text.
Proof.
  intros [Ht Hn]%head_filter_Some.
  by apply getElementsByTagName_spec in Hn as [? ?].
Qed.

(** What [well_labelled] checks. *)
Lemma well_labelled_spec root :
  well_labelled root = true ↔
  ∀ l id, l ∈ elements root → getAttribute "htmlFor" l = Some id →
    ∃ c, getElementById id root = Some c ∧ is_control c = true.
Proof.
  unfold well_labelled, labels. rewrite forallb_elem_of.
  setoid_rewrite list_elem_of_omap. split.
  - intros Hall l id Hl Hid. specialize (Hall id).
    destruct (getElementById id root) as [c|]; naive_solver.
  - intros Hall id (l & Hl & Hid).
    by destruct (Hall l id Hl Hid) as (c & -> & Hc).
Qed.

(** What [well_controlled] checks. *)
Lemma well_controlled_spec root :
  well_controlled root = true ↔
  ∀ n, n ∈ elements root → is_Some (attr "value" n) → is_control n = true →
    is_Some (listener "onChange" n).
Proof.
  unfold well_controlled. rewrite forallb_elem_of.
  apply forall_proper; intros n. apply forall_proper; intros Hn.
  rewrite implb_true_iff, andb_true_iff, !bool_decide_eq_true. tauto.
Qed.

(** [keeps] is reflexive: rendering the same tree again keeps every DOM
    node. *)
Lemma keeps_refl n : keeps n n = true.
Proof.
  induction n as [tag attrs children IH| |] using node_ind; simpl; [|done..].
  rewrite bool_decide_true by done. simpl.
  induction IH as [|c cs Hc _ IHcs]; [done|]. by rewrite Hc.
Qed.

End dom.
