(* ===== verification/View.v ===== *)
(** * View: what [FieldBuilderForm] renders

    The component returns one JSX tree (lines 140-201 of
    [FieldBuilderForm.js]), with the helper component [SubmitButton]
    (lines 6-12) for the Save button.  [FieldBuilderForm] below is that
    tree, element by element, as a function of the state of the render:
    the props that hold state ([value] of the four controlled inputs), the
    three conditional messages, the text of the Save button, and the
    functions bound to [onChange] and [onClick], which are the handlers of
    file [Handlers] closed over the same state.

    [View] is what a user reads off the page, obtained from the tree by
    the queries of file [Dom].  The theorems are of three kinds: the tree
    is well formed whatever the state (unique ids, labels that point to
    controls, controlled inputs with a listener, buttons that do not submit
    the form); what the page shows is what the hooks hold; and what it
    shows after each handler.

    The checkbox of line 156 is not controlled: no hook holds its state
    and no handler reads it.  The tree has it; its checked state lives in
    the DOM and is part of the browser tab of file [Browser]. *)

From S2P Require Import Prelude JsString JsSet FieldService FormState.
From S2P Require Import Validate Handlers Dom.

#[local] Set Warnings "-clear-no-such-hyp".

(** ** The tree *)

(** A function bound to an event, applied to [e.target.value]. *)
Definition handler : Type := string → script unit.

Abbreviation jsx := (node handler).

(** The attributes of an element, as written in the JSX. *)
Definition attrs (l : list (string * prop_value handler)) : props handler :=
  list_to_map l.

(** [a.includes(x)] on an array of strings. *)
Definition Array_includes (a : list string) (x : string) : bool :=
  bool_decide (x ∈ a).

(** [cond && element]: the element when the condition holds, [false]
    otherwise. *)
Definition show_when (cond : bool) (element : jsx) : jsx :=
  if cond then element else Nothing.

(** The helper component: [isLoading] is taken out of the props, the
    others are spread on the button. *)
Definition SubmitButton (props : props handler) : jsx :=
  let isLoading := props !! "isLoading" in
  let props := delete "isLoading" props in
  Element "button" props
    [Text (if prop_truthy isLoading then "Saving..." else "Save changes")].

(** The render. *)
Definition FieldBuilderForm (s : State) : jsx :=
  Element "div" (attrs [("className", Str "container mt-5 max-width=700px")]) [
    Element "h2" (attrs [("className", Str "mb-4")]) [Text "Field Builder"];
    Element "form" (attrs []) [
      Element "div" (attrs [("className", Str "form-group row mb-3")]) [
        Element "label"
          (attrs [("htmlFor", Str "labelInput");
                  ("className", Str "col-sm-2 col-form-label")])
          [Text "Label ";
           Element "span" (attrs [("className", Str "text-danger")])
             [Text "*"]];
        Element "div" (attrs [("className", Str "col-sm-10")]) [
          Element "input"
            (attrs [("type", Str "text"); ("className", Str "form-control");
                    ("id", Str "labelInput"); ("value", Str (label s));
                    ("onChange", Fn onChange_label)]) [];
          show_when (Array_includes (validationErrors s) "Label is required.")
            (Element "div" (attrs [("className", Str "error-message mt-2")])
               [Text "Label is required."])]];
      Element "div" (attrs [("className", Str "form-group row mb-3")]) [
        Element "label" (attrs [("className", Str "col-sm-2")]) [Text "Type"];
        Element "div"
          (attrs [("className", Str "col-sm-10 d-flex align-items-center")]) [
          Element "span" (attrs [("className", Str "mr-2 pe-2")])
            [Text "Multi Select"];
          Element "input"
            (attrs [("type", Str "checkbox");
                    ("className", Str "form-check-input");
                    ("id", Str "multi-select")]) [];
          Element "label"
            (attrs [("className", Str "form-check-label ml-2 ps-2");
                    ("htmlFor", Str "multi-select")])
            [Text " A value is required "]]];
      Element "div" (attrs [("className", Str "form-group row mb-3")]) [
        Element "label"
          (attrs [("htmlFor", Str "defaultValueInput");
                  ("className", Str "col-sm-2 col-form-label")])
          [Text "Default Value"];
        Element "div" (attrs [("className", Str "col-sm-10")]) [
          Element "input"
            (attrs [("type", Str "text"); ("className", Str "form-control");
                    ("id", Str "defaultValueInput");
                    ("value", Str (defaultValue s));
                    ("onChange", Fn onChange_defaultValue)]) []]];
      Element "div" (attrs [("className", Str "form-group row mb-3")]) [
        Element "label"
          (attrs [("htmlFor", Str "choicesTextarea");
                  ("className", Str "col-sm-2 col-form-label")])
          [Text "Choices"];
        Element "div" (attrs [("className", Str "col-sm-10")]) [
          Element "textarea"
            (attrs [("className", Str "form-control");
                    ("id", Str "choicesTextarea"); ("rows", Str "5");
                    ("value", Str (choices s));
                    ("onChange", Fn onChange_choices)]) [];
          show_when
            (Array_includes (validationErrors s)
               "Duplicate choices are not allowed.")
            (Element "div" (attrs [("className", Str "error-message mt-2")])
               [Text "Duplicate choices are not allowed."]);
          show_when
            (Array_includes (validationErrors s)
               "There cannot be more than 50 choices.")
            (Element "div" (attrs [("className", Str "error-message mt-2")])
               [Text "There cannot be more than 50 choices."])]];
      Element "div" (attrs [("className", Str "form-group row mb-3")]) [
        Element "label"
          (attrs [("htmlFor", Str "orderSelect");
                  ("className", Str "col-sm-2 col-form-label")])
          [Text "Order"];
        Element "div" (attrs [("className", Str "col-sm-10")]) [
          Element "select"
            (attrs [("className", Str "form-control");
                    ("id", Str "orderSelect");
                    ("value",
                     Str (if displayAlpha s then "alphabetical"
                          else "original"));
                    ("onChange", Fn onChange_order)]) [
            Element "option" (attrs [("value", Str "alphabetical")])
              [Text "Display choices in Alphabetical"];
            Element "option" (attrs [("value", Str "original")])
              [Text "Display choices in Original order"]]]];
      Element "br" (attrs []) [];
      Element "div"
        (attrs [("className", Str "row d-flex justify-content-between ps-10")])
        [
        Element "div" (attrs [("className", Str "col-md-auto")]) [];
        Element "div"
          (attrs [("className", Str "col-sm-10 d-flex justify-content-between")])
          [
          SubmitButton
            (attrs [("type", Str "button");
                    ("className", Str "btn btn-primary mr-2");
                    ("onClick", Fn (λ _, handleSubmit s));
                    ("isLoading", Flag (isLoading s))]);
          Element "button"
            (attrs [("type", Str "button");
                    ("className", Str "btn btn-warning mr-2");
                    ("onClick", Fn (λ _, clearForm s))])
            [Text "Clear Form"];
          Element "button"
            (attrs [("type", Str "button");
                    ("className", Str "btn btn-secondary");
                    ("onClick", Fn (λ _, cancelAndReset s))])
            [Text "Cancel"]]]]].

(** ** Reading the page *)

(** The props an element has, among the given names. *)
Definition has_props (names : list string) (n : jsx) : list string :=
  filter (λ name, is_Some (attr name n)) names.

(** What an input shows. *)
Definition value_of (id : string) (root : jsx) : string :=
  default "" (getElementById id root ≫= getAttribute "value").

(** The messages shown next to an input: the texts of its siblings of
    class [error-message]. *)
Definition messages_at (id : string) (root : jsx) : list string :=
  match parentOf id root with
  | Some p =>
      textContent <$> filter (λ c, "error-message" ∈ classList c) (childNodes p)
  | None => []
  end.

(** The values of the options of the order select. *)
Definition orderOptions (root : jsx) : list string :=
  match getElementById "orderSelect" root with
  | Some sel => omap (getAttribute "value") (childNodes sel)
  | None => []
  end.

(** What varies on the page. *)
Record View : Type := mkView {
  labelInput : string;
  labelErrors : list string;
  defaultValueInput : string;
  choicesTextarea : string;
  choicesErrors : list string;
  orderSelect : string;
  submitText : string
}.

#[export] Instance View_eq_dec : EqDecision View.
Proof. solve_decision. Defined.

Definition view (root : jsx) : View := {|
  labelInput := value_of "labelInput" root;
  labelErrors := messages_at "labelInput" root;
  defaultValueInput := value_of "defaultValueInput" root;
  choicesTextarea := value_of "choicesTextarea" root;
  choicesErrors := messages_at "choicesTextarea" root;
  orderSelect := value_of "orderSelect" root;
  submitText :=
    default "" (textContent <$> head (getElementsByTagName "button" root))
|}.

(** Every message the view shows, in the order of the page. *)
Definition shown (v : View) : list string := labelErrors v ++ choicesErrors v.

(** What the page shows in state [s]. *)
Definition rendered (s : State) : View := view (FieldBuilderForm s).

(** ** Events *)

(** How a user or a test finds the element to act on. *)
Inductive target : Type :=
| ById (id : string)
| ByText (tag text : string).

Definition locate (t : target) (root : jsx) : option jsx :=
  match t with
  | ById id => getElementById id root
  | ByText tag text => getByText tag text root
  end.

(** The event [name] fired on the element [t] with [e.target.value =
    value]: the script of the function bound to it, if there is one. *)
Definition fire (t : target) (name value : string) (root : jsx)
    : option (script unit) :=
  n ← locate t root; h ← listener name n; Some (h value).

(** A click on the element [t]: the function bound to [onClick], if any,
    and whether the element submits the form it is in. *)
Definition click (t : target) (root : jsx) : option (option handler * bool) :=
  n ← locate t root; Some (listener "onClick" n, submits n).

(** A click on the checkbox [t] that shows [c]: the scripts of the
    functions bound to [onClick] and to [onChange], in the order in
    which React runs them, and what the box shows afterwards.  The DOM
    inverts the box; React puts a box with a [checked] prop back to what
    the prop says.  [None] when [t] is no checkbox of the tree. *)
Definition check (t : target) (c : bool) (root : jsx)
    : option (list (script unit) * bool) :=
  n ← locate t root;
  if decide (tagName n = Some "input" ∧
             getAttribute "type" n = Some "checkbox")
  then Some (omap (λ name, (λ h : handler, h "on") <$> listener name n)
               ["onClick"; "onChange"],
             if attr "checked" n is Some v then prop_truthy (Some v)
             else negb c)
  else None.

(** ** Automation *)

(** The shape of the tree depends on the state only through three
    booleans: whether each of the three messages is held.  [render_cases]
    splits a goal on them, with the three click handlers abstracted, after
    which queries on the tree compute. *)
Ltac render_cases s :=
  unfold FieldBuilderForm, show_when;
  generalize (handleSubmit s) (clearForm s) (cancelAndReset s); intros ? ? ?;
  repeat match goal with
  | |- context [Array_includes ?a ?x] =>
      generalize (Array_includes a x); intros []
  end.

Ltac render_compute s := render_cases s; vm_compute; try done.

(** ** The helper component *)

(** The button gets every prop given to [SubmitButton] but [isLoading]. *)
Lemma SubmitButton_attr props name :
  attr name (SubmitButton props)
  = if decide (name = "isLoading") then None else props !! name.
Proof.
  unfold SubmitButton; simpl. case_decide as Hn.
  - subst. apply lookup_delete_eq.
  - by apply lookup_delete_ne.
Qed.

Lemma SubmitButton_text props :
  textContent (SubmitButton props)
  = if prop_truthy (props !! "isLoading") then "Saving..." else "Save changes".
Proof.
  unfold SubmitButton; simpl. apply string_app_nil_r.
Qed.

(** ** The tree is well formed *)

(** The [id]s of the page, whatever the state. *)
Lemma ids_FieldBuilderForm s :
  ids (FieldBuilderForm s)
  = ["labelInput"; "multi-select"; "defaultValueInput"; "choicesTextarea";
     "orderSelect"].
Proof. by render_compute s. Qed.

(** No two elements share an [id]. *)
Lemma ids_NoDup s : NoDup (ids (FieldBuilderForm s)).
Proof. rewrite ids_FieldBuilderForm. by apply (bool_decide_unpack _). Qed.

(** Every label that names a control names one of the page, and the five
    controls with an [id] have a label each. *)
Lemma labels_FieldBuilderForm s :
  well_labelled (FieldBuilderForm s) = true ∧
  labels (FieldBuilderForm s) = ids (FieldBuilderForm s).
Proof. by render_compute s. Qed.

(** The four inputs that show state have a function bound to [onChange];
    the checkbox has neither [checked] nor [value] nor [onChange]. *)
Lemma controlled_FieldBuilderForm s :
  well_controlled (FieldBuilderForm s) = true ∧
  has_props ["type"; "checked"; "defaultChecked"; "value"; "onChange"]
    <$> getElementById "multi-select" (FieldBuilderForm s)
  = Some ["type"].
Proof. by render_compute s. Qed.

(** C37: The tree is well formed in every state: no two elements share an
    [id]; every [htmlFor] names a control of the page; every control that
    shows state has a function bound to [onChange], so that the user can
    edit it; the checkbox is left to the DOM. *)
Theorem FieldBuilderForm_well_formed s :
  let root := FieldBuilderForm s in
  NoDup (ids root) ∧
  (∀ l id, l ∈ elements root → getAttribute "htmlFor" l = Some id →
     ∃ c, getElementById id root = Some c ∧ is_control c = true) ∧
  (∀ n, n ∈ elements root → is_Some (attr "value" n) → is_control n = true →
     is_Some (listener "onChange" n)) ∧
  has_props ["checked"; "defaultChecked"; "value"; "onChange"]
    <$> getElementById "multi-select" root = Some [].
Proof.
  cbn zeta. split_and!.
  - apply ids_NoDup.
  - apply well_labelled_spec, labels_FieldBuilderForm.
  - apply well_controlled_spec, controlled_FieldBuilderForm.
  - by render_compute s.
Qed.

(** No element of the page submits the form, and the Enter key in a text
    field does not either: the form has two text fields and no submit
    button. *)
Lemma submits_FieldBuilderForm s :
  filter (λ n, submits n = true) (elements (FieldBuilderForm s)) = [] ∧
  Enter_submits (FieldBuilderForm s) = false.
Proof. by render_compute s. Qed.

Lemma submits_elements s n :
  n ∈ elements (FieldBuilderForm s) → submits n = false.
Proof.
  intros Hn. destruct (submits n) eqn:Hs; [|done].
  assert (n ∈ filter (λ n, submits n = true) (elements (FieldBuilderForm s)))
    as Hf by (by apply list_elem_of_filter).
  rewrite (proj1 (submits_FieldBuilderForm s)) in Hf.
  by apply elem_of_nil in Hf.
Qed.

(** The page has three buttons, all of type [button] with a function
    bound to [onClick] and without the prop [isLoading]; none submits the
    form, and the Enter key does not either. *)
Theorem buttons_FieldBuilderForm s :
  let root := FieldBuilderForm s in
  (λ b, (getAttribute "type" b, has_props ["onClick"; "isLoading"] b))
    <$> getElementsByTagName "button" root
  = [(Some "button", ["onClick"]); (Some "button", ["onClick"]);
     (Some "button", ["onClick"])] ∧
  (∀ n, n ∈ elements root → submits n = false) ∧
  Enter_submits root = false.
Proof.
  cbn zeta. split_and!; [by render_compute s|apply submits_elements|].
  apply submits_FieldBuilderForm.
Qed.

(** From one render to the next React keeps every DOM node. *)
Lemma keeps_render s1 s2 :
  keeps (FieldBuilderForm s1) (FieldBuilderForm s2) = true.
Proof. render_cases s1; by render_compute s2. Qed.

(** ** What the page shows *)

(** The messages of the JSX are the messages of [validateForm]. *)
Lemma view_msgs :
  "Label is required." = msg_label_required ∧
  "Duplicate choices are not allowed." = msg_duplicates ∧
  "There cannot be more than 50 choices." = msg_too_many.
Proof. done. Qed.

(** What the page shows, read with the queries of [Dom], is what the
    hooks hold. *)
Lemma rendered_eq s :
  rendered s = {|
    labelInput := label s;
    labelErrors :=
      if Array_includes (validationErrors s) msg_label_required
      then [msg_label_required] else [];
    defaultValueInput := defaultValue s;
    choicesTextarea := choices s;
    choicesErrors :=
      (if Array_includes (validationErrors s) msg_duplicates
       then [msg_duplicates] else [])
      ++ (if Array_includes (validationErrors s) msg_too_many
          then [msg_too_many] else []);
    orderSelect := if displayAlpha s then "alphabetical" else "original";
    submitText := if isLoading s then "Saving..." else "Save changes"
  |}.
Proof.
  unfold rendered, msg_label_required, msg_duplicates, msg_too_many.
  render_cases s; destruct (isLoading s); by vm_compute.
Qed.

(** C38: The shape of the tree does not depend on the state: every element of
    a render is at the same position, with the same tag, in any other
    render, so React keeps its DOM node; only the three messages come and
    go, each in a place of its own. *)
Theorem keeps_FieldBuilderForm s1 s2 :
  keeps (FieldBuilderForm s1) (FieldBuilderForm s2) = true ∧
  length (elements (FieldBuilderForm s1)) = 35 + length (shown (rendered s1)).
Proof.
  split; [apply keeps_render|]. rewrite rendered_eq.
  unfold shown, msg_label_required, msg_duplicates, msg_too_many. cbn.
  by render_compute s1.
Qed.

(** C36: Reading the page is reading the hooks: each controlled input shows
    the text of its hook, the select the option of the order flag, each of
    the three messages is on the page, next to its input, exactly when
    the hook of the messages holds it, and the button shows the text for
    the loading flag. *)
Theorem view_FieldBuilderForm s :
  let v := view (FieldBuilderForm s) in
  labelInput v = label s ∧ defaultValueInput v = defaultValue s ∧
  choicesTextarea v = choices s ∧
  orderSelect v = (if displayAlpha s then "alphabetical" else "original") ∧
  submitText v = (if isLoading s then "Saving..." else "Save changes") ∧
  labelErrors v = filter (.∈ validationErrors s) [msg_label_required] ∧
  choicesErrors v
  = filter (.∈ validationErrors s) [msg_duplicates; msg_too_many].
Proof.
  cbn zeta. fold (rendered s). rewrite rendered_eq, !filter_cons_if.
  unfold Array_includes. cbn. by rewrite !app_nil_r.
Qed.

(** The select offers the two orders. *)
Lemma orderOptions_FieldBuilderForm s :
  orderOptions (FieldBuilderForm s) = ["alphabetical"; "original"].
Proof. by render_compute s. Qed.

(** ** The messages *)

Lemma elem_of_if_singleton (cond : bool) (text x : string) :
  x ∈ (if cond then [text] else []) ↔ cond = true ∧ x = text.
Proof. destruct cond; set_solver. Qed.

(** A message is shown exactly when it is one of the three and the hook
    holds it. *)
Lemma elem_of_shown s x :
  x ∈ shown (rendered s) ↔
  x ∈ validationErrors s ∧
  x ∈ [msg_label_required; msg_duplicates; msg_too_many].
Proof.
  rewrite rendered_eq. unfold shown, Array_includes; simpl.
  rewrite !elem_of_app, !elem_of_if_singleton, !bool_decide_eq_true.
  set_solver.
Qed.

(** When the hook holds messages of [validateForm], in their order, the
    view shows them all, in that order. *)
Lemma shown_sublist s :
  validationErrors s
    `sublist_of` [msg_label_required; msg_duplicates; msg_too_many] →
  shown (rendered s) = validationErrors s.
Proof.
  intros Hs. rewrite rendered_eq. unfold shown, Array_includes; simpl.
  repeat match type of Hs with
  | _ `sublist_of` (_ :: _) =>
      apply sublist_cons_r in Hs as [Hs|(? & -> & Hs)]
  | _ `sublist_of` [] => apply sublist_nil_r in Hs as ->
  end; by vm_compute.
Qed.

(** ** The controlled inputs *)

(** Typing the text an input already shows changes nothing. *)
Lemma onChange_shown s :
  let v := rendered s in
  after s (onChange_label (labelInput v)) = s ∧
  after s (onChange_defaultValue (defaultValueInput v)) = s ∧
  after s (onChange_choices (choicesTextarea v)) = s ∧
  after s (onChange_order (orderSelect v)) = s.
Proof. cbn zeta. rewrite rendered_eq. by destruct s as [? ? ? [] ? ? ?]. Qed.

(** The select always shows one of its two options. *)
Lemma orderSelect_option s :
  orderSelect (rendered s) ∈ orderOptions (FieldBuilderForm s).
Proof.
  rewrite orderOptions_FieldBuilderForm, rendered_eq.
  destruct s as [? ? ? [] ? ? ?]; set_solver.
Qed.

(** After an input event the view shows what was typed or chosen. *)
Lemma view_onChange s value :
  labelInput (rendered (after s (onChange_label value))) = value ∧
  defaultValueInput (rendered (after s (onChange_defaultValue value)))
  = value ∧
  choicesTextarea (rendered (after s (onChange_choices value))) = value.
Proof. by rewrite !rendered_eq. Qed.

Lemma view_onChange_order s value :
  value ∈ orderOptions (FieldBuilderForm s) →
  orderSelect (rendered (after s (onChange_order value))) = value.
Proof.
  rewrite orderOptions_FieldBuilderForm, rendered_eq. intros Hv.
  repeat (apply elem_of_cons in Hv as [->|Hv]); [done..|].
  by apply elem_of_nil in Hv.
Qed.

(** ** The view after Save *)

(** After [handleSubmit] the view shows exactly the messages of the rules
    the captured state breaks, the one about the label under the label
    input and the others under the choices. *)
Theorem view_handleSubmit s :
  let v := rendered (after s (handleSubmit s)) in
  shown v = reported s ∧
  labelErrors v = if bool_decide (label s = "") then [msg_label_required] else [].
Proof.
  cbn zeta. split.
  - rewrite shown_sublist; rewrite handleSubmit_errors;
      [done|apply reported_sublist].
  - rewrite rendered_eq. unfold Array_includes; cbn [labelErrors].
    rewrite handleSubmit_errors.
    rewrite (bool_decide_ext _ (label s = "")); [done|].
    rewrite reported_eq. unfold label_missing.
    repeat case_decide; set_solver.
Qed.

(** The button reads "Saving..." after [handleSubmit] unless the form was
    valid and its choices contained the default value: in particular it
    does on an invalid form. *)
Theorem view_handleSubmit_button s :
  submitText (rendered (after s (handleSubmit s))) = "Save changes"
  ↔ valid s ∧ includes (choices s) (defaultValue s) = true.
Proof.
  rewrite rendered_eq; cbn [submitText]. rewrite handleSubmit_isLoading.
  case_bool_decide; destruct (includes _ _); simpl; naive_solver.
Qed.

(** Clear and Cancel remove every message from the view. *)
Theorem view_clear_cancel s :
  shown (rendered (after s (clearForm s))) = [] ∧
  shown (rendered (after s (cancelAndReset s))) = [].
Proof. by rewrite !rendered_eq. Qed.

(** ** The functions bound to events *)

(** The function bound to [onChange] of each of the four inputs, applied
    to the value typed or chosen. *)
Lemma fire_onChange s value :
  let root := FieldBuilderForm s in
  fire (ById "labelInput") "onChange" value root
  = Some (onChange_label value) ∧
  fire (ById "defaultValueInput") "onChange" value root
  = Some (onChange_defaultValue value) ∧
  fire (ById "choicesTextarea") "onChange" value root
  = Some (onChange_choices value) ∧
  fire (ById "orderSelect") "onChange" value root
  = Some (onChange_order value).
Proof. cbn zeta. render_cases s; by vm_compute. Qed.

(** The function bound to [onClick] of each of the three buttons, found
    by the text the button shows. *)
Lemma fire_onClick s value :
  let root := FieldBuilderForm s in
  fire (ByText "button" (submitText (rendered s))) "onClick" value root
  = Some (handleSubmit s) ∧
  fire (ByText "button" "Clear Form") "onClick" value root
  = Some (clearForm s) ∧
  fire (ByText "button" "Cancel") "onClick" value root
  = Some (cancelAndReset s).
Proof.
  cbn zeta. rewrite rendered_eq; cbn [submitText].
  render_cases s; destruct (isLoading s); by vm_compute.
Qed.

(** An element written without a function among its props listens to
    nothing. *)
Lemma listener_attrs_None tag l children name :
  Forall (λ kv, as_Fn kv.2 = None) l →
  listener name (Element tag (attrs l) children) = None.
Proof.
  unfold listener, attrs; simpl. induction 1 as [|[k v] l Hv _ IH]; [done|].
  simpl. destruct (decide (k = name)) as [->|].
  - by rewrite lookup_insert_eq.
  - by rewrite lookup_insert_ne.
Qed.

(** A click on each of the three buttons: the handler runs and the form
    is not submitted. *)
Lemma click_FieldBuilderForm s :
  let root := FieldBuilderForm s in
  click (ByText "button" (submitText (rendered s))) root
  = Some (Some (λ _, handleSubmit s), false) ∧
  click (ByText "button" "Clear Form") root
  = Some (Some (λ _, clearForm s), false) ∧
  click (ByText "button" "Cancel") root
  = Some (Some (λ _, cancelAndReset s), false).
Proof.
  cbn zeta. rewrite rendered_eq; cbn [submitText].
  render_cases s; destruct (isLoading s); by vm_compute.
Qed.

(** The functions the page binds: one to each of the four inputs and to
    each of the three buttons, and no other. *)
Lemma listeners_FieldBuilderForm s :
  listeners (FieldBuilderForm s)
  = [("onChange", onChange_label); ("onChange", onChange_defaultValue);
     ("onChange", onChange_choices); ("onChange", onChange_order);
     ("onClick", λ _, handleSubmit s); ("onClick", λ _, clearForm s);
     ("onClick", λ _, cancelAndReset s)].
Proof. by render_compute s. Qed.

(** What [locate] finds is an element of the tree. *)
Lemma locate_elements t root n : locate t root = Some n → n ∈ elements root.
Proof.
  destruct t; simpl.
  - by intros [? _]%getElementById_Some.
  - by intros [? _]%getByText_Some.
Qed.

(** Whatever event is fired on whatever element of the page, the function
    that runs is one of the seven. *)
Lemma fire_listeners t name value root sc :
  fire t name value root = Some sc →
  ∃ h, (name, h) ∈ listeners root ∧ sc = h value.
Proof.
  unfold fire. intros (n & Hn & (h & Hh & [= <-])%bind_Some)%bind_Some.
  eauto using elem_of_listeners, locate_elements.
Qed.

(** The checkbox of line 156 is found by its [id]; it has no [checked]
    prop, so a click inverts it, and no function is bound to the click
    or to the change. *)
Lemma check_FieldBuilderForm s c :
  check (ById "multi-select") c (FieldBuilderForm s) = Some ([], negb c).
Proof. by render_compute s. Qed.

(** The checkbox has no function bound to any event. *)
Lemma fire_checkbox s name value :
  fire (ById "multi-select") name value (FieldBuilderForm s) = None.
Proof.
  unfold fire.
  assert (locate (ById "multi-select") (FieldBuilderForm s)
          = Some (Element "input"
                    (attrs [("type", Str "checkbox");
                            ("className", Str "form-check-input");
                            ("id", Str "multi-select")]) [])) as ->
    by (by render_compute s).
  cbn [mbind option_bind]. rewrite listener_attrs_None; [done|].
  by repeat constructor.
Qed.
