(* ===== verification/Effects.v ===== *)
(** * Effects: localStorage, the four effects and the mount sequence

    [FieldBuilderForm] registers four effects with [useEffect], in this
    order: load the draft (lines 24-34 of [FieldBuilderForm.js]), persist
    the draft (36-45), fetch the default field (47-54), fetch it again
    into [initialData] (111-128).  The first, third and fourth have an
    empty dependency array: they run once, after the first render.  The
    second depends on the four editable hooks: it runs after the first
    render and after every render that changed one of them.

    React runs the effects of a render in the order of their declaration
    and applies the setter calls they make as one batch.  [mount] is that
    sequence for the first render, [rerender] the rule for every later
    one.

    The draft loader stores in the hooks whatever the parsed draft holds,
    so the batch of the first render is committed on hooks that hold JSON
    values ([Hooks jsval jsval]); [typed] reads the result back as a
    [State]. *)

From S2P Require Import Prelude JsString JsonApi Json FieldService FormState.

#[local] Set Warnings "-clear-no-such-hyp".

(** ** localStorage *)

(** The storage of the page's origin: a finite map from keys to texts. *)
Definition getItem (key : string) (storage : gmap string string)
    : option string :=
  storage !! key.

Definition setItem (key value : string) (storage : gmap string string)
    : gmap string string :=
  <[key := value]> storage.

(** The key the component uses. *)
Definition formData : string := "formData".

(** [if (savedData)]: [null] and the empty string are falsy. *)
Definition truthy (savedData : option string) : bool :=
  match savedData with
  | None => false
  | Some text => negb (bool_decide (text = ""))
  end.

(** ** Hooks holding JSON values *)

Definition embed (s : State) : Hooks jsval jsval :=
  hooks_map of_string of_bool s.

Definition embed_update (u : update string bool) : update jsval jsval :=
  update_map of_string of_bool u.

(** The hooks read back as a state: defined when the text hooks hold
    strings of 8-bit units and the flag hook holds a boolean. *)
Definition typed (h : Hooks jsval jsval) : option State :=
  l ← as_string (label h);
  c ← as_string (choices h);
  d ← as_string (defaultValue h);
  a ← as_bool (displayAlpha h);
  Some (mkHooks l c d a (validationErrors h) (isLoading h) (initialData h)).

(** ** The draft object *)

(** The object literal of lines 38-43 as the value [JSON.stringify]
    receives. *)
Definition FormData_json (data : FormData) : json :=
  JObject [
    (wide "label", JString (wide (fd_label data)));
    (wide "choices", JString (wide (fd_choices data)));
    (wide "defaultValue", JString (wide (fd_defaultValue data)));
    (wide "displayAlpha", JBool (fd_displayAlpha data))
  ].

(** ** The effects *)

Section effects.
Context `{!JsonCodec}.

(** First effect: read the draft and store its four properties in the
    hooks.  It throws when the text is not JSON and when it is the JSON
    text of [null]. *)
Definition loadDraft (storage : gmap string string)
    : result (list (update jsval jsval)) :=
  let savedData := getItem formData storage in
  if truthy savedData then
    data ← JSON_parse (default "" savedData);
    data_label ← get_prop data "label";
    data_choices ← get_prop data "choices";
    data_defaultValue ← get_prop data "defaultValue";
    data_displayAlpha ← get_prop data "displayAlpha";
    mret [SetLabel data_label; SetChoices data_choices;
          SetDefaultValue data_defaultValue;
          SetDisplayAlpha data_displayAlpha]
  else mret [].

(** Second effect: write the four editable hooks of the render [s] to the
    storage. *)
Definition persistDraft (s : State) (storage : gmap string string)
    : gmap string string :=
  let data := fields s in
  setItem formData (JSON_stringify (FormData_json data)) storage.

(** Third effect: store the default field in the four editable hooks. *)
Definition fetchDefault : script unit :=
  let defaultData := getField undefined in
  setLabel (f_label defaultData) ;;
  setChoices (join (String LF "") (f_choices defaultData)) ;;
  setDefaultValue (f_default defaultData) ;;
  setDisplayAlpha (f_displayAlpha defaultData).

(** Fourth effect: store the default field in [initialData] and in the
    four editable hooks. *)
Definition fetchInitial : script unit :=
  let defaultData := getField undefined in
  let formattedChoices := join (String LF "") (f_choices defaultData) in
  setInitialData {|
    fd_label := f_label defaultData;
    fd_choices := formattedChoices;
    fd_defaultValue := f_default defaultData;
    fd_displayAlpha := f_displayAlpha defaultData
  |} ;;
  setLabel (f_label defaultData) ;;
  setChoices formattedChoices ;;
  setDefaultValue (f_default defaultData) ;;
  setDisplayAlpha (f_displayAlpha defaultData).

(** ** Renders *)

(** The effects of a render that is not the first: the second effect, when
    one of its dependencies differs from the previous render. *)
Definition rerender (prev next : State) (storage : gmap string string)
    : gmap string string :=
  if decide (fields prev = fields next) then storage
  else persistDraft next storage.

(** How mounting ends: the component is rendered with a state and the
    storage holds what the effects wrote; or an effect threw, React
    unmounted the tree and the storage holds what the effects that ran
    before it wrote; or a hook holds a value that is no string or
    boolean, which the rest of the development does not model. *)
Inductive Mounted : Type :=
| Rendered (s : State) (storage : gmap string string)
| Crashed (e : exn) (storage : gmap string string)
| IllTyped.

(** The first render and its effects.  The effects run in order; the
    first to throw ends the sequence, so that the effects declared after
    it do not run (file [React] says which releases of React do so, and
    file [Lifecycle] what the other rule gives).  The draft loader is the
    first effect: when it throws no effect has written to the storage.
    The setter calls of the effects form one batch. *)
Definition mount (storage : gmap string string) : Mounted :=
  let s0 := initialState in
  match loadDraft storage with
  | Throw e => Crashed e storage
  | Ok batch1 =>
      let storage1 := persistDraft s0 storage in
      let batch3 := embed_update <$> updates_of (emitted fetchDefault) in
      let batch4 := embed_update <$> updates_of (emitted fetchInitial) in
      match typed (commit (embed s0) (batch1 ++ batch3 ++ batch4)) with
      | None => IllTyped
      | Some s1 => Rendered s1 (rerender s0 s1 storage1)
      end
  end.

(** The default field as the draft object, and the state every mount
    ends in. *)
Definition defaultFields : FormData := {|
  fd_label := f_label (getField undefined);
  fd_choices := join (String LF "") (f_choices (getField undefined));
  fd_defaultValue := f_default (getField undefined);
  fd_displayAlpha := f_displayAlpha (getField undefined)
|}.

Definition mountedState : State :=
  mkHooks (fd_label defaultFields) (fd_choices defaultFields)
    (fd_defaultValue defaultFields) (fd_displayAlpha defaultFields)
    [] false defaultFields.

(** ** Typed and untyped hooks *)

Lemma typed_embed s : typed (embed s) = Some s.
Proof.
  unfold typed, embed, hooks_map; simpl.
  rewrite !narrow_wide; simpl. by destruct s.
Qed.

(** A batch of typed setter calls can be committed on either kind of
    hooks. *)
Lemma typed_commit_embed s us :
  typed (commit (embed s) (embed_update <$> us)) = Some (commit s us).
Proof.
  unfold embed, embed_update. by rewrite commit_hooks_map, typed_embed.
Qed.

(** Setter calls on the four editable hooks that come before a typed
    batch setting all four are shadowed. *)
Definition sets_editable (u : update jsval jsval) : Prop :=
  match u with
  | SetLabel _ | SetChoices _ | SetDefaultValue _ | SetDisplayAlpha _ => True
  | _ => False
  end.

Lemma commit_shadowed (h : Hooks jsval jsval) q l c d a :
  Forall sets_editable q →
  commit h (q ++ [SetLabel l; SetChoices c; SetDefaultValue d;
                  SetDisplayAlpha a])
  = mkHooks l c d a (validationErrors h) (isLoading h) (initialData h).
Proof.
  intros Hq. revert h. induction Hq as [|u q Hu Hq IH]; intros h; [done|].
  rewrite <-app_comm_cons, commit_cons, IH. by destruct u.
Qed.

(** ** The draft loader *)

Lemma loadDraft_absent storage :
  truthy (getItem formData storage) = false → loadDraft storage = Ok [].
Proof. intros Hs. unfold loadDraft. by rewrite Hs. Qed.

(** The loader only sets the four editable hooks. *)
Lemma loadDraft_sets_editable storage q :
  loadDraft storage = Ok q → Forall sets_editable q.
Proof.
  unfold loadDraft. case_match; [|by intros [= <-]].
  destruct (JSON_parse _) as [v|]; simpl; [|done].
  destruct v; unfold get_prop; simpl; intros [= <-]; repeat constructor.
Qed.

(** The loader throws exactly when the storage holds a non-empty text
    that is not JSON or is the JSON text of [null]. *)
Lemma loadDraft_throws storage e :
  loadDraft storage = Throw e ↔
  ∃ text, storage !! formData = Some text ∧ text ≠ "" ∧
    (JSON_parse text = Throw e ∨
     JSON_parse text = Ok JNull ∧ e = TypeError).
Proof.
  unfold loadDraft, getItem, truthy.
  destruct (storage !! formData) as [text|] eqn:Hst; simpl;
    [case_bool_decide as Ht; simpl|].
  - split; [done|]. by intros (? & [= <-] & ? & _).
  - split.
    + intros Hthrow. exists text. split_and!; [done..|].
      destruct (JSON_parse text) as [v|e'] eqn:Hp; simpl in *;
        [destruct v|]; unfold get_prop in *; simplify_eq/=; auto.
    + intros (? & [= <-] & _ & [Hp | [Hp ->]]); by rewrite Hp.
  - split; [done|]. by intros (? & [=] & _).
Qed.

(** The draft object is printable, and its members are read back. *)
Lemma FormData_json_printable data : printable (FormData_json data) = true.
Proof.
  unfold FormData_json. cbn [printable forallb fst snd].
  rewrite !wide_units_small. cbn [andb].
  apply bool_decide_eq_true. apply (bool_decide_unpack _). by vm_compute.
Qed.

Lemma get_prop_FormData_json data :
  get_prop (FormData_json data) "label" = Ok (of_string (fd_label data)) ∧
  get_prop (FormData_json data) "choices" = Ok (of_string (fd_choices data)) ∧
  get_prop (FormData_json data) "defaultValue"
  = Ok (of_string (fd_defaultValue data)) ∧
  get_prop (FormData_json data) "displayAlpha"
  = Ok (of_bool (fd_displayAlpha data)).
Proof. by vm_compute. Qed.

(** The encoding of the draft loses nothing. *)
Lemma FormData_json_inj : Inj (=) (=) FormData_json.
Proof.
  intros [l1 c1 d1 a1] [l2 c2 d2 a2] [= Hl Hc Hd ->].
  by apply wide_inj in Hl, Hc, Hd; subst.
Qed.

(** ** Persisting *)

Lemma persistDraft_lookup s storage :
  persistDraft s storage !! formData
  = Some (JSON_stringify (FormData_json (fields s))).
Proof. apply lookup_insert_eq. Qed.

(** The component only ever writes its own key. *)
Lemma persistDraft_other s storage key :
  key ≠ formData → persistDraft s storage !! key = storage !! key.
Proof. intros Hk. by apply lookup_insert_ne. Qed.

Lemma persistDraft_persistDraft s1 s2 storage :
  persistDraft s2 (persistDraft s1 storage) = persistDraft s2 storage.
Proof. apply insert_insert_eq. Qed.

Lemma persistDraft_ext s1 s2 storage :
  fields s1 = fields s2 → persistDraft s1 storage = persistDraft s2 storage.
Proof. unfold persistDraft. by intros ->. Qed.

#[export] Instance persistDraft_proper :
  Proper (same_fields ==> (=) ==> (=)) persistDraft.
Proof. intros s1 s2 Hs ? ? ->. by apply persistDraft_ext. Qed.

#[export] Instance rerender_proper :
  Proper (same_fields ==> same_fields ==> (=) ==> (=)) rerender.
Proof.
  intros s1 s2 Hs t1 t2 Ht ? storage ->. unfold rerender, same_fields in *.
  repeat case_decide; try congruence. by apply persistDraft_ext.
Qed.

(** What is read back from a storage that holds the draft of [s]: the
    four fields of [s]. *)
Lemma loadDraft_draft s storage :
  storage !! formData = Some (JSON_stringify (FormData_json (fields s))) →
  loadDraft storage
  = Ok (embed_update <$>
          [SetLabel (label s); SetChoices (choices s);
           SetDefaultValue (defaultValue s);
           SetDisplayAlpha (displayAlpha s)]).
Proof.
  intros Hs. unfold loadDraft, getItem. rewrite Hs. simpl.
  pose proof (FormData_json_printable (fields s)) as Hp.
  rewrite bool_decide_eq_false_2 by by apply JSON_stringify_nonempty.
  simpl. by rewrite JSON_parse_stringify by done.
Qed.

Lemma loadDraft_persistDraft s storage :
  loadDraft (persistDraft s storage)
  = Ok (embed_update <$>
          [SetLabel (label s); SetChoices (choices s);
           SetDefaultValue (defaultValue s);
           SetDisplayAlpha (displayAlpha s)]).
Proof. apply loadDraft_draft, persistDraft_lookup. Qed.

(** C29: Persisting then loading, with no other effect in between, restores
    the four editable hooks and leaves the others alone. *)
Lemma loadDraft_restores s s' storage :
  ∃ q, loadDraft (persistDraft s storage) = Ok q ∧
  typed (commit (embed s') q)
  = Some (mkHooks (label s) (choices s) (defaultValue s) (displayAlpha s)
            (validationErrors s') (isLoading s') (initialData s')).
Proof.
  eexists. split; [apply loadDraft_persistDraft|].
  by rewrite typed_commit_embed.
Qed.

(** ** Mounting *)

(** A batch that ends with the four setter calls of the fetch effects
    fixes the four editable hooks, whatever came before. *)
Lemma commit_four {T B} (h : Hooks T B) q l c d a :
  commit h (q ++ [SetLabel l; SetChoices c; SetDefaultValue d;
                  SetDisplayAlpha a])
  = let h' := commit h q in
    mkHooks l c d a (validationErrors h') (isLoading h') (initialData h').
Proof. by rewrite commit_app. Qed.

Lemma commit_editable_frame (h : Hooks jsval jsval) q :
  Forall sets_editable q →
  validationErrors (commit h q) = validationErrors h ∧
  isLoading (commit h q) = isLoading h ∧
  initialData (commit h q) = initialData h.
Proof.
  intros Hq. revert h. induction Hq as [|u q Hu Hq IH]; intros h; [done|].
  rewrite commit_cons. destruct (IH (apply_update h u)) as (-> & -> & ->).
  by destruct u.
Qed.

(** The storage after a mount that did not throw: the draft is the
    default field. *)
Definition mountedStorage (storage : gmap string string)
    : gmap string string :=
  setItem formData (JSON_stringify (FormData_json defaultFields)) storage.

(** When the draft loader does not throw, mounting ends in the default
    state, whatever the storage held: the setter calls of the loader are
    shadowed by those of the fetch effects in the same batch. *)
Lemma mount_Ok storage q :
  loadDraft storage = Ok q →
  mount storage = Rendered mountedState (mountedStorage storage).
Proof.
  intros Hq. unfold mount. rewrite Hq.
  pose proof (loadDraft_sets_editable _ _ Hq) as Hed.
  replace (q ++ _ ++ _) with
    ((q ++ (embed_update <$> updates_of (emitted fetchDefault)) ++
        [SetInitialData defaultFields]) ++
     [SetLabel (of_string (fd_label defaultFields));
      SetChoices (of_string (fd_choices defaultFields));
      SetDefaultValue (of_string (fd_defaultValue defaultFields));
      SetDisplayAlpha (of_bool (fd_displayAlpha defaultFields))])
    by (by rewrite <-!app_assoc).
  rewrite commit_four. cbn zeta.
  rewrite (assoc_L (++)), commit_snoc.
  rewrite commit_app.
  destruct (commit_editable_frame (embed initialState) q Hed)
    as (Hv & Hl & Hi).
  unfold typed. cbn [label choices defaultValue displayAlpha].
  rewrite !as_string_of_string, as_bool_of_bool. simpl.
  rewrite Hv, Hl. simpl.
  unfold rerender. rewrite decide_False by done.
  by rewrite persistDraft_persistDraft.
Qed.

(** Mounting throws exactly when the draft loader does, and the storage
    is then as it was. *)
Lemma mount_Throw storage e :
  loadDraft storage = Throw e → mount storage = Crashed e storage.
Proof. intros Hq. unfold mount. by rewrite Hq. Qed.

Lemma mount_Crashed storage e storage' :
  mount storage = Crashed e storage' ↔
  loadDraft storage = Throw e ∧ storage' = storage.
Proof.
  destruct (loadDraft storage) as [q|e'] eqn:Hq.
  - rewrite (mount_Ok _ _ Hq). naive_solver.
  - rewrite (mount_Throw _ _ Hq). naive_solver.
Qed.

(** C9: Mounting throws, and leaves the storage as it was, exactly when
    the storage holds a non-empty draft that is not JSON (a [SyntaxError])
    or is the JSON text of [null] (a [TypeError]). *)
Theorem mount_crash_cause storage e :
  mount storage = Crashed e storage ↔
  ∃ text, storage !! formData = Some text ∧ text ≠ "" ∧
    (JSON_parse text = Throw e ∨
     JSON_parse text = Ok JNull ∧ e = TypeError).
Proof. rewrite mount_Crashed, loadDraft_throws. naive_solver. Qed.

(** Every hook holds a string or a boolean after any mount. *)
Lemma mount_typed storage : mount storage ≠ IllTyped.
Proof.
  destruct (loadDraft storage) as [q|e'] eqn:Hq.
  - by rewrite (mount_Ok _ _ Hq).
  - by rewrite (mount_Throw _ _ Hq).
Qed.

(** C8: The two ways a mount can end. *)
Lemma mount_cases storage :
  mount storage = Rendered mountedState (mountedStorage storage) ∨
  ∃ e, mount storage = Crashed e storage ∧ loadDraft storage = Throw e.
Proof.
  destruct (loadDraft storage) as [q|e'] eqn:Hq.
  - left. by apply (mount_Ok _ q).
  - right. exists e'. by rewrite (mount_Throw _ _ Hq).
Qed.

(** A storage whose draft the component wrote itself never makes a mount
    throw: a page can always be reloaded. *)
Lemma mount_persistDraft s storage :
  mount (persistDraft s storage)
  = Rendered mountedState (mountedStorage storage).
Proof.
  erewrite mount_Ok by apply loadDraft_persistDraft.
  unfold mountedStorage, persistDraft, setItem.
  by rewrite insert_insert_eq.
Qed.

(** A storage without a draft does not either. *)
Lemma mount_no_draft storage :
  storage !! formData = None →
  mount storage = Rendered mountedState (mountedStorage storage).
Proof.
  intros Hs. apply (mount_Ok _ []), loadDraft_absent.
  unfold getItem. by rewrite Hs.
Qed.

(** ** Later renders *)

(** If the storage held the draft of the previous render, it holds the
    draft of the next one after the effects have run. *)
Lemma rerender_lookup prev next storage :
  storage !! formData
  = Some (JSON_stringify (FormData_json (fields prev))) →
  rerender prev next storage !! formData
  = Some (JSON_stringify (FormData_json (fields next))).
Proof.
  intros Hs. unfold rerender. case_decide as Hf.
  - by rewrite <-Hf.
  - apply persistDraft_lookup.
Qed.

Lemma rerender_other prev next storage key :
  key ≠ formData → rerender prev next storage !! key = storage !! key.
Proof.
  intros Hk. unfold rerender. case_decide; [done|].
  by apply persistDraft_other.
Qed.

(** A render that changed none of the four editable hooks writes
    nothing. *)
Lemma rerender_same prev next storage :
  same_fields prev next → rerender prev next storage = storage.
Proof. intros Hf. unfold rerender. by rewrite decide_True. Qed.

End effects.

#[export] Hint Rewrite @typed_embed @typed_commit_embed
  @persistDraft_lookup @persistDraft_persistDraft : form_rw.

(** ** Mounting, run *)

(** With the parser of [Json]: a storage whose draft was cut short, one
    whose draft is [null], and an empty one. *)
Lemma mount_crash_cause_witness :
  mount {[ formData := "{" ]} = Crashed SyntaxError {[ formData := "{" ]} ∧
  mount {[ formData := "null" ]} = Crashed TypeError {[ formData := "null" ]}.
Proof.
  split; apply mount_crash_cause; eexists;
    (split; [apply lookup_singleton_eq|]); split; try done; auto.
Defined.
