(* ===== verification/Machine.v ===== *)
(** * Machine: the page as a transition system

    The mounted component, the storage, the pending calls of
    [saveField], the console and the requests sent make up the state of
    the page.  The user and the network drive it: typing in an input,
    choosing an order, clicking one of the three buttons, and the
    settlement of a promise a pending call awaits.

    One event is one React batch: the handler runs against the current
    state, the service calls it makes start at once (their first lines are
    logged and their request is sent), its setter calls are committed, the
    component renders again and the effects whose dependencies changed
    run.  [step] is that function; [reachable] is the set of pages a
    mount followed by any sequence of events can produce, and the
    invariants are proved by induction over it. *)

From S2P Require Import Prelude JsString JsSet JsonApi Json FieldService.
From S2P Require Import FormState Validate Handlers Effects.

#[local] Set Warnings "-clear-no-such-hyp".

(** ** State and events *)

(** A pending call of [saveField]: where it is suspended, and the setter
    calls of the callback given to [finally]. *)
Record Task : Type := mkTask {
  task_state : SaveTask;
  task_finally : list (update string bool)
}.

Record Page : Type := mkPage {
  comp : State;
  localStorage : gmap string string;
  tasks : gmap nat Task;
  next_id : nat;
  console : list console_line;
  requests : list Request
}.

Inductive event : Type :=
| InputLabel (value : string)
| InputDefaultValue (value : string)
| InputChoices (value : string)
| SelectOrder (value : string)
| ClickSave
| ClickClear
| ClickCancel
| Settle (id : nat) (o : Settlement).

#[export] Instance event_eq_dec : EqDecision event.
Proof. solve_decision. Defined.

Section machine.
Context `{!JsonCodec}.

(** ** Transitions *)

(** The handler the JSX binds to each user event (lines 147, 165, 172,
    181 and 194-196). *)
Definition dispatch (s : State) (e : event) : script unit :=
  match e with
  | InputLabel value => onChange_label value
  | InputDefaultValue value => onChange_defaultValue value
  | InputChoices value => onChange_choices value
  | SelectOrder value => onChange_order value
  | ClickSave => handleSubmit s
  | ClickClear => clearForm s
  | ClickCancel => cancelAndReset s
  | Settle _ _ => skip
  end.

(** A call of [saveField] made by a handler: the code before the first
    [await] runs, and the call is pending from then on. *)
Definition start_call (p : Page)
    (call : SaveData * list (update string bool)) : Page :=
  let '(lines, request, t) := saveField call.1 in
  mkPage (comp p) (localStorage p)
    (<[next_id p := mkTask t call.2]> (tasks p))
    (S (next_id p))
    (console p ++ lines)
    (requests p ++ [request]).

(** A batch of setter calls committed, and the render that follows. *)
Definition render (us : list (update string bool)) (p : Page) : Page :=
  let s' := commit (comp p) us in
  mkPage s' (rerender (comp p) s' (localStorage p))
    (tasks p) (next_id p) (console p) (requests p).

(** A handler run to its end. *)
Definition handle (h : script unit) (p : Page) : Page :=
  render (updates_of (emitted h)) (foldl start_call p (calls_of (emitted h))).

(** The page after a pending call [t] with identifier [id] has run on,
    logging [r.1] and stopping in [r.2]: when the call is over it leaves
    the pending calls and the callback of [finally] runs. *)
Definition settled (id : nat) (t : Task)
    (r : list console_line * SaveTask) (p : Page) : Page :=
  match r.2 with
  | Fulfilled =>
      render (task_finally t)
        (mkPage (comp p) (localStorage p) (delete id (tasks p))
           (next_id p) (console p ++ r.1) (requests p))
  | t' =>
      mkPage (comp p) (localStorage p)
        (<[id := mkTask t' (task_finally t)]> (tasks p))
        (next_id p) (console p ++ r.1) (requests p)
  end.

(** A promise settles: the call that awaits it resumes. *)
Definition settle (id : nat) (o : Settlement) (p : Page) : Page :=
  match tasks p !! id with
  | None => p
  | Some t => settled id t (resume (task_state t) o) p
  end.

Definition step (p : Page) (e : event) : Page :=
  match e with
  | Settle id o => settle id o p
  | _ => handle (dispatch (comp p) e) p
  end.

Definition run (p : Page) (es : list event) : Page := foldl step p es.

(** The page right after a mount. *)
Definition init (s : State) (storage : gmap string string) : Page :=
  mkPage s storage ∅ 0 [] [].

(** The pages a mount and a sequence of events can produce. *)
Inductive reachable : Page → Prop :=
| reachable_init storage s storage' :
    mount storage = Rendered s storage' → reachable (init s storage')
| reachable_step p e : reachable p → reachable (step p e).

(** ** Invariants, stated *)

(** The storage holds the draft of the current render. *)
Definition storage_inv (p : Page) : Prop :=
  localStorage p !! formData
  = Some (JSON_stringify (FormData_json (fields (comp p)))).

(** [initialData] is the default field. *)
Definition initial_inv (p : Page) : Prop :=
  initialData (comp p) = defaultFields.

(** The messages shown are some of the three, in their order. *)
Definition errors_inv (p : Page) : Prop :=
  validationErrors (comp p)
    `sublist_of` [msg_label_required; msg_duplicates; msg_too_many].

(** Pending calls are not over, carry the callback that clears the
    loading flag, and have identifiers below the next fresh one. *)
Definition tasks_inv (p : Page) : Prop :=
  ∀ id t, tasks p !! id = Some t →
    id < next_id p ∧ task_state t ≠ Fulfilled ∧
    task_finally t = [SetIsLoading false].

(** Data that passed validation. *)
Definition valid_data (d : SaveData) : Prop :=
  sd_label d ≠ "" ∧ NoDup (sd_choices d) ∧ length (sd_choices d) ≤ 50.

(** One request was sent per call started, each posting data that
    passed validation. *)
Definition requests_inv (p : Page) : Prop :=
  length (requests p) = next_id p ∧
  Forall (λ rq, ∃ d, rq = saveField_request d ∧ valid_data d) (requests p).

Definition inv (p : Page) : Prop :=
  storage_inv p ∧ initial_inv p ∧ errors_inv p ∧ tasks_inv p ∧
  requests_inv p.

(** ** Transitions, unfolded *)

Lemma run_nil p : run p [] = p.
Proof. done. Qed.

Lemma run_cons p e es : run p (e :: es) = run (step p e) es.
Proof. done. Qed.

Lemma run_app p es1 es2 : run p (es1 ++ es2) = run (run p es1) es2.
Proof. apply foldl_app. Qed.

Lemma reachable_run p es : reachable p → reachable (run p es).
Proof.
  revert p. induction es as [|e es IH]; intros p Hp; [done|].
  apply IH. by constructor.
Qed.

(** A handler that calls no service only commits and renders. *)
Lemma handle_no_calls h p :
  calls_of (emitted h) = [] → handle h p = render (updates_of (emitted h)) p.
Proof. intros Hc. unfold handle. by rewrite Hc. Qed.

(** The component after a handler: the handler's script committed. *)
Lemma comp_start_calls p cs : comp (foldl start_call p cs) = comp p.
Proof.
  revert p. induction cs as [|c cs IH]; intros p; [done|].
  simpl. rewrite IH. unfold start_call. by destruct (saveField c.1) as [[]].
Qed.

Lemma localStorage_start_calls p cs :
  localStorage (foldl start_call p cs) = localStorage p.
Proof.
  revert p. induction cs as [|c cs IH]; intros p; [done|].
  simpl. rewrite IH. unfold start_call. by destruct (saveField c.1) as [[]].
Qed.

Lemma comp_handle h p : comp (handle h p) = after (comp p) h.
Proof. unfold handle, render, after; simpl. by rewrite comp_start_calls. Qed.

Lemma localStorage_handle h p :
  localStorage (handle h p)
  = rerender (comp p) (after (comp p) h) (localStorage p).
Proof.
  unfold handle, render, after; simpl.
  by rewrite comp_start_calls, localStorage_start_calls.
Qed.

(** A settlement for a call that is not pending changes nothing. *)
Lemma settle_unknown id o p : tasks p !! id = None → settle id o p = p.
Proof. intros Hid. unfold settle. by rewrite Hid. Qed.

(** The component after a settlement: the callback of [finally] applied
    if the call is over, nothing otherwise. *)
Lemma comp_settle id o p :
  comp (settle id o p) =
  match tasks p !! id with
  | Some t =>
      if decide ((resume (task_state t) o).2 = Fulfilled)
      then commit (comp p) (task_finally t) else comp p
  | None => comp p
  end.
Proof.
  unfold settle. destruct (tasks p !! id) as [t|]; [|done].
  destruct (resume _ _) as [lines [| |]]; by simpl.
Qed.

(** ** What handlers do to the hooks the invariants speak about *)

(** Only [handleSubmit] on a valid state calls the service. *)
Lemma dispatch_calls s e :
  calls_of (emitted (dispatch s e))
  = if decide (e = ClickSave ∧ valid s)
    then [(submit_data s, [SetIsLoading false])] else [].
Proof.
  destruct e; cbn [dispatch]; try by rewrite decide_False by naive_solver.
  rewrite handleSubmit_calls.
  case_decide; [by rewrite decide_True|by rewrite decide_False by naive_solver].
Qed.

(** No handler sets [initialData]. *)
Lemma dispatch_initialData s e :
  initialData (after s (dispatch s e)) = initialData s.
Proof. destruct e; try done. apply handleSubmit_frame. Qed.

(** The messages after any handler are among the three. *)
Lemma dispatch_validationErrors s e :
  validationErrors s
    `sublist_of` [msg_label_required; msg_duplicates; msg_too_many] →
  validationErrors (after s (dispatch s e))
    `sublist_of` [msg_label_required; msg_duplicates; msg_too_many].
Proof.
  intros Hs. destruct e; try done; simpl; try apply sublist_nil_l.
  rewrite handleSubmit_errors. apply reported_sublist.
Qed.

(** The data of a valid state passes the rules of validation. *)
Lemma submit_data_valid s : valid s → valid_data (submit_data s).
Proof. intros Hv. by apply reported_nil in Hv. Qed.

(** ** The storage invariant *)

Lemma storage_inv_render us p : storage_inv p → storage_inv (render us p).
Proof. intros Hp. by apply rerender_lookup. Qed.

(** The invariant reads the component and the storage only. *)
Lemma storage_inv_ext p1 p2 :
  comp p1 = comp p2 → localStorage p1 = localStorage p2 →
  storage_inv p1 → storage_inv p2.
Proof. unfold storage_inv. by intros -> ->. Qed.

Lemma storage_inv_handle h p : storage_inv p → storage_inv (handle h p).
Proof.
  intros Hp. apply storage_inv_render.
  eapply storage_inv_ext; [| |done];
    by rewrite ?comp_start_calls, ?localStorage_start_calls.
Qed.

Lemma storage_inv_settle id o p : storage_inv p → storage_inv (settle id o p).
Proof.
  intros Hp. unfold settle. destruct (tasks p !! id) as [t|]; [|done].
  destruct (resume _ _) as [lines [| |]]; try done.
  by apply storage_inv_render.
Qed.

Lemma storage_inv_step p e : storage_inv p → storage_inv (step p e).
Proof.
  destruct e; simpl; auto using storage_inv_handle, storage_inv_settle.
Qed.

(** Mounting, when it does not throw, ends in the default state. *)
Lemma mount_Rendered storage s storage' :
  mount storage = Rendered s storage' →
  s = mountedState ∧ storage' = mountedStorage storage.
Proof.
  destruct (loadDraft storage) as [q|e] eqn:Hq.
  - rewrite (mount_Ok _ _ Hq). naive_solver.
  - by rewrite (mount_Throw _ _ Hq).
Qed.

Lemma storage_inv_init storage s storage' :
  mount storage = Rendered s storage' → storage_inv (init s storage').
Proof.
  intros [-> ->]%mount_Rendered. apply lookup_insert_eq.
Qed.

(** ** The pending calls *)

Lemma tasks_inv_render us p : tasks_inv p → tasks_inv (render us p).
Proof. done. Qed.

Lemma tasks_inv_start_call p d :
  tasks_inv p → tasks_inv (start_call p (d, [SetIsLoading false])).
Proof.
  intros Hp id t. simpl. intros [[<- <-]|[_ Hid]]%lookup_insert_Some.
  - simpl. split_and!; [lia|done..].
  - destruct (Hp id t Hid) as (? & ? & ?). split_and!; [lia|done..].
Qed.

Lemma tasks_inv_handle s e p :
  tasks_inv p → tasks_inv (handle (dispatch s e) p).
Proof.
  intros Hp. apply tasks_inv_render. rewrite dispatch_calls.
  case_decide; [by apply tasks_inv_start_call|done].
Qed.

Lemma tasks_inv_settle id o p : tasks_inv p → tasks_inv (settle id o p).
Proof.
  intros Hp. unfold settle. destruct (tasks p !! id) as [t|] eqn:Ht; [|done].
  destruct (Hp id t Ht) as (Hid & _ & Hf).
  destruct (resume _ _) as [lines t'] eqn:Hr.
  assert (∀ id' t0,
    <[id := mkTask t' (task_finally t)]> (tasks p) !! id' = Some t0 →
    t' ≠ Fulfilled →
    id' < next_id p ∧ task_state t0 ≠ Fulfilled
    ∧ task_finally t0 = [SetIsLoading false]) as Hins.
  { intros id' t0 [[<- <-]|[_ Hid']]%lookup_insert_Some ?; [done|].
    by apply Hp. }
  destruct t'; [by intros id' t0 ?; apply Hins.. |].
  apply tasks_inv_render. intros id' t0. simpl.
  intros [_ Hid']%lookup_delete_Some. by apply Hp.
Qed.

Lemma tasks_inv_step p e : tasks_inv p → tasks_inv (step p e).
Proof.
  intros Hp.
  destruct e; try exact (tasks_inv_handle (comp p) _ p Hp).
  by apply tasks_inv_settle.
Qed.

(** ** The hooks no event should disturb *)

(** With pending calls that carry the callback of [handleSubmit], a
    settlement changes at most the loading flag. *)
Lemma comp_settle_frame id o p :
  tasks_inv p →
  let s' := comp (settle id o p) in
  fields s' = fields (comp p) ∧
  validationErrors s' = validationErrors (comp p) ∧
  initialData s' = initialData (comp p).
Proof.
  intros Hp. rewrite comp_settle.
  destruct (tasks p !! id) as [t|] eqn:Ht; [|done].
  destruct (Hp id t Ht) as (_ & _ & ->). by case_decide.
Qed.

(** A settlement leaves the fields as they are, so it writes nothing to
    the storage. *)
Lemma same_fields_settle id o p :
  tasks_inv p → same_fields (comp (settle id o p)) (comp p).
Proof. intros Hp. by destruct (comp_settle_frame id o p Hp) as (? & _). Qed.

Lemma localStorage_settle id o p :
  tasks_inv p → localStorage (settle id o p) = localStorage p.
Proof.
  intros Hp. unfold settle. destruct (tasks p !! id) as [t|] eqn:Hid; [|done].
  destruct (Hp _ _ Hid) as (_ & _ & Hfin). unfold settled.
  destruct (resume _ _) as [lines [| |]]; try done.
  rewrite Hfin. by apply rerender_same.
Qed.

Lemma initial_inv_step p e :
  tasks_inv p → initial_inv p → initial_inv (step p e).
Proof.
  unfold initial_inv. intros Ht Hi.
  destruct e as [v|v|v|v| | | |id o]; cbn [step];
    try (by rewrite comp_handle, dispatch_initialData).
  by destruct (comp_settle_frame id o p Ht) as (_ & _ & ->).
Qed.

Lemma errors_inv_step p e :
  tasks_inv p → errors_inv p → errors_inv (step p e).
Proof.
  unfold errors_inv. intros Ht He.
  destruct e as [v|v|v|v| | | |id o]; cbn [step];
    try (rewrite comp_handle; by apply dispatch_validationErrors).
  by destruct (comp_settle_frame id o p Ht) as (_ & -> & _).
Qed.

(** ** The requests *)

Lemma requests_inv_render us p : requests_inv p → requests_inv (render us p).
Proof. done. Qed.

Lemma requests_inv_handle s e p :
  requests_inv p → requests_inv (handle (dispatch s e) p).
Proof.
  intros [Hl Hr]. apply requests_inv_render. rewrite dispatch_calls.
  case_decide as Hv; [destruct Hv as [_ Hv]|done]. split; simpl.
  - rewrite length_app. simpl. lia.
  - apply Forall_app. split; [done|]. constructor; [|done].
    exists (submit_data s). split; [done|]. by apply submit_data_valid.
Qed.

Lemma requests_inv_settle id o p :
  requests_inv p → requests_inv (settle id o p).
Proof.
  intros Hp. unfold settle. destruct (tasks p !! id) as [t|]; [|done].
  by destruct (resume _ _) as [lines [| |]].
Qed.

Lemma requests_inv_step p e : requests_inv p → requests_inv (step p e).
Proof.
  intros Hp.
  destruct e; try exact (requests_inv_handle (comp p) _ p Hp).
  by apply requests_inv_settle.
Qed.

(** ** All invariants, on every reachable page *)

Lemma inv_init storage s storage' :
  mount storage = Rendered s storage' → inv (init s storage').
Proof.
  intros Hm. split; [by eapply storage_inv_init|].
  apply mount_Rendered in Hm as [-> ->].
  split_and!; try done. apply sublist_nil_l.
Qed.

Lemma inv_step p e : inv p → inv (step p e).
Proof.
  intros (Hs & Hi & He & Ht & Hr).
  split_and!; auto using storage_inv_step, initial_inv_step, errors_inv_step,
    tasks_inv_step, requests_inv_step.
Qed.

Lemma reachable_inv p : reachable p → inv p.
Proof. induction 1; eauto using inv_init, inv_step. Qed.

(** ** The loading flag *)

(** On a page without pending calls, an event other than a click on Save
    starts no call and leaves the loading flag as it is. *)
Lemma step_quiet p e :
  tasks p = ∅ → e ≠ ClickSave →
  tasks (step p e) = ∅ ∧ isLoading (comp (step p e)) = isLoading (comp p).
Proof.
  intros Ht He. destruct e as [v|v|v|v| | | |id o]; try done.
  cbn [step]. rewrite settle_unknown; [done|]. by rewrite Ht.
Qed.

Lemma run_quiet p es :
  tasks p = ∅ → ClickSave ∉ es →
  tasks (run p es) = ∅ ∧ isLoading (comp (run p es)) = isLoading (comp p).
Proof.
  revert p. induction es as [|e es IH]; intros p Ht Hes; [done|].
  apply not_elem_of_cons in Hes as [He Hes].
  destruct (step_quiet p e Ht) as [Ht' Hl]; [done|].
  rewrite run_cons. destruct (IH _ Ht' Hes) as [-> ->]. done.
Qed.

(** A click on Save, unfolded on a valid and on an invalid state. *)
Lemma step_ClickSave_valid p :
  valid (comp p) →
  step p ClickSave
  = render (updates_of (emitted (handleSubmit (comp p))))
      (start_call p (submit_data (comp p), [SetIsLoading false])).
Proof.
  intros Hv. cbn [step dispatch]. unfold handle.
  by rewrite handleSubmit_calls, decide_True.
Qed.

Lemma step_ClickSave_invalid p :
  ¬ valid (comp p) →
  step p ClickSave = render (updates_of (emitted (handleSubmit (comp p)))) p.
Proof.
  intros Hv. cbn [step dispatch]. apply handle_no_calls.
  by rewrite handleSubmit_calls, decide_False.
Qed.

(** ** Other keys of the storage *)

Lemma step_storage_frame p e key :
  key ≠ formData → localStorage (step p e) !! key = localStorage p !! key.
Proof.
  intros Hk. destruct e as [v|v|v|v| | | |id o]; cbn [step];
    try (rewrite localStorage_handle; by apply rerender_other).
  unfold settle. destruct (tasks p !! id) as [t|]; [|done].
  unfold settled. destruct (resume _ _) as [lines [| |]]; try done.
  by apply rerender_other.
Qed.

(** ** A call, from its start to its end *)

Lemma settled_id id t p :
  tasks p !! id = Some t → task_state t ≠ Fulfilled →
  settled id t ([], task_state t) p = p.
Proof.
  intros Ht Hne. destruct p as [s st ts n c rq], t as [t fin]; simpl in *.
  unfold settled; simpl. rewrite app_nil_r.
  destruct t; [| |done]; by rewrite insert_id.
Qed.

Lemma run_settle_unknown id os p :
  tasks p !! id = None → run p (Settle id <$> os) = p.
Proof.
  intros Ht. induction os as [|o os IH]; [done|].
  by rewrite fmap_cons, run_cons; cbn [step]; rewrite settle_unknown.
Qed.

(** Two stretches of a call, one after the other. *)
Lemma settled_settled id t l1 t1 r p :
  t1 ≠ Fulfilled →
  settled id (mkTask t1 (task_finally t)) r (settled id t (l1, t1) p)
  = settled id t (l1 ++ r.1, r.2) p.
Proof.
  intros Ht1. destruct r as [l2 t2]. unfold settled at 2. simpl.
  destruct t1; [| |done]; unfold settled; simpl;
    destruct t2; simpl; by rewrite ?insert_insert_eq, ?delete_insert_eq,
      ?app_assoc.
Qed.

(** The settlements of one pending call run the call as [resume_all]
    does. *)
Lemma run_settle id os : ∀ t p,
  tasks p !! id = Some t → task_state t ≠ Fulfilled →
  run p (Settle id <$> os) = settled id t (resume_all (task_state t) os) p.
Proof.
  induction os as [|o os IH]; intros t p Ht Hne; [by rewrite settled_id|].
  rewrite fmap_cons, run_cons. cbn [step resume_all]. unfold settle.
  rewrite Ht. destruct (resume (task_state t) o) as [l1 t1] eqn:Hr.
  destruct (decide (t1 = Fulfilled)) as [->|Ht1].
  - rewrite resume_all_Fulfilled, app_nil_r. apply run_settle_unknown.
    apply lookup_delete_eq.
  - rewrite (IH (mkTask t1 (task_finally t)));
      [|by destruct t1; simpl; rewrite ?lookup_insert_eq|done].
    simpl. destruct (resume_all t1 os) as [l2 t2] eqn:Hrun.
    by rewrite settled_settled.
Qed.

(** ** Main theorems *)

(** The state every mount ends in passes validation, and its choices
    contain its default value: Save on an untouched form posts the
    default field and appends nothing. *)
Theorem mounted_valid :
  valid mountedState ∧
  includes (choices mountedState) (defaultValue mountedState) = true ∧
  submit_data mountedState
  = mkSaveData (f_label (getField undefined)) (f_choices (getField undefined))
      (f_default (getField undefined)) (f_displayAlpha (getField undefined)).
Proof. by vm_compute. Qed.

(** C4: On every reachable page the storage holds the draft of the current
    render: the four editable hooks, printed as JSON, under the key
    [formData]. *)
Theorem reachable_storage p : reachable p → storage_inv p.
Proof. by intros (? & _)%reachable_inv. Qed.

(** C7: On every reachable page, each request that was sent posts data that
    passed validation, and one request was sent per call of
    [saveField]. *)
Theorem reachable_requests p : reachable p → requests_inv p.
Proof. by intros (_ & _ & _ & _ & ?)%reachable_inv. Qed.

(** On every reachable page the pending calls are suspended at an
    [await], have identifiers that were handed out, and carry the callback
    that clears the loading flag. *)
Theorem reachable_tasks p : reachable p → tasks_inv p.
Proof. by intros (_ & _ & _ & ? & _)%reachable_inv. Qed.

(** On every reachable page [initialData] is the default field and the
    messages shown are among the three of [validateForm], in their
    order. *)
Theorem reachable_initial_errors p :
  reachable p → initial_inv p ∧ errors_inv p.
Proof. by intros (_ & ? & ? & _)%reachable_inv. Qed.

(** C31: Cancel on a reachable page puts the default field back in the four
    editable hooks, whatever was typed, clears the messages, and the
    draft in the storage follows. *)
Theorem cancel_restores p :
  reachable p →
  let p' := step p ClickCancel in
  fields (comp p') = defaultFields ∧ validationErrors (comp p') = [] ∧
  localStorage p' !! formData
  = Some (JSON_stringify (FormData_json defaultFields)).
Proof.
  intros Hp p'.
  destruct (reachable_inv p' (reachable_step p ClickCancel Hp)) as (Hs & _).
  destruct (reachable_inv p Hp) as (_ & Hi & _).
  rewrite Hs. unfold p'. cbn [step dispatch].
  by rewrite comp_handle, cancelAndReset_fields, Hi.
Qed.

(** C32: Clear on a reachable page empties the four editable hooks and the
    messages, and the draft in the storage is overwritten with the empty
    form. *)
Theorem clear_overwrites_draft p :
  reachable p →
  let p' := step p ClickClear in
  fields (comp p') = mkFormData "" "" "" true ∧
  validationErrors (comp p') = [] ∧
  localStorage p' !! formData
  = Some (JSON_stringify (FormData_json (mkFormData "" "" "" true))).
Proof.
  intros Hp p'.
  destruct (reachable_inv p' (reachable_step p ClickClear Hp)) as (Hs & _).
  by rewrite Hs.
Qed.

(** Reloading a reachable page never throws, and the draft it had written
    is not restored: the page mounts in the default state. *)
Theorem reload_discards_draft p :
  reachable p →
  mount (localStorage p)
  = Rendered mountedState (mountedStorage (localStorage p)).
Proof. intros (Hs & _)%reachable_inv. eapply mount_Ok, loadDraft_draft, Hs. Qed.

(** C5: A click on Save on an invalid form without pending calls sets the
    loading flag for good: no input, no Clear, no Cancel and no settlement
    clears it. *)
Theorem invalid_save_stuck p es :
  tasks p = ∅ → ¬ valid (comp p) → ClickSave ∉ es →
  isLoading (comp (run (step p ClickSave) es)) = true.
Proof.
  intros Ht Hv Hes. rewrite step_ClickSave_invalid by done.
  destruct (run_quiet (render (updates_of (emitted (handleSubmit (comp p)))) p)
              es Ht Hes) as [_ ->].
  change (isLoading (after (comp p) (handleSubmit (comp p))) = true).
  by rewrite handleSubmit_isLoading, bool_decide_eq_false_2.
Qed.

(** C33: A click on Save on a valid form whose choices contain the default
    value leaves a call pending with the loading flag cleared. *)
Theorem save_included_not_loading p :
  valid (comp p) →
  includes (choices (comp p)) (defaultValue (comp p)) = true →
  let p' := step p ClickSave in
  isLoading (comp p') = false ∧
  tasks p' !! next_id p = Some (mkTask AwaitFetch [SetIsLoading false]).
Proof.
  intros Hv Hi p'. unfold p'. rewrite step_ClickSave_valid by done. split.
  - change (isLoading (after (comp p) (handleSubmit (comp p))) = false).
    by rewrite handleSubmit_isLoading, bool_decide_eq_true_2, Hi.
  - apply lookup_insert_eq.
Qed.

(** C6: Every call of [saveField] ends: after a click on Save on a valid
    form, whatever the network answers, at most two settlements later the
    call has left the pending calls, the loading flag is cleared, and the
    console has three more lines. *)
Theorem save_completes p (o : option Response) :
  valid (comp p) →
  ∃ os line,
    length os ≤ 1 ∧
    let p' := run (step p ClickSave)
                (Settle (next_id p) <$>
                   from_option FetchResolves FetchRejects o :: os) in
    tasks p' !! next_id p = None ∧ isLoading (comp p') = false ∧
    console p'
    = console p ++ (saveField (submit_data (comp p))).1.1 ++ [line].
Proof.
  intros Hv. rewrite step_ClickSave_valid by done.
  destruct (resume_all_fulfils o) as (os & line & Hos & Hrun).
  exists os, line. split; [done|]. cbn zeta.
  rewrite (run_settle _ _ (mkTask AwaitFetch [SetIsLoading false]));
    [|apply lookup_insert_eq|done].
  cbn [task_state]. rewrite Hrun. unfold settled. simpl.
  by rewrite lookup_delete_eq, <-app_assoc.
Qed.

(** No event changes a key of the storage other than [formData]. *)
Theorem run_storage_frame p es key :
  key ≠ formData → localStorage (run p es) !! key = localStorage p !! key.
Proof.
  intros Hk. revert p. induction es as [|e es IH]; intros p; [done|].
  by rewrite run_cons, IH, step_storage_frame.
Qed.

End machine.

(** ** The machine, run *)

(** The page mounted on an empty storage, with the parser of [Json], and
    three pages reached from it: after typing and saving, after clearing,
    and after making the form valid with its default value among the
    choices. *)
Definition page0 : Page := init mountedState (mountedStorage ∅).

Definition page_typed : Page :=
  run page0 [InputLabel "Region"; InputChoices "Asia"; ClickSave].

Definition page_cleared : Page := run page0 [ClickClear].

Lemma reachable_page0 : reachable page0.
Proof. apply (reachable_init ∅), mount_no_draft, lookup_empty. Qed.

Lemma reachable_storage_witness : storage_inv page_typed.
Proof. apply reachable_storage, reachable_run, reachable_page0. Defined.

Lemma reachable_requests_witness : requests_inv page_typed.
Proof. apply reachable_requests, reachable_run, reachable_page0. Defined.

Lemma reachable_tasks_witness : tasks_inv page_typed.
Proof. apply reachable_tasks, reachable_run, reachable_page0. Defined.

Lemma reachable_initial_errors_witness :
  initial_inv page_cleared ∧ errors_inv page_cleared.
Proof. apply reachable_initial_errors, reachable_run, reachable_page0. Defined.

Lemma cancel_restores_witness :
  let p' := step page_typed ClickCancel in
  fields (comp p') = defaultFields ∧ validationErrors (comp p') = [] ∧
  localStorage p' !! formData
  = Some (JSON_stringify (FormData_json defaultFields)).
Proof. apply cancel_restores, reachable_run, reachable_page0. Defined.

Lemma clear_overwrites_draft_witness :
  let p' := step page_typed ClickClear in
  fields (comp p') = mkFormData "" "" "" true ∧
  validationErrors (comp p') = [] ∧
  localStorage p' !! formData
  = Some (JSON_stringify (FormData_json (mkFormData "" "" "" true))).
Proof. apply clear_overwrites_draft, reachable_run, reachable_page0. Defined.

Lemma reload_discards_draft_witness :
  mount (localStorage page_typed)
  = Rendered mountedState (mountedStorage (localStorage page_typed)).
Proof. apply reload_discards_draft, reachable_run, reachable_page0. Defined.

Lemma invalid_save_stuck_witness :
  isLoading
    (comp (run (step page_cleared ClickSave)
             [InputDefaultValue "x"; ClickCancel; Settle 0 FetchRejects;
              ClickClear]))
  = true.
Proof.
  apply invalid_save_stuck; [done|by vm_compute|].
  apply (bool_decide_unpack _). by vm_compute.
Defined.

Lemma save_included_not_loading_witness :
  let p' := step page0 ClickSave in
  isLoading (comp p') = false ∧
  tasks p' !! 0 = Some (mkTask AwaitFetch [SetIsLoading false]).
Proof. apply (save_included_not_loading page0); by vm_compute. Defined.

Lemma save_completes_witness :
  ∃ os line,
    length os ≤ 1 ∧
    let p' := run (step page0 ClickSave)
                (Settle 0 <$> FetchResolves (mkResponse true 200 (Some "{}"))
                   :: os) in
    tasks p' !! 0 = None ∧ isLoading (comp p') = false ∧
    console p'
    = console page0 ++ (saveField (submit_data (comp page0))).1.1 ++ [line].
Proof.
  apply (save_completes page0 (Some (mkResponse true 200 (Some "{}")))).
  by vm_compute.
Defined.

Lemma run_storage_frame_witness :
  localStorage (run page0 [InputLabel "Region"; ClickSave]) !! "theme"
  = localStorage page0 !! "theme".
Proof. by apply run_storage_frame. Defined.
