(* ===== verification/Lifecycle.v ===== *)
(** * Lifecycle: the component run by the rules of React

    [FieldBuilderForm_hooks] is the component as React sees it: the
    initial values of its seven state hooks and its four [useEffect]
    calls in the order of the source, each with its callback and its
    dependency array.  The callbacks work on hooks that hold JavaScript
    values of any kind, as the code does: the persist effect stringifies
    whatever the four hooks hold.

    [Effects.mount] and [Machine.render] were written by hand from what
    React does to this component.  The theorems of this file check them
    against the rules of [React], which know nothing of the component:
    mounting by the rules is [mount], committing a batch of setter calls
    by the rules is [render], and the loop of renders ends after two
    passes at a mount and after one at an update, so the component never
    renders for ever.

    The rules of [React] come with two readings of what happens to the
    effects declared after one that throws.  [mount] follows the first
    (they do not run); [mount_each_recovers] states what the second gives
    for this component: the persist effect repairs the storage. *)

From S2P Require Import Prelude React JsString JsSet JsonApi Json.
From S2P Require Import FieldService FormState Validate Handlers Effects.
From S2P Require Import Machine.

#[local] Set Warnings "-clear-no-such-hyp".

(** The object literal of lines 38-43 with whatever the hooks hold; a
    property whose value is [undefined] is not printed by
    [JSON.stringify]. *)
Definition draft_object (h : Hooks jsval jsval) : json :=
  JObject
    (omap (λ m : string * jsval, pair (wide m.1) <$> m.2)
       [("label", label h); ("choices", choices h);
        ("defaultValue", defaultValue h); ("displayAlpha", displayAlpha h)]).

Section lifecycle.
Context `{!JsonCodec}.

Abbreviation hook_effect :=
  (effect (Hooks jsval jsval) (update jsval jsval) jsval (gmap string string)).

(** ** The four effects *)

(** Lines 24-34. *)
Definition useEffect_loadDraft : hook_effect := {|
  eff_run := λ _ storage, (loadDraft storage, storage);
  eff_deps := Some (λ _, [])
|}.

(** Lines 36-45. *)
Definition useEffect_persistDraft : hook_effect := {|
  eff_run := λ h storage,
    (Ok [], setItem formData (JSON_stringify (draft_object h)) storage);
  eff_deps :=
    Some (λ h, [label h; choices h; defaultValue h; displayAlpha h])
|}.

(** Lines 47-54. *)
Definition useEffect_fetchDefault : hook_effect := {|
  eff_run := λ _ storage,
    (Ok (embed_update <$> updates_of (emitted fetchDefault)), storage);
  eff_deps := Some (λ _, [])
|}.

(** Lines 111-128. *)
Definition useEffect_fetchInitial : hook_effect := {|
  eff_run := λ _ storage,
    (Ok (embed_update <$> updates_of (emitted fetchInitial)), storage);
  eff_deps := Some (λ _, [])
|}.

(** The component: its state hooks with their initial values, the setters,
    and the effects in the order of the [useEffect] calls. *)
Definition FieldBuilderForm_hooks
    : component (Hooks jsval jsval) (update jsval jsval) jsval
        (gmap string string) := {|
  useState_init := embed initialState;
  setState := apply_update;
  useEffects := [useEffect_loadDraft; useEffect_persistDraft;
                 useEffect_fetchDefault; useEffect_fetchInitial]
|}.

(** ** Typed hooks *)

(** Hooks that read back as a state hold that state. *)
Lemma narrow_Some us l : narrow us = Some l → us = wide l.
Proof.
  unfold narrow, wide. intros (l' & Hl' & ->)%fmap_Some.
  rewrite list_ascii_of_string_of_list_ascii.
  revert l' Hl'. induction us as [|u us IH]; intros l'; [by intros [= <-]|].
  rewrite mapM_Some. intros Hall. destruct l' as [|a l']; [by inversion Hall|].
  apply Forall2_cons in Hall as [Hu Hall%mapM_Some%IH]. simpl. f_equal; [|done].
  unfold narrow_unit in Hu. case_decide; [|done]. simplify_eq.
  by rewrite N_ascii_embedding.
Qed.

Lemma as_string_Some v l : as_string v = Some l → v = of_string l.
Proof.
  destruct v as [[|b|lit|us|items|ms]|]; simpl; try done.
  by intros ->%narrow_Some.
Qed.

Lemma as_bool_Some v b : as_bool v = Some b → v = of_bool b.
Proof. destruct v as [[|b'|lit|us|items|ms]|]; simpl; try done. by intros [= ->]. Qed.

Lemma typed_Some h s : typed h = Some s → h = embed s.
Proof.
  destruct h as [vl vc vd va errs loading init]. unfold typed. simpl.
  intros (l & ->%as_string_Some & (c & ->%as_string_Some & (d
    & ->%as_string_Some & (a & ->%as_bool_Some & [= <-])%bind_Some)%bind_Some)
    %bind_Some)%bind_Some.
  done.
Qed.

#[export] Instance embed_inj : Inj (=) (=) embed.
Proof.
  intros s1 s2 Hs. apply (f_equal typed) in Hs.
  rewrite !typed_embed in Hs. by simplify_eq.
Qed.

(** The draft object of typed hooks is the draft of the state. *)
Lemma draft_object_embed s : draft_object (embed s) = FormData_json (fields s).
Proof. done. Qed.

(** The dependency array of the persist effect changes when a field
    does. *)
Lemma persist_deps_embed s1 s2 :
  (let deps := λ h : Hooks jsval jsval,
     [label h; choices h; defaultValue h; displayAlpha h] in
   deps (embed s1) = deps (embed s2)) ↔ fields s1 = fields s2.
Proof.
  destruct s1, s2. cbn zeta.
  unfold fields, embed, hooks_map, of_string, of_bool; simpl. split.
  - by intros [= ->%wide_inj ->%wide_inj ->%wide_inj ->].
  - by intros [= -> -> -> ->].
Qed.

(** ** The passes *)

(** Setter calls are applied as [commit] applies them. *)
Lemma flush_commit h us : flush FieldBuilderForm_hooks h us = commit h us.
Proof. done. Qed.

(** Three effects run once and the fourth calls no setter: by
    [React.renders_two] the component does not loop. *)
Lemma FieldBuilderForm_hooks_quiet :
  Forall (λ eff, once eff ∨ quiet eff) (useEffects FieldBuilderForm_hooks).
Proof.
  repeat first [apply Forall_cons_2|apply Forall_nil_2]; try (by left).
  right. by intros h x us [= <-].
Qed.

(** The pass after the first render: the four effects in order, on the
    initial state. *)
Lemma first_pass storage :
  run_effects (useEffects FieldBuilderForm_hooks) true
    (embed initialState) (embed initialState) storage
  = match loadDraft storage with
    | Ok batch1 =>
        (Ok (batch1 ++ (embed_update <$> updates_of (emitted fetchDefault))
                    ++ (embed_update <$> updates_of (emitted fetchInitial))),
         persistDraft initialState storage)
    | Throw e => (Throw e, storage)
    end.
Proof.
  cbn [run_effects useEffects FieldBuilderForm_hooks due orb].
  cbn [eff_run useEffect_loadDraft].
  by destruct (loadDraft storage) as [batch1|e].
Qed.

(** The same pass when each effect has a [try] block of its own and the
    loader throws: the persist effect runs all the same and writes the
    draft of the initial state, the fetch effects run and their setter
    calls are lost. *)
Lemma first_pass_each storage e :
  loadDraft storage = Throw e →
  run_effects_each (useEffects FieldBuilderForm_hooks) true
    (embed initialState) (embed initialState) storage
  = (Throw e, persistDraft initialState storage).
Proof.
  intros Hq.
  cbn [run_effects_each useEffects FieldBuilderForm_hooks due orb].
  cbn [eff_run useEffect_loadDraft useEffect_persistDraft
       useEffect_fetchDefault useEffect_fetchInitial].
  by rewrite Hq.
Qed.

(** A pass after a later render: the persist effect, when a field
    changed. *)
Lemma later_pass s1 s2 storage :
  run_effects (useEffects FieldBuilderForm_hooks) false (embed s1) (embed s2)
    storage
  = (Ok [], rerender s1 s2 storage).
Proof.
  cbn [run_effects useEffects FieldBuilderForm_hooks due orb eff_deps eff_run
       useEffect_loadDraft useEffect_persistDraft useEffect_fetchDefault
       useEffect_fetchInitial].
  rewrite !(bool_decide_eq_false_2 (@nil jsval ≠ [])) by auto.
  pose proof (persist_deps_embed s1 s2) as Hd. cbn zeta in Hd.
  unfold rerender. case_bool_decide as Hdeps; case_decide as Hf; try tauto; done.
Qed.

(** ** Mounting *)

(** The batch of the first pass, committed, and the storage after the
    second. *)
Lemma first_batch storage q :
  loadDraft storage = Ok q →
  commit (embed initialState)
    (q ++ (embed_update <$> updates_of (emitted fetchDefault))
       ++ (embed_update <$> updates_of (emitted fetchInitial)))
  = embed mountedState ∧
  rerender initialState mountedState (persistDraft initialState storage)
  = mountedStorage storage.
Proof.
  intros Hq. pose proof (mount_Ok _ _ Hq) as Hm.
  unfold mount in Hm. rewrite Hq in Hm. cbn zeta in Hm.
  destruct (typed _) as [s1|] eqn:Ht; [|done].
  injection Hm as -> Hst. by apply typed_Some in Ht.
Qed.

Lemma mount_component_Ok fuel storage q :
  loadDraft storage = Ok q →
  mount_component FieldBuilderForm_hooks (S (S fuel)) storage
  = Stable (embed mountedState) (mountedStorage storage).
Proof.
  intros Hq. destruct (first_batch storage q Hq) as [Hc Hst].
  unfold mount_component.
  rewrite renders_two by apply FieldBuilderForm_hooks_quiet.
  cbn [useState_init FieldBuilderForm_hooks]. rewrite first_pass, Hq.
  cbn zeta.
  rewrite flush_commit, Hc, decide_False by (by intros ?%(inj embed)).
  by rewrite later_pass, Hst.
Qed.

Lemma mount_component_Throw fuel storage e :
  loadDraft storage = Throw e →
  mount_component FieldBuilderForm_hooks (S fuel) storage = Thrown e storage.
Proof.
  intros Hq. unfold mount_component. cbn [renders_by useState_init
    FieldBuilderForm_hooks]. by rewrite first_pass, Hq.
Qed.

Lemma mount_component_each_Throw fuel storage e :
  loadDraft storage = Throw e →
  mount_component_each FieldBuilderForm_hooks (S fuel) storage
  = Thrown e (persistDraft initialState storage).
Proof.
  intros Hq. unfold mount_component_each. cbn [renders_by useState_init
    FieldBuilderForm_hooks]. by rewrite (first_pass_each _ _ Hq).
Qed.

(** One pass is not enough: the first pass queues the setter calls of
    the fetch effects, and the render that follows runs the persist
    effect again. *)
Lemma mount_component_one storage q :
  loadDraft storage = Ok q →
  mount_component FieldBuilderForm_hooks 1 storage = Unfinished.
Proof.
  intros Hq. destruct (first_batch storage q Hq) as [Hc _].
  unfold mount_component. cbn [renders_by useState_init FieldBuilderForm_hooks].
  rewrite first_pass, Hq. cbn zeta.
  by rewrite flush_commit, Hc, decide_False by (by intros ?%(inj embed)).
Qed.

(** ** Updates *)

Lemma update_component_commit fuel s us storage :
  update_component FieldBuilderForm_hooks (S fuel) (embed s)
    (embed_update <$> us) storage
  = Stable (embed (commit s us)) (rerender s (commit s us) storage).
Proof.
  unfold update_component. cbn zeta.
  rewrite flush_commit. unfold embed, embed_update.
  rewrite commit_hooks_map. fold (embed s) (embed (commit s us)).
  case_decide as Hsame.
  - apply (inj embed) in Hsame. by rewrite Hsame, rerender_same.
  - rewrite renders_later by apply FieldBuilderForm_hooks_quiet.
    by rewrite later_pass.
Qed.

(** The setter calls an event makes: those of its handler, or those of
    the callback of [finally] when the event ends a pending call. *)
Definition setter_calls (p : Page) (e : event) : list (update string bool) :=
  match e with
  | Settle id o =>
      match tasks p !! id with
      | Some t =>
          if decide ((resume (task_state t) o).2 = Fulfilled)
          then task_finally t else []
      | None => []
      end
  | _ => updates_of (emitted (dispatch (comp p) e))
  end.

Lemma step_setter_calls p e :
  comp (step p e) = commit (comp p) (setter_calls p e) ∧
  localStorage (step p e)
  = rerender (comp p) (comp (step p e)) (localStorage p).
Proof.
  destruct e as [v|v|v|v| | | |id o];
    try (change (step p ?e) with (handle (dispatch (comp p) e) p);
         by rewrite comp_handle, localStorage_handle).
  cbn [step setter_calls]. unfold settle.
  destruct (tasks p !! id) as [t|]; [|by rewrite rerender_same].
  unfold settled. destruct (resume _ _) as [lines [| |]]; simpl;
    [by rewrite rerender_same..|done].
Qed.

(** ** Main theorems *)

(** C12: Mounting by the rules of React is [mount]: the loop of renders
    run on the component as the source declares it (seven state hooks,
    four effects with their dependency arrays) ends in the state and the
    storage [mount] computes, or throws what [mount] throws and leaves
    the storage as [mount] leaves it. *)
Theorem mount_component_mount fuel storage :
  mount_component FieldBuilderForm_hooks (S (S fuel)) storage
  = match mount storage with
    | Rendered s storage' => Stable (embed s) storage'
    | Crashed e storage' => Thrown e storage'
    | IllTyped => Unfinished
    end.
Proof.
  destruct (loadDraft storage) as [q|e] eqn:Hq.
  - by rewrite (mount_Ok _ _ Hq), (mount_component_Ok _ _ q).
  - by rewrite (mount_Throw _ _ Hq), (mount_component_Throw _ _ e).
Qed.

(** C22: A step of the machine is an update by the rules of React: the
    setter calls the event makes, applied to the hooks, and the effects
    that are due after the render that follows, give the state and the
    storage of [step]. *)
Theorem update_component_step fuel p e :
  update_component FieldBuilderForm_hooks (S fuel) (embed (comp p))
    (embed_update <$> setter_calls p e) (localStorage p)
  = Stable (embed (comp (step p e))) (localStorage (step p e)).
Proof.
  destruct (step_setter_calls p e) as [Hc ->].
  by rewrite update_component_commit, Hc.
Qed.

(** C25: The component never renders for ever.  Whatever its hooks hold
    and whatever setters are called, an update is over after one pass of
    effects, and a mount after two and not after one. *)
Theorem FieldBuilderForm_hooks_terminates fuel h us storage :
  mount_component FieldBuilderForm_hooks (S (S fuel)) storage ≠ Unfinished ∧
  update_component FieldBuilderForm_hooks (S fuel) h us storage ≠ Unfinished ∧
  (mount_component FieldBuilderForm_hooks 1 storage = Unfinished
   ↔ is_Ok (loadDraft storage)).
Proof.
  split_and!.
  - apply mount_component_returns; [apply FieldBuilderForm_hooks_quiet|lia].
  - apply update_component_returns; [apply FieldBuilderForm_hooks_quiet|lia].
  - destruct (loadDraft storage) as [q|e] eqn:Hq.
    + rewrite (mount_component_one _ q) by done. split; [by exists q|done].
    + rewrite (mount_component_Throw _ _ e) by done.
      split; [done|by intros [? ?]].
Qed.

(** C15: Whether a draft that makes the loader throw blanks the page for
    good depends on what React does with the effects declared after one
    that throws, which the sources do not fix.  When the effects of a
    component share a [try] block the mount throws and the draft stays
    as it is, so every later mount throws again.  When each effect has a
    [try] block of its own the mount throws as well, but the persist
    effect has run on the initial state and has overwritten the draft
    with that of the empty form, and the next mount ends in the default
    state. *)
Theorem mount_each_recovers fuel storage e :
  loadDraft storage = Throw e →
  let storage' := persistDraft initialState storage in
  mount_component FieldBuilderForm_hooks (S fuel) storage = Thrown e storage ∧
  mount_component_each FieldBuilderForm_hooks (S fuel) storage
  = Thrown e storage' ∧
  mount_component_each FieldBuilderForm_hooks (S (S fuel)) storage'
  = Stable (embed mountedState) (mountedStorage storage').
Proof.
  intros Hq storage'. split_and!.
  - by apply mount_component_Throw.
  - by apply mount_component_each_Throw.
  - apply renders_each_Stable.
    eapply (mount_component_Ok fuel), loadDraft_persistDraft.
Qed.

End lifecycle.

(** ** A mount that throws, run *)

(** With the parser of [Json], on a draft that was cut short. *)
Lemma mount_each_recovers_witness :
  let storage : gmap string string := {[ formData := "{" ]} in
  let storage' := persistDraft initialState storage in
  mount_component FieldBuilderForm_hooks 1 storage
  = Thrown SyntaxError storage ∧
  mount_component_each FieldBuilderForm_hooks 1 storage
  = Thrown SyntaxError storage' ∧
  mount_component_each FieldBuilderForm_hooks 2 storage'
  = Stable (embed mountedState) (mountedStorage storage').
Proof. by apply (mount_each_recovers 0 {[ formData := "{" ]} SyntaxError). Defined.
