(* ===== verification/Interleave.v ===== *)
(** * Interleave: the order of events

    While a call of [saveField] is pending the page stays interactive:
    the user goes on typing, another call can be started, and the promises
    of the pending calls settle when the network decides.  This file says
    which of these events can change places without a difference anyone
    can see.

    Two settlements of different calls commute up to the order of the
    lines they log; a settlement commutes with any edit (an input, the
    select, Clear, Cancel) exactly.  [independent] is that relation on
    events, [swaps] the runs that differ by exchanging neighbours that are
    independent, and [run_swaps] shows that such runs end on the same
    page.  A click on Save is independent of nothing: it reads and writes
    the loading flag, which every call that ends clears.  The last part
    shows what follows from that with two calls in flight. *)

From S2P Require Import Prelude JsString JsSet JsonApi Json FieldService.
From S2P Require Import FormState Validate Handlers Effects Machine.

#[local] Set Warnings "-clear-no-such-hyp".

(** An edit: an event of the user that calls no service. *)
Definition is_edit (e : event) : bool :=
  match e with
  | ClickSave | Settle _ _ => false
  | _ => true
  end.

(** Events that can change places. *)
Definition independent (e1 e2 : event) : bool :=
  match e1, e2 with
  | Settle id1 _, Settle id2 _ => bool_decide (id1 ≠ id2)
  | Settle _ _, e | e, Settle _ _ => is_edit e
  | _, _ => false
  end.

(** Runs that differ by exchanges of independent neighbours. *)
Inductive swaps : relation (list event) :=
| swaps_refl es : swaps es es
| swaps_swap es1 e1 e2 es2 :
    independent e1 e2 = true →
    swaps (es1 ++ e1 :: e2 :: es2) (es1 ++ e2 :: e1 :: es2)
| swaps_trans es1 es2 es3 : swaps es1 es2 → swaps es2 es3 → swaps es1 es3.

(** The settlements a run delivers to the call [id], in order. *)
Definition settlements_of (id : nat) (es : list event) : list Settlement :=
  omap (λ e, match e with
             | Settle id' o => if decide (id' = id) then Some o else None
             | _ => None
             end) es.

(** A setter call other than [setIsLoading]. *)
Definition keeps_isLoading {T B} (u : update T B) : bool :=
  match u with
  | SetIsLoading _ => false
  | _ => true
  end.

Section interleave.
Context `{!JsonCodec}.

(** ** Pages up to the order of the console *)

Definition same_log (p q : Page) : Prop :=
  comp p = comp q ∧ localStorage p = localStorage q ∧ tasks p = tasks q ∧
  next_id p = next_id q ∧ console p ≡ₚ console q ∧ requests p = requests q.

#[export] Instance same_log_equiv : Equivalence same_log.
Proof.
  split.
  - by intros p.
  - intros p q (? & ? & ? & ? & ? & ?). by split_and!.
  - intros p q r (? & ? & ? & ? & ? & ?) (? & ? & ? & ? & ? & ?).
    split_and!; by etrans.
Qed.

(** A page with another console. *)
Definition with_console (c : list console_line) (p : Page) : Page :=
  mkPage (comp p) (localStorage p) (tasks p) (next_id p) c (requests p).

Lemma same_log_with_console p q :
  same_log p q ↔ ∃ c, console p ≡ₚ c ∧ q = with_console c p.
Proof.
  split.
  - intros (Hc & Hs & Ht & Hn & Hl & Hr). exists (console q). split; [done|].
    destruct p, q; simpl in *. by subst.
  - intros (c & Hc & ->). by split_and!.
Qed.

Lemma with_console_id p : with_console (console p) p = p.
Proof. by destruct p. Qed.

(** An event adds lines to the console and does nothing else with it. *)
Lemma start_call_with_console p call :
  ∃ lines, ∀ c,
    start_call (with_console c p) call
    = with_console (c ++ lines) (start_call p call).
Proof.
  unfold start_call. destruct (saveField call.1) as [[lines rq] t].
  by exists lines.
Qed.

Lemma start_calls_with_console calls : ∀ p,
  ∃ lines, ∀ c,
    foldl start_call (with_console c p) calls
    = with_console (c ++ lines) (foldl start_call p calls).
Proof.
  induction calls as [|call calls IH]; intros p; simpl.
  - exists []. intros c. by rewrite app_nil_r.
  - destruct (start_call_with_console p call) as (l1 & H1).
    destruct (IH (start_call p call)) as (l2 & H2).
    exists (l1 ++ l2). intros c. by rewrite H1, H2, app_assoc.
Qed.

Lemma handle_with_console h p :
  ∃ lines, ∀ c,
    handle h (with_console c p) = with_console (c ++ lines) (handle h p).
Proof.
  destruct (start_calls_with_console (calls_of (emitted h)) p) as (lines & Hl).
  exists lines. intros c. unfold handle. by rewrite Hl.
Qed.

Lemma settle_with_console id o p :
  ∃ lines, ∀ c,
    settle id o (with_console c p) = with_console (c ++ lines) (settle id o p).
Proof.
  unfold settle; simpl. destruct (tasks p !! id) as [t|].
  - exists (resume (task_state t) o).1. intros c. unfold settled.
    by destruct (resume _ _) as [lines [| |]].
  - exists []. intros c. by rewrite app_nil_r.
Qed.

Lemma step_with_console p e :
  ∃ lines, ∀ c, step (with_console c p) e = with_console (c ++ lines) (step p e).
Proof.
  destruct e; try apply (handle_with_console (dispatch (comp p) _) p).
  apply settle_with_console.
Qed.

#[export] Instance step_proper : Proper (same_log ==> (=) ==> same_log) step.
Proof.
  intros p q (c & Hc & ->)%same_log_with_console e ? <-.
  destruct (step_with_console p e) as (lines & Hl). rewrite Hl.
  apply same_log_with_console. exists (c ++ lines). split; [|done].
  specialize (Hl (console p)). rewrite with_console_id in Hl.
  rewrite Hl. simpl. by rewrite Hc.
Qed.

#[export] Instance run_proper : Proper (same_log ==> (=) ==> same_log) run.
Proof.
  intros p q Hpq es ? <-. revert p q Hpq.
  induction es as [|e es IH]; intros p q Hpq; [done|].
  rewrite !run_cons. apply IH. by rewrite Hpq.
Qed.

#[export] Instance tasks_inv_proper : Proper (same_log ==> iff) tasks_inv.
Proof. intros p q (_ & _ & Ht & Hn & _). unfold tasks_inv. by rewrite Ht, Hn. Qed.

(** ** Settlements *)

(** On a page whose pending calls carry the callback of [handleSubmit], a
    settlement of a pending call logs the lines of the stretch the call
    runs and either leaves the call suspended or removes it and clears the
    loading flag: nothing else changes. *)
Definition settle_pending (id : nat) (t : Task) (o : Settlement) (p : Page)
    : Page :=
  let r := resume (task_state t) o in
  let over := bool_decide (r.2 = Fulfilled) in
  mkPage
    (if over then apply_update (comp p) (SetIsLoading false) else comp p)
    (localStorage p)
    (if over then delete id (tasks p)
     else <[id := mkTask r.2 [SetIsLoading false]]> (tasks p))
    (next_id p) (console p ++ r.1) (requests p).

Lemma settle_settle_pending id o p t :
  tasks_inv p → tasks p !! id = Some t →
  settle id o p = settle_pending id t o p.
Proof.
  intros Hp Ht. destruct (Hp id t Ht) as (_ & _ & Hfin).
  unfold settle, settle_pending, settled. rewrite Ht, Hfin.
  destruct (resume _ _) as [lines [| |]]; simpl; try done.
  unfold render; simpl. by rewrite rerender_same.
Qed.

(** The pending calls other than the one that ran on. *)
Lemma tasks_settle_ne id id' o p :
  id ≠ id' → tasks (settle id o p) !! id' = tasks p !! id'.
Proof.
  intros Hne. unfold settle. destruct (tasks p !! id) as [t|]; [|done].
  unfold settled. destruct (resume _ _) as [lines [| |]]; simpl;
    by rewrite ?lookup_insert_ne, ?lookup_delete_ne.
Qed.

(** Two calls that run on, in either order. *)
Lemma settle_pending_comm id1 t1 o1 id2 t2 o2 p :
  id1 ≠ id2 →
  same_log (settle_pending id2 t2 o2 (settle_pending id1 t1 o1 p))
           (settle_pending id1 t1 o1 (settle_pending id2 t2 o2 p)).
Proof.
  intros Hne. unfold settle_pending, same_log; simpl.
  split_and!; try done.
  - repeat case_bool_decide; by destruct (comp p).
  - repeat case_bool_decide;
      by rewrite ?(insert_insert_ne _ id1 id2), ?(delete_delete _ id1 id2),
        ?(delete_insert_ne _ id2 id1), ?(delete_insert_ne _ id1 id2).
  - rewrite <-!(assoc_L (++)). f_equiv. apply (comm (++)).
Qed.

Lemma settle_settle_comm id1 o1 id2 o2 p :
  tasks_inv p → id1 ≠ id2 →
  same_log (settle id2 o2 (settle id1 o1 p)) (settle id1 o1 (settle id2 o2 p)).
Proof.
  intros Hp Hne.
  destruct (tasks p !! id1) as [t1|] eqn:H1;
    [|by rewrite !(settle_unknown id1) by (by rewrite ?tasks_settle_ne)].
  destruct (tasks p !! id2) as [t2|] eqn:H2;
    [|by rewrite !(settle_unknown id2) by (by rewrite ?tasks_settle_ne)].
  rewrite (settle_settle_pending id2 o2 (settle id1 o1 p) t2),
    (settle_settle_pending id1 o1 (settle id2 o2 p) t1),
    (settle_settle_pending id1 o1 p t1), (settle_settle_pending id2 o2 p t2);
    auto using tasks_inv_settle, settle_pending_comm;
    by rewrite tasks_settle_ne.
Qed.

(** ** Edits *)

(** An edit commits its setter calls and starts no call. *)
Lemma step_edit p e :
  is_edit e = true →
  step p e = render (updates_of (emitted (dispatch (comp p) e))) p.
Proof.
  intros He. destruct e; try done; cbn [step]; apply handle_no_calls;
    by rewrite dispatch_calls, decide_False by naive_solver.
Qed.

(** It neither reads nor sets the loading flag. *)
Lemma dispatch_edit s e b :
  is_edit e = true →
  dispatch (apply_update s (SetIsLoading b)) e = dispatch s e ∧
  forallb keeps_isLoading (updates_of (emitted (dispatch s e))) = true.
Proof. by destruct e. Qed.

(** Setter calls of other hooks commute with [setIsLoading]. *)
Lemma commit_keeps_isLoading {T B} (s : Hooks T B) us b :
  forallb keeps_isLoading us = true →
  commit (apply_update s (SetIsLoading b)) us
  = apply_update (commit s us) (SetIsLoading b).
Proof.
  revert s. induction us as [|u us IH]; intros s; [done|].
  intros [Hu Hus]%andb_true_iff. rewrite !commit_cons, <-IH by done.
  by destruct u.
Qed.

(** A render of such calls and a call that runs on, in either order. *)
Lemma render_settle_pending us id t o p :
  forallb keeps_isLoading us = true →
  render us (settle_pending id t o p) = settle_pending id t o (render us p).
Proof.
  intros Hus. unfold render, settle_pending.
  cbn [comp localStorage tasks next_id console requests].
  case_bool_decide; [|done]. by rewrite commit_keeps_isLoading.
Qed.

Lemma settle_edit_comm id o e p :
  tasks_inv p → is_edit e = true →
  step (step p (Settle id o)) e = step (step p e) (Settle id o).
Proof.
  intros Hp He. cbn [step]. rewrite !step_edit by done.
  destruct (tasks p !! id) as [t|] eqn:Ht; [|by rewrite !settle_unknown].
  rewrite (settle_settle_pending id o p t), (settle_settle_pending id o _ t);
    [|by apply tasks_inv_render|done..].
  destruct (dispatch_edit (comp p) e false He) as [Hd Hus].
  rewrite <-render_settle_pending by done. f_equal. f_equal. f_equal.
  unfold settle_pending; simpl. by case_bool_decide.
Qed.

(** ** Independent events *)

Lemma independent_comm e1 e2 : independent e1 e2 = independent e2 e1.
Proof. destruct e1, e2; simpl; try done. apply bool_decide_ext. naive_solver. Qed.

Lemma step_independent p e1 e2 :
  tasks_inv p → independent e1 e2 = true →
  same_log (step (step p e1) e2) (step (step p e2) e1).
Proof.
  intros Hp Hi.
  destruct e1 as [| | | | | | |id1 o1], e2 as [| | | | | | |id2 o2];
    try done;
    try (by rewrite <-settle_edit_comm); try (by rewrite settle_edit_comm).
  apply bool_decide_eq_true in Hi. by apply settle_settle_comm.
Qed.

Lemma tasks_inv_run p es : tasks_inv p → tasks_inv (run p es).
Proof.
  revert p. induction es as [|e es IH]; intros p Hp; [done|].
  rewrite run_cons. by apply IH, tasks_inv_step.
Qed.

Lemma run_swaps_inv p es1 es2 :
  tasks_inv p → swaps es1 es2 → same_log (run p es1) (run p es2).
Proof.
  intros Hp. induction 1 as [es|es1 e1 e2 es2 Hi|es1 es2 es3 _ IH1 _ IH2].
  - done.
  - rewrite !run_app, !run_cons. f_equiv.
    by apply step_independent; [apply tasks_inv_run|].
  - by etrans.
Qed.

(** ** Every call ends *)

(** A run serves a page when it delivers to every pending call the
    settlements that take the call to its end, interleaved in any way
    with those of the other calls and with edits. *)
Definition served (p : Page) (es : list event) : Prop :=
  map_Forall (λ id t,
    (resume_all (task_state t) (settlements_of id es)).2 = Fulfilled) (tasks p).

#[export] Instance served_dec p es : Decision (served p es).
Proof. apply _. Defined.

Lemma resume_all_cons t o os :
  (resume_all t (o :: os)).2 = (resume_all (resume t o).2 os).2.
Proof. simpl. by destruct (resume t o), (resume_all _ os). Qed.

(** The pending calls after an event that is no click on Save: the call
    the event settles runs on, the others stay. *)
Lemma tasks_step p e id t :
  tasks_inv p → e ≠ ClickSave → tasks (step p e) !! id = Some t →
  ∃ t0, tasks p !! id = Some t0 ∧ task_finally t = task_finally t0 ∧
    ∀ es, (resume_all (task_state t0) (settlements_of id (e :: es))).2
          = (resume_all (task_state t) (settlements_of id es)).2.
Proof.
  intros Hp He. destruct (decide (is_edit e = true)) as [Hed|Hed].
  { rewrite step_edit by done. intros Ht. exists t. by destruct e. }
  destruct e as [| | | | | | |id' o]; try done. cbn [step].
  destruct (decide (id' = id)) as [->|Hne].
  - destruct (tasks p !! id) as [t0|] eqn:Ht0;
      [|by rewrite settle_unknown, Ht0 by done].
    rewrite (settle_settle_pending id o p t0) by done. unfold settle_pending.
    destruct (Hp id t0 Ht0) as (_ & _ & Hfin). simpl. case_bool_decide.
    + by rewrite lookup_delete_eq.
    + rewrite lookup_insert_eq. intros [= <-]. exists t0.
      split_and!; [done..|]. intros es. simpl. rewrite decide_True by done.
      apply resume_all_cons.
  - rewrite tasks_settle_ne by done. intros Ht. exists t.
    split_and!; [done..|]. intros es. simpl. by rewrite decide_False.
Qed.

Lemma served_step p e es :
  tasks_inv p → e ≠ ClickSave → served p (e :: es) → served (step p e) es.
Proof.
  intros Hp He Hs id t Ht.
  destruct (tasks_step p e id t Hp He Ht) as (t0 & Ht0 & _ & Hrun).
  rewrite <-Hrun. by apply (Hs id t0).
Qed.

(** The event that ends the last pending call clears the loading flag. *)
Lemma step_last_call p e :
  tasks_inv p → e ≠ ClickSave → tasks p ≠ ∅ → tasks (step p e) = ∅ →
  isLoading (comp (step p e)) = false.
Proof.
  intros Hp He Hne. destruct (decide (is_edit e = true)) as [Hed|Hed].
  { by rewrite step_edit by done. }
  destruct e as [| | | | | | |id o]; try done. cbn [step].
  destruct (tasks p !! id) as [t|] eqn:Ht; [|by rewrite settle_unknown].
  rewrite (settle_settle_pending id o p t) by done. unfold settle_pending.
  simpl. case_bool_decide; [done|]. intros Hempty.
  by apply insert_non_empty in Hempty.
Qed.

Lemma run_served p es :
  tasks_inv p → ClickSave ∉ es → served p es →
  tasks (run p es) = ∅ ∧
  (tasks p ≠ ∅ → isLoading (comp (run p es)) = false).
Proof.
  revert p. induction es as [|e es IH]; intros p Hp Hes Hs.
  - assert (tasks p = ∅) as Hempty; [|by split].
    apply map_empty. intros id.
    destruct (tasks p !! id) as [t|] eqn:Ht; [|done].
    destruct (Hp id t Ht) as (_ & Hne & _). by specialize (Hs id t Ht).
  - apply not_elem_of_cons in Hes as [He Hes]. rewrite run_cons.
    destruct (IH (step p e)) as [Hend Hflag];
      auto using tasks_inv_step, served_step.
    split; [done|]. intros Hne.
    destruct (decide (tasks (step p e) = ∅)) as [Hlast|]; [|by auto].
    destruct (run_quiet (step p e) es Hlast Hes) as [_ ->].
    by apply step_last_call.
Qed.

(** ** Main theorems *)

(** C20: The order of independent events does not matter: two runs from a
    reachable page that differ by exchanges of neighbouring settlements of
    different calls, or of a settlement and an edit, end with the same
    hooks, the same storage, the same pending calls and the same requests,
    and with the same lines on the console up to their order. *)
Theorem run_swaps p es1 es2 :
  reachable p → swaps es1 es2 → same_log (run p es1) (run p es2).
Proof. intros (_ & _ & _ & Hp & _)%reachable_inv. by apply run_swaps_inv. Qed.

(** C34: A call that ends clears the loading flag and leaves the other
    pending calls pending: with two calls in flight, the first to end
    makes the button read [Save changes] while the other is still under
    way. *)
Theorem settle_over_clears p id o t :
  reachable p → tasks p !! id = Some t →
  (resume (task_state t) o).2 = Fulfilled →
  isLoading (comp (step p (Settle id o))) = false ∧
  tasks (step p (Settle id o)) = delete id (tasks p).
Proof.
  intros (_ & _ & _ & Hp & _)%reachable_inv Ht Hover. cbn [step].
  rewrite (settle_settle_pending id o p t) by done. unfold settle_pending.
  by rewrite bool_decide_eq_true_2.
Qed.

(** C21: Every call ends, however the settlements are interleaved: a run
    from a reachable page that holds no click on Save and delivers to each
    pending call the settlements that take it to its end, in any order
    among those of the other calls and among edits, ends with no call
    pending, and with the loading flag cleared when a call was pending. *)
Theorem calls_end p es :
  reachable p → ClickSave ∉ es → served p es →
  tasks (run p es) = ∅ ∧
  (tasks p ≠ ∅ → isLoading (comp (run p es)) = false).
Proof. intros (_ & _ & _ & Hp & _)%reachable_inv. by apply run_served. Qed.

End interleave.

(** [swaps] is an equivalence, and the runs it relates have the same
    events. *)
#[export] Instance swaps_equiv : Equivalence swaps.
Proof.
  split; [exact swaps_refl| |exact swaps_trans].
  induction 1 as [|es1 e1 e2 es2 Hi|]; eauto using swaps.
  rewrite independent_comm in Hi. by constructor.
Qed.

Lemma swaps_Permutation es1 es2 : swaps es1 es2 → es1 ≡ₚ es2.
Proof.
  induction 1 as [|es1 e1 e2 es2 _|]; [done| |by etrans].
  f_equiv. apply Permutation_swap.
Qed.

(** One exchange at the head of a run, and exchanges further on. *)
Lemma swaps_head e1 e2 es :
  independent e1 e2 = true → swaps (e1 :: e2 :: es) (e2 :: e1 :: es).
Proof. apply (swaps_swap []). Qed.

Lemma swaps_skip e es1 es2 : swaps es1 es2 → swaps (e :: es1) (e :: es2).
Proof.
  induction 1 as [|es1 e1 e2 es2 Hi|]; [done| |by etrans].
  by apply (swaps_swap (e :: es1)).
Qed.

#[export] Instance swaps_cons_proper e : Proper (swaps ==> swaps) (cons e).
Proof. intros es1 es2. apply swaps_skip. Qed.

(** ** Runs *)

(** With the parser of [Json]: a page with two calls in flight.  The
    default value typed is not among the choices, so each click on Save
    appends it and leaves the loading flag set. *)
Definition page_two : Page :=
  run page0 [InputDefaultValue "Africa"; ClickSave;
             InputDefaultValue "Oceania"; ClickSave].

Lemma reachable_page_two : reachable page_two.
Proof. apply reachable_run, reachable_page0. Qed.

Lemma run_swaps_witness :
  same_log
    (run page_two [Settle 0 FetchRejects; InputLabel "Area";
                   Settle 1 (FetchResolves (mkResponse false 500 None))])
    (run page_two [InputLabel "Area";
                   Settle 1 (FetchResolves (mkResponse false 500 None));
                   Settle 0 FetchRejects]).
Proof.
  apply run_swaps; [apply reachable_page_two|].
  etrans; [by apply swaps_head|]. by apply swaps_skip, swaps_head.
Defined.

Lemma settle_over_clears_witness :
  isLoading (comp page_two) = true ∧
  tasks page_two !! 1 = Some (mkTask AwaitFetch [SetIsLoading false]) ∧
  isLoading (comp (step page_two (Settle 0 FetchRejects))) = false ∧
  tasks (step page_two (Settle 0 FetchRejects)) = delete 0 (tasks page_two).
Proof.
  split; [by vm_compute|]. split; [by vm_compute|].
  apply (settle_over_clears page_two 0 FetchRejects
           (mkTask AwaitFetch [SetIsLoading false]));
    [apply reachable_page_two|by vm_compute..].
Defined.

Lemma calls_end_witness :
  let es := [Settle 1 FetchRejects; InputLabel "Area";
             Settle 0 (FetchResolves (mkResponse true 200 (Some "{}")));
             ClickCancel; Settle 0 BodyArrives] in
  tasks (run page_two es) = ∅ ∧
  (tasks page_two ≠ ∅ → isLoading (comp (run page_two es)) = false).
Proof.
  apply calls_end; [apply reachable_page_two|..];
    apply (bool_decide_unpack _); by vm_compute.
Defined.

(** A click on Save and the end of an earlier call do not commute: when
    the call ends after the click, it clears the flag the click has set;
    when it ends before, the flag stays set for the new call. *)
Lemma save_settle_order :
  let p := run page0 [InputDefaultValue "Africa"; ClickSave;
                      InputDefaultValue "Oceania"] in
  isLoading (comp (run p [ClickSave; Settle 0 FetchRejects])) = false ∧
  isLoading (comp (run p [Settle 0 FetchRejects; ClickSave])) = true ∧
  tasks (run p [ClickSave; Settle 0 FetchRejects])
  = tasks (run p [Settle 0 FetchRejects; ClickSave]).
Proof. by vm_compute. Qed.
