(* ===== verification/Network.v ===== *)
(** * Network: the page and the server it posts to, as one system

    In [Machine] the network is the environment: a settlement of a
    pending call is an event like any other, and nothing is assumed of
    the response it carries.  This file closes the system with a server.
    A server says what it answers to a request, or that the request
    fails; [fetch] turns its answer into the settlement of the promise,
    with [response.ok] set for a status from 200 to 299.  The only
    choices left are the user's inputs and the moment at which the
    network delivers to a pending call ([input]).

    The server is not code of the repository: it is modelled from what
    the description of the system says of the endpoint (a mock that
    answers a POST with the body posted) and of the call (the body of the
    response is parsed only on a 2xx status, the status is logged
    otherwise).  Every theorem but those about [echo] holds for any
    server.

    What is shown: a run of the closed system is a run of [Machine], so
    its invariants carry over; the console is a merge of the lines of the
    calls ([Shuffle]), each call having logged its opening lines and,
    when it is over, the one line the answer of the server to its request
    makes it log ([outcome]); against the echo endpoint no call logs an
    error and each logs the data it posted;
    and the network can always deliver to a pending call, two deliveries
    end it, and delivering to every pending call ends them all. *)

From S2P Require Import Prelude Shuffle JsonApi Json FieldService FormState.
From S2P Require Import Handlers Effects Machine Interleave.

#[local] Set Warnings "-clear-no-such-hyp".

(** What a server answers: a status and the text of a body. *)
Record Reply : Type := mkReply {
  rp_status : nat;
  rp_body : string
}.

#[export] Instance Reply_eq_dec : EqDecision Reply.
Proof. solve_decision. Defined.

(** A server: the answer to a request, or none when the request fails
    (no connection, an answer the browser refuses). *)
Definition Server : Type := Request → option Reply.

(** [response.ok]. *)
Definition Response_ok (status : nat) : bool :=
  bool_decide (200 ≤ status ≤ 299).

(** The response object the page sees for an answer. *)
Definition response_of (rp : Reply) : Response :=
  mkResponse (Response_ok (rp_status rp)) (rp_status rp) (Some (rp_body rp)).

(** How the promise of [fetch] settles. *)
Definition fetch (srv : Server) (rq : Request) : Settlement :=
  match srv rq with
  | Some rp => FetchResolves (response_of rp)
  | None => FetchRejects
  end.

(** The mock endpoint: a POST to its URL is answered with the body
    posted; it knows no other request.  That the endpoint echoes is what
    spec.md says of it (section 1); the sources hold its URL only, so
    every theorem about [echo] is a theorem under this assumption. *)
Definition echo : Server := λ rq,
  if decide (rq_url rq = endpoint ∧ rq_method rq = "POST")
  then Some (mkReply 200 (rq_body rq))
  else Some (mkReply 404 "").

(** What happens next: the user does something, or the network delivers
    to the pending call [id]. *)
Inductive input : Type :=
| Does (e : event)
| Delivers (id : nat).

#[export] Instance input_eq_dec : EqDecision input.
Proof. solve_decision. Defined.

Section network.
Context `{!JsonCodec}.
Context (srv : Server).

(** What the network delivers to a call suspended in [t] whose request
    was [rq]. *)
Definition delivers (rq : Request) (t : SaveTask) : option Settlement :=
  match t with
  | AwaitFetch => Some (fetch srv rq)
  | AwaitBody _ => Some BodyArrives
  | Fulfilled => None
  end.

(** The same for the pending call [id] of a page: its request is the
    one sent when it started. *)
Definition delivery (p : Page) (id : nat) : option Settlement :=
  t ← tasks p !! id; rq ← requests p !! id; delivers rq (task_state t).

(** The event of [Machine] an input stands for.  The user settles no
    promise. *)
Definition on_wire (p : Page) (i : input) : option event :=
  match i with
  | Does (Settle _ _) => None
  | Does e => Some e
  | Delivers id => Settle id <$> delivery p id
  end.

Definition net_step (p : Page) (i : input) : Page :=
  from_option (step p) p (on_wire p i).

Definition net_run (p : Page) (ins : list input) : Page :=
  foldl net_step p ins.

Inductive net_reachable : Page → Prop :=
| net_reachable_init storage s storage' :
    mount storage = Rendered s storage' → net_reachable (init s storage')
| net_reachable_step p i : net_reachable p → net_reachable (net_step p i).

(** The line a call logs after its opening lines, by the answer of the
    server to its request: the branches of lines 33-38 of MockService.js
    and the [catch] clause of lines 47-49, written as one function of the
    answer.  [resume] reaches the same lines one settlement at a time. *)
Definition outcome (rq : Request) : console_line :=
  match srv rq with
  | None => console_error [CText "Error posting data:"; CError TypeError]
  | Some rp =>
      if Response_ok (rp_status rp) then
        match JSON_parse (rp_body rp) with
        | Ok v => console_log [CText "Server Response:"; CJson v]
        | Throw e => console_error [CText "Error posting data:"; CError e]
        end
      else console_error [CText "Server responded with status:";
                          CStatus (rp_status rp)]
  end.

(** Two deliveries to each of the calls [ids]. *)
Definition drain (ids : list nat) : list input :=
  ids ≫= λ id, [Delivers id; Delivers id].

(** ** Invariants, stated *)

(** A call that waits for the body got its response from the server, and
    the response was ok. *)
Definition on_track (rq : Request) (t : SaveTask) : Prop :=
  match t with
  | AwaitBody r =>
      ∃ rp, srv rq = Some rp ∧ r = response_of rp ∧ rs_ok r = true
  | _ => True
  end.

Definition wire_inv (p : Page) : Prop :=
  ∀ id t rq, tasks p !! id = Some t → requests p !! id = Some rq →
    on_track rq (task_state t).

(** Every line of the console opens a call or is the outcome of a
    request that was sent. *)
Definition console_inv (p : Page) : Prop :=
  ∀ line, line ∈ console p →
    (∃ d, line ∈ (saveField d).1.1) ∨
    (∃ rq, rq ∈ requests p ∧ line = outcome rq).

(** The outcome of the call [id] when it is over, and the outcomes of
    all the calls that are over. *)
Definition logs (p : Page) (id : nat) : option console_line :=
  if decide (tasks p !! id = None) then outcome <$> requests p !! id
  else None.

Definition logged (p : Page) : list console_line :=
  omap (logs p) (seq 0 (next_id p)).

(** The lines of one call, in the order it logs them: its two opening
    lines and its outcome when it is over. *)
Definition call_line (d : SaveData) (o : option console_line)
    : list console_line :=
  (saveField d).1.1 ++ option_list o.

(** The lines of the calls that posted [ds], by identifier. *)
Definition call_lines (ds : list SaveData) (p : Page)
    : list (list console_line) :=
  imap (λ id d, call_line d (logs p id)) ds.

(** The console is a merge of the lines of the calls: it holds the lines
    of each call in the order the call logged them, and nothing else. *)
Definition log_inv (p : Page) : Prop :=
  ∃ ds, requests p = saveField_request <$> ds ∧
    shuffle (call_lines ds p) (console p).

(** ** One call *)

Lemma response_json_of rp :
  response_json (response_of rp) = JSON_parse (rp_body rp).
Proof. done. Qed.

(** A whole call against the server. *)
Lemma resume_all_fetch rq :
  ∃ os, length os ≤ 1 ∧
    resume_all AwaitFetch (fetch srv rq :: os) = ([outcome rq], Fulfilled).
Proof.
  unfold fetch, outcome.
  destruct (srv rq) as [rp|]; [|exists []; split; [simpl; lia|done]].
  destruct (Response_ok (rp_status rp)) eqn:Hok.
  - exists [BodyArrives]. split; [simpl; lia|].
    rewrite resume_all_ok, response_json_of by done.
    by destruct (JSON_parse (rp_body rp)).
  - exists []. split; [simpl; lia|]. by rewrite resume_all_not_ok.
Qed.

(** A delivery to a call on track: the call stays on track and has
    fewer awaits left; it logs its outcome when it ends and nothing
    before. *)
Lemma resume_delivers rq t o :
  on_track rq t → delivers rq t = Some o →
  let r := resume t o in
  on_track rq r.2 ∧ awaits_left r.2 < awaits_left t ∧
  (r.2 ≠ Fulfilled ∧ r.1 = [] ∨ r.2 = Fulfilled ∧ r.1 = [outcome rq]).
Proof.
  destruct t as [|r|]; simpl; [| |done].
  - intros _ [= <-]. unfold fetch, outcome.
    destruct (srv rq) as [rp|] eqn:Hrp; simpl; [|split_and!; auto].
    destruct (Response_ok (rp_status rp)) eqn:Hok; simpl;
      split_and!; eauto.
  - intros (rp & Hrp & -> & Hok) [= <-]. unfold outcome.
    rewrite response_json_of, Hrp. simpl in Hok. rewrite Hok.
    destruct (JSON_parse (rp_body rp)); simpl; split_and!; auto.
Qed.

(** ** The closed system runs the machine *)

Lemma net_run_cons p i ins :
  net_run p (i :: ins) = net_run (net_step p i) ins.
Proof. done. Qed.

Lemma net_run_app p ins1 ins2 :
  net_run p (ins1 ++ ins2) = net_run (net_run p ins1) ins2.
Proof. apply foldl_app. Qed.

(** An input is an event of a handler or a delivery the server decides. *)
Lemma on_wire_Some p i e :
  on_wire p i = Some e →
  step p e = handle (dispatch (comp p) e) p ∨
  ∃ id o, e = Settle id o ∧ delivery p id = Some o.
Proof.
  destruct i as [e'|id]; simpl.
  - destruct e'; intros [= <-]; by left.
  - intros (o & Ho & ->)%fmap_Some. right. eauto.
Qed.

Lemma net_reachable_reachable p : net_reachable p → reachable p.
Proof.
  induction 1 as [storage s storage' Hm|p i _ IH]; [by econstructor|].
  unfold net_step. destruct (on_wire p i); [by constructor|done].
Qed.

Lemma net_reachable_run p ins :
  net_reachable p → net_reachable (net_run p ins).
Proof.
  revert p. induction ins as [|i ins IH]; intros p Hp; [done|].
  apply IH. by constructor.
Qed.

(** What a handler does to the calls, the requests and the console:
    nothing, or it starts one call. *)
Lemma handle_wire s e p :
  let q := handle (dispatch s e) p in
  tasks q = tasks p ∧ requests q = requests p ∧ next_id q = next_id p ∧
    console q = console p ∨
  ∃ d,
    tasks q = <[next_id p := mkTask AwaitFetch [SetIsLoading false]]> (tasks p)
    ∧ requests q = requests p ++ [saveField_request d]
    ∧ next_id q = S (next_id p)
    ∧ console q = console p ++ (saveField d).1.1.
Proof.
  unfold handle. rewrite dispatch_calls.
  case_decide; [right; by eexists|by left].
Qed.

Lemma delivery_Some p id o :
  delivery p id = Some o →
  ∃ t rq, tasks p !! id = Some t ∧ requests p !! id = Some rq ∧
    delivers rq (task_state t) = Some o.
Proof.
  unfold delivery. intros (t & Ht & (rq & Hrq & Ho)%bind_Some)%bind_Some.
  eauto.
Qed.

(** ** The invariants hold *)

Lemma wire_inv_handle s e p :
  tasks_inv p → requests_inv p → wire_inv p →
  wire_inv (handle (dispatch s e) p).
Proof.
  intros Ht [Hl _] Hw. unfold wire_inv.
  destruct (handle_wire s e p) as [(-> & -> & _)|(d & -> & -> & _)]; [done|].
  intros id t rq. destruct (decide (id = next_id p)) as [->|Hne].
  - rewrite lookup_insert_eq. by intros [= <-].
  - rewrite lookup_insert_ne by done. intros Hid Hrq.
    destruct (Ht id t Hid) as [Hlt _].
    rewrite lookup_app_l in Hrq by lia. eauto.
Qed.

Lemma logs_eq p q id :
  tasks p !! id = tasks q !! id → requests p !! id = requests q !! id →
  logs p id = logs q id.
Proof. unfold logs. by intros -> ->. Qed.

(** The lines of the calls depend on the page through [logs] only. *)
Lemma call_lines_ext ds p q :
  (∀ id, id < length ds → logs p id = logs q id) →
  call_lines ds p = call_lines ds q.
Proof.
  intros Hl. apply imap_ext. intros id d Hid%lookup_lt_Some. simpl.
  by rewrite Hl.
Qed.

Lemma call_lines_snoc ds d p :
  call_lines (ds ++ [d]) p
  = call_lines ds p ++ [call_line d (logs p (length ds))].
Proof. unfold call_lines. rewrite imap_app. simpl. by rewrite Nat.add_0_r. Qed.

(** The lines of the calls after one of them has logged its outcome. *)
Lemma call_lines_insert ds p q id d x :
  ds !! id = Some d → logs q id = Some x →
  (∀ id', id' ≠ id → logs q id' = logs p id') →
  call_lines ds q = <[id := call_line d None ++ [x]]> (call_lines ds p).
Proof.
  intros Hd Hq Hne. apply list_eq. intros i. unfold call_lines.
  destruct (decide (i = id)) as [->|].
  - rewrite list_lookup_insert_eq
      by (rewrite length_imap; by eapply lookup_lt_Some).
    by rewrite list_lookup_imap, Hd, Hq.
  - rewrite list_lookup_insert_ne by done.
    rewrite !list_lookup_imap. by destruct (ds !! i); simpl; rewrite ?Hne.
Qed.

Lemma call_lines_Permutation ds p :
  length ds = next_id p →
  concat (call_lines ds p) ≡ₚ (ds ≫= λ d, (saveField d).1.1) ++ logged p.
Proof.
  intros Hn. unfold logged. rewrite <-Hn.
  apply (concat_imap_omap _ (logs p) ds 0).
Qed.

Lemma log_inv_handle s e p :
  tasks_inv p → requests_inv p → log_inv p →
  log_inv (handle (dispatch s e) p).
Proof.
  intros Ht [Hl _] (ds & Hds & Hc).
  assert (length ds = next_id p) as Hn by by rewrite <-Hl, Hds, length_fmap.
  destruct (handle_wire s e p)
    as [(Hq & Hrq & _ & Hcq)|(d & Hq & Hrq & _ & Hcq)].
  { exists ds. rewrite Hrq, Hcq. split; [done|].
    rewrite (call_lines_ext ds _ p); [done|]. intros id _.
    apply logs_eq; by rewrite ?Hq, ?Hrq. }
  exists (ds ++ [d]). rewrite Hrq, Hcq, Hds, fmap_app. split; [done|].
  rewrite call_lines_snoc, Hn, (call_lines_ext ds _ p).
  - unfold logs at 1. rewrite Hq, lookup_insert_eq, decide_False by done.
    by apply shuffle_new.
  - intros id Hid.
    apply logs_eq; rewrite ?Hq, ?Hrq; [by rewrite lookup_insert_ne by lia|].
    rewrite lookup_app_l; [done|]. rewrite Hds, length_fmap. lia.
Qed.

Lemma wire_inv_settle p id o :
  tasks_inv p → wire_inv p → delivery p id = Some o →
  wire_inv (settle id o p).
Proof.
  intros Ht Hw (t & rq & Hid & Hrq & Ho)%delivery_Some.
  rewrite (settle_settle_pending id o p t) by done.
  destruct (resume_delivers rq (task_state t) o) as (Htr & _);
    [by eapply Hw|done|].
  intros id' t' rq'. unfold settle_pending; simpl. case_bool_decide.
  - intros [_ Hid']%lookup_delete_Some. eauto.
  - destruct (decide (id' = id)) as [->|];
      [rewrite lookup_insert_eq|rewrite lookup_insert_ne by done; eauto].
    intros [= <-] Hrq'. by simplify_eq.
Qed.

Lemma settle_pending_wire id t o p :
  let q := settle_pending id t o p in
  let r := resume (task_state t) o in
  requests q = requests p ∧ next_id q = next_id p ∧
  console q = console p ++ r.1 ∧
  tasks q = if bool_decide (r.2 = Fulfilled) then delete id (tasks p)
            else <[id := mkTask r.2 [SetIsLoading false]]> (tasks p).
Proof. done. Qed.

Lemma log_inv_settle p id o :
  tasks_inv p → wire_inv p → log_inv p → delivery p id = Some o →
  log_inv (settle id o p).
Proof.
  intros Ht Hw (ds & Hds & Hc) (t & rq & Hid & Hrq & Ho)%delivery_Some.
  rewrite (settle_settle_pending id o p t) by done.
  destruct (resume_delivers rq (task_state t) o) as (_ & _ & Hr);
    [by eapply Hw|done|].
  destruct (settle_pending_wire id t o p) as (Hrq' & Hn & Hcq & Hq).
  exists ds. rewrite Hrq', Hcq. split; [done|].
  destruct Hr as [[Hon ->]|[Hover ->]].
  - rewrite bool_decide_eq_false_2 in Hq by done.
    rewrite app_nil_r, (call_lines_ext ds _ p); [done|]. intros id' _.
    unfold logs. rewrite Hq, Hrq'.
    destruct (decide (id' = id)) as [->|]; [|by rewrite lookup_insert_ne].
    by rewrite lookup_insert_eq, Hid, !decide_False.
  - rewrite bool_decide_eq_true_2 in Hq by done.
    pose proof Hrq as Hd. rewrite Hds, list_lookup_fmap in Hd.
    apply fmap_Some in Hd as (d & Hd & ->).
    rewrite (call_lines_insert ds p _ id d
               (outcome (saveField_request d))).
    + apply shuffle_snoc; [|done]. unfold call_lines, logs.
      by rewrite list_lookup_imap, Hd, Hid, decide_False.
    + done.
    + unfold logs. by rewrite Hq, Hrq', lookup_delete_eq, decide_True, Hrq.
    + intros id' Hne. apply logs_eq; [|done]. by rewrite Hq, lookup_delete_ne.
Qed.

Lemma net_inv_step p i :
  inv p → wire_inv p ∧ log_inv p →
  wire_inv (net_step p i) ∧ log_inv (net_step p i).
Proof.
  intros (_ & _ & _ & Ht & Hr) [Hw Hc]. unfold net_step.
  destruct (on_wire p i) as [e|] eqn:He; [|done]. simpl.
  apply on_wire_Some in He as [->|(id & o & -> & Ho)].
  - split; auto using wire_inv_handle, log_inv_handle.
  - cbn [step]. split; auto using wire_inv_settle, log_inv_settle.
Qed.

Lemma net_reachable_inv p : net_reachable p → wire_inv p ∧ log_inv p.
Proof.
  induction 1 as [storage s storage' Hm|p i Hp IH].
  - split; [by intros id t rq|]. exists []. by repeat constructor.
  - by apply net_inv_step; [apply reachable_inv, net_reachable_reachable|].
Qed.

(** So the console has, up to their order, the opening lines of every
    call and the outcomes of the calls that are over. *)
Lemma log_inv_Permutation p :
  requests_inv p → log_inv p →
  ∃ ds, requests p = saveField_request <$> ds ∧
    console p ≡ₚ (ds ≫= λ d, (saveField d).1.1) ++ logged p.
Proof.
  intros [Hl _] (ds & Hds & Hc). exists ds. split; [done|].
  rewrite (shuffle_Permutation _ _ Hc). apply call_lines_Permutation.
  by rewrite <-Hl, Hds, length_fmap.
Qed.

(** And every line of the console opens a call or is the outcome of
    one. *)
Lemma log_console_inv p : requests_inv p → log_inv p → console_inv p.
Proof.
  intros Hr (ds & Hds & Hc)%log_inv_Permutation line; [|done].
  rewrite Hc, elem_of_app, list_elem_of_bind.
  intros [(d & Hline & _)|Hline]; [left; eauto|right].
  apply list_elem_of_omap in Hline as (id & _ & Hline). unfold logs in Hline.
  case_decide; [|done]. apply fmap_Some in Hline as (rq & Hrq & ->).
  exists rq. split; [by eapply list_elem_of_lookup_2|done].
Qed.

(** ** Deliveries *)

Lemma awaits_left_0 t : awaits_left t = 0 → t = Fulfilled.
Proof. by destruct t. Qed.

Lemma awaits_left_le t : awaits_left t ≤ 2.
Proof. destruct t; simpl; lia. Qed.

Lemma drain_cons id ids :
  drain (id :: ids) = Delivers id :: Delivers id :: drain ids.
Proof. done. Qed.

(** The network can deliver to every pending call, and the call runs
    on. *)
Lemma net_step_Delivers p id t :
  net_reachable p → tasks p !! id = Some t →
  ∃ o, delivery p id = Some o ∧
    net_step p (Delivers id) = settle_pending id t o p ∧
    awaits_left (resume (task_state t) o).2 < awaits_left (task_state t).
Proof.
  intros Hp Hid.
  destruct (reachable_inv p (net_reachable_reachable p Hp))
    as (_ & _ & _ & Ht & [Hl _]).
  destruct (Ht id t Hid) as (Hlt & Hne & _).
  destruct (lookup_lt_is_Some_2 (requests p) id) as [rq Hrq]; [lia|].
  destruct (delivers rq (task_state t)) as [o|] eqn:Ho;
    [|by destruct (task_state t)].
  assert (delivery p id = Some o) as Hd.
  { unfold delivery. by rewrite Hid, Hrq. }
  exists o. split_and!; [done|..].
  - unfold net_step. simpl. rewrite Hd. by apply settle_settle_pending.
  - eapply resume_delivers; [|done].
    destruct (net_reachable_inv p Hp) as [Hw _]. by eapply Hw.
Qed.

(** To a call that is over nothing is delivered. *)
Lemma net_step_Delivers_None p id :
  tasks p !! id = None → net_step p (Delivers id) = p.
Proof. intros Hid. unfold net_step, on_wire, delivery. by rewrite Hid. Qed.

(** A delivery that ends a call, and one that does not. *)
Lemma settle_pending_over id t o p :
  (resume (task_state t) o).2 = Fulfilled →
  tasks (settle_pending id t o p) = delete id (tasks p) ∧
  isLoading (comp (settle_pending id t o p)) = false.
Proof.
  intros Hover. unfold settle_pending. simpl.
  by rewrite bool_decide_eq_true_2.
Qed.

Lemma settle_pending_on id t o p :
  (resume (task_state t) o).2 ≠ Fulfilled →
  tasks (settle_pending id t o p)
  = <[id := mkTask (resume (task_state t) o).2 [SetIsLoading false]]>
      (tasks p).
Proof.
  intros Hon. unfold settle_pending. simpl.
  by rewrite bool_decide_eq_false_2.
Qed.

(** Two deliveries end a call. *)
Lemma deliver_twice p id t :
  net_reachable p → tasks p !! id = Some t →
  let q := net_step (net_step p (Delivers id)) (Delivers id) in
  tasks q = delete id (tasks p) ∧ isLoading (comp q) = false.
Proof.
  intros Hp Hid. cbn zeta.
  assert (net_reachable (net_step p (Delivers id))) as Hp1 by by constructor.
  destruct (net_step_Delivers p id t Hp Hid) as (o & _ & Hq & Hlt).
  rewrite Hq in Hp1 |- *.
  destruct (decide ((resume (task_state t) o).2 = Fulfilled)) as [Hover|Hon].
  - destruct (settle_pending_over id t o p Hover) as [Ht Hl].
    rewrite net_step_Delivers_None; [done|]. rewrite Ht. apply lookup_delete_eq.
  - pose proof (settle_pending_on id t o p Hon) as Ht.
    set (t1 := mkTask (resume (task_state t) o).2 [SetIsLoading false]) in *.
    destruct (net_step_Delivers _ id t1 Hp1) as (o2 & _ & -> & Hlt2).
    { rewrite Ht. apply lookup_insert_eq. }
    simpl in Hlt2. pose proof (awaits_left_le (task_state t)).
    destruct (settle_pending_over id t1 o2 (settle_pending id t o p))
      as [-> ->]; [apply awaits_left_0; simpl; lia|].
    by rewrite Ht, delete_insert_eq.
Qed.

Lemma net_run_drain_empty p ids : tasks p = ∅ → net_run p (drain ids) = p.
Proof.
  intros Hp. induction ids as [|id ids IH]; [done|].
  by rewrite drain_cons, !net_run_cons, !(net_step_Delivers_None p id)
    by by rewrite Hp.
Qed.

(** Delivering twice to each of a list of calls that holds every pending
    call ends them all. *)
Lemma net_run_drain p ids :
  net_reachable p → (∀ id, is_Some (tasks p !! id) → id ∈ ids) →
  let q := net_run p (drain ids) in
  tasks q = ∅ ∧ (tasks p ≠ ∅ → isLoading (comp q) = false).
Proof.
  cbn zeta. revert p. induction ids as [|id ids IH]; intros p Hp Hids.
  - assert (tasks p = ∅); [|done]. apply map_empty. intros id.
    apply eq_None_not_Some. by intros ?%Hids%elem_of_nil.
  - rewrite drain_cons, !net_run_cons.
    destruct (tasks p !! id) as [t|] eqn:Hid.
    + destruct (deliver_twice p id t Hp Hid) as [Ht Hl].
      destruct (IH (net_step (net_step p (Delivers id)) (Delivers id)))
        as [Hend Hflag]; [by do 2 constructor|..].
      { intros id'. rewrite Ht. intros [t' [Hne Hid']%lookup_delete_Some].
        by destruct (proj1 (elem_of_cons _ _ _) (Hids id' (mk_is_Some _ _ Hid'))). }
      split; [done|]. intros _.
      destruct (decide
        (tasks (net_step (net_step p (Delivers id)) (Delivers id)) = ∅))
        as [Hlast|Hmore]; [by rewrite net_run_drain_empty|by apply Hflag].
    + rewrite !(net_step_Delivers_None p id) by done. apply IH; [done|].
      intros id' Hid'.
      destruct (proj1 (elem_of_cons _ _ _) (Hids id' Hid')) as [->|]; [|done].
      rewrite Hid in Hid'. by destruct Hid'.
Qed.

(** ** Main theorems *)

(** A run of the page against a server is a run of the page with the
    network as its environment: every page the closed system reaches is
    reachable in [Machine], so the invariants proved there hold of it. *)
Theorem net_reachable_inv_machine p : net_reachable p → reachable p ∧ inv p.
Proof.
  intros Hp%net_reachable_reachable. split; [done|]. by apply reachable_inv.
Qed.

(** C23: The console of the closed system, exactly: it is a merge of the
    lines of the calls.  Each call has logged its two opening lines
    ([Function Called: saveField], [Posted Data:]) and, when it is over,
    one more line after them, the one the answer of the server to its
    request makes it log: the parsed body on a 2xx status, the status
    otherwise, the error when the request fails or the body is no JSON
    text.  The console holds these lines and no others, those of each call
    in their order. *)
Theorem net_reachable_log p :
  net_reachable p →
  ∃ ds, requests p = saveField_request <$> ds ∧
    shuffle (call_lines ds p) (console p) ∧
    console p ≡ₚ (ds ≫= λ d, (saveField d).1.1) ++ logged p ∧
    ∀ id d, ds !! id = Some d →
      call_line d (logs p id) `sublist_of` console p.
Proof.
  intros Hp. destruct (net_reachable_inv p Hp) as [_ (ds & Hds & Hc)].
  destruct (reachable_inv p (net_reachable_reachable p Hp))
    as (_ & _ & _ & _ & [Hl _]).
  exists ds. split_and!; [done..| |].
  - rewrite (shuffle_Permutation _ _ Hc). apply call_lines_Permutation.
    by rewrite <-Hl, Hds, length_fmap.
  - intros id d Hd. apply (shuffle_sublist _ _ id _ Hc).
    unfold call_lines. by rewrite list_lookup_imap, Hd.
Qed.

(** C24: The closed system ends every call: from any page it reaches, two
    deliveries to each pending call, in the order of the identifiers,
    leave no call pending and the loading flag cleared. *)
Theorem net_calls_end p :
  net_reachable p →
  let q := net_run p (drain (map_to_list (tasks p)).*1) in
  tasks q = ∅ ∧ (tasks p ≠ ∅ → isLoading (comp q) = false).
Proof.
  intros Hp. apply net_run_drain; [done|]. intros id [t Hid].
  apply list_elem_of_fmap. exists (id, t). by rewrite elem_of_map_to_list.
Qed.

End network.

#[export] Hint Constructors net_reachable : form.

(** ** The echo endpoint *)

Section echo.
Context `{!JsonCodec}.

(** The endpoint answers a call of [saveField] with the data posted. *)
Lemma outcome_echo d :
  outcome echo (saveField_request d)
  = console_log [CText "Server Response:"; CJson (SaveData_json d)].
Proof.
  unfold outcome, echo. rewrite decide_True by done.
  cbn [rp_status rp_body]. change (Response_ok 200) with true.
  by rewrite saveField_body_parses.
Qed.

(** A line of the console against the echo endpoint. *)
Lemma net_reachable_echo_line p line :
  net_reachable echo p → line ∈ console p →
  ∃ d, line ∈ (saveField d).1.1 ∨
    line = console_log [CText "Server Response:"; CJson (SaveData_json d)] ∧
    saveField_request d ∈ requests p ∧ valid_data d.
Proof.
  intros Hp Hin. destruct (net_reachable_inv echo p Hp) as [_ Hc].
  destruct (reachable_inv p (net_reachable_reachable echo p Hp))
    as (_ & _ & _ & _ & Hr).
  destruct (log_console_inv echo p Hr Hc line Hin)
    as [[d Hd]|(rq & Hrq & ->)]; [exists d; by left|].
  destruct Hr as [_ Hr].
  rewrite Forall_forall in Hr. destruct (Hr rq Hrq) as (d & -> & Hv).
  exists d. right. by rewrite outcome_echo.
Qed.

(** C13: Against the echo endpoint no call fails.  Every line of the
    console is one of the two lines that open a call, or the response of
    the server to a request that was sent, which reads back as the data
    posted, data that passed validation.  So no line is an error, and the
    parser accepts what the printer wrote for every data the form can
    send. *)
Theorem echo_console p line :
  net_reachable echo p → line ∈ console p →
  ∃ d, line ∈ (saveField d).1.1 ∨
    line = console_log [CText "Server Response:"; CJson (SaveData_json d)] ∧
    saveField_request d ∈ requests p ∧ valid_data d.
Proof. apply net_reachable_echo_line. Qed.

End echo.

(** ** The closed system, run *)

(** With the parser of [Json]: the page mounted on an empty storage and
    two clicks on Save, against the echo endpoint and against a server
    that answers every request with the status 500. *)
Definition unavailable : Server := λ _, Some (mkReply 500 "").

Definition page_posted (srv : Server) : Page :=
  net_run srv page0 [Does ClickSave; Does (InputLabel "Area"); Does ClickSave].

Lemma net_reachable_page0 srv : net_reachable srv page0.
Proof. apply (net_reachable_init srv ∅), mount_no_draft, lookup_empty. Qed.

Lemma net_reachable_page_posted srv : net_reachable srv (page_posted srv).
Proof. apply net_reachable_run, net_reachable_page0. Qed.

Lemma net_reachable_inv_machine_witness :
  reachable (page_posted echo) ∧ inv (page_posted echo).
Proof. apply (net_reachable_inv_machine echo), net_reachable_page_posted. Defined.

Lemma net_reachable_log_witness :
  let p := net_run unavailable page0 [Does ClickSave; Delivers 0] in
  ∃ ds, requests p = saveField_request <$> ds ∧
    shuffle (call_lines unavailable ds p) (console p) ∧
    console p ≡ₚ (ds ≫= λ d, (saveField d).1.1) ++ logged unavailable p ∧
    ∀ id d, ds !! id = Some d →
      call_line d (logs unavailable p id) `sublist_of` console p.
Proof. apply net_reachable_log, net_reachable_run, net_reachable_page0. Defined.

Lemma net_calls_end_witness :
  let p := page_posted unavailable in
  let q := net_run unavailable p (drain (map_to_list (tasks p)).*1) in
  tasks q = ∅ ∧ (tasks p ≠ ∅ → isLoading (comp q) = false).
Proof. apply net_calls_end, net_reachable_page_posted. Defined.

Lemma echo_console_witness :
  let p := net_run echo page0 [Does ClickSave; Delivers 0; Delivers 0] in
  let line := console_log [CText "Server Response:";
                           CJson (SaveData_json (submit_data mountedState))] in
  ∃ d, line ∈ (saveField d).1.1 ∨
    line = console_log [CText "Server Response:"; CJson (SaveData_json d)] ∧
    saveField_request d ∈ requests p ∧ valid_data d.
Proof.
  apply echo_console; [apply net_reachable_run, net_reachable_page0|].
  apply (list_elem_of_lookup_2 _ 2). by vm_compute.
Defined.

(** Two calls against the echo endpoint, the second answered first: the
    console holds the two responses in the order of the deliveries, and
    the loading flag is cleared. *)
Example net_run_echo :
  let p := net_run echo (page_posted echo)
             [Delivers 1; Delivers 0; Delivers 1; Delivers 0] in
  tasks p = ∅ ∧ isLoading (comp p) = false ∧
  drop 4 (console p)
  = [outcome echo (saveField_request
       (submit_data (comp (run page0 [ClickSave; InputLabel "Area"]))));
     outcome echo (saveField_request (submit_data (comp page0)))].
Proof. by vm_compute. Qed.

(** Against a server that answers 500 every call logs the status, and
    the body is never read. *)
Example net_run_unavailable :
  let p := net_run unavailable (page_posted unavailable)
             [Delivers 0; Delivers 1] in
  tasks p = ∅ ∧
  drop 4 (console p)
  = [console_error [CText "Server responded with status:"; CStatus 500];
     console_error [CText "Server responded with status:"; CStatus 500]].
Proof. by vm_compute. Qed.

(** A server that answers 204 with no body: the save went through, and
    the call logs an error, since an empty body is no JSON text. *)
Definition no_content : Server := λ _, Some (mkReply 204 "").

Example outcome_no_content rq :
  outcome no_content rq
  = console_error [CText "Error posting data:"; CError SyntaxError].
Proof. by vm_compute. Qed.

(** The range of [response.ok]. *)
Example Response_ok_range :
  Response_ok 199 = false ∧ Response_ok 200 = true ∧
  Response_ok 299 = true ∧ Response_ok 300 = false.
Proof. done. Qed.
