(* ===== verification/Async.v ===== *)
(** * Async: [saveField] in direct style

    [FieldService] models the async function [saveField] as a task: a
    state for each [await] at which the function can be suspended, and a
    function [resume] that runs it from one [await] to the next.  That is
    the form the page needs, since other events happen while a call is
    suspended, but it is not the form of the source, which is a sequence
    of statements with two [await]s inside a [try] block.

    This file writes the function the way the source does, as an
    interaction tree.  What the function asks of its environment are the
    events [saveE]: a line for the console, the promise of [fetch], the
    promise of [response.json()].  An [await] asks for the settlement of a
    promise and throws when the promise was rejected; [try] and [catch]
    are those of the library.  [saveField_async] is lines 20-50 statement
    by statement.

    The theorem [saveField_async_trace] relates the two forms.  The tree
    is run against an environment that answers [fetch] with a given
    outcome and [response.json()] with the parsed body, and that records
    every interaction.  The record is the one of the task run by [resume]
    on the same outcome: the same lines logged, the same request, the same
    two awaits, in the same order.  So [resume] is the function of the
    source cut at its awaits.

    Run against a server of [Network], the function logs the line
    [outcome] gives for the answer of the server
    ([saveField_async_server]).

    Trees are compared up to [≈] (silent steps ignored); the proofs
    are equational, with the lemmas of the library for [bind], [try_catch]
    and [interp_state]. *)

From ITree Require Import ITree ITreeFacts Events.Exception.
From ITree Require Import Events.ExceptionFacts Events.State Events.StateFacts.
From S2P Require Import Prelude JsonApi Json FieldService Network.

#[local] Set Warnings "-clear-no-such-hyp".

(** ** Events *)

(** What [saveField] asks of its environment, with the type of the
    answer: [console.log] and [console.error] (lines 21-22, 35, 37, 48),
    the promise of [fetch] (line 25) and the promise of
    [response.json()] (line 34).  A promise is fulfilled with a value or
    rejected with an exception. *)
Inductive saveE : Type → Type :=
| ConsoleE (line : console_line) : saveE unit
| FetchE (rq : Request) : saveE (result Response)
| JsonE (response : Response) : saveE (result json).

(** The events of an async function: those of [saveField], and an
    exception thrown. *)
Abbreviation asyncE := (exceptE exn +' saveE).

(** The notations of the other files for sequencing, on trees. *)
#[export] Instance itree_ret {E} : MRet (itree E) := λ A x, Ret x.
#[export] Instance itree_bind {E} : MBind (itree E) :=
  λ A B k t, ITree.bind t k.

(** One event. *)
Definition ask {X} (e : saveE X) : itree asyncE X := ITree.trigger (inr1 e).

(** [await promise]: the value the promise is fulfilled with; a rejected
    promise throws at the [await]. *)
Definition await {X} (e : saveE (result X)) : itree asyncE X :=
  x ← ask e;
  match x with Ok v => Ret v | Throw error => throw error end.

(** [console.log(...)] and [console.error(...)]. *)
Definition say (line : console_line) : itree asyncE unit :=
  ask (ConsoleE line).

(** An interaction, as an observer of the function records it. *)
Inductive interaction : Type :=
| Logged (line : console_line)
| Fetched (rq : Request)
| ReadBody (response : Response).

(** The promise a task is suspended on. *)
Definition awaited (rq : Request) (t : SaveTask) : list interaction :=
  match t with
  | AwaitFetch => [Fetched rq]
  | AwaitBody r => [ReadBody r]
  | Fulfilled => []
  end.

Section async.
Context `{!JsonCodec}.

(** ** The function *)

(** The [try] block, lines 24-38. *)
Definition saveField_try (data : SaveData) : itree asyncE unit :=
  response ← await (FetchE (saveField_request data));
  if rs_ok response then
    responseData ← await (JsonE response);
    say (console_log [CText "Server Response:"; CJson responseData])
  else
    say (console_error [CText "Server responded with status:";
                        CStatus (rs_status response)]).

(** The [catch] clause, lines 47-49. *)
Definition saveField_caught (error : exn) : itree asyncE unit :=
  say (console_error [CText "Error posting data:"; CError error]).

(** [saveField], lines 20-50. *)
Definition saveField_async (data : SaveData) : itree asyncE unit :=
  say (console_log [CText "Function Called: saveField"]) ;;
  say (console_log [CText "Posted Data:"; CData data]) ;;
  try_catch (saveField_try data) saveField_caught.

(** The same function with its exceptions made explicit: every [await]
    is followed by the test of its result, and a rejection goes to the
    [catch] clause. *)
Definition saveField_flat (data : SaveData) : itree asyncE unit :=
  say (console_log [CText "Function Called: saveField"]) ;;
  say (console_log [CText "Posted Data:"; CData data]) ;;
  x ← ask (FetchE (saveField_request data));
  match x with
  | Throw error => saveField_caught error
  | Ok response =>
      if rs_ok response then
        y ← ask (JsonE response);
        match y with
        | Throw error => saveField_caught error
        | Ok responseData =>
            say (console_log [CText "Server Response:"; CJson responseData])
        end
      else
        say (console_error [CText "Server responded with status:";
                            CStatus (rs_status response)])
  end.

(** ** The environment *)

(** An environment that records every interaction.  It answers [fetch]
    with the response [o], or rejects it when there is none, and
    [response.json()] with the parsed body.  An exception that reaches it
    was not caught: the promise of the function is rejected and nothing
    more happens. *)
Definition h_async (o : option Response)
    : asyncE ~> Monads.stateT (list interaction) (itree void1) :=
  λ X e tr,
    match e with
    | inl1 e' =>
        match e' in exceptE _ X return itree void1 (list interaction * X) with
        | Exception.Throw _ => ITree.spin
        end
    | inr1 e' =>
        match e' in saveE X return itree void1 (list interaction * X) with
        | ConsoleE line => Ret (tr ++ [Logged line], tt)
        | FetchE rq =>
            Ret (tr ++ [Fetched rq], from_option Ok (Throw TypeError) o)
        | JsonE r => Ret (tr ++ [ReadBody r], response_json r)
        end
    end.

(** ** The task, observed *)

(** What an observer records of a task resumed with a list of
    settlements: the promise it is suspended on, the lines it logs when
    the promise settles, and so on. *)
Fixpoint task_trace (rq : Request) (t : SaveTask) (os : list Settlement)
    : list interaction :=
  awaited rq t ++
  match os with
  | [] => []
  | o :: os' =>
      let r := resume t o in (Logged <$> r.1) ++ task_trace rq r.2 os'
  end.

(** The same for a whole call: the code before the first [await], then
    the task resumed with the outcome of [fetch] and with the body. *)
Definition saveField_trace (data : SaveData) (o : option Response)
    : list interaction :=
  let '(lines, rq, t) := saveField data in
  (Logged <$> lines) ++
  task_trace rq t [from_option FetchResolves FetchRejects o; BodyArrives].

End async.

(** ** [try] and [catch], one event at a time *)

Section try_catch.
Context {E : Type → Type} {Err R : Type}.
Implicit Types (kcatch : Err → itree (exceptE Err +' E) R).

(** An exception thrown in the block runs the handler. *)
Lemma try_catch_throw kcatch (e : Err) :
  try_catch (throw e) kcatch ≈ kcatch e.
Proof.
  change (throw e) with
    (Vis (inl1 (Exception.Throw e) : (exceptE Err +' E) void)
       (λ v : void, match v return itree (exceptE Err +' E) R with end)).
  by rewrite try_catch_exc.
Qed.

(** An event of the block happens, and the block goes on. *)
Lemma try_catch_bind_trigger {X} (ev : E X)
    (k : X → itree (exceptE Err +' E) R) kcatch :
  try_catch (ITree.bind (ITree.trigger (inr1 ev)) k) kcatch
  ≈ ITree.bind (ITree.trigger (inr1 ev)) (λ x, try_catch (k x) kcatch).
Proof.
  rewrite bind_trigger, try_catch_ev, bind_trigger.
  apply eqit_Vis. intros x. apply tau_eutt.
Qed.

Lemma try_catch_trigger (ev : E R) kcatch :
  try_catch (ITree.trigger (inr1 ev)) kcatch ≈ ITree.trigger (inr1 ev).
Proof.
  rewrite <-(bind_ret_r (ITree.trigger (inr1 ev))), try_catch_bind_trigger.
  apply eutt_eq_bind. intros x. by rewrite try_catch_ret.
Qed.

(** Nothing runs after a [throw]. *)
Lemma bind_throw {X} (e : Err) (k : X → itree (exceptE Err +' E) R) :
  ITree.bind (throw e) k ≈ (throw e : itree (exceptE Err +' E) R).
Proof.
  change (@throw Err _ _ X e) with
    (Vis (inl1 (Exception.Throw e) : (exceptE Err +' E) void)
       (λ v : void, match v return itree (exceptE Err +' E) X with end)).
  rewrite bind_vis. apply eqit_Vis. by intros [].
Qed.

End try_catch.

Section async_facts.
Context `{!JsonCodec}.

(** ** The exceptions of [saveField] *)

(** Every exception of the [try] block is caught: the function is the
    one with explicit tests. *)
Lemma saveField_async_flat data : saveField_async data ≈ saveField_flat data.
Proof.
  unfold saveField_async, saveField_flat, saveField_try, await, say, ask.
  unfold mbind, itree_bind.
  do 2 (apply eutt_eq_bind; intros []).
  rewrite bind_bind, try_catch_bind_trigger.
  apply eutt_eq_bind. intros [response|error].
  - rewrite bind_ret_l. destruct (rs_ok response).
    + rewrite bind_bind, try_catch_bind_trigger.
      apply eutt_eq_bind. intros [responseData|error].
      * rewrite bind_ret_l. apply try_catch_trigger.
      * rewrite bind_throw. apply try_catch_throw.
    + apply try_catch_trigger.
  - rewrite bind_throw. apply try_catch_throw.
Qed.

(** ** The environment, one event at a time *)

Lemma interp_state_ask o {X} (e : saveE X) (k : X → itree asyncE unit) tr :
  interp_state (h_async o) (ITree.bind (ask e) k) tr
  ≈ ITree.bind (h_async o _ (inr1 e) tr)
      (λ sx, interp_state (h_async o) (k sx.2) sx.1).
Proof. unfold ask. by rewrite interp_state_bind, interp_state_trigger. Qed.

Lemma interp_state_say o line tr :
  interp_state (h_async o) (say line) tr ≈ Ret (tr ++ [Logged line], tt).
Proof. unfold say, ask. by rewrite interp_state_trigger. Qed.

Lemma interp_state_say_bind o line (k : unit → itree asyncE unit) tr :
  interp_state (h_async o) (ITree.bind (say line) k) tr
  ≈ interp_state (h_async o) (k tt) (tr ++ [Logged line]).
Proof. unfold say. rewrite interp_state_ask. cbn. by rewrite bind_ret_l. Qed.

Lemma interp_state_fetch o rq (k : result Response → itree asyncE unit) tr :
  interp_state (h_async o) (ITree.bind (ask (FetchE rq)) k) tr
  ≈ interp_state (h_async o) (k (from_option Ok (Throw TypeError) o))
      (tr ++ [Fetched rq]).
Proof. rewrite interp_state_ask. cbn. by rewrite bind_ret_l. Qed.

Lemma interp_state_json o r (k : result json → itree asyncE unit) tr :
  interp_state (h_async o) (ITree.bind (ask (JsonE r)) k) tr
  ≈ interp_state (h_async o) (k (response_json r)) (tr ++ [ReadBody r]).
Proof. rewrite interp_state_ask. cbn. by rewrite bind_ret_l. Qed.

(** The function run to its end. *)
Lemma interp_state_saveField_async data o :
  interp_state (h_async o) (saveField_async data) []
  ≈ Ret (saveField_trace data o, tt).
Proof.
  rewrite saveField_async_flat. unfold saveField_flat, mbind, itree_bind.
  rewrite !interp_state_say_bind, interp_state_fetch.
  unfold saveField_trace, saveField_caught.
  destruct o as [response|]; cbn; [|by rewrite interp_state_say].
  destruct (rs_ok response) eqn:Hok; cbn; [|by rewrite interp_state_say].
  rewrite interp_state_json.
  destruct (response_json response); cbn; by rewrite interp_state_say.
Qed.

(** ** Against a server *)

(** What the task records against a server: the opening lines, the
    request, the body read when the answer is ok, and the outcome. *)
Lemma saveField_trace_server srv data :
  let rq := saveField_request data in
  saveField_trace data (response_of <$> srv rq)
  = (Logged <$> (saveField data).1.1) ++ Fetched rq ::
    (if srv rq is Some rp
     then if Response_ok (rp_status rp) then [ReadBody (response_of rp)]
          else []
     else []) ++ [Logged (outcome srv rq)].
Proof.
  unfold saveField_trace, outcome. cbn.
  destruct (srv _) as [rp|]; cbn; [|done].
  destruct (Response_ok (rp_status rp)); cbn; [|done].
  unfold response_json. cbn. by destruct (JSON_parse (rp_body rp)).
Qed.

(** The function of the source run against a server logs the line
    [outcome] gives for the answer of the server, after its two opening
    lines, and reads the body only when the status is ok. *)
Lemma saveField_async_server srv data :
  let rq := saveField_request data in
  interp_state (h_async (response_of <$> srv rq)) (saveField_async data) []
  ≈ Ret ((Logged <$> (saveField data).1.1) ++ Fetched rq ::
         (if srv rq is Some rp
          then if Response_ok (rp_status rp) then [ReadBody (response_of rp)]
               else []
          else []) ++ [Logged (outcome srv rq)], tt).
Proof.
  cbn zeta. by rewrite interp_state_saveField_async, saveField_trace_server.
Qed.

(** ** Main theorem *)

(** C14: The task of [FieldService] is the async function of the source
    cut at its awaits.  The function written in direct style (two
    console lines, [await fetch], the test of [response.ok],
    [await response.json()], all inside [try] with the [catch] clause),
    run to its end against any outcome of the network, interacts with its
    environment exactly as the task run by [resume] does: the same lines
    on the console, the same request, the same promises awaited, in the
    same order; and it returns, so the promise of [saveField] is
    fulfilled whatever happens. *)
Theorem saveField_async_trace data o :
  interp_state (h_async o) (saveField_async data) []
  ≈ Ret (saveField_trace data o, tt).
Proof. apply interp_state_saveField_async. Qed.

End async_facts.
