(* ===== verification/Browser.v ===== *)
(** * Browser: the tab that shows the page

    File [Machine] takes the events of the page as given.  This file
    derives them: a user acts on the elements of the tree the component
    rendered ([View.FieldBuilderForm]), the browser looks up the function
    bound to the event and runs it, and the user can load the page again
    at any time, which mounts the component anew on the storage the last
    page left.

    A tab is live (a page, and the checked state of the checkbox of line
    156, which lives in the DOM because no hook holds it) or blank (the
    draft loader threw at mount and React removed the tree).  [tab_step]
    is one action of the user or of the network.

    The theorems: the steps of a live tab between two loads are exactly
    the steps of [Machine.step]; a page that loaded once loads every time,
    whatever the user did in between, so the invariants of [Machine] hold
    across loads; a page that came up blank stays blank; loading again
    forgets everything but the storage; the checkbox changes nothing.

    The tab is a model of what the browser and React do around the
    component, written from spec.md: focus, the activation of a control
    by a click on its label and the keyboard other than the Enter key
    are left out. *)

From S2P Require Import Prelude JsString JsonApi Json FieldService FormState.
From S2P Require Import JsonGrammar JsonComplete.
From S2P Require Import React Validate Handlers Dom View Effects Machine.
From S2P Require Import Lifecycle.

#[local] Set Warnings "-clear-no-such-hyp".

(** ** Tabs and actions *)

Inductive Tab : Type :=
| Live (p : Page) (multiSelect : bool)
| Blank (e : exn) (storage : gmap string string)
| Untyped (storage : gmap string string).

(** What the user and the network can do: type or choose in the control
    with an [id], click on the element with a tag and a text, click on the
    checkbox, press Enter in a text field, settle a promise, load the
    page again. *)
Inductive action : Type :=
| Change (id value : string)
| Click (tag text : string)
| Check
| Enter
| Network (id : nat) (o : Settlement)
| Reload.

#[export] Instance action_eq_dec : EqDecision action.
Proof. solve_decision. Defined.

Section browser.
Context `{!JsonCodec}.

Definition storage_of (t : Tab) : gmap string string :=
  match t with
  | Live p _ => localStorage p
  | Blank _ storage | Untyped storage => storage
  end.

Definition page_of (t : Tab) : option Page :=
  match t with Live p _ => Some p | _ => None end.

(** Loading the page: the component mounts on the storage, with the
    checkbox unchecked. *)
Definition load (storage : gmap string string) : Tab :=
  match mount storage with
  | Rendered s storage' => Live (init s storage') false
  | Crashed e storage' => Blank e storage'
  | IllTyped => Untyped storage
  end.

(** The checked state of the checkbox after a render: React leaves the
    DOM node alone when it keeps it, and a new node starts unchecked. *)
Definition multiSelect_after (old new : State) (c : bool) : bool :=
  if keeps (FieldBuilderForm old) (FieldBuilderForm new) then c else false.

(** The tab after the page went from [p] to [p']. *)
Definition rendered_to (p p' : Page) (c : bool) : Tab :=
  Live p' (multiSelect_after (comp p) (comp p') c).

(** One action.  A click runs the function bound to [onClick], and then
    submits the form if the element clicked is a submit button; a form
    without [action] is submitted to the address of the page, which loads
    it again.  A click on the checkbox, which is found by its [id], runs
    the functions bound to it in one batch and leaves the box as the DOM
    and React leave it ([View.check]).  A blank page has no element to
    act on and reacts to nothing but a load. *)
Definition tab_step (t : Tab) (a : action) : Tab :=
  match t with
  | Live p c =>
      let root := FieldBuilderForm (comp p) in
      match a with
      | Change id value =>
          match fire (ById id) "onChange" value root with
          | Some h => rendered_to p (handle h p) c
          | None => t
          end
      | Click tag text =>
          match click (ByText tag text) root with
          | Some (h, submit) =>
              let p' := from_option (λ h, handle (h "") p) p h in
              if submit then load (localStorage p') else rendered_to p p' c
          | None => t
          end
      | Check =>
          match check (ById "multi-select") c root with
          | Some ([], c') => Live p c'
          | Some (hs, c') =>
              rendered_to p (handle (foldr (λ h k, h ;; k) skip hs) p) c'
          | None => t
          end
      | Enter => if Enter_submits root then load (localStorage p) else t
      | Network id o => rendered_to p (settle id o p) c
      | Reload => load (localStorage p)
      end
  | Blank _ storage | Untyped storage =>
      match a with Reload => load storage | _ => t end
  end.

Definition tab_run (t : Tab) (acts : list action) : Tab :=
  foldl tab_step t acts.

(** The action that stands for an event of [Machine] on a page in state
    [s]: the Save button is found by the text it shows. *)
Definition action_of (s : State) (e : event) : action :=
  match e with
  | InputLabel value => Change "labelInput" value
  | InputDefaultValue value => Change "defaultValueInput" value
  | InputChoices value => Change "choicesTextarea" value
  | SelectOrder value => Change "orderSelect" value
  | ClickSave => Click "button" (submitText (rendered s))
  | ClickClear => Click "button" "Clear Form"
  | ClickCancel => Click "button" "Cancel"
  | Settle id o => Network id o
  end.

(** Two tabs that differ at most in the checkbox. *)
Definition same_page (t1 t2 : Tab) : Prop :=
  match t1, t2 with
  | Live p1 _, Live p2 _ => p1 = p2
  | _, _ => t1 = t2
  end.

(** ** Runs *)

Lemma tab_run_nil t : tab_run t [] = t.
Proof. done. Qed.

Lemma tab_run_cons t a acts :
  tab_run t (a :: acts) = tab_run (tab_step t a) acts.
Proof. done. Qed.

Lemma tab_run_app t acts1 acts2 :
  tab_run t (acts1 ++ acts2) = tab_run (tab_run t acts1) acts2.
Proof. apply foldl_app. Qed.

(** ** The checkbox survives every render *)

Lemma multiSelect_after_keeps old new c : multiSelect_after old new c = c.
Proof. unfold multiSelect_after. by rewrite keeps_render. Qed.

Lemma rendered_to_Live p p' c : rendered_to p p' c = Live p' c.
Proof. unfold rendered_to. by rewrite multiSelect_after_keeps. Qed.

(** A click on the checkbox inverts it and runs nothing: the JSX gives
    the checkbox no [checked] prop and binds no function to it. *)
Lemma tab_step_Check_Live p c : tab_step (Live p c) Check = Live p (negb c).
Proof. cbn [tab_step]. by rewrite check_FieldBuilderForm. Qed.

(** ** The functions bound in the page are the events of the machine *)

(** Every function the page binds, applied to a value, is the script
    [Machine.dispatch] gives to some event. *)
Lemma listeners_dispatch s name h value :
  (name, h) ∈ listeners (FieldBuilderForm s) →
  ∃ e, h value = dispatch s e ∧ ∀ id o, e ≠ Settle id o.
Proof.
  rewrite listeners_FieldBuilderForm. intros Hh.
  repeat (apply elem_of_cons in Hh as [[= -> ->]|Hh]);
    [by exists (InputLabel value) | by exists (InputDefaultValue value)
    |by exists (InputChoices value) | by exists (SelectOrder value)
    |by exists ClickSave | by exists ClickClear | by exists ClickCancel|].
  by apply elem_of_nil in Hh.
Qed.

(** A step of the machine for an event of the user is the handler of the
    event run on the page. *)
Lemma step_handle p e :
  (∀ id o, e ≠ Settle id o) → step p e = handle (dispatch (comp p) e) p.
Proof. intros He. destruct e; try done. by destruct (He id o). Qed.

(** The event of the machine, acted out on the page. *)
Lemma tab_step_action_of p c e :
  tab_step (Live p c) (action_of (comp p) e) = Live (step p e) c.
Proof.
  pose proof (fire_onChange (comp p)) as Hchange.
  pose proof (click_FieldBuilderForm (comp p)) as (Hsave & Hclear & Hcancel).
  destruct e as [v|v|v|v| | | |id o]; cbn [tab_step action_of];
    [destruct (Hchange v) as (H1 & H2 & H3 & H4);
     rewrite ?H1, ?H2, ?H3, ?H4..
    |rewrite Hsave|rewrite Hclear|rewrite Hcancel|];
    apply rendered_to_Live.
Qed.

(** An action other than a load, on a live tab: nothing happens, or one
    step of the machine does. *)
Lemma tab_step_Live p c a :
  a ≠ Reload →
  ∃ es c', length es ≤ 1 ∧ tab_step (Live p c) a = Live (run p es) c'.
Proof.
  assert (∀ c', ∃ es c'', length es ≤ 1 ∧ Live p c' = Live (run p es) c'')
    as Hstay by (intros c'; exists [], c'; simpl; auto).
  assert (∀ e c', ∃ es c'',
            length es ≤ 1 ∧ Live (step p e) c' = Live (run p es) c'')
    as Hstep by (intros e c'; exists [e], c'; simpl; auto).
  intros Ha.
  destruct a as [id v|tag text| | |id o|]; cbn [tab_step]; [| | | | |done].
  - destruct (fire _ _ _ _) as [sc|] eqn:Hf; [|done].
    apply fire_listeners in Hf as (h & Hh & ->).
    destruct (listeners_dispatch _ _ _ v Hh) as (e & -> & He).
    by rewrite rendered_to_Live, <-step_handle.
  - destruct (click _ _) as [[h submit]|] eqn:Hc; [|done].
    apply bind_Some in Hc as (n & Hn%locate_elements & [= Hh Hs]).
    rewrite (submits_elements _ _ Hn) in Hs. subst submit.
    rewrite rendered_to_Live. destruct h as [h|]; [|done].
    apply elem_of_listeners with (root := FieldBuilderForm (comp p))
      in Hh as Hl; [|done].
    destruct (listeners_dispatch _ _ _ "" Hl) as (e & He & Hne).
    simpl. by rewrite He, <-step_handle.
  - by rewrite check_FieldBuilderForm.
  - by rewrite (proj2 (submits_FieldBuilderForm _)).
  - rewrite rendered_to_Live. apply (Hstep (Settle id o)).
Qed.

(** ** Loading *)

(** Loading ends live in the default state or blank: the hooks never hold
    anything but strings and booleans. *)
Lemma load_cases storage :
  load storage = Live (init mountedState (mountedStorage storage)) false ∨
  ∃ e, load storage = Blank e storage ∧ loadDraft storage = Throw e.
Proof.
  unfold load. destruct (loadDraft storage) as [q|e] eqn:Hq.
  - left. by rewrite (mount_Ok _ _ Hq).
  - right. exists e. by rewrite (mount_Throw _ _ Hq).
Qed.

(** Loading is mounting by the rules of [React]: a stable state is
    shown, an exception leaves a blank page. *)
Lemma load_mount_component fuel storage :
  load storage
  = match mount_component FieldBuilderForm_hooks (S (S fuel)) storage with
    | Stable h storage' =>
        from_option (λ s, Live (init s storage') false) (Untyped storage')
          (typed h)
    | Thrown e storage' => Blank e storage'
    | Unfinished => Untyped storage
    end.
Proof.
  unfold load. destruct (loadDraft storage) as [q|e] eqn:Hq.
  - rewrite (mount_Ok _ _ Hq), (mount_component_Ok _ _ _ Hq).
    by rewrite typed_embed.
  - by rewrite (mount_Throw _ _ Hq), (mount_component_Throw _ _ _ Hq).
Qed.

(** A page that was reached loads again, in the default state. *)
Lemma load_reachable p :
  reachable p →
  load (localStorage p)
  = Live (init mountedState (mountedStorage (localStorage p))) false.
Proof.
  intros (Hs & _)%reachable_inv. unfold load.
  by erewrite mount_Ok by (eapply loadDraft_draft, Hs).
Qed.

Lemma load_Live storage p c : load storage = Live p c → reachable p.
Proof.
  unfold load. destruct (mount storage) as [s storage'| | ] eqn:Hm; [|done..].
  intros [= <- _]. by econstructor.
Qed.

(** ** Live tabs stay live *)

Lemma tab_step_reachable p c a :
  reachable p → ∃ p' c', tab_step (Live p c) a = Live p' c' ∧ reachable p'.
Proof.
  intros Hp. destruct (decide (a = Reload)) as [->|Ha].
  - cbn [tab_step]. rewrite load_reachable by done.
    eexists _, _. split; [done|]. eapply load_Live, load_reachable, Hp.
  - destruct (tab_step_Live p c a Ha) as (es & c' & _ & ->).
    eauto using reachable_run.
Qed.

Lemma tab_run_reachable acts : ∀ p c,
  reachable p → ∃ p' c', tab_run (Live p c) acts = Live p' c' ∧ reachable p'.
Proof.
  induction acts as [|a acts IH]; intros p c Hp; [by eauto|].
  destruct (tab_step_reachable p c a Hp) as (p' & c' & Hstep & Hp').
  rewrite tab_run_cons, Hstep. by apply IH.
Qed.

(** ** Blank tabs stay blank *)

Lemma tab_step_Blank e storage a :
  loadDraft storage = Throw e →
  tab_step (Blank e storage) a = Blank e storage.
Proof.
  intros He. destruct a; try done. cbn [tab_step]. unfold load.
  by rewrite (mount_Throw _ _ He).
Qed.

(** ** The checkbox *)

#[export] Instance same_page_equiv : Equivalence same_page.
Proof.
  split.
  - by intros [].
  - intros [] []; simpl; congruence.
  - intros [] [] []; simpl; congruence.
Qed.

#[export] Instance page_of_proper : Proper (same_page ==> (=)) page_of.
Proof. intros [] [] ?; simpl in *; congruence. Qed.

#[export] Instance storage_of_proper : Proper (same_page ==> (=)) storage_of.
Proof. intros [] [] ?; simpl in *; congruence. Qed.

(** No action looks at the checkbox. *)
#[export] Instance tab_step_proper :
  Proper (same_page ==> (=) ==> same_page) tab_step.
Proof.
  intros [p1 c1|e1 st1|st1] [p2 c2|e2 st2|st2] Ht a ? <-; simpl in Ht;
    simplify_eq; try reflexivity.
  destruct a; cbn [tab_step]; rewrite ?rendered_to_Live, ?check_FieldBuilderForm;
    repeat case_match; rewrite ?rendered_to_Live; by simpl.
Qed.

#[export] Instance tab_run_proper :
  Proper (same_page ==> (=) ==> same_page) tab_run.
Proof.
  intros t1 t2 Ht acts ? <-. revert t1 t2 Ht.
  induction acts as [|a acts IH]; intros t1 t2 Ht; [done|].
  rewrite !tab_run_cons. apply IH. by rewrite Ht.
Qed.

Lemma tab_step_Check t : same_page (tab_step t Check) t.
Proof. destruct t; [|done..]. by rewrite tab_step_Check_Live. Qed.

(** ** Main theorems *)

(** Between two loads the tab is the machine of [Machine]: every event
    of the machine is an action on an element of the rendered tree that
    runs the handler the machine runs, and every action other than a load
    does nothing or is one step of the machine.  No click and no Enter key
    submits the form. *)
Theorem tab_step_machine p c :
  (∀ e, tab_step (Live p c) (action_of (comp p) e) = Live (step p e) c) ∧
  (∀ a, a = Reload ∨
        ∃ es c', length es ≤ 1 ∧ tab_step (Live p c) a = Live (run p es) c').
Proof.
  split; [apply tab_step_action_of|]. intros a.
  destruct (decide (a = Reload)); [by left|right; by apply tab_step_Live].
Qed.

(** C10: A page that loaded once never comes up blank: whatever the user
    and the network do, loads included, the tab shows a page reachable in
    the sense of [Machine], on which its invariants hold: the storage
    holds the draft of what is shown, [initialData] is the default field,
    the messages are some of the three, the pending calls carry the
    callback that clears the loading flag, and every request posted data
    that passed validation. *)
Theorem tab_run_alive storage p c acts :
  load storage = Live p c →
  ∃ p' c', tab_run (load storage) acts = Live p' c' ∧ reachable p' ∧ inv p'.
Proof.
  intros Hl. rewrite Hl.
  destruct (tab_run_reachable acts p c) as (p' & c' & ? & ?);
    eauto 6 using load_Live, reachable_inv.
Qed.

(** A draft that makes the loader throw blanks the page for good: the
    mount wrote nothing, a blank page has nothing to act on, and every
    load throws again.  This rests on the rule by which an effect that
    throws ends the pass; [Lifecycle.mount_each_recovers] shows what the
    other rule gives. *)
Lemma blank_forever storage e acts :
  loadDraft storage = Throw e → tab_run (load storage) acts = Blank e storage.
Proof.
  intros He. unfold load at 1. rewrite (mount_Throw _ _ He).
  induction acts as [|a acts IH]; [done|].
  by rewrite tab_run_cons, tab_step_Blank.
Qed.

(** C28: Loading a reachable page again forgets everything but the storage:
    the hooks hold the default field, the draft is overwritten with it, the
    checkbox is unchecked, no call is pending, and the settlement of a call
    made before the load reaches nobody. *)
Theorem reload_forgets p c id o :
  reachable p →
  tab_step (Live p c) Reload
  = Live (init mountedState (mountedStorage (localStorage p))) false ∧
  tab_run (Live p c) [Reload; Network id o] = tab_step (Live p c) Reload.
Proof.
  intros Hp. rewrite tab_run_cons. cbn [tab_step].
  rewrite load_reachable by done. split; [done|].
  rewrite tab_run_cons, tab_run_nil. cbn [tab_step].
  by rewrite rendered_to_Live, settle_unknown.
Qed.

(** C39: The checkbox of line 156 is wired to nothing.  The JSX gives it
    no [checked] prop and binds no function to it, so a click on it,
    which the tab looks up in the rendered tree like every other action,
    inverts the box and runs no handler; and a run with the clicks on it
    removed ends on the same page, with the same hooks, storage, console
    and requests. *)
Theorem check_inert t acts :
  (∀ p c, tab_step (Live p c) Check = Live p (negb c)) ∧
  same_page (tab_run t acts) (tab_run t (filter (λ a, a ≠ Check) acts)).
Proof.
  split; [apply tab_step_Check_Live|].
  revert t. induction acts as [|a acts IH]; intros t; [done|].
  rewrite tab_run_cons. destruct (decide (a = Check)) as [->|Ha].
  - rewrite filter_cons_False by naive_solver.
    rewrite <-IH. apply tab_run_proper; [apply tab_step_Check|done].
  - rewrite filter_cons_True by done. apply IH.
Qed.

End browser.

(** ** Tabs, run *)

(** With the parser of [Json]: a session on an empty storage with a save,
    a load and a click on the checkbox; a storage whose draft was cut
    short. *)
Lemma load_empty : load ∅ = Live page0 false.
Proof. unfold load. by rewrite mount_no_draft. Qed.

Lemma tab_run_alive_witness :
  ∃ p' c',
    tab_run (load ∅)
      [Change "labelInput" "Region"; Click "button" "Save changes"; Reload;
       Check; Network 0 FetchRejects]
    = Live p' c' ∧ reachable p' ∧ inv p'.
Proof. apply (tab_run_alive ∅ page0 false), load_empty. Defined.

Lemma blank_forever_run :
  tab_run (load {[ formData := "{" ]})
    [Click "button" "Cancel"; Reload; Change "labelInput" "x"; Reload]
  = Blank SyntaxError {[ formData := "{" ]}.
Proof. by apply blank_forever. Qed.

Lemma reload_forgets_witness :
  tab_step (Live page_typed true) Reload
  = Live (init mountedState (mountedStorage (localStorage page_typed))) false ∧
  tab_run (Live page_typed true) [Reload; Network 0 FetchRejects]
  = tab_step (Live page_typed true) Reload.
Proof. apply reload_forgets, reachable_run, reachable_page0. Defined.

(** ** The blank page, by the grammar *)

Lemma load_Blank `{!JsonCodec} storage e storage' :
  load storage = Blank e storage' ↔ mount storage = Crashed e storage'.
Proof. unfold load. destruct (mount storage); naive_solver. Qed.

(** C27: With the parser of [Json], the page comes up blank exactly when the
    storage holds a non-empty draft that is not a JSON text of ECMA-404 (a
    [SyntaxError] at [JSON.parse]) or is the JSON text of [null] (a
    [TypeError] at [data.label]).  On every other storage the page is
    shown. *)
Theorem load_Blank_grammar storage e :
  load storage = Blank e storage ↔
  ∃ text, storage !! formData = Some text ∧ text ≠ "" ∧
    ((∀ v, ¬ Json text v) ∧ e = SyntaxError ∨ Json text JNull ∧ e = TypeError).
Proof.
  rewrite load_Blank, mount_Crashed, loadDraft_throws.
  split; [intros [(text & ? & ? & Hp) _]|intros (text & ? & ? & Hp); split; [|done]];
    exists text; (split_and!; [done..|]); simpl in *.
  - rewrite JSON_parse_text_Throw in Hp.
    destruct Hp as [?|[?%JSON_parse_text_Json ?]]; naive_solver.
  - rewrite JSON_parse_text_Throw.
    destruct Hp as [?|[?%Json_JSON_parse_text ?]]; naive_solver.
Qed.
