(* ===== verification/Refinement.v ===== *)
(** * Refinement: the page implements the controller

    [abs] reads a page of [Machine] as a controller of [Controller]: the
    four editable hooks as the form, the messages as the rules they name,
    the text in the storage decoded as the draft, the pending calls
    counted, the bodies of the requests decoded as the definitions
    submitted.  [command_of] reads an event as a command.

    The main theorem is a lock-step simulation: on a page that satisfies
    the invariants of [Machine], the page after an event abstracts to the
    controller after the command.  It follows that every reachable page
    abstracts to a controller reached from the mounted one, so what is
    proved of controllers holds of pages. *)

From S2P Require Import Prelude JsString JsSet JsonApi Json FieldService.
From S2P Require Import FormState Controller Validate Handlers Dom View.
From S2P Require Import Effects Machine.

#[local] Set Warnings "-clear-no-such-hyp".

(** ** Decoding *)

(** The rule a message names. *)
Definition rule_of (msg : string) : option rule :=
  if decide (msg = msg_label_required) then Some LabelRequired
  else if decide (msg = msg_duplicates) then Some NoDuplicates
  else if decide (msg = msg_too_many) then Some AtMost50
  else None.

Definition rules_of (msgs : list string) : list rule := omap rule_of msgs.

(** The message that names a rule. *)
Definition message_of (r : rule) : string :=
  match r with
  | LabelRequired => msg_label_required
  | NoDuplicates => msg_duplicates
  | AtMost50 => msg_too_many
  end.

(** What a controller shows: the form in the four inputs, the message of
    the rule about the label next to the label, those of the other rules
    next to the choices, and the loading flag as the text of the Save
    button. *)
Definition controller_view (c : Controller) : View := {|
  labelInput := fd_label (c_fields c);
  labelErrors := message_of <$> filter (λ r, r = LabelRequired) (c_broken c);
  defaultValueInput := fd_defaultValue (c_fields c);
  choicesTextarea := fd_choices (c_fields c);
  choicesErrors := message_of <$> filter (λ r, r ≠ LabelRequired) (c_broken c);
  orderSelect :=
    if fd_displayAlpha (c_fields c) then "alphabetical" else "original";
  submitText := if c_loading c then "Saving..." else "Save changes"
|}.

(** A property of a parsed value, [undefined] when reading it throws. *)
Definition member (v : json) (k : string) : jsval :=
  match get_prop v k with
  | Ok x => x
  | Throw _ => undefined
  end.

Definition strings_of (v : jsval) : option (list string) :=
  match v with
  | Some (JArray items) => mapM (λ i, as_string (Some i)) items
  | _ => None
  end.

(** The draft and the definition a JSON value encodes. *)
Definition FormData_of_json (v : json) : option FormData :=
  l ← as_string (member v "label");
  c ← as_string (member v "choices");
  d ← as_string (member v "defaultValue");
  a ← as_bool (member v "displayAlpha");
  Some (mkFormData l c d a).

Definition SaveData_of_json (v : json) : option SaveData :=
  l ← as_string (member v "label");
  c ← strings_of (member v "choices");
  d ← as_string (member v "defaultValue");
  a ← as_bool (member v "displayAlpha");
  Some (mkSaveData l c d a).

Section refinement.
Context `{!JsonCodec}.

Definition parsed (text : string) : option json :=
  match JSON_parse text with
  | Ok v => Some v
  | Throw _ => None
  end.

Definition draft_of (storage : gmap string string) : option FormData :=
  text ← storage !! formData; v ← parsed text; FormData_of_json v.

Definition sent_of (rqs : list Request) : list SaveData :=
  omap (λ rq, v ← parsed (rq_body rq); SaveData_of_json v) rqs.

(** ** The abstraction *)

Definition abs (p : Page) : Controller := {|
  c_fields := fields (comp p);
  c_broken := rules_of (validationErrors (comp p));
  c_loading := isLoading (comp p);
  c_initial := initialData (comp p);
  c_draft := draft_of (localStorage p);
  c_inflight := size (tasks p);
  c_sent := sent_of (requests p)
|}.

(** A settlement is the end of a save when it ends a pending call, and
    progress without a visible change otherwise. *)
Definition command_of (p : Page) (e : event) : command :=
  match e with
  | InputLabel v => EditLabel v
  | InputDefaultValue v => EditDefaultValue v
  | InputChoices v => EditChoices v
  | SelectOrder v => EditOrder (bool_decide (v = "alphabetical"))
  | ClickSave => Submit
  | ClickClear => Clear
  | ClickCancel => Cancel
  | Settle id o =>
      match tasks p !! id with
      | Some t =>
          if decide ((resume (task_state t) o).2 = Fulfilled)
          then SaveSettled else SaveProgress
      | None => SaveProgress
      end
  end.

(** The commands of a sequence of events, each read on the page it
    arrives at. *)
Fixpoint commands_of (p : Page) (es : list event) : list command :=
  match es with
  | [] => []
  | e :: es' => command_of p e :: commands_of (step p e) es'
  end.

(** ** Decoding what was encoded *)

Lemma parsed_stringify v :
  printable v = true → parsed (JSON_stringify v) = Some v.
Proof. intros Hv. unfold parsed. by rewrite JSON_parse_stringify. Qed.

Lemma FormData_of_json_FormData_json f :
  FormData_of_json (FormData_json f) = Some f.
Proof.
  unfold FormData_of_json, member.
  destruct (get_prop_FormData_json f) as (-> & -> & -> & ->).
  rewrite !as_string_of_string, as_bool_of_bool. by destruct f.
Qed.

Lemma get_prop_SaveData_json d :
  get_prop (SaveData_json d) "label" = Ok (of_string (sd_label d)) ∧
  get_prop (SaveData_json d) "choices"
  = Ok (Some (JArray ((λ c, JString (wide c)) <$> sd_choices d))) ∧
  get_prop (SaveData_json d) "defaultValue"
  = Ok (of_string (sd_defaultValue d)) ∧
  get_prop (SaveData_json d) "displayAlpha"
  = Ok (of_bool (sd_displayAlpha d)).
Proof. by vm_compute. Qed.

Lemma strings_of_wide cs :
  strings_of (Some (JArray ((λ c, JString (wide c)) <$> cs))) = Some cs.
Proof.
  simpl. induction cs as [|c cs IH]; [done|].
  rewrite fmap_cons. cbn [mapM as_string]. rewrite narrow_wide. simpl.
  by rewrite IH.
Qed.

Lemma SaveData_of_json_SaveData_json d :
  SaveData_of_json (SaveData_json d) = Some d.
Proof.
  unfold SaveData_of_json, member.
  destruct (get_prop_SaveData_json d) as (-> & -> & -> & ->).
  rewrite !as_string_of_string, as_bool_of_bool, strings_of_wide.
  by destruct d.
Qed.

(** A storage that holds the draft of [f] decodes to [f]. *)
Lemma draft_of_lookup storage f :
  storage !! formData = Some (JSON_stringify (FormData_json f)) →
  draft_of storage = Some f.
Proof.
  intros Hs. unfold draft_of. rewrite Hs. simpl.
  rewrite parsed_stringify by apply FormData_json_printable. simpl.
  apply FormData_of_json_FormData_json.
Qed.

(** The server decodes a request to the definition that was submitted. *)
Lemma sent_of_request d : sent_of [saveField_request d] = [d].
Proof.
  unfold sent_of. simpl.
  rewrite parsed_stringify by apply SaveData_json_printable. simpl.
  by rewrite SaveData_of_json_SaveData_json.
Qed.

Lemma sent_of_snoc rqs d :
  sent_of (rqs ++ [saveField_request d]) = sent_of rqs ++ [d].
Proof. unfold sent_of. rewrite omap_app. f_equal. apply sent_of_request. Qed.

(** ** Validation, concretely and abstractly *)

(** The rules named by the messages of [validateForm] are the rules the
    form breaks. *)
Lemma rules_of_reported s : rules_of (reported s) = broken (fields s).
Proof.
  rewrite reported_eq.
  unfold broken, label_missing, choices_repeat, choices_exceed, choice_lines.
  cbn [fields fd_label fd_choices].
  repeat case_decide; try done; try lia; naive_solver.
Qed.

Lemma broken_valid s : broken (fields s) = [] ↔ valid s.
Proof. unfold valid. by rewrite broken_nil, reported_nil. Qed.

Lemma definition_of_fields s : definition_of (fields s) = submit_data s.
Proof. done. Qed.

(** Naming a rule and reading the name back. *)
Lemma rule_of_message_of r : rule_of (message_of r) = Some r.
Proof. by destruct r. Qed.

Lemma rules_of_message_of rs : rules_of (message_of <$> rs) = rs.
Proof.
  unfold rules_of. induction rs as [|r rs IH]; [done|].
  rewrite fmap_cons. cbn [omap list_omap]. by rewrite rule_of_message_of, IH.
Qed.

(** The messages of [validateForm] name the rules the form breaks. *)
Lemma reported_broken s : reported s = message_of <$> broken (fields s).
Proof.
  rewrite reported_eq.
  unfold broken, label_missing, choices_repeat, choices_exceed, choice_lines.
  cbn [fields fd_label fd_choices].
  repeat case_decide; try done; try lia; naive_solver.
Qed.

(** ** What the page shows *)

(** The page shows what the controller it stands for shows. *)
Lemma rendered_abs p :
  errors_inv p → rendered (comp p) = controller_view (abs p).
Proof.
  unfold errors_inv. intros He. rewrite rendered_eq.
  unfold controller_view, abs, Array_includes.
  destruct (comp p) as [l c d a errs loading init]. cbn in *.
  repeat match type of He with
  | _ `sublist_of` (_ :: _) =>
      apply sublist_cons_r in He as [He|(? & -> & He)]
  | _ `sublist_of` [] => apply sublist_nil_r in He as ->
  end; by vm_compute.
Qed.

(** ** Renders *)

(** A render on a page whose storage holds the draft: the storage follows
    the new state, nothing else moves. *)
Lemma abs_render us p :
  storage_inv p →
  abs (render us p)
  = let s' := commit (comp p) us in
    mkController (fields s') (rules_of (validationErrors s')) (isLoading s')
      (initialData s') (Some (fields s')) (size (tasks p))
      (sent_of (requests p)).
Proof.
  intros Hs. unfold abs. cbn zeta.
  by rewrite (draft_of_lookup _ (fields (commit (comp p) us)))
    by apply rerender_lookup, Hs.
Qed.

Lemma c_draft_abs p : storage_inv p → c_draft (abs p) = Some (fields (comp p)).
Proof. apply draft_of_lookup. Qed.

(** A handler run to its end: the component is the handler's script
    committed, the draft follows, and the calls it started are pending. *)
Lemma abs_handle h p :
  storage_inv p →
  abs (handle h p)
  = let s' := after (comp p) h in
    let p' := foldl start_call p (calls_of (emitted h)) in
    mkController (fields s') (rules_of (validationErrors s')) (isLoading s')
      (initialData s') (Some (fields s')) (size (tasks p'))
      (sent_of (requests p')).
Proof.
  intros Hs. unfold handle. rewrite abs_render.
  - cbn zeta. by rewrite comp_start_calls.
  - eapply storage_inv_ext; [| |done];
      by rewrite ?comp_start_calls, ?localStorage_start_calls.
Qed.

(** ** The simulation, event by event *)

(** Inputs, Clear and Cancel: handlers that call no service. *)
Lemma step_refines_edit p e :
  storage_inv p → e ≠ ClickSave → (∀ id o, e ≠ Settle id o) →
  abs (step p e) = perform (abs p) (command_of p e).
Proof.
  intros Hs Hsave Hsettle.
  destruct e as [v|v|v|v| | | |id o];
    [| | | |done| | |by destruct (Hsettle id o)];
    cbn [step dispatch]; rewrite abs_handle by done; try done.
  cbn zeta. by rewrite cancelAndReset_fields.
Qed.

(** Save. *)
Lemma step_refines_save p :
  storage_inv p → tasks_inv p →
  abs (step p ClickSave) = perform (abs p) Submit.
Proof.
  intros Hs Ht. cbn [step dispatch perform].
  rewrite abs_handle by done. cbn zeta.
  rewrite handleSubmit_after, handleSubmit_calls.
  destruct (decide (valid (comp p))) as [Hv|Hv].
  - unfold submit. cbn [abs c_fields].
    rewrite (proj2 (broken_valid _) Hv). simpl.
    rewrite sent_of_snoc, map_size_insert_None.
    + by destruct (includes _ _).
    + destruct (tasks p !! next_id p) as [t|] eqn:Hid; [|done].
      destruct (Ht _ _ Hid). lia.
  - rewrite submit_broken by (cbn [abs c_fields]; by rewrite broken_valid).
    rewrite (c_draft_abs p Hs). cbn [abs c_fields].
    by rewrite <-rules_of_reported.
Qed.

(** A settlement. *)
Lemma step_refines_settle p id o :
  storage_inv p → tasks_inv p →
  abs (step p (Settle id o)) = perform (abs p) (command_of p (Settle id o)).
Proof.
  intros Hs Ht. cbn [step command_of]. unfold settle.
  destruct (tasks p !! id) as [t|] eqn:Hid; [|done].
  destruct (Ht _ _ Hid) as (_ & _ & Hfin). unfold settled. rewrite Hfin.
  destruct (resume (task_state t) o) as [lines t'].
  destruct t'; cbn [snd perform];
    [rewrite decide_False by done; unfold abs; cbn;
     by rewrite map_size_insert_Some by done..|].
  rewrite decide_True, abs_render by done. cbn. unfold save_settled. cbn.
  rewrite map_size_delete_Some by done.
  destruct (size (tasks p)) eqn:Hsz; [|by rewrite (draft_of_lookup _ _ Hs)].
  apply map_size_empty_inv in Hsz. by rewrite Hsz, lookup_empty in Hid.
Qed.

(** ** The simulation *)

Lemma abs_step p e :
  inv p → abs (step p e) = perform (abs p) (command_of p e).
Proof.
  intros (Hs & _ & _ & Ht & _).
  destruct (decide (e = ClickSave)) as [->|Hsave];
    [by apply step_refines_save|].
  destruct e as [v|v|v|v| | | |id o];
    try (by apply step_refines_edit); by apply step_refines_settle.
Qed.

Lemma abs_init storage s storage' :
  mount storage = Rendered s storage' →
  abs (init s storage') = mounted defaultFields.
Proof.
  intros [-> ->]%mount_Rendered. unfold abs, init, mounted. cbn.
  by rewrite (draft_of_lookup _ defaultFields) by apply lookup_insert_eq.
Qed.

Lemma reachable_abs p :
  reachable p → ∃ cmds, abs p = perform_all (mounted defaultFields) cmds.
Proof.
  induction 1 as [storage s storage' Hm|p e Hp [cmds IH]].
  - exists []. by apply abs_init in Hm.
  - exists (cmds ++ [command_of p e]).
    rewrite perform_all_app, <-IH. by apply abs_step, reachable_inv.
Qed.

(** Any number of steps. *)
Lemma abs_run p es :
  inv p → abs (run p es) = perform_all (abs p) (commands_of p es).
Proof.
  revert p. induction es as [|e es IH]; intros p Hp; [done|].
  rewrite run_cons, IH by by apply inv_step.
  cbn [commands_of perform_all foldl]. by rewrite abs_step.
Qed.

(** C16: The page implements the controller: after a mount that did not throw,
    any sequence of events takes the page where the commands they stand
    for take the controller mounted on the default field. *)
Theorem mount_run_refines storage s storage' es :
  mount storage = Rendered s storage' →
  abs (run (init s storage') es)
  = perform_all (mounted defaultFields) (commands_of (init s storage') es).
Proof.
  intros Hm. rewrite abs_run by by eapply inv_init.
  by rewrite (abs_init _ _ _ Hm).
Qed.

(** C17: What the user sees is what the controller shows: after a mount that
    did not throw and any sequence of events, the values of the four
    inputs, the messages under the label and under the choices and the
    text of the Save button, all read off the rendered tree, are those of
    the controller after the commands the events stand for. *)
Theorem mount_run_view storage s storage' es :
  mount storage = Rendered s storage' →
  rendered (comp (run (init s storage') es))
  = controller_view
      (perform_all (mounted defaultFields) (commands_of (init s storage') es)).
Proof.
  intros Hm. pose proof (inv_init _ _ _ Hm) as Hinv.
  rewrite <-(abs_init _ _ _ Hm), <-abs_run by done.
  apply rendered_abs.
  assert (inv (run (init s storage') es)) as (_ & _ & ? & _); [|done].
  clear Hm. revert Hinv. generalize (init s storage').
  induction es as [|e es IH]; intros p Hp; [done|].
  rewrite run_cons. by apply IH, inv_step.
Qed.

(** C30: [validateForm], which builds an array of messages with [push] and
    compares the size of a [Set] with the length of an array, against the
    reference: it stores the names of the rules the form breaks, in order,
    and returns whether there is none. *)
Theorem validateForm_reference s :
  emitted (validateForm s)
  = [SetState (SetValidationErrors (message_of <$> broken (fields s)))] ∧
  value (validateForm s) = bool_decide (broken (fields s) = []).
Proof.
  rewrite validateForm_emitted, validateForm_value, reported_broken.
  split; [done|]. apply bool_decide_ext. split; [|by intros ->].
  by intros ?%fmap_nil_inv.
Qed.

(** C19: What is proved of controllers holds of pages: on every reachable page
    the draft decoded from the storage is the form on the screen, the
    snapshot is the default field, and every definition the server
    decodes from a request broke no rule. *)
Theorem reachable_consistent p :
  reachable p → consistent defaultFields (abs p).
Proof.
  intros [cmds ->]%reachable_abs.
  apply consistent_perform_all, consistent_mounted.
Qed.

(** On a reachable page without pending calls, a Save that breaks a rule
    shows its rules and raises the loading flag; the controller then
    keeps the flag raised whatever follows but another Save. *)
Theorem reachable_submit_stuck p es :
  reachable p → tasks p = ∅ → ¬ valid (comp p) →
  Submit ∉ commands_of (step p ClickSave) es →
  let p' := run (step p ClickSave) es in
  isLoading (comp p') = true ∧ size (tasks p') = 0.
Proof.
  intros Hp Ht Hv Hes p'.
  pose proof (reachable_inv p Hp) as Hinv.
  change (c_loading (abs p') = true ∧ c_inflight (abs p') = 0). unfold p'.
  rewrite abs_run, abs_step by auto using inv_step.
  assert (c_inflight (abs p) = 0) as H0 by (cbn; by rewrite Ht).
  cbn [command_of perform]. rewrite submit_broken
    by (cbn [abs c_fields]; by rewrite broken_valid).
  by destruct (perform_all_quiet
    (mkController (c_fields (abs p)) (broken (c_fields (abs p))) true
       (c_initial (abs p)) (c_draft (abs p)) (c_inflight (abs p))
       (c_sent (abs p))) _ H0 Hes) as [-> ->].
Qed.

End refinement.

(** ** The simulation, run *)

Lemma mount_run_refines_witness :
  abs (run page0 [InputLabel ""; ClickSave; ClickCancel])
  = perform_all (mounted defaultFields) [EditLabel ""; Submit; Cancel].
Proof. apply (mount_run_refines ∅), mount_no_draft, lookup_empty. Defined.

Lemma mount_run_view_witness :
  rendered (comp (run page0 [InputLabel ""; ClickSave; ClickCancel]))
  = controller_view
      (perform_all (mounted defaultFields) [EditLabel ""; Submit; Cancel]).
Proof. apply (mount_run_view ∅), mount_no_draft, lookup_empty. Defined.

Lemma reachable_consistent_witness : consistent defaultFields (abs page_typed).
Proof. apply reachable_consistent, reachable_run, reachable_page0. Defined.

Lemma reachable_submit_stuck_witness :
  let p' := run (step page_cleared ClickSave) [InputLabel "Region"] in
  isLoading (comp p') = true ∧ size (tasks p') = 0.
Proof.
  apply reachable_submit_stuck;
    [apply reachable_run, reachable_page0|done|by vm_compute|].
  apply (bool_decide_unpack _). by vm_compute.
Defined.
