(* ===== verification/Session.v ===== *)
(** * Session: the tab implements the controller, across loads

    [Refinement] relates the page between two loads to the controller.
    This file goes one layer up, to the tab of [Browser]: what the user
    does to the elements of the page, the network, and loads of the page.

    [event_of] reads an action on the page as the event of [Machine] it
    causes, by the [id] of the control changed and by the text of the
    button clicked; [tab_step_event_of] shows that [tab_step], which finds
    the function to run in the rendered tree, does exactly that, and
    nothing on any other element.

    A session is a controller or a page that is down, driven by commands
    and loads.  [tab_abs] reads a tab as a session and [input_of] an action
    as its input; [session_refines] is the simulation, from the first load
    of a storage on. *)

From S2P Require Import Prelude JsString JsSet JsonApi Json FieldService.
From S2P Require Import FormState Controller Validate Handlers Dom View.
From S2P Require Import Effects Machine Browser Refinement.

#[local] Set Warnings "-clear-no-such-hyp".

(** ** Actions as events *)

(** The event an action on the page in state [s] causes, if any: a change
    of one of the four controls, a click on one of the three buttons, a
    settlement. *)
Definition event_of (s : State) (a : action) : option event :=
  match a with
  | Change id value =>
      if decide (id = "labelInput") then Some (InputLabel value)
      else if decide (id = "defaultValueInput")
      then Some (InputDefaultValue value)
      else if decide (id = "choicesTextarea") then Some (InputChoices value)
      else if decide (id = "orderSelect") then Some (SelectOrder value)
      else None
  | Click tag text =>
      if decide (tag = "button") then
        if decide (text = submitText (rendered s)) then Some ClickSave
        else if decide (text = "Clear Form") then Some ClickClear
        else if decide (text = "Cancel") then Some ClickCancel
        else None
      else None
  | Network id o => Some (Settle id o)
  | Check | Enter | Reload => None
  end.

(** ** Sessions *)

(** What a session is given: a command of the controller, a load of the
    page, or something the controller does not react to. *)
Inductive session_input : Type :=
| Perform (cmd : command)
| LoadPage
| Ignored.

(** A session: the controller, or [None] when the page is down.  A load
    starts the controller afresh; a page that is down stays down. *)
Definition serve (c : option Controller) (i : session_input)
    : option Controller :=
  c ← c;
  Some match i with
       | Perform cmd => perform c cmd
       | LoadPage => mounted (c_initial c)
       | Ignored => c
       end.

Definition serve_all (c : option Controller) (ins : list session_input)
    : option Controller :=
  foldl serve c ins.

Section session.
Context `{!JsonCodec}.

(** The tab as a session. *)
Definition tab_abs (t : Tab) : option Controller := abs <$> page_of t.

(** The input an action stands for on the tab it arrives at. *)
Definition input_of (t : Tab) (a : action) : session_input :=
  match a, page_of t with
  | Reload, _ => LoadPage
  | _, Some p =>
      from_option (λ e, Perform (command_of p e)) Ignored
        (event_of (comp p) a)
  | _, None => Ignored
  end.

Fixpoint inputs_of (t : Tab) (acts : list action) : list session_input :=
  match acts with
  | [] => []
  | a :: acts' => input_of t a :: inputs_of (tab_step t a) acts'
  end.

(** The tabs a load and any actions produce. *)
Definition tab_ok (t : Tab) : Prop :=
  match t with
  | Live p _ => reachable p
  | Blank e storage => loadDraft storage = Throw e
  | Untyped _ => False
  end.

(** ** The elements that react *)

Lemma event_of_action_of s e : event_of s (action_of s e) = Some e.
Proof.
  destruct e; cbn [event_of action_of]; try done;
    [by rewrite !decide_True by done|..];
    rewrite rendered_eq; cbn [submitText]; by destruct (isLoading s).
Qed.

(** The elements with a function bound to [onChange] are the four
    controls; those with a function bound to [onClick] are the three
    buttons. *)
Lemma reacting_FieldBuilderForm s :
  let root := FieldBuilderForm s in
  getAttribute "id"
    <$> filter (λ n, is_Some (listener "onChange" n)) (elements root)
  = [Some "labelInput"; Some "defaultValueInput"; Some "choicesTextarea";
     Some "orderSelect"] ∧
  (λ n, (tagName n, textContent n))
    <$> filter (λ n, is_Some (listener "onClick" n)) (elements root)
  = [(Some "button", submitText (rendered s)); (Some "button", "Clear Form");
     (Some "button", "Cancel")].
Proof.
  cbn zeta. rewrite rendered_eq; cbn [submitText].
  render_cases s; destruct (isLoading s); by vm_compute.
Qed.

(** A change of an element that is none of the four controls runs
    nothing. *)
Lemma fire_onChange_other s id value :
  id ∉ ["labelInput"; "defaultValueInput"; "choicesTextarea"; "orderSelect"] →
  fire (ById id) "onChange" value (FieldBuilderForm s) = None.
Proof.
  intros Hid. destruct (fire _ _ _ _) as [sc|] eqn:Hf; [exfalso|done].
  apply bind_Some in Hf as (n & Hn & (h & Hh & _)%bind_Some).
  apply getElementById_Some in Hn as [Hn Hn'].
  assert (Some id ∈ getAttribute "id"
            <$> filter (λ n, is_Some (listener "onChange" n))
                  (elements (FieldBuilderForm s))) as Hin.
  { rewrite <-Hn'. apply list_elem_of_fmap_2, list_elem_of_filter.
    split; [by exists h|done]. }
  rewrite (proj1 (reacting_FieldBuilderForm s)) in Hin. apply Hid.
  repeat (apply elem_of_cons in Hin as [[= ->]|Hin]);
    try (by apply (bool_decide_unpack _)).
  by apply elem_of_nil in Hin.
Qed.

(** A click on an element that is none of the three buttons runs nothing
    and submits nothing. *)
Lemma click_other s tag text :
  (Some tag, text) ∉ [(Some "button", submitText (rendered s));
                      (Some "button", "Clear Form"); (Some "button", "Cancel")] →
  click (ByText tag text) (FieldBuilderForm s) = None ∨
  click (ByText tag text) (FieldBuilderForm s) = Some (None, false).
Proof.
  intros Hid. destruct (click _ _) as [[h sub]|] eqn:Hc; [right|by left].
  apply bind_Some in Hc as (n & Hn & [= <- <-]).
  rewrite (submits_elements s n) by by eapply locate_elements.
  destruct (listener "onClick" n) as [h|] eqn:Hh; [exfalso|done].
  apply getByText_Some in Hn as (Hn & Htag & Htext).
  apply Hid. rewrite <-(proj2 (reacting_FieldBuilderForm s)), <-Htag, <-Htext.
  apply (list_elem_of_fmap_2 (λ n, (tagName n, textContent n))).
  apply list_elem_of_filter. split; [by exists h|done].
Qed.

(** ** The tab, action by action *)

(** An action that causes an event is the action that stands for it. *)
Lemma event_of_Some s a e : event_of s a = Some e → a = action_of s e.
Proof.
  destruct a; cbn [event_of]; repeat case_decide; intros [= <-]; by subst.
Qed.

(** An action that causes no event is a click on the checkbox, the Enter
    key, a load, or an action on an element that binds no function. *)
Lemma event_of_None p c a :
  event_of (comp p) a = None → a ≠ Reload →
  tab_step (Live p c) a = Live p (if decide (a = Check) then negb c else c).
Proof.
  intros He Ha. destruct a as [id v|tag text| | |id o|]; try done;
    cbn [tab_step event_of] in *; rewrite ?decide_False by done.
  - rewrite fire_onChange_other; [done|]. intros Hin.
    repeat (apply elem_of_cons in Hin as [->|Hin]); try done.
    by apply elem_of_nil in Hin.
  - assert ((Some tag, text)
            ∉ [(Some "button", submitText (rendered (comp p)));
               (Some "button", "Clear Form"); (Some "button", "Cancel")])
      as Hother.
    { intros Hin. repeat (apply elem_of_cons in Hin as [[= -> ->]|Hin]);
        try (by repeat case_decide). by apply elem_of_nil in Hin. }
    destruct (click_other (comp p) tag text Hother) as [-> | ->];
      [done|apply rendered_to_Live].
  - by rewrite check_FieldBuilderForm.
  - by rewrite (proj2 (submits_FieldBuilderForm _)).
Qed.

(** What [tab_step] does on a live tab, apart from loads: the step of the
    machine for the event the action causes, if it causes one. *)
Lemma tab_step_event_of p c a :
  a ≠ Reload →
  tab_step (Live p c) a
  = Live (from_option (step p) p (event_of (comp p) a))
      (if decide (a = Check) then negb c else c).
Proof.
  intros Ha. destruct (event_of (comp p) a) as [e|] eqn:He.
  - apply event_of_Some in He as ->. rewrite tab_step_action_of.
    by destruct e.
  - by apply event_of_None.
Qed.

(** ** The simulation *)

Lemma serve_all_cons c i ins : serve_all c (i :: ins) = serve_all (serve c i) ins.
Proof. done. Qed.

Lemma tab_ok_load storage : tab_ok (load storage).
Proof.
  destruct (load_cases storage) as [Hl|(e & Hl & He)]; rewrite Hl; [|done].
  by eapply load_Live.
Qed.

Lemma tab_ok_step t a : tab_ok t → tab_ok (tab_step t a).
Proof.
  destruct t as [p c|e storage|storage]; [| |done]; intros Hok.
  - by destruct (tab_step_reachable p c a Hok) as (p' & c' & -> & Hp').
  - by rewrite tab_step_Blank.
Qed.

(** A load of a reachable page starts the controller afresh. *)
Lemma tab_abs_load p :
  reachable p →
  tab_abs (load (localStorage p)) = Some (mounted (c_initial (abs p))).
Proof.
  intros Hp. rewrite load_reachable by done.
  destruct (reachable_inv p Hp) as (Hs & Hi & _). unfold tab_abs; simpl.
  rewrite (abs_init (localStorage p)), Hi; [done|].
  eapply mount_Ok, loadDraft_draft, Hs.
Qed.

(** One action of the tab is one input of the session. *)
Lemma tab_abs_step t a :
  tab_ok t → tab_abs (tab_step t a) = serve (tab_abs t) (input_of t a).
Proof.
  destruct t as [p c|e storage|storage]; [| |done]; intros Hok;
    [|by rewrite tab_step_Blank].
  destruct (decide (a = Reload)) as [->|Ha]; [by apply tab_abs_load|].
  rewrite tab_step_event_of by done.
  assert (input_of (Live p c) a
          = from_option (λ e, Perform (command_of p e)) Ignored
              (event_of (comp p) a)) as -> by (by destruct a).
  unfold tab_abs. destruct (event_of (comp p) a) as [e|]; simpl; [|done].
  by rewrite abs_step by by apply reachable_inv.
Qed.

Lemma tab_abs_run acts : ∀ t,
  tab_ok t → tab_abs (tab_run t acts) = serve_all (tab_abs t) (inputs_of t acts).
Proof.
  induction acts as [|a acts IH]; intros t Hok; [done|].
  rewrite tab_run_cons, IH by by apply tab_ok_step.
  cbn [inputs_of]. by rewrite serve_all_cons, tab_abs_step.
Qed.

(** ** Main theorems *)

(** C18: The tab implements the session of the controller, from the first
    load on: the first load gives the controller mounted on the default
    field, or a page that is down when the draft loader throws; after any
    actions of the user, settlements and loads, the tab read as a session
    is the session after the inputs the actions stand for. *)
Theorem session_refines storage acts :
  let t := load storage in
  tab_abs t = (if loadDraft storage is Ok _
               then Some (mounted defaultFields) else None) ∧
  tab_abs (tab_run t acts) = serve_all (tab_abs t) (inputs_of t acts).
Proof.
  split; [|apply tab_abs_run, tab_ok_load]. unfold load.
  destruct (loadDraft storage) as [q|e] eqn:Hq.
  - rewrite (mount_Ok _ _ Hq). unfold tab_abs; simpl.
    by rewrite (abs_init storage) by by eapply mount_Ok.
  - by rewrite (mount_Throw _ _ Hq).
Qed.

(** C11: [tab_step] finds in the rendered tree the function [event_of]
    names: an action on a live tab other than a load is the step of the
    machine for the event the action causes (a change of one of the four
    controls found by its [id], a click on one of the three buttons found
    by its text, a settlement), and changes nothing but the checkbox when
    it causes none. *)
Theorem tab_step_functional p c a :
  a ≠ Reload →
  tab_step (Live p c) a
  = Live (from_option (step p) p (event_of (comp p) a))
      (if decide (a = Check) then negb c else c) ∧
  ∀ e, event_of (comp p) (action_of (comp p) e) = Some e.
Proof.
  intros Ha. split; [by apply tab_step_event_of|].
  intros e. apply event_of_action_of.
Qed.

End session.

(** ** A session, run *)

Lemma tab_step_functional_witness :
  tab_step (Live page0 false) (Click "button" "Clear Form")
  = Live (from_option (step page0) page0
            (event_of (comp page0) (Click "button" "Clear Form")))
      (if decide (Click "button" "Clear Form" = Check) then true else false) ∧
  ∀ e, event_of (comp page0) (action_of (comp page0) e) = Some e.
Proof. by apply (tab_step_functional page0 false). Defined.

(** A session with a rejected save, a load and a click on a label. *)
Lemma session_run :
  let acts := [Change "labelInput" ""; Click "button" "Save changes"; Reload;
               Click "label" "Label"; Change "orderSelect" "original"] in
  inputs_of (load ∅) acts
  = [Perform (EditLabel ""); Perform Submit; LoadPage; Ignored;
     Perform (EditOrder false)] ∧
  c_fields <$> tab_abs (tab_run (load ∅) acts)
  = Some (mkFormData (fd_label defaultFields) (fd_choices defaultFields)
            (fd_defaultValue defaultFields) false).
Proof. by vm_compute. Qed.
