(* ===== verification/System.v ===== *)
(** * System: the user, the tab and the server

    The last composition.  [Browser] derives the events of the page from
    what the user does to the rendered tree and lets the page load
    again; [Network] lets a server decide what the network delivers.
    Here both hold at once: an input is an action of the user on the tab
    (typing, clicking, pressing Enter, loading the page again) or a
    delivery of the network to a pending call, which carries what the
    server answers to the request of that call.

    The lemmas carry what was proved of the parts over to the whole;
    they add no fact about the code to those of [Browser], [Network] and
    [Session], and none of them is among the main theorems.  A
    run of the system is a run of the tab, so it refines the session of
    the controller ([Session]); the page it shows is a page of the closed
    machine, so its console is the merge of the lines of its calls
    ([Network]) and the invariants of [Machine] hold; a page that loaded
    once never comes up blank; against the echo endpoint the console
    never shows an error; and the network can always end every pending
    call. *)

From S2P Require Import Prelude JsonApi Json FieldService FormState.
From S2P Require Import Handlers Effects Machine Interleave Network.
From S2P Require Import Dom View Browser Session.

#[local] Set Warnings "-clear-no-such-hyp".

(** What happens next. *)
Inductive sys_input : Type :=
| UserDoes (a : action)
| NetDelivers (id : nat).

#[export] Instance sys_input_eq_dec : EqDecision sys_input.
Proof. solve_decision. Defined.

Section system.
Context `{!JsonCodec}.
Context (srv : Server).

(** The action of [Browser] an input stands for.  The user settles no
    promise; the network delivers to a call of the page that is shown
    what the server answers. *)
Definition sys_action (t : Tab) (i : sys_input) : option action :=
  match i with
  | UserDoes (Network _ _) => None
  | UserDoes a => Some a
  | NetDelivers id => p ← page_of t; Network id <$> delivery srv p id
  end.

Definition sys_step (t : Tab) (i : sys_input) : Tab :=
  from_option (tab_step t) t (sys_action t i).

Definition sys_run (t : Tab) (ins : list sys_input) : Tab :=
  foldl sys_step t ins.

(** The actions a run of the system performs on the tab. *)
Fixpoint sys_actions (t : Tab) (ins : list sys_input) : list action :=
  match ins with
  | [] => []
  | i :: ins' =>
      option_list (sys_action t i) ++ sys_actions (sys_step t i) ins'
  end.

(** The tabs of the system: a page of the closed machine, or a blank
    page over a draft that cannot be loaded. *)
Definition sys_ok (t : Tab) : Prop :=
  match t with
  | Live p _ => net_reachable srv p
  | Blank e storage => loadDraft storage = Throw e
  | Untyped _ => False
  end.

(** ** Runs of the system are runs of the tab *)

Lemma sys_run_cons t i ins : sys_run t (i :: ins) = sys_run (sys_step t i) ins.
Proof. done. Qed.

Lemma sys_run_tab_run ins : ∀ t,
  sys_run t ins = tab_run t (sys_actions t ins).
Proof.
  induction ins as [|i ins IH]; intros t; [done|].
  rewrite sys_run_cons, IH. cbn [sys_actions]. unfold sys_step.
  by destruct (sys_action t i).
Qed.

(** ** One step *)

(** An action of the user other than a load is an input of the closed
    machine, or nothing. *)
Lemma tab_step_net_step p c a :
  a ≠ Reload → (∀ id o, a ≠ Network id o) →
  ∃ c', tab_step (Live p c) a = Live p c' ∨
    ∃ e, tab_step (Live p c) a = Live (net_step srv p (Does e)) c'.
Proof.
  intros Hr Hn. rewrite tab_step_event_of by done. eexists.
  destruct (event_of (comp p) a) as [e|] eqn:He; [right|by left].
  exists e. apply event_of_Some in He as ->.
  destruct e; try done. by destruct (Hn id o).
Qed.

(** A delivery is a delivery of the closed machine. *)
Lemma tab_step_Delivers p c id o :
  delivery srv p id = Some o →
  tab_step (Live p c) (Network id o) = Live (net_step srv p (Delivers id)) c.
Proof.
  intros Hd. cbn [tab_step]. rewrite rendered_to_Live.
  unfold net_step. simpl. by rewrite Hd.
Qed.

Lemma sys_ok_load storage : sys_ok (load storage).
Proof.
  unfold load. destruct (mount storage) as [s storage'|e storage'|] eqn:Hm.
  - by econstructor.
  - by apply mount_Crashed in Hm as [? ->].
  - by destruct (mount_typed storage).
Qed.

(** A live tab stays live, on a page of the closed machine. *)
Lemma sys_step_Live p c i :
  net_reachable srv p →
  ∃ p' c', sys_step (Live p c) i = Live p' c' ∧ net_reachable srv p'.
Proof.
  intros Hp. unfold sys_step.
  destruct (sys_action (Live p c) i) as [a|] eqn:Ha; [|by eauto].
  cbn [from_option]. destruct i as [a'|id]; simpl in Ha.
  - assert (a' = a ∧ ∀ id o, a ≠ Network id o) as [-> Hn]
      by (destruct a'; by simplify_eq).
    destruct (decide (a = Reload)) as [->|Hr].
    + cbn [tab_step].
      rewrite load_reachable by by eapply net_reachable_reachable.
      eexists _, _. split; [done|]. eapply net_reachable_init, mount_Ok.
      eapply loadDraft_draft, reachable_inv, net_reachable_reachable, Hp.
    + destruct (tab_step_net_step p c a Hr Hn) as (c' & [->|(e & ->)]);
        eauto using net_reachable_step.
  - apply fmap_Some in Ha as (o & Ho & ->).
    rewrite tab_step_Delivers by done. eauto using net_reachable_step.
Qed.

Lemma sys_ok_step t i : sys_ok t → sys_ok (sys_step t i).
Proof.
  destruct t as [p c|e storage|storage]; [| |done]; intros Hok.
  - by destruct (sys_step_Live p c i Hok) as (p' & c' & -> & Hp').
  - unfold sys_step. destruct (sys_action _ i) as [a|]; [|done].
    cbn [from_option]. by rewrite tab_step_Blank.
Qed.

Lemma sys_run_Live ins : ∀ p c,
  net_reachable srv p →
  ∃ p' c', sys_run (Live p c) ins = Live p' c' ∧ net_reachable srv p'.
Proof.
  induction ins as [|i ins IH]; intros p c Hp; [by eauto|].
  destruct (sys_step_Live p c i Hp) as (p' & c' & Hstep & Hp').
  rewrite sys_run_cons, Hstep. by apply IH.
Qed.

(** Deliveries alone are a run of the closed machine. *)
Lemma sys_run_Delivers ids : ∀ p c,
  sys_run (Live p c) (NetDelivers <$> ids)
  = Live (net_run srv p (Delivers <$> ids)) c.
Proof.
  induction ids as [|id ids IH]; intros p c; [done|].
  rewrite !fmap_cons, sys_run_cons, net_run_cons, <-IH. f_equal.
  unfold sys_step, net_step. simpl.
  destruct (delivery srv p id) as [o|]; [|done].
  cbn [fmap option_fmap option_map from_option tab_step step].
  by rewrite rendered_to_Live.
Qed.

Lemma drain_Delivers ids :
  Delivers <$> (ids ≫= λ id, [id; id]) = drain ids.
Proof.
  unfold drain. induction ids as [|id l IH]; [done|].
  by rewrite !bind_cons, fmap_app, IH.
Qed.

(** ** Main theorems *)

(** The whole system stays within what was proved of its parts.  From a
    page that loaded, whatever the user does to the rendered tree,
    whenever the page is loaded again and whatever the server answers,
    the tab shows a page; the run is a run of the tab of [Browser], the
    page is a page of the closed machine of [Network] and satisfies the
    invariants of [Machine]. *)
Lemma sys_run_alive storage p c ins :
  load storage = Live p c →
  ∃ p' c',
    sys_run (load storage) ins = Live p' c' ∧
    sys_run (load storage) ins
    = tab_run (load storage) (sys_actions (load storage) ins) ∧
    net_reachable srv p' ∧ inv p'.
Proof.
  intros Hl. pose proof (sys_ok_load storage) as Hok. rewrite Hl in Hok |- *.
  destruct (sys_run_Live ins p c Hok) as (p' & c' & Hrun & Hp').
  exists p', c'. split_and!; [done|apply sys_run_tab_run|done|].
  by eapply reachable_inv, net_reachable_reachable.
Qed.

(** A run of the system read as a session: the controller the tab shows
    after the inputs is the session of the controller on what the actions
    of the run stand for, deliveries of the server included. *)
Lemma sys_run_session storage ins :
  let t := load storage in
  tab_abs (sys_run t ins) = serve_all (tab_abs t) (inputs_of t (sys_actions t ins)).
Proof. cbn zeta. rewrite sys_run_tab_run. apply tab_abs_run, tab_ok_load. Qed.

(** The network can end every call of the page that is shown: two
    deliveries to each pending call leave none pending and the button
    reads [Save changes]. *)
Lemma sys_run_drain p c :
  net_reachable srv p →
  let ids := (map_to_list (tasks p)).*1 in
  ∃ q, sys_run (Live p c) (NetDelivers <$> (ids ≫= λ id, [id; id]))
       = Live q c ∧
    tasks q = ∅ ∧
    (tasks p ≠ ∅ → submitText (rendered (comp q)) = "Save changes").
Proof.
  intros Hp ids. rewrite sys_run_Delivers. eexists. split; [done|].
  rewrite drain_Delivers.
  destruct (net_run_drain srv p ids Hp) as [Hend Hflag].
  { intros id [t Hid]. apply list_elem_of_fmap. exists (id, t).
    by rewrite elem_of_map_to_list. }
  split; [done|]. intros Hne.
  by rewrite rendered_eq, Hflag.
Qed.

End system.

Section system_echo.
Context `{!JsonCodec}.

(** Against the echo endpoint the console of the page that is shown
    never holds an error, whatever the user does. *)
Lemma sys_run_echo storage p c ins p' c' args :
  load storage = Live p c → sys_run echo (load storage) ins = Live p' c' →
  console_error args ∉ console p'.
Proof.
  intros Hl Hrun Hin. pose proof (sys_ok_load echo storage) as Hok.
  rewrite Hl in Hok, Hrun.
  destruct (sys_run_Live echo ins p c Hok) as (q & c'' & Hq & Hp').
  rewrite Hrun in Hq. injection Hq as <- <-.
  destruct (net_reachable_echo_line p' _ Hp' Hin) as (d & [Hd|[Hd _]]);
    [|done].
  by repeat (apply elem_of_cons in Hd as [Hd|Hd]; [done|]);
    apply elem_of_nil in Hd.
Qed.

End system_echo.

(** ** The system, run *)

(** With the parser of [Json] and the echo endpoint: the user types a
    label, saves, the answer arrives, the user loads the page again and
    saves again. *)
Lemma sys_run_alive_run :
  let ins := [UserDoes (Change "labelInput" "Region");
              UserDoes (Click "button" "Save changes");
              NetDelivers 0; NetDelivers 0; UserDoes Reload;
              UserDoes (Click "button" "Save changes"); NetDelivers 0] in
  ∃ p' c',
    sys_run echo (load ∅) ins = Live p' c' ∧
    sys_run echo (load ∅) ins
    = tab_run (load ∅) (sys_actions echo (load ∅) ins) ∧
    net_reachable echo p' ∧ inv p'.
Proof. eapply sys_run_alive, load_empty. Qed.
